(** * FestivalFriend: the extraction, classification and merge pipeline

    A shallow embedding of [storage.py], [classifier.py], [ocr.py],
    [scraper.py] and the helpers and background workers of [app.py],
    followed by the properties of the specification that were checked
    against it and by further properties of the code.

    Conventions.
    - A Python [str] is a sequence of code points.  It is carried as the
      [string] of its UTF-8 bytes (a lone surrogate as its three bytes), so
      that the literals of the source can be written as they are;
      [Str.chars] gives the code points back, and every method that looks
      at characters ([len], [lower], [strip], [split], [isdigit],
      [isalpha], [title], the regex classes [\s], [\d], [\w] and the flag
      [(?i)]) works on them, with the character database of CPython 3.11
      (Unicode 14.0.0).
      Equality and order of strings are those of the code points.
    - A Python [dict] is an insertion-ordered association list ([PyDict]),
      because iteration order is observable ([_find_similar_artists]).
    - [datetime.now] is an explicit argument [now].
    - Network effects are a trace of events threaded through a small
      state-and-exception monad; the metadata service is an oracle that
      answers from the history of requests.
    - The HTML parser and Readability are used through a record of the
      operations the scraper calls ([Scraper.Page]); the properties of the
      scraper hold for every such record. *)

From Stdlib Require Import Bool Arith ZArith NArith Lia List Ascii String.
From Stdlib Require Import Permutation Sorted.
From Stdlib Require Import Uint63 Floats.
From Stdlib Require OrdersEx.
Import ListNotations.

Set Implicit Arguments.
Local Open Scope string_scope.
Local Open Scope list_scope.

(* ====================================================================== *)
(** * The character database *)
(* ====================================================================== *)

(** The properties and case mappings of [unicodedata] 14.0.0 that [str]
    and [re] consult, as the sorted ranges of the code points that have a
    property. *)
Module Unicode.

(** [str.isspace], which is also the class [\s] and what [strip] and [split] take for blank. *)
Definition whitespace : list (N * N) :=
  [(0x9, 0xD); (0x1C, 0x20); (0x85, 0x85); (0xA0, 0xA0); (0x1680, 0x1680);
   (0x2000, 0x200A); (0x2028, 0x2029); (0x202F, 0x202F); (0x205F, 0x205F);
   (0x3000, 0x3000) ]%N.

(** [str.isalpha]: the categories Lu, Ll, Lt, Lm and Lo. *)
Definition alphabetic : list (N * N) :=
  [(0x41, 0x5A); (0x61, 0x7A); (0xAA, 0xAA); (0xB5, 0xB5); (0xBA, 0xBA);
   (0xC0, 0xD6); (0xD8, 0xF6); (0xF8, 0x2C1); (0x2C6, 0x2D1); (0x2E0, 0x2E4);
   (0x2EC, 0x2EC); (0x2EE, 0x2EE); (0x370, 0x374); (0x376, 0x377);
   (0x37A, 0x37D); (0x37F, 0x37F); (0x386, 0x386); (0x388, 0x38A);
   (0x38C, 0x38C); (0x38E, 0x3A1); (0x3A3, 0x3F5); (0x3F7, 0x481);
   (0x48A, 0x52F); (0x531, 0x556); (0x559, 0x559); (0x560, 0x588);
   (0x5D0, 0x5EA); (0x5EF, 0x5F2); (0x620, 0x64A); (0x66E, 0x66F);
   (0x671, 0x6D3); (0x6D5, 0x6D5); (0x6E5, 0x6E6); (0x6EE, 0x6EF);
   (0x6FA, 0x6FC); (0x6FF, 0x6FF); (0x710, 0x710); (0x712, 0x72F);
   (0x74D, 0x7A5); (0x7B1, 0x7B1); (0x7CA, 0x7EA); (0x7F4, 0x7F5);
   (0x7FA, 0x7FA); (0x800, 0x815); (0x81A, 0x81A); (0x824, 0x824);
   (0x828, 0x828); (0x840, 0x858); (0x860, 0x86A); (0x870, 0x887);
   (0x889, 0x88E); (0x8A0, 0x8C9); (0x904, 0x939); (0x93D, 0x93D);
   (0x950, 0x950); (0x958, 0x961); (0x971, 0x980); (0x985, 0x98C);
   (0x98F, 0x990); (0x993, 0x9A8); (0x9AA, 0x9B0); (0x9B2, 0x9B2);
   (0x9B6, 0x9B9); (0x9BD, 0x9BD); (0x9CE, 0x9CE); (0x9DC, 0x9DD);
   (0x9DF, 0x9E1); (0x9F0, 0x9F1); (0x9FC, 0x9FC); (0xA05, 0xA0A);
   (0xA0F, 0xA10); (0xA13, 0xA28); (0xA2A, 0xA30); (0xA32, 0xA33);
   (0xA35, 0xA36); (0xA38, 0xA39); (0xA59, 0xA5C); (0xA5E, 0xA5E);
   (0xA72, 0xA74); (0xA85, 0xA8D); (0xA8F, 0xA91); (0xA93, 0xAA8);
   (0xAAA, 0xAB0); (0xAB2, 0xAB3); (0xAB5, 0xAB9); (0xABD, 0xABD);
   (0xAD0, 0xAD0); (0xAE0, 0xAE1); (0xAF9, 0xAF9); (0xB05, 0xB0C);
   (0xB0F, 0xB10); (0xB13, 0xB28); (0xB2A, 0xB30); (0xB32, 0xB33);
   (0xB35, 0xB39); (0xB3D, 0xB3D); (0xB5C, 0xB5D); (0xB5F, 0xB61);
   (0xB71, 0xB71); (0xB83, 0xB83); (0xB85, 0xB8A); (0xB8E, 0xB90);
   (0xB92, 0xB95); (0xB99, 0xB9A); (0xB9C, 0xB9C); (0xB9E, 0xB9F);
   (0xBA3, 0xBA4); (0xBA8, 0xBAA); (0xBAE, 0xBB9); (0xBD0, 0xBD0);
   (0xC05, 0xC0C); (0xC0E, 0xC10); (0xC12, 0xC28); (0xC2A, 0xC39);
   (0xC3D, 0xC3D); (0xC58, 0xC5A); (0xC5D, 0xC5D); (0xC60, 0xC61);
   (0xC80, 0xC80); (0xC85, 0xC8C); (0xC8E, 0xC90); (0xC92, 0xCA8);
   (0xCAA, 0xCB3); (0xCB5, 0xCB9); (0xCBD, 0xCBD); (0xCDD, 0xCDE);
   (0xCE0, 0xCE1); (0xCF1, 0xCF2); (0xD04, 0xD0C); (0xD0E, 0xD10);
   (0xD12, 0xD3A); (0xD3D, 0xD3D); (0xD4E, 0xD4E); (0xD54, 0xD56);
   (0xD5F, 0xD61); (0xD7A, 0xD7F); (0xD85, 0xD96); (0xD9A, 0xDB1);
   (0xDB3, 0xDBB); (0xDBD, 0xDBD); (0xDC0, 0xDC6); (0xE01, 0xE30);
   (0xE32, 0xE33); (0xE40, 0xE46); (0xE81, 0xE82); (0xE84, 0xE84);
   (0xE86, 0xE8A); (0xE8C, 0xEA3); (0xEA5, 0xEA5); (0xEA7, 0xEB0);
   (0xEB2, 0xEB3); (0xEBD, 0xEBD); (0xEC0, 0xEC4); (0xEC6, 0xEC6);
   (0xEDC, 0xEDF); (0xF00, 0xF00); (0xF40, 0xF47); (0xF49, 0xF6C);
   (0xF88, 0xF8C); (0x1000, 0x102A); (0x103F, 0x103F); (0x1050, 0x1055);
   (0x105A, 0x105D); (0x1061, 0x1061); (0x1065, 0x1066); (0x106E, 0x1070);
   (0x1075, 0x1081); (0x108E, 0x108E); (0x10A0, 0x10C5); (0x10C7, 0x10C7);
   (0x10CD, 0x10CD); (0x10D0, 0x10FA); (0x10FC, 0x1248); (0x124A, 0x124D);
   (0x1250, 0x1256); (0x1258, 0x1258); (0x125A, 0x125D); (0x1260, 0x1288);
   (0x128A, 0x128D); (0x1290, 0x12B0); (0x12B2, 0x12B5); (0x12B8, 0x12BE);
   (0x12C0, 0x12C0); (0x12C2, 0x12C5); (0x12C8, 0x12D6); (0x12D8, 0x1310);
   (0x1312, 0x1315); (0x1318, 0x135A); (0x1380, 0x138F); (0x13A0, 0x13F5);
   (0x13F8, 0x13FD); (0x1401, 0x166C); (0x166F, 0x167F); (0x1681, 0x169A);
   (0x16A0, 0x16EA); (0x16F1, 0x16F8); (0x1700, 0x1711); (0x171F, 0x1731);
   (0x1740, 0x1751); (0x1760, 0x176C); (0x176E, 0x1770); (0x1780, 0x17B3);
   (0x17D7, 0x17D7); (0x17DC, 0x17DC); (0x1820, 0x1878); (0x1880, 0x1884);
   (0x1887, 0x18A8); (0x18AA, 0x18AA); (0x18B0, 0x18F5); (0x1900, 0x191E);
   (0x1950, 0x196D); (0x1970, 0x1974); (0x1980, 0x19AB); (0x19B0, 0x19C9);
   (0x1A00, 0x1A16); (0x1A20, 0x1A54); (0x1AA7, 0x1AA7); (0x1B05, 0x1B33);
   (0x1B45, 0x1B4C); (0x1B83, 0x1BA0); (0x1BAE, 0x1BAF); (0x1BBA, 0x1BE5);
   (0x1C00, 0x1C23); (0x1C4D, 0x1C4F); (0x1C5A, 0x1C7D); (0x1C80, 0x1C88);
   (0x1C90, 0x1CBA); (0x1CBD, 0x1CBF); (0x1CE9, 0x1CEC); (0x1CEE, 0x1CF3);
   (0x1CF5, 0x1CF6); (0x1CFA, 0x1CFA); (0x1D00, 0x1DBF); (0x1E00, 0x1F15);
   (0x1F18, 0x1F1D); (0x1F20, 0x1F45); (0x1F48, 0x1F4D); (0x1F50, 0x1F57);
   (0x1F59, 0x1F59); (0x1F5B, 0x1F5B); (0x1F5D, 0x1F5D); (0x1F5F, 0x1F7D);
   (0x1F80, 0x1FB4); (0x1FB6, 0x1FBC); (0x1FBE, 0x1FBE); (0x1FC2, 0x1FC4);
   (0x1FC6, 0x1FCC); (0x1FD0, 0x1FD3); (0x1FD6, 0x1FDB); (0x1FE0, 0x1FEC);
   (0x1FF2, 0x1FF4); (0x1FF6, 0x1FFC); (0x2071, 0x2071); (0x207F, 0x207F);
   (0x2090, 0x209C); (0x2102, 0x2102); (0x2107, 0x2107); (0x210A, 0x2113);
   (0x2115, 0x2115); (0x2119, 0x211D); (0x2124, 0x2124); (0x2126, 0x2126);
   (0x2128, 0x2128); (0x212A, 0x212D); (0x212F, 0x2139); (0x213C, 0x213F);
   (0x2145, 0x2149); (0x214E, 0x214E); (0x2183, 0x2184); (0x2C00, 0x2CE4);
   (0x2CEB, 0x2CEE); (0x2CF2, 0x2CF3); (0x2D00, 0x2D25); (0x2D27, 0x2D27);
   (0x2D2D, 0x2D2D); (0x2D30, 0x2D67); (0x2D6F, 0x2D6F); (0x2D80, 0x2D96);
   (0x2DA0, 0x2DA6); (0x2DA8, 0x2DAE); (0x2DB0, 0x2DB6); (0x2DB8, 0x2DBE);
   (0x2DC0, 0x2DC6); (0x2DC8, 0x2DCE); (0x2DD0, 0x2DD6); (0x2DD8, 0x2DDE);
   (0x2E2F, 0x2E2F); (0x3005, 0x3006); (0x3031, 0x3035); (0x303B, 0x303C);
   (0x3041, 0x3096); (0x309D, 0x309F); (0x30A1, 0x30FA); (0x30FC, 0x30FF);
   (0x3105, 0x312F); (0x3131, 0x318E); (0x31A0, 0x31BF); (0x31F0, 0x31FF);
   (0x3400, 0x4DBF); (0x4E00, 0xA48C); (0xA4D0, 0xA4FD); (0xA500, 0xA60C);
   (0xA610, 0xA61F); (0xA62A, 0xA62B); (0xA640, 0xA66E); (0xA67F, 0xA69D);
   (0xA6A0, 0xA6E5); (0xA717, 0xA71F); (0xA722, 0xA788); (0xA78B, 0xA7CA);
   (0xA7D0, 0xA7D1); (0xA7D3, 0xA7D3); (0xA7D5, 0xA7D9); (0xA7F2, 0xA801);
   (0xA803, 0xA805); (0xA807, 0xA80A); (0xA80C, 0xA822); (0xA840, 0xA873);
   (0xA882, 0xA8B3); (0xA8F2, 0xA8F7); (0xA8FB, 0xA8FB); (0xA8FD, 0xA8FE);
   (0xA90A, 0xA925); (0xA930, 0xA946); (0xA960, 0xA97C); (0xA984, 0xA9B2);
   (0xA9CF, 0xA9CF); (0xA9E0, 0xA9E4); (0xA9E6, 0xA9EF); (0xA9FA, 0xA9FE);
   (0xAA00, 0xAA28); (0xAA40, 0xAA42); (0xAA44, 0xAA4B); (0xAA60, 0xAA76);
   (0xAA7A, 0xAA7A); (0xAA7E, 0xAAAF); (0xAAB1, 0xAAB1); (0xAAB5, 0xAAB6);
   (0xAAB9, 0xAABD); (0xAAC0, 0xAAC0); (0xAAC2, 0xAAC2); (0xAADB, 0xAADD);
   (0xAAE0, 0xAAEA); (0xAAF2, 0xAAF4); (0xAB01, 0xAB06); (0xAB09, 0xAB0E);
   (0xAB11, 0xAB16); (0xAB20, 0xAB26); (0xAB28, 0xAB2E); (0xAB30, 0xAB5A);
   (0xAB5C, 0xAB69); (0xAB70, 0xABE2); (0xAC00, 0xD7A3); (0xD7B0, 0xD7C6);
   (0xD7CB, 0xD7FB); (0xF900, 0xFA6D); (0xFA70, 0xFAD9); (0xFB00, 0xFB06);
   (0xFB13, 0xFB17); (0xFB1D, 0xFB1D); (0xFB1F, 0xFB28); (0xFB2A, 0xFB36);
   (0xFB38, 0xFB3C); (0xFB3E, 0xFB3E); (0xFB40, 0xFB41); (0xFB43, 0xFB44);
   (0xFB46, 0xFBB1); (0xFBD3, 0xFD3D); (0xFD50, 0xFD8F); (0xFD92, 0xFDC7);
   (0xFDF0, 0xFDFB); (0xFE70, 0xFE74); (0xFE76, 0xFEFC); (0xFF21, 0xFF3A);
   (0xFF41, 0xFF5A); (0xFF66, 0xFFBE); (0xFFC2, 0xFFC7); (0xFFCA, 0xFFCF);
   (0xFFD2, 0xFFD7); (0xFFDA, 0xFFDC); (0x10000, 0x1000B); (0x1000D, 0x10026);
   (0x10028, 0x1003A); (0x1003C, 0x1003D); (0x1003F, 0x1004D);
   (0x10050, 0x1005D); (0x10080, 0x100FA); (0x10280, 0x1029C);
   (0x102A0, 0x102D0); (0x10300, 0x1031F); (0x1032D, 0x10340);
   (0x10342, 0x10349); (0x10350, 0x10375); (0x10380, 0x1039D);
   (0x103A0, 0x103C3); (0x103C8, 0x103CF); (0x10400, 0x1049D);
   (0x104B0, 0x104D3); (0x104D8, 0x104FB); (0x10500, 0x10527);
   (0x10530, 0x10563); (0x10570, 0x1057A); (0x1057C, 0x1058A);
   (0x1058C, 0x10592); (0x10594, 0x10595); (0x10597, 0x105A1);
   (0x105A3, 0x105B1); (0x105B3, 0x105B9); (0x105BB, 0x105BC);
   (0x10600, 0x10736); (0x10740, 0x10755); (0x10760, 0x10767);
   (0x10780, 0x10785); (0x10787, 0x107B0); (0x107B2, 0x107BA);
   (0x10800, 0x10805); (0x10808, 0x10808); (0x1080A, 0x10835);
   (0x10837, 0x10838); (0x1083C, 0x1083C); (0x1083F, 0x10855);
   (0x10860, 0x10876); (0x10880, 0x1089E); (0x108E0, 0x108F2);
   (0x108F4, 0x108F5); (0x10900, 0x10915); (0x10920, 0x10939);
   (0x10980, 0x109B7); (0x109BE, 0x109BF); (0x10A00, 0x10A00);
   (0x10A10, 0x10A13); (0x10A15, 0x10A17); (0x10A19, 0x10A35);
   (0x10A60, 0x10A7C); (0x10A80, 0x10A9C); (0x10AC0, 0x10AC7);
   (0x10AC9, 0x10AE4); (0x10B00, 0x10B35); (0x10B40, 0x10B55);
   (0x10B60, 0x10B72); (0x10B80, 0x10B91); (0x10C00, 0x10C48);
   (0x10C80, 0x10CB2); (0x10CC0, 0x10CF2); (0x10D00, 0x10D23);
   (0x10E80, 0x10EA9); (0x10EB0, 0x10EB1); (0x10F00, 0x10F1C);
   (0x10F27, 0x10F27); (0x10F30, 0x10F45); (0x10F70, 0x10F81);
   (0x10FB0, 0x10FC4); (0x10FE0, 0x10FF6); (0x11003, 0x11037);
   (0x11071, 0x11072); (0x11075, 0x11075); (0x11083, 0x110AF);
   (0x110D0, 0x110E8); (0x11103, 0x11126); (0x11144, 0x11144);
   (0x11147, 0x11147); (0x11150, 0x11172); (0x11176, 0x11176);
   (0x11183, 0x111B2); (0x111C1, 0x111C4); (0x111DA, 0x111DA);
   (0x111DC, 0x111DC); (0x11200, 0x11211); (0x11213, 0x1122B);
   (0x11280, 0x11286); (0x11288, 0x11288); (0x1128A, 0x1128D);
   (0x1128F, 0x1129D); (0x1129F, 0x112A8); (0x112B0, 0x112DE);
   (0x11305, 0x1130C); (0x1130F, 0x11310); (0x11313, 0x11328);
   (0x1132A, 0x11330); (0x11332, 0x11333); (0x11335, 0x11339);
   (0x1133D, 0x1133D); (0x11350, 0x11350); (0x1135D, 0x11361);
   (0x11400, 0x11434); (0x11447, 0x1144A); (0x1145F, 0x11461);
   (0x11480, 0x114AF); (0x114C4, 0x114C5); (0x114C7, 0x114C7);
   (0x11580, 0x115AE); (0x115D8, 0x115DB); (0x11600, 0x1162F);
   (0x11644, 0x11644); (0x11680, 0x116AA); (0x116B8, 0x116B8);
   (0x11700, 0x1171A); (0x11740, 0x11746); (0x11800, 0x1182B);
   (0x118A0, 0x118DF); (0x118FF, 0x11906); (0x11909, 0x11909);
   (0x1190C, 0x11913); (0x11915, 0x11916); (0x11918, 0x1192F);
   (0x1193F, 0x1193F); (0x11941, 0x11941); (0x119A0, 0x119A7);
   (0x119AA, 0x119D0); (0x119E1, 0x119E1); (0x119E3, 0x119E3);
   (0x11A00, 0x11A00); (0x11A0B, 0x11A32); (0x11A3A, 0x11A3A);
   (0x11A50, 0x11A50); (0x11A5C, 0x11A89); (0x11A9D, 0x11A9D);
   (0x11AB0, 0x11AF8); (0x11C00, 0x11C08); (0x11C0A, 0x11C2E);
   (0x11C40, 0x11C40); (0x11C72, 0x11C8F); (0x11D00, 0x11D06);
   (0x11D08, 0x11D09); (0x11D0B, 0x11D30); (0x11D46, 0x11D46);
   (0x11D60, 0x11D65); (0x11D67, 0x11D68); (0x11D6A, 0x11D89);
   (0x11D98, 0x11D98); (0x11EE0, 0x11EF2); (0x11FB0, 0x11FB0);
   (0x12000, 0x12399); (0x12480, 0x12543); (0x12F90, 0x12FF0);
   (0x13000, 0x1342E); (0x14400, 0x14646); (0x16800, 0x16A38);
   (0x16A40, 0x16A5E); (0x16A70, 0x16ABE); (0x16AD0, 0x16AED);
   (0x16B00, 0x16B2F); (0x16B40, 0x16B43); (0x16B63, 0x16B77);
   (0x16B7D, 0x16B8F); (0x16E40, 0x16E7F); (0x16F00, 0x16F4A);
   (0x16F50, 0x16F50); (0x16F93, 0x16F9F); (0x16FE0, 0x16FE1);
   (0x16FE3, 0x16FE3); (0x17000, 0x187F7); (0x18800, 0x18CD5);
   (0x18D00, 0x18D08); (0x1AFF0, 0x1AFF3); (0x1AFF5, 0x1AFFB);
   (0x1AFFD, 0x1AFFE); (0x1B000, 0x1B122); (0x1B150, 0x1B152);
   (0x1B164, 0x1B167); (0x1B170, 0x1B2FB); (0x1BC00, 0x1BC6A);
   (0x1BC70, 0x1BC7C); (0x1BC80, 0x1BC88); (0x1BC90, 0x1BC99);
   (0x1D400, 0x1D454); (0x1D456, 0x1D49C); (0x1D49E, 0x1D49F);
   (0x1D4A2, 0x1D4A2); (0x1D4A5, 0x1D4A6); (0x1D4A9, 0x1D4AC);
   (0x1D4AE, 0x1D4B9); (0x1D4BB, 0x1D4BB); (0x1D4BD, 0x1D4C3);
   (0x1D4C5, 0x1D505); (0x1D507, 0x1D50A); (0x1D50D, 0x1D514);
   (0x1D516, 0x1D51C); (0x1D51E, 0x1D539); (0x1D53B, 0x1D53E);
   (0x1D540, 0x1D544); (0x1D546, 0x1D546); (0x1D54A, 0x1D550);
   (0x1D552, 0x1D6A5); (0x1D6A8, 0x1D6C0); (0x1D6C2, 0x1D6DA);
   (0x1D6DC, 0x1D6FA); (0x1D6FC, 0x1D714); (0x1D716, 0x1D734);
   (0x1D736, 0x1D74E); (0x1D750, 0x1D76E); (0x1D770, 0x1D788);
   (0x1D78A, 0x1D7A8); (0x1D7AA, 0x1D7C2); (0x1D7C4, 0x1D7CB);
   (0x1DF00, 0x1DF1E); (0x1E100, 0x1E12C); (0x1E137, 0x1E13D);
   (0x1E14E, 0x1E14E); (0x1E290, 0x1E2AD); (0x1E2C0, 0x1E2EB);
   (0x1E7E0, 0x1E7E6); (0x1E7E8, 0x1E7EB); (0x1E7ED, 0x1E7EE);
   (0x1E7F0, 0x1E7FE); (0x1E800, 0x1E8C4); (0x1E900, 0x1E943);
   (0x1E94B, 0x1E94B); (0x1EE00, 0x1EE03); (0x1EE05, 0x1EE1F);
   (0x1EE21, 0x1EE22); (0x1EE24, 0x1EE24); (0x1EE27, 0x1EE27);
   (0x1EE29, 0x1EE32); (0x1EE34, 0x1EE37); (0x1EE39, 0x1EE39);
   (0x1EE3B, 0x1EE3B); (0x1EE42, 0x1EE42); (0x1EE47, 0x1EE47);
   (0x1EE49, 0x1EE49); (0x1EE4B, 0x1EE4B); (0x1EE4D, 0x1EE4F);
   (0x1EE51, 0x1EE52); (0x1EE54, 0x1EE54); (0x1EE57, 0x1EE57);
   (0x1EE59, 0x1EE59); (0x1EE5B, 0x1EE5B); (0x1EE5D, 0x1EE5D);
   (0x1EE5F, 0x1EE5F); (0x1EE61, 0x1EE62); (0x1EE64, 0x1EE64);
   (0x1EE67, 0x1EE6A); (0x1EE6C, 0x1EE72); (0x1EE74, 0x1EE77);
   (0x1EE79, 0x1EE7C); (0x1EE7E, 0x1EE7E); (0x1EE80, 0x1EE89);
   (0x1EE8B, 0x1EE9B); (0x1EEA1, 0x1EEA3); (0x1EEA5, 0x1EEA9);
   (0x1EEAB, 0x1EEBB); (0x20000, 0x2A6DF); (0x2A700, 0x2B738);
   (0x2B740, 0x2B81D); (0x2B820, 0x2CEA1); (0x2CEB0, 0x2EBE0);
   (0x2F800, 0x2FA1D); (0x30000, 0x3134A) ]%N.

(** [str.isdecimal], which is also the class [\d]: the category Nd. *)
Definition decimal : list (N * N) :=
  [(0x30, 0x39); (0x660, 0x669); (0x6F0, 0x6F9); (0x7C0, 0x7C9);
   (0x966, 0x96F); (0x9E6, 0x9EF); (0xA66, 0xA6F); (0xAE6, 0xAEF);
   (0xB66, 0xB6F); (0xBE6, 0xBEF); (0xC66, 0xC6F); (0xCE6, 0xCEF);
   (0xD66, 0xD6F); (0xDE6, 0xDEF); (0xE50, 0xE59); (0xED0, 0xED9);
   (0xF20, 0xF29); (0x1040, 0x1049); (0x1090, 0x1099); (0x17E0, 0x17E9);
   (0x1810, 0x1819); (0x1946, 0x194F); (0x19D0, 0x19D9); (0x1A80, 0x1A89);
   (0x1A90, 0x1A99); (0x1B50, 0x1B59); (0x1BB0, 0x1BB9); (0x1C40, 0x1C49);
   (0x1C50, 0x1C59); (0xA620, 0xA629); (0xA8D0, 0xA8D9); (0xA900, 0xA909);
   (0xA9D0, 0xA9D9); (0xA9F0, 0xA9F9); (0xAA50, 0xAA59); (0xABF0, 0xABF9);
   (0xFF10, 0xFF19); (0x104A0, 0x104A9); (0x10D30, 0x10D39);
   (0x11066, 0x1106F); (0x110F0, 0x110F9); (0x11136, 0x1113F);
   (0x111D0, 0x111D9); (0x112F0, 0x112F9); (0x11450, 0x11459);
   (0x114D0, 0x114D9); (0x11650, 0x11659); (0x116C0, 0x116C9);
   (0x11730, 0x11739); (0x118E0, 0x118E9); (0x11950, 0x11959);
   (0x11C50, 0x11C59); (0x11D50, 0x11D59); (0x11DA0, 0x11DA9);
   (0x16A60, 0x16A69); (0x16AC0, 0x16AC9); (0x16B50, 0x16B59);
   (0x1D7CE, 0x1D7FF); (0x1E140, 0x1E149); (0x1E2F0, 0x1E2F9);
   (0x1E950, 0x1E959); (0x1FBF0, 0x1FBF9) ]%N.

(** [str.isdigit]: decimal digits and the other characters with a digit value. *)
Definition digit : list (N * N) :=
  [(0x30, 0x39); (0xB2, 0xB3); (0xB9, 0xB9); (0x660, 0x669); (0x6F0, 0x6F9);
   (0x7C0, 0x7C9); (0x966, 0x96F); (0x9E6, 0x9EF); (0xA66, 0xA6F);
   (0xAE6, 0xAEF); (0xB66, 0xB6F); (0xBE6, 0xBEF); (0xC66, 0xC6F);
   (0xCE6, 0xCEF); (0xD66, 0xD6F); (0xDE6, 0xDEF); (0xE50, 0xE59);
   (0xED0, 0xED9); (0xF20, 0xF29); (0x1040, 0x1049); (0x1090, 0x1099);
   (0x1369, 0x1371); (0x17E0, 0x17E9); (0x1810, 0x1819); (0x1946, 0x194F);
   (0x19D0, 0x19DA); (0x1A80, 0x1A89); (0x1A90, 0x1A99); (0x1B50, 0x1B59);
   (0x1BB0, 0x1BB9); (0x1C40, 0x1C49); (0x1C50, 0x1C59); (0x2070, 0x2070);
   (0x2074, 0x2079); (0x2080, 0x2089); (0x2460, 0x2468); (0x2474, 0x247C);
   (0x2488, 0x2490); (0x24EA, 0x24EA); (0x24F5, 0x24FD); (0x24FF, 0x24FF);
   (0x2776, 0x277E); (0x2780, 0x2788); (0x278A, 0x2792); (0xA620, 0xA629);
   (0xA8D0, 0xA8D9); (0xA900, 0xA909); (0xA9D0, 0xA9D9); (0xA9F0, 0xA9F9);
   (0xAA50, 0xAA59); (0xABF0, 0xABF9); (0xFF10, 0xFF19); (0x104A0, 0x104A9);
   (0x10A40, 0x10A43); (0x10D30, 0x10D39); (0x10E60, 0x10E68);
   (0x11052, 0x1105A); (0x11066, 0x1106F); (0x110F0, 0x110F9);
   (0x11136, 0x1113F); (0x111D0, 0x111D9); (0x112F0, 0x112F9);
   (0x11450, 0x11459); (0x114D0, 0x114D9); (0x11650, 0x11659);
   (0x116C0, 0x116C9); (0x11730, 0x11739); (0x118E0, 0x118E9);
   (0x11950, 0x11959); (0x11C50, 0x11C59); (0x11D50, 0x11D59);
   (0x11DA0, 0x11DA9); (0x16A60, 0x16A69); (0x16AC0, 0x16AC9);
   (0x16B50, 0x16B59); (0x1D7CE, 0x1D7FF); (0x1E140, 0x1E149);
   (0x1E2F0, 0x1E2F9); (0x1E950, 0x1E959); (0x1F100, 0x1F10A);
   (0x1FBF0, 0x1FBF9) ]%N.

(** [str.isnumeric]: the characters with a numeric value. *)
Definition numeric : list (N * N) :=
  [(0x30, 0x39); (0xB2, 0xB3); (0xB9, 0xB9); (0xBC, 0xBE); (0x660, 0x669);
   (0x6F0, 0x6F9); (0x7C0, 0x7C9); (0x966, 0x96F); (0x9E6, 0x9EF);
   (0x9F4, 0x9F9); (0xA66, 0xA6F); (0xAE6, 0xAEF); (0xB66, 0xB6F);
   (0xB72, 0xB77); (0xBE6, 0xBF2); (0xC66, 0xC6F); (0xC78, 0xC7E);
   (0xCE6, 0xCEF); (0xD58, 0xD5E); (0xD66, 0xD78); (0xDE6, 0xDEF);
   (0xE50, 0xE59); (0xED0, 0xED9); (0xF20, 0xF33); (0x1040, 0x1049);
   (0x1090, 0x1099); (0x1369, 0x137C); (0x16EE, 0x16F0); (0x17E0, 0x17E9);
   (0x17F0, 0x17F9); (0x1810, 0x1819); (0x1946, 0x194F); (0x19D0, 0x19DA);
   (0x1A80, 0x1A89); (0x1A90, 0x1A99); (0x1B50, 0x1B59); (0x1BB0, 0x1BB9);
   (0x1C40, 0x1C49); (0x1C50, 0x1C59); (0x2070, 0x2070); (0x2074, 0x2079);
   (0x2080, 0x2089); (0x2150, 0x2182); (0x2185, 0x2189); (0x2460, 0x249B);
   (0x24EA, 0x24FF); (0x2776, 0x2793); (0x2CFD, 0x2CFD); (0x3007, 0x3007);
   (0x3021, 0x3029); (0x3038, 0x303A); (0x3192, 0x3195); (0x3220, 0x3229);
   (0x3248, 0x324F); (0x3251, 0x325F); (0x3280, 0x3289); (0x32B1, 0x32BF);
   (0x3405, 0x3405); (0x3483, 0x3483); (0x382A, 0x382A); (0x3B4D, 0x3B4D);
   (0x4E00, 0x4E00); (0x4E03, 0x4E03); (0x4E07, 0x4E07); (0x4E09, 0x4E09);
   (0x4E5D, 0x4E5D); (0x4E8C, 0x4E8C); (0x4E94, 0x4E94); (0x4E96, 0x4E96);
   (0x4EBF, 0x4EC0); (0x4EDF, 0x4EDF); (0x4EE8, 0x4EE8); (0x4F0D, 0x4F0D);
   (0x4F70, 0x4F70); (0x5104, 0x5104); (0x5146, 0x5146); (0x5169, 0x5169);
   (0x516B, 0x516B); (0x516D, 0x516D); (0x5341, 0x5341); (0x5343, 0x5345);
   (0x534C, 0x534C); (0x53C1, 0x53C4); (0x56DB, 0x56DB); (0x58F1, 0x58F1);
   (0x58F9, 0x58F9); (0x5E7A, 0x5E7A); (0x5EFE, 0x5EFF); (0x5F0C, 0x5F0E);
   (0x5F10, 0x5F10); (0x62FE, 0x62FE); (0x634C, 0x634C); (0x67D2, 0x67D2);
   (0x6F06, 0x6F06); (0x7396, 0x7396); (0x767E, 0x767E); (0x8086, 0x8086);
   (0x842C, 0x842C); (0x8CAE, 0x8CAE); (0x8CB3, 0x8CB3); (0x8D30, 0x8D30);
   (0x9621, 0x9621); (0x9646, 0x9646); (0x964C, 0x964C); (0x9678, 0x9678);
   (0x96F6, 0x96F6); (0xA620, 0xA629); (0xA6E6, 0xA6EF); (0xA830, 0xA835);
   (0xA8D0, 0xA8D9); (0xA900, 0xA909); (0xA9D0, 0xA9D9); (0xA9F0, 0xA9F9);
   (0xAA50, 0xAA59); (0xABF0, 0xABF9); (0xF96B, 0xF96B); (0xF973, 0xF973);
   (0xF978, 0xF978); (0xF9B2, 0xF9B2); (0xF9D1, 0xF9D1); (0xF9D3, 0xF9D3);
   (0xF9FD, 0xF9FD); (0xFF10, 0xFF19); (0x10107, 0x10133); (0x10140, 0x10178);
   (0x1018A, 0x1018B); (0x102E1, 0x102FB); (0x10320, 0x10323);
   (0x10341, 0x10341); (0x1034A, 0x1034A); (0x103D1, 0x103D5);
   (0x104A0, 0x104A9); (0x10858, 0x1085F); (0x10879, 0x1087F);
   (0x108A7, 0x108AF); (0x108FB, 0x108FF); (0x10916, 0x1091B);
   (0x109BC, 0x109BD); (0x109C0, 0x109CF); (0x109D2, 0x109FF);
   (0x10A40, 0x10A48); (0x10A7D, 0x10A7E); (0x10A9D, 0x10A9F);
   (0x10AEB, 0x10AEF); (0x10B58, 0x10B5F); (0x10B78, 0x10B7F);
   (0x10BA9, 0x10BAF); (0x10CFA, 0x10CFF); (0x10D30, 0x10D39);
   (0x10E60, 0x10E7E); (0x10F1D, 0x10F26); (0x10F51, 0x10F54);
   (0x10FC5, 0x10FCB); (0x11052, 0x1106F); (0x110F0, 0x110F9);
   (0x11136, 0x1113F); (0x111D0, 0x111D9); (0x111E1, 0x111F4);
   (0x112F0, 0x112F9); (0x11450, 0x11459); (0x114D0, 0x114D9);
   (0x11650, 0x11659); (0x116C0, 0x116C9); (0x11730, 0x1173B);
   (0x118E0, 0x118F2); (0x11950, 0x11959); (0x11C50, 0x11C6C);
   (0x11D50, 0x11D59); (0x11DA0, 0x11DA9); (0x11FC0, 0x11FD4);
   (0x12400, 0x1246E); (0x16A60, 0x16A69); (0x16AC0, 0x16AC9);
   (0x16B50, 0x16B59); (0x16B5B, 0x16B61); (0x16E80, 0x16E96);
   (0x1D2E0, 0x1D2F3); (0x1D360, 0x1D378); (0x1D7CE, 0x1D7FF);
   (0x1E140, 0x1E149); (0x1E2F0, 0x1E2F9); (0x1E8C7, 0x1E8CF);
   (0x1E950, 0x1E959); (0x1EC71, 0x1ECAB); (0x1ECAD, 0x1ECAF);
   (0x1ECB1, 0x1ECB4); (0x1ED01, 0x1ED2D); (0x1ED2F, 0x1ED3D);
   (0x1F100, 0x1F10C); (0x1FBF0, 0x1FBF9); (0x20001, 0x20001);
   (0x20064, 0x20064); (0x200E2, 0x200E2); (0x20121, 0x20121);
   (0x2092A, 0x2092A); (0x20983, 0x20983); (0x2098C, 0x2098C);
   (0x2099C, 0x2099C); (0x20AEA, 0x20AEA); (0x20AFD, 0x20AFD);
   (0x20B19, 0x20B19); (0x22390, 0x22390); (0x22998, 0x22998);
   (0x23B1B, 0x23B1B); (0x2626D, 0x2626D); (0x2F890, 0x2F890) ]%N.

(** The property Cased. *)
Definition cased : list (N * N) :=
  [(0x41, 0x5A); (0x61, 0x7A); (0xAA, 0xAA); (0xB5, 0xB5); (0xBA, 0xBA);
   (0xC0, 0xD6); (0xD8, 0xF6); (0xF8, 0x1BA); (0x1BC, 0x1BF); (0x1C4, 0x293);
   (0x295, 0x2B8); (0x2C0, 0x2C1); (0x2E0, 0x2E4); (0x345, 0x345);
   (0x370, 0x373); (0x376, 0x377); (0x37A, 0x37D); (0x37F, 0x37F);
   (0x386, 0x386); (0x388, 0x38A); (0x38C, 0x38C); (0x38E, 0x3A1);
   (0x3A3, 0x3F5); (0x3F7, 0x481); (0x48A, 0x52F); (0x531, 0x556);
   (0x560, 0x588); (0x10A0, 0x10C5); (0x10C7, 0x10C7); (0x10CD, 0x10CD);
   (0x10D0, 0x10FA); (0x10FD, 0x10FF); (0x13A0, 0x13F5); (0x13F8, 0x13FD);
   (0x1C80, 0x1C88); (0x1C90, 0x1CBA); (0x1CBD, 0x1CBF); (0x1D00, 0x1DBF);
   (0x1E00, 0x1F15); (0x1F18, 0x1F1D); (0x1F20, 0x1F45); (0x1F48, 0x1F4D);
   (0x1F50, 0x1F57); (0x1F59, 0x1F59); (0x1F5B, 0x1F5B); (0x1F5D, 0x1F5D);
   (0x1F5F, 0x1F7D); (0x1F80, 0x1FB4); (0x1FB6, 0x1FBC); (0x1FBE, 0x1FBE);
   (0x1FC2, 0x1FC4); (0x1FC6, 0x1FCC); (0x1FD0, 0x1FD3); (0x1FD6, 0x1FDB);
   (0x1FE0, 0x1FEC); (0x1FF2, 0x1FF4); (0x1FF6, 0x1FFC); (0x2071, 0x2071);
   (0x207F, 0x207F); (0x2090, 0x209C); (0x2102, 0x2102); (0x2107, 0x2107);
   (0x210A, 0x2113); (0x2115, 0x2115); (0x2119, 0x211D); (0x2124, 0x2124);
   (0x2126, 0x2126); (0x2128, 0x2128); (0x212A, 0x212D); (0x212F, 0x2134);
   (0x2139, 0x2139); (0x213C, 0x213F); (0x2145, 0x2149); (0x214E, 0x214E);
   (0x2160, 0x217F); (0x2183, 0x2184); (0x24B6, 0x24E9); (0x2C00, 0x2CE4);
   (0x2CEB, 0x2CEE); (0x2CF2, 0x2CF3); (0x2D00, 0x2D25); (0x2D27, 0x2D27);
   (0x2D2D, 0x2D2D); (0xA640, 0xA66D); (0xA680, 0xA69D); (0xA722, 0xA787);
   (0xA78B, 0xA78E); (0xA790, 0xA7CA); (0xA7D0, 0xA7D1); (0xA7D3, 0xA7D3);
   (0xA7D5, 0xA7D9); (0xA7F5, 0xA7F6); (0xA7F8, 0xA7FA); (0xAB30, 0xAB5A);
   (0xAB5C, 0xAB68); (0xAB70, 0xABBF); (0xFB00, 0xFB06); (0xFB13, 0xFB17);
   (0xFF21, 0xFF3A); (0xFF41, 0xFF5A); (0x10400, 0x1044F); (0x104B0, 0x104D3);
   (0x104D8, 0x104FB); (0x10570, 0x1057A); (0x1057C, 0x1058A);
   (0x1058C, 0x10592); (0x10594, 0x10595); (0x10597, 0x105A1);
   (0x105A3, 0x105B1); (0x105B3, 0x105B9); (0x105BB, 0x105BC);
   (0x10780, 0x10780); (0x10783, 0x10785); (0x10787, 0x107B0);
   (0x107B2, 0x107BA); (0x10C80, 0x10CB2); (0x10CC0, 0x10CF2);
   (0x118A0, 0x118DF); (0x16E40, 0x16E7F); (0x1D400, 0x1D454);
   (0x1D456, 0x1D49C); (0x1D49E, 0x1D49F); (0x1D4A2, 0x1D4A2);
   (0x1D4A5, 0x1D4A6); (0x1D4A9, 0x1D4AC); (0x1D4AE, 0x1D4B9);
   (0x1D4BB, 0x1D4BB); (0x1D4BD, 0x1D4C3); (0x1D4C5, 0x1D505);
   (0x1D507, 0x1D50A); (0x1D50D, 0x1D514); (0x1D516, 0x1D51C);
   (0x1D51E, 0x1D539); (0x1D53B, 0x1D53E); (0x1D540, 0x1D544);
   (0x1D546, 0x1D546); (0x1D54A, 0x1D550); (0x1D552, 0x1D6A5);
   (0x1D6A8, 0x1D6C0); (0x1D6C2, 0x1D6DA); (0x1D6DC, 0x1D6FA);
   (0x1D6FC, 0x1D714); (0x1D716, 0x1D734); (0x1D736, 0x1D74E);
   (0x1D750, 0x1D76E); (0x1D770, 0x1D788); (0x1D78A, 0x1D7A8);
   (0x1D7AA, 0x1D7C2); (0x1D7C4, 0x1D7CB); (0x1DF00, 0x1DF09);
   (0x1DF0B, 0x1DF1E); (0x1E900, 0x1E943); (0x1F130, 0x1F149);
   (0x1F150, 0x1F169); (0x1F170, 0x1F189) ]%N.

(** The property Case_Ignorable. *)
Definition case_ignorable : list (N * N) :=
  [(0x27, 0x27); (0x2E, 0x2E); (0x3A, 0x3A); (0x5E, 0x5E); (0x60, 0x60);
   (0xA8, 0xA8); (0xAD, 0xAD); (0xAF, 0xAF); (0xB4, 0xB4); (0xB7, 0xB8);
   (0x2B0, 0x36F); (0x374, 0x375); (0x37A, 0x37A); (0x384, 0x385);
   (0x387, 0x387); (0x483, 0x489); (0x559, 0x559); (0x55F, 0x55F);
   (0x591, 0x5BD); (0x5BF, 0x5BF); (0x5C1, 0x5C2); (0x5C4, 0x5C5);
   (0x5C7, 0x5C7); (0x5F4, 0x5F4); (0x600, 0x605); (0x610, 0x61A);
   (0x61C, 0x61C); (0x640, 0x640); (0x64B, 0x65F); (0x670, 0x670);
   (0x6D6, 0x6DD); (0x6DF, 0x6E8); (0x6EA, 0x6ED); (0x70F, 0x70F);
   (0x711, 0x711); (0x730, 0x74A); (0x7A6, 0x7B0); (0x7EB, 0x7F5);
   (0x7FA, 0x7FA); (0x7FD, 0x7FD); (0x816, 0x82D); (0x859, 0x85B);
   (0x888, 0x888); (0x890, 0x891); (0x898, 0x89F); (0x8C9, 0x902);
   (0x93A, 0x93A); (0x93C, 0x93C); (0x941, 0x948); (0x94D, 0x94D);
   (0x951, 0x957); (0x962, 0x963); (0x971, 0x971); (0x981, 0x981);
   (0x9BC, 0x9BC); (0x9C1, 0x9C4); (0x9CD, 0x9CD); (0x9E2, 0x9E3);
   (0x9FE, 0x9FE); (0xA01, 0xA02); (0xA3C, 0xA3C); (0xA41, 0xA42);
   (0xA47, 0xA48); (0xA4B, 0xA4D); (0xA51, 0xA51); (0xA70, 0xA71);
   (0xA75, 0xA75); (0xA81, 0xA82); (0xABC, 0xABC); (0xAC1, 0xAC5);
   (0xAC7, 0xAC8); (0xACD, 0xACD); (0xAE2, 0xAE3); (0xAFA, 0xAFF);
   (0xB01, 0xB01); (0xB3C, 0xB3C); (0xB3F, 0xB3F); (0xB41, 0xB44);
   (0xB4D, 0xB4D); (0xB55, 0xB56); (0xB62, 0xB63); (0xB82, 0xB82);
   (0xBC0, 0xBC0); (0xBCD, 0xBCD); (0xC00, 0xC00); (0xC04, 0xC04);
   (0xC3C, 0xC3C); (0xC3E, 0xC40); (0xC46, 0xC48); (0xC4A, 0xC4D);
   (0xC55, 0xC56); (0xC62, 0xC63); (0xC81, 0xC81); (0xCBC, 0xCBC);
   (0xCBF, 0xCBF); (0xCC6, 0xCC6); (0xCCC, 0xCCD); (0xCE2, 0xCE3);
   (0xD00, 0xD01); (0xD3B, 0xD3C); (0xD41, 0xD44); (0xD4D, 0xD4D);
   (0xD62, 0xD63); (0xD81, 0xD81); (0xDCA, 0xDCA); (0xDD2, 0xDD4);
   (0xDD6, 0xDD6); (0xE31, 0xE31); (0xE34, 0xE3A); (0xE46, 0xE4E);
   (0xEB1, 0xEB1); (0xEB4, 0xEBC); (0xEC6, 0xEC6); (0xEC8, 0xECD);
   (0xF18, 0xF19); (0xF35, 0xF35); (0xF37, 0xF37); (0xF39, 0xF39);
   (0xF71, 0xF7E); (0xF80, 0xF84); (0xF86, 0xF87); (0xF8D, 0xF97);
   (0xF99, 0xFBC); (0xFC6, 0xFC6); (0x102D, 0x1030); (0x1032, 0x1037);
   (0x1039, 0x103A); (0x103D, 0x103E); (0x1058, 0x1059); (0x105E, 0x1060);
   (0x1071, 0x1074); (0x1082, 0x1082); (0x1085, 0x1086); (0x108D, 0x108D);
   (0x109D, 0x109D); (0x10FC, 0x10FC); (0x135D, 0x135F); (0x1712, 0x1714);
   (0x1732, 0x1733); (0x1752, 0x1753); (0x1772, 0x1773); (0x17B4, 0x17B5);
   (0x17B7, 0x17BD); (0x17C6, 0x17C6); (0x17C9, 0x17D3); (0x17D7, 0x17D7);
   (0x17DD, 0x17DD); (0x180B, 0x180F); (0x1843, 0x1843); (0x1885, 0x1886);
   (0x18A9, 0x18A9); (0x1920, 0x1922); (0x1927, 0x1928); (0x1932, 0x1932);
   (0x1939, 0x193B); (0x1A17, 0x1A18); (0x1A1B, 0x1A1B); (0x1A56, 0x1A56);
   (0x1A58, 0x1A5E); (0x1A60, 0x1A60); (0x1A62, 0x1A62); (0x1A65, 0x1A6C);
   (0x1A73, 0x1A7C); (0x1A7F, 0x1A7F); (0x1AA7, 0x1AA7); (0x1AB0, 0x1ACE);
   (0x1B00, 0x1B03); (0x1B34, 0x1B34); (0x1B36, 0x1B3A); (0x1B3C, 0x1B3C);
   (0x1B42, 0x1B42); (0x1B6B, 0x1B73); (0x1B80, 0x1B81); (0x1BA2, 0x1BA5);
   (0x1BA8, 0x1BA9); (0x1BAB, 0x1BAD); (0x1BE6, 0x1BE6); (0x1BE8, 0x1BE9);
   (0x1BED, 0x1BED); (0x1BEF, 0x1BF1); (0x1C2C, 0x1C33); (0x1C36, 0x1C37);
   (0x1C78, 0x1C7D); (0x1CD0, 0x1CD2); (0x1CD4, 0x1CE0); (0x1CE2, 0x1CE8);
   (0x1CED, 0x1CED); (0x1CF4, 0x1CF4); (0x1CF8, 0x1CF9); (0x1D2C, 0x1D6A);
   (0x1D78, 0x1D78); (0x1D9B, 0x1DFF); (0x1FBD, 0x1FBD); (0x1FBF, 0x1FC1);
   (0x1FCD, 0x1FCF); (0x1FDD, 0x1FDF); (0x1FED, 0x1FEF); (0x1FFD, 0x1FFE);
   (0x200B, 0x200F); (0x2018, 0x2019); (0x2024, 0x2024); (0x2027, 0x2027);
   (0x202A, 0x202E); (0x2060, 0x2064); (0x2066, 0x206F); (0x2071, 0x2071);
   (0x207F, 0x207F); (0x2090, 0x209C); (0x20D0, 0x20F0); (0x2C7C, 0x2C7D);
   (0x2CEF, 0x2CF1); (0x2D6F, 0x2D6F); (0x2D7F, 0x2D7F); (0x2DE0, 0x2DFF);
   (0x2E2F, 0x2E2F); (0x3005, 0x3005); (0x302A, 0x302D); (0x3031, 0x3035);
   (0x303B, 0x303B); (0x3099, 0x309E); (0x30FC, 0x30FE); (0xA015, 0xA015);
   (0xA4F8, 0xA4FD); (0xA60C, 0xA60C); (0xA66F, 0xA672); (0xA674, 0xA67D);
   (0xA67F, 0xA67F); (0xA69C, 0xA69F); (0xA6F0, 0xA6F1); (0xA700, 0xA721);
   (0xA770, 0xA770); (0xA788, 0xA78A); (0xA7F2, 0xA7F4); (0xA7F8, 0xA7F9);
   (0xA802, 0xA802); (0xA806, 0xA806); (0xA80B, 0xA80B); (0xA825, 0xA826);
   (0xA82C, 0xA82C); (0xA8C4, 0xA8C5); (0xA8E0, 0xA8F1); (0xA8FF, 0xA8FF);
   (0xA926, 0xA92D); (0xA947, 0xA951); (0xA980, 0xA982); (0xA9B3, 0xA9B3);
   (0xA9B6, 0xA9B9); (0xA9BC, 0xA9BD); (0xA9CF, 0xA9CF); (0xA9E5, 0xA9E6);
   (0xAA29, 0xAA2E); (0xAA31, 0xAA32); (0xAA35, 0xAA36); (0xAA43, 0xAA43);
   (0xAA4C, 0xAA4C); (0xAA70, 0xAA70); (0xAA7C, 0xAA7C); (0xAAB0, 0xAAB0);
   (0xAAB2, 0xAAB4); (0xAAB7, 0xAAB8); (0xAABE, 0xAABF); (0xAAC1, 0xAAC1);
   (0xAADD, 0xAADD); (0xAAEC, 0xAAED); (0xAAF3, 0xAAF4); (0xAAF6, 0xAAF6);
   (0xAB5B, 0xAB5F); (0xAB69, 0xAB6B); (0xABE5, 0xABE5); (0xABE8, 0xABE8);
   (0xABED, 0xABED); (0xFB1E, 0xFB1E); (0xFBB2, 0xFBC2); (0xFE00, 0xFE0F);
   (0xFE13, 0xFE13); (0xFE20, 0xFE2F); (0xFE52, 0xFE52); (0xFE55, 0xFE55);
   (0xFEFF, 0xFEFF); (0xFF07, 0xFF07); (0xFF0E, 0xFF0E); (0xFF1A, 0xFF1A);
   (0xFF3E, 0xFF3E); (0xFF40, 0xFF40); (0xFF70, 0xFF70); (0xFF9E, 0xFF9F);
   (0xFFE3, 0xFFE3); (0xFFF9, 0xFFFB); (0x101FD, 0x101FD); (0x102E0, 0x102E0);
   (0x10376, 0x1037A); (0x10780, 0x10785); (0x10787, 0x107B0);
   (0x107B2, 0x107BA); (0x10A01, 0x10A03); (0x10A05, 0x10A06);
   (0x10A0C, 0x10A0F); (0x10A38, 0x10A3A); (0x10A3F, 0x10A3F);
   (0x10AE5, 0x10AE6); (0x10D24, 0x10D27); (0x10EAB, 0x10EAC);
   (0x10F46, 0x10F50); (0x10F82, 0x10F85); (0x11001, 0x11001);
   (0x11038, 0x11046); (0x11070, 0x11070); (0x11073, 0x11074);
   (0x1107F, 0x11081); (0x110B3, 0x110B6); (0x110B9, 0x110BA);
   (0x110BD, 0x110BD); (0x110C2, 0x110C2); (0x110CD, 0x110CD);
   (0x11100, 0x11102); (0x11127, 0x1112B); (0x1112D, 0x11134);
   (0x11173, 0x11173); (0x11180, 0x11181); (0x111B6, 0x111BE);
   (0x111C9, 0x111CC); (0x111CF, 0x111CF); (0x1122F, 0x11231);
   (0x11234, 0x11234); (0x11236, 0x11237); (0x1123E, 0x1123E);
   (0x112DF, 0x112DF); (0x112E3, 0x112EA); (0x11300, 0x11301);
   (0x1133B, 0x1133C); (0x11340, 0x11340); (0x11366, 0x1136C);
   (0x11370, 0x11374); (0x11438, 0x1143F); (0x11442, 0x11444);
   (0x11446, 0x11446); (0x1145E, 0x1145E); (0x114B3, 0x114B8);
   (0x114BA, 0x114BA); (0x114BF, 0x114C0); (0x114C2, 0x114C3);
   (0x115B2, 0x115B5); (0x115BC, 0x115BD); (0x115BF, 0x115C0);
   (0x115DC, 0x115DD); (0x11633, 0x1163A); (0x1163D, 0x1163D);
   (0x1163F, 0x11640); (0x116AB, 0x116AB); (0x116AD, 0x116AD);
   (0x116B0, 0x116B5); (0x116B7, 0x116B7); (0x1171D, 0x1171F);
   (0x11722, 0x11725); (0x11727, 0x1172B); (0x1182F, 0x11837);
   (0x11839, 0x1183A); (0x1193B, 0x1193C); (0x1193E, 0x1193E);
   (0x11943, 0x11943); (0x119D4, 0x119D7); (0x119DA, 0x119DB);
   (0x119E0, 0x119E0); (0x11A01, 0x11A0A); (0x11A33, 0x11A38);
   (0x11A3B, 0x11A3E); (0x11A47, 0x11A47); (0x11A51, 0x11A56);
   (0x11A59, 0x11A5B); (0x11A8A, 0x11A96); (0x11A98, 0x11A99);
   (0x11C30, 0x11C36); (0x11C38, 0x11C3D); (0x11C3F, 0x11C3F);
   (0x11C92, 0x11CA7); (0x11CAA, 0x11CB0); (0x11CB2, 0x11CB3);
   (0x11CB5, 0x11CB6); (0x11D31, 0x11D36); (0x11D3A, 0x11D3A);
   (0x11D3C, 0x11D3D); (0x11D3F, 0x11D45); (0x11D47, 0x11D47);
   (0x11D90, 0x11D91); (0x11D95, 0x11D95); (0x11D97, 0x11D97);
   (0x11EF3, 0x11EF4); (0x13430, 0x13438); (0x16AF0, 0x16AF4);
   (0x16B30, 0x16B36); (0x16B40, 0x16B43); (0x16F4F, 0x16F4F);
   (0x16F8F, 0x16F9F); (0x16FE0, 0x16FE1); (0x16FE3, 0x16FE4);
   (0x1AFF0, 0x1AFF3); (0x1AFF5, 0x1AFFB); (0x1AFFD, 0x1AFFE);
   (0x1BC9D, 0x1BC9E); (0x1BCA0, 0x1BCA3); (0x1CF00, 0x1CF2D);
   (0x1CF30, 0x1CF46); (0x1D167, 0x1D169); (0x1D173, 0x1D182);
   (0x1D185, 0x1D18B); (0x1D1AA, 0x1D1AD); (0x1D242, 0x1D244);
   (0x1DA00, 0x1DA36); (0x1DA3B, 0x1DA6C); (0x1DA75, 0x1DA75);
   (0x1DA84, 0x1DA84); (0x1DA9B, 0x1DA9F); (0x1DAA1, 0x1DAAF);
   (0x1E000, 0x1E006); (0x1E008, 0x1E018); (0x1E01B, 0x1E021);
   (0x1E023, 0x1E024); (0x1E026, 0x1E02A); (0x1E130, 0x1E13D);
   (0x1E2AE, 0x1E2AE); (0x1E2EC, 0x1E2EF); (0x1E8D0, 0x1E8D6);
   (0x1E944, 0x1E94B); (0x1F3FB, 0x1F3FF); (0xE0001, 0xE0001);
   (0xE0020, 0xE007F); (0xE0100, 0xE01EF) ]%N.

(** The simple lowercase mapping, for the characters it moves: [(first, last, step, image of first)]; the characters of a run [step] apart have images equally spaced. *)
Definition lowercase : list (N * N * N * N) :=
  [(0x41, 0x5A, 1, 0x61); (0xC0, 0xD6, 1, 0xE0); (0xD8, 0xDE, 1, 0xF8);
   (0x100, 0x12E, 2, 0x101); (0x130, 0x130, 1, 0x69);
   (0x132, 0x136, 2, 0x133); (0x139, 0x147, 2, 0x13A);
   (0x14A, 0x176, 2, 0x14B); (0x178, 0x178, 1, 0xFF);
   (0x179, 0x17D, 2, 0x17A); (0x181, 0x181, 1, 0x253);
   (0x182, 0x184, 2, 0x183); (0x186, 0x186, 1, 0x254);
   (0x187, 0x187, 1, 0x188); (0x189, 0x18A, 1, 0x256);
   (0x18B, 0x18B, 1, 0x18C); (0x18E, 0x18E, 1, 0x1DD);
   (0x18F, 0x18F, 1, 0x259); (0x190, 0x190, 1, 0x25B);
   (0x191, 0x191, 1, 0x192); (0x193, 0x193, 1, 0x260);
   (0x194, 0x194, 1, 0x263); (0x196, 0x196, 1, 0x269);
   (0x197, 0x197, 1, 0x268); (0x198, 0x198, 1, 0x199);
   (0x19C, 0x19C, 1, 0x26F); (0x19D, 0x19D, 1, 0x272);
   (0x19F, 0x19F, 1, 0x275); (0x1A0, 0x1A4, 2, 0x1A1);
   (0x1A6, 0x1A6, 1, 0x280); (0x1A7, 0x1A7, 1, 0x1A8);
   (0x1A9, 0x1A9, 1, 0x283); (0x1AC, 0x1AC, 1, 0x1AD);
   (0x1AE, 0x1AE, 1, 0x288); (0x1AF, 0x1AF, 1, 0x1B0);
   (0x1B1, 0x1B2, 1, 0x28A); (0x1B3, 0x1B5, 2, 0x1B4);
   (0x1B7, 0x1B7, 1, 0x292); (0x1B8, 0x1B8, 1, 0x1B9);
   (0x1BC, 0x1BC, 1, 0x1BD); (0x1C4, 0x1C4, 1, 0x1C6);
   (0x1C5, 0x1C5, 1, 0x1C6); (0x1C7, 0x1C7, 1, 0x1C9);
   (0x1C8, 0x1C8, 1, 0x1C9); (0x1CA, 0x1CA, 1, 0x1CC);
   (0x1CB, 0x1DB, 2, 0x1CC); (0x1DE, 0x1EE, 2, 0x1DF);
   (0x1F1, 0x1F1, 1, 0x1F3); (0x1F2, 0x1F4, 2, 0x1F3);
   (0x1F6, 0x1F6, 1, 0x195); (0x1F7, 0x1F7, 1, 0x1BF);
   (0x1F8, 0x21E, 2, 0x1F9); (0x220, 0x220, 1, 0x19E);
   (0x222, 0x232, 2, 0x223); (0x23A, 0x23A, 1, 0x2C65);
   (0x23B, 0x23B, 1, 0x23C); (0x23D, 0x23D, 1, 0x19A);
   (0x23E, 0x23E, 1, 0x2C66); (0x241, 0x241, 1, 0x242);
   (0x243, 0x243, 1, 0x180); (0x244, 0x244, 1, 0x289);
   (0x245, 0x245, 1, 0x28C); (0x246, 0x24E, 2, 0x247);
   (0x370, 0x372, 2, 0x371); (0x376, 0x376, 1, 0x377);
   (0x37F, 0x37F, 1, 0x3F3); (0x386, 0x386, 1, 0x3AC);
   (0x388, 0x38A, 1, 0x3AD); (0x38C, 0x38C, 1, 0x3CC);
   (0x38E, 0x38F, 1, 0x3CD); (0x391, 0x3A1, 1, 0x3B1);
   (0x3A3, 0x3AB, 1, 0x3C3); (0x3CF, 0x3CF, 1, 0x3D7);
   (0x3D8, 0x3EE, 2, 0x3D9); (0x3F4, 0x3F4, 1, 0x3B8);
   (0x3F7, 0x3F7, 1, 0x3F8); (0x3F9, 0x3F9, 1, 0x3F2);
   (0x3FA, 0x3FA, 1, 0x3FB); (0x3FD, 0x3FF, 1, 0x37B);
   (0x400, 0x40F, 1, 0x450); (0x410, 0x42F, 1, 0x430);
   (0x460, 0x480, 2, 0x461); (0x48A, 0x4BE, 2, 0x48B);
   (0x4C0, 0x4C0, 1, 0x4CF); (0x4C1, 0x4CD, 2, 0x4C2);
   (0x4D0, 0x52E, 2, 0x4D1); (0x531, 0x556, 1, 0x561);
   (0x10A0, 0x10C5, 1, 0x2D00); (0x10C7, 0x10C7, 1, 0x2D27);
   (0x10CD, 0x10CD, 1, 0x2D2D); (0x13A0, 0x13EF, 1, 0xAB70);
   (0x13F0, 0x13F5, 1, 0x13F8); (0x1C90, 0x1CBA, 1, 0x10D0);
   (0x1CBD, 0x1CBF, 1, 0x10FD); (0x1E00, 0x1E94, 2, 0x1E01);
   (0x1E9E, 0x1E9E, 1, 0xDF); (0x1EA0, 0x1EFE, 2, 0x1EA1);
   (0x1F08, 0x1F0F, 1, 0x1F00); (0x1F18, 0x1F1D, 1, 0x1F10);
   (0x1F28, 0x1F2F, 1, 0x1F20); (0x1F38, 0x1F3F, 1, 0x1F30);
   (0x1F48, 0x1F4D, 1, 0x1F40); (0x1F59, 0x1F5F, 2, 0x1F51);
   (0x1F68, 0x1F6F, 1, 0x1F60); (0x1F88, 0x1F8F, 1, 0x1F80);
   (0x1F98, 0x1F9F, 1, 0x1F90); (0x1FA8, 0x1FAF, 1, 0x1FA0);
   (0x1FB8, 0x1FB9, 1, 0x1FB0); (0x1FBA, 0x1FBB, 1, 0x1F70);
   (0x1FBC, 0x1FBC, 1, 0x1FB3); (0x1FC8, 0x1FCB, 1, 0x1F72);
   (0x1FCC, 0x1FCC, 1, 0x1FC3); (0x1FD8, 0x1FD9, 1, 0x1FD0);
   (0x1FDA, 0x1FDB, 1, 0x1F76); (0x1FE8, 0x1FE9, 1, 0x1FE0);
   (0x1FEA, 0x1FEB, 1, 0x1F7A); (0x1FEC, 0x1FEC, 1, 0x1FE5);
   (0x1FF8, 0x1FF9, 1, 0x1F78); (0x1FFA, 0x1FFB, 1, 0x1F7C);
   (0x1FFC, 0x1FFC, 1, 0x1FF3); (0x2126, 0x2126, 1, 0x3C9);
   (0x212A, 0x212A, 1, 0x6B); (0x212B, 0x212B, 1, 0xE5);
   (0x2132, 0x2132, 1, 0x214E); (0x2160, 0x216F, 1, 0x2170);
   (0x2183, 0x2183, 1, 0x2184); (0x24B6, 0x24CF, 1, 0x24D0);
   (0x2C00, 0x2C2F, 1, 0x2C30); (0x2C60, 0x2C60, 1, 0x2C61);
   (0x2C62, 0x2C62, 1, 0x26B); (0x2C63, 0x2C63, 1, 0x1D7D);
   (0x2C64, 0x2C64, 1, 0x27D); (0x2C67, 0x2C6B, 2, 0x2C68);
   (0x2C6D, 0x2C6D, 1, 0x251); (0x2C6E, 0x2C6E, 1, 0x271);
   (0x2C6F, 0x2C6F, 1, 0x250); (0x2C70, 0x2C70, 1, 0x252);
   (0x2C72, 0x2C72, 1, 0x2C73); (0x2C75, 0x2C75, 1, 0x2C76);
   (0x2C7E, 0x2C7F, 1, 0x23F); (0x2C80, 0x2CE2, 2, 0x2C81);
   (0x2CEB, 0x2CED, 2, 0x2CEC); (0x2CF2, 0x2CF2, 1, 0x2CF3);
   (0xA640, 0xA66C, 2, 0xA641); (0xA680, 0xA69A, 2, 0xA681);
   (0xA722, 0xA72E, 2, 0xA723); (0xA732, 0xA76E, 2, 0xA733);
   (0xA779, 0xA77B, 2, 0xA77A); (0xA77D, 0xA77D, 1, 0x1D79);
   (0xA77E, 0xA786, 2, 0xA77F); (0xA78B, 0xA78B, 1, 0xA78C);
   (0xA78D, 0xA78D, 1, 0x265); (0xA790, 0xA792, 2, 0xA791);
   (0xA796, 0xA7A8, 2, 0xA797); (0xA7AA, 0xA7AA, 1, 0x266);
   (0xA7AB, 0xA7AB, 1, 0x25C); (0xA7AC, 0xA7AC, 1, 0x261);
   (0xA7AD, 0xA7AD, 1, 0x26C); (0xA7AE, 0xA7AE, 1, 0x26A);
   (0xA7B0, 0xA7B0, 1, 0x29E); (0xA7B1, 0xA7B1, 1, 0x287);
   (0xA7B2, 0xA7B2, 1, 0x29D); (0xA7B3, 0xA7B3, 1, 0xAB53);
   (0xA7B4, 0xA7C2, 2, 0xA7B5); (0xA7C4, 0xA7C4, 1, 0xA794);
   (0xA7C5, 0xA7C5, 1, 0x282); (0xA7C6, 0xA7C6, 1, 0x1D8E);
   (0xA7C7, 0xA7C9, 2, 0xA7C8); (0xA7D0, 0xA7D0, 1, 0xA7D1);
   (0xA7D6, 0xA7D8, 2, 0xA7D7); (0xA7F5, 0xA7F5, 1, 0xA7F6);
   (0xFF21, 0xFF3A, 1, 0xFF41); (0x10400, 0x10427, 1, 0x10428);
   (0x104B0, 0x104D3, 1, 0x104D8); (0x10570, 0x10594, 2, 0x10597);
   (0x10571, 0x10579, 2, 0x10598); (0x1057D, 0x10589, 2, 0x105A4);
   (0x1058D, 0x10591, 2, 0x105B4); (0x10595, 0x10595, 1, 0x105BC);
   (0x10C80, 0x10CB2, 1, 0x10CC0); (0x118A0, 0x118BF, 1, 0x118C0);
   (0x16E40, 0x16E5F, 1, 0x16E60); (0x1E900, 0x1E921, 1, 0x1E922) ]%N.

(** The titlecase mapping of the characters that it moves to one character, as runs. *)
Definition titlecase : list (N * N * N * N) :=
  [(0x61, 0x7A, 1, 0x41); (0xB5, 0xB5, 1, 0x39C); (0xE0, 0xF6, 1, 0xC0);
   (0xF8, 0xFE, 1, 0xD8); (0xFF, 0xFF, 1, 0x178); (0x101, 0x12F, 2, 0x100);
   (0x131, 0x131, 1, 0x49); (0x133, 0x137, 2, 0x132);
   (0x13A, 0x148, 2, 0x139); (0x14B, 0x177, 2, 0x14A);
   (0x17A, 0x17E, 2, 0x179); (0x17F, 0x17F, 1, 0x53);
   (0x180, 0x180, 1, 0x243); (0x183, 0x185, 2, 0x182);
   (0x188, 0x188, 1, 0x187); (0x18C, 0x18C, 1, 0x18B);
   (0x192, 0x192, 1, 0x191); (0x195, 0x195, 1, 0x1F6);
   (0x199, 0x199, 1, 0x198); (0x19A, 0x19A, 1, 0x23D);
   (0x19E, 0x19E, 1, 0x220); (0x1A1, 0x1A5, 2, 0x1A0);
   (0x1A8, 0x1A8, 1, 0x1A7); (0x1AD, 0x1AD, 1, 0x1AC);
   (0x1B0, 0x1B0, 1, 0x1AF); (0x1B4, 0x1B6, 2, 0x1B3);
   (0x1B9, 0x1B9, 1, 0x1B8); (0x1BD, 0x1BD, 1, 0x1BC);
   (0x1BF, 0x1BF, 1, 0x1F7); (0x1C4, 0x1C4, 1, 0x1C5);
   (0x1C6, 0x1C6, 1, 0x1C5); (0x1C7, 0x1C7, 1, 0x1C8);
   (0x1C9, 0x1C9, 1, 0x1C8); (0x1CA, 0x1CA, 1, 0x1CB);
   (0x1CC, 0x1DC, 2, 0x1CB); (0x1DD, 0x1DD, 1, 0x18E);
   (0x1DF, 0x1EF, 2, 0x1DE); (0x1F1, 0x1F1, 1, 0x1F2);
   (0x1F3, 0x1F5, 2, 0x1F2); (0x1F9, 0x21F, 2, 0x1F8);
   (0x223, 0x233, 2, 0x222); (0x23C, 0x23C, 1, 0x23B);
   (0x23F, 0x240, 1, 0x2C7E); (0x242, 0x242, 1, 0x241);
   (0x247, 0x24F, 2, 0x246); (0x250, 0x250, 1, 0x2C6F);
   (0x251, 0x251, 1, 0x2C6D); (0x252, 0x252, 1, 0x2C70);
   (0x253, 0x253, 1, 0x181); (0x254, 0x254, 1, 0x186);
   (0x256, 0x257, 1, 0x189); (0x259, 0x259, 1, 0x18F);
   (0x25B, 0x25B, 1, 0x190); (0x25C, 0x25C, 1, 0xA7AB);
   (0x260, 0x260, 1, 0x193); (0x261, 0x261, 1, 0xA7AC);
   (0x263, 0x263, 1, 0x194); (0x265, 0x265, 1, 0xA78D);
   (0x266, 0x266, 1, 0xA7AA); (0x268, 0x268, 1, 0x197);
   (0x269, 0x269, 1, 0x196); (0x26A, 0x26A, 1, 0xA7AE);
   (0x26B, 0x26B, 1, 0x2C62); (0x26C, 0x26C, 1, 0xA7AD);
   (0x26F, 0x26F, 1, 0x19C); (0x271, 0x271, 1, 0x2C6E);
   (0x272, 0x272, 1, 0x19D); (0x275, 0x275, 1, 0x19F);
   (0x27D, 0x27D, 1, 0x2C64); (0x280, 0x280, 1, 0x1A6);
   (0x282, 0x282, 1, 0xA7C5); (0x283, 0x283, 1, 0x1A9);
   (0x287, 0x287, 1, 0xA7B1); (0x288, 0x288, 1, 0x1AE);
   (0x289, 0x289, 1, 0x244); (0x28A, 0x28B, 1, 0x1B1);
   (0x28C, 0x28C, 1, 0x245); (0x292, 0x292, 1, 0x1B7);
   (0x29D, 0x29D, 1, 0xA7B2); (0x29E, 0x29E, 1, 0xA7B0);
   (0x345, 0x345, 1, 0x399); (0x371, 0x373, 2, 0x370);
   (0x377, 0x377, 1, 0x376); (0x37B, 0x37D, 1, 0x3FD);
   (0x3AC, 0x3AC, 1, 0x386); (0x3AD, 0x3AF, 1, 0x388);
   (0x3B1, 0x3C1, 1, 0x391); (0x3C2, 0x3C2, 1, 0x3A3);
   (0x3C3, 0x3CB, 1, 0x3A3); (0x3CC, 0x3CC, 1, 0x38C);
   (0x3CD, 0x3CE, 1, 0x38E); (0x3D0, 0x3D0, 1, 0x392);
   (0x3D1, 0x3D1, 1, 0x398); (0x3D5, 0x3D5, 1, 0x3A6);
   (0x3D6, 0x3D6, 1, 0x3A0); (0x3D7, 0x3D7, 1, 0x3CF);
   (0x3D9, 0x3EF, 2, 0x3D8); (0x3F0, 0x3F0, 1, 0x39A);
   (0x3F1, 0x3F1, 1, 0x3A1); (0x3F2, 0x3F2, 1, 0x3F9);
   (0x3F3, 0x3F3, 1, 0x37F); (0x3F5, 0x3F5, 1, 0x395);
   (0x3F8, 0x3F8, 1, 0x3F7); (0x3FB, 0x3FB, 1, 0x3FA);
   (0x430, 0x44F, 1, 0x410); (0x450, 0x45F, 1, 0x400);
   (0x461, 0x481, 2, 0x460); (0x48B, 0x4BF, 2, 0x48A);
   (0x4C2, 0x4CE, 2, 0x4C1); (0x4CF, 0x4CF, 1, 0x4C0);
   (0x4D1, 0x52F, 2, 0x4D0); (0x561, 0x586, 1, 0x531);
   (0x13F8, 0x13FD, 1, 0x13F0); (0x1C80, 0x1C80, 1, 0x412);
   (0x1C81, 0x1C81, 1, 0x414); (0x1C82, 0x1C82, 1, 0x41E);
   (0x1C83, 0x1C84, 1, 0x421); (0x1C85, 0x1C85, 1, 0x422);
   (0x1C86, 0x1C86, 1, 0x42A); (0x1C87, 0x1C87, 1, 0x462);
   (0x1C88, 0x1C88, 1, 0xA64A); (0x1D79, 0x1D79, 1, 0xA77D);
   (0x1D7D, 0x1D7D, 1, 0x2C63); (0x1D8E, 0x1D8E, 1, 0xA7C6);
   (0x1E01, 0x1E95, 2, 0x1E00); (0x1E9B, 0x1E9B, 1, 0x1E60);
   (0x1EA1, 0x1EFF, 2, 0x1EA0); (0x1F00, 0x1F07, 1, 0x1F08);
   (0x1F10, 0x1F15, 1, 0x1F18); (0x1F20, 0x1F27, 1, 0x1F28);
   (0x1F30, 0x1F37, 1, 0x1F38); (0x1F40, 0x1F45, 1, 0x1F48);
   (0x1F51, 0x1F57, 2, 0x1F59); (0x1F60, 0x1F67, 1, 0x1F68);
   (0x1F70, 0x1F71, 1, 0x1FBA); (0x1F72, 0x1F75, 1, 0x1FC8);
   (0x1F76, 0x1F77, 1, 0x1FDA); (0x1F78, 0x1F79, 1, 0x1FF8);
   (0x1F7A, 0x1F7B, 1, 0x1FEA); (0x1F7C, 0x1F7D, 1, 0x1FFA);
   (0x1F80, 0x1F87, 1, 0x1F88); (0x1F90, 0x1F97, 1, 0x1F98);
   (0x1FA0, 0x1FA7, 1, 0x1FA8); (0x1FB0, 0x1FB1, 1, 0x1FB8);
   (0x1FB3, 0x1FB3, 1, 0x1FBC); (0x1FBE, 0x1FBE, 1, 0x399);
   (0x1FC3, 0x1FC3, 1, 0x1FCC); (0x1FD0, 0x1FD1, 1, 0x1FD8);
   (0x1FE0, 0x1FE1, 1, 0x1FE8); (0x1FE5, 0x1FE5, 1, 0x1FEC);
   (0x1FF3, 0x1FF3, 1, 0x1FFC); (0x214E, 0x214E, 1, 0x2132);
   (0x2170, 0x217F, 1, 0x2160); (0x2184, 0x2184, 1, 0x2183);
   (0x24D0, 0x24E9, 1, 0x24B6); (0x2C30, 0x2C5F, 1, 0x2C00);
   (0x2C61, 0x2C61, 1, 0x2C60); (0x2C65, 0x2C65, 1, 0x23A);
   (0x2C66, 0x2C66, 1, 0x23E); (0x2C68, 0x2C6C, 2, 0x2C67);
   (0x2C73, 0x2C73, 1, 0x2C72); (0x2C76, 0x2C76, 1, 0x2C75);
   (0x2C81, 0x2CE3, 2, 0x2C80); (0x2CEC, 0x2CEE, 2, 0x2CEB);
   (0x2CF3, 0x2CF3, 1, 0x2CF2); (0x2D00, 0x2D25, 1, 0x10A0);
   (0x2D27, 0x2D27, 1, 0x10C7); (0x2D2D, 0x2D2D, 1, 0x10CD);
   (0xA641, 0xA66D, 2, 0xA640); (0xA681, 0xA69B, 2, 0xA680);
   (0xA723, 0xA72F, 2, 0xA722); (0xA733, 0xA76F, 2, 0xA732);
   (0xA77A, 0xA77C, 2, 0xA779); (0xA77F, 0xA787, 2, 0xA77E);
   (0xA78C, 0xA78C, 1, 0xA78B); (0xA791, 0xA793, 2, 0xA790);
   (0xA794, 0xA794, 1, 0xA7C4); (0xA797, 0xA7A9, 2, 0xA796);
   (0xA7B5, 0xA7C3, 2, 0xA7B4); (0xA7C8, 0xA7CA, 2, 0xA7C7);
   (0xA7D1, 0xA7D1, 1, 0xA7D0); (0xA7D7, 0xA7D9, 2, 0xA7D6);
   (0xA7F6, 0xA7F6, 1, 0xA7F5); (0xAB53, 0xAB53, 1, 0xA7B3);
   (0xAB70, 0xABBF, 1, 0x13A0); (0xFF41, 0xFF5A, 1, 0xFF21);
   (0x10428, 0x1044F, 1, 0x10400); (0x104D8, 0x104FB, 1, 0x104B0);
   (0x10597, 0x105BB, 2, 0x10570); (0x10598, 0x105A0, 2, 0x10571);
   (0x105A4, 0x105B0, 2, 0x1057D); (0x105B4, 0x105B8, 2, 0x1058D);
   (0x105BC, 0x105BC, 1, 0x10595); (0x10CC0, 0x10CF2, 1, 0x10C80);
   (0x118C0, 0x118DF, 1, 0x118A0); (0x16E60, 0x16E7F, 1, 0x16E40);
   (0x1E922, 0x1E943, 1, 0x1E900) ]%N.

(** The characters that titlecase to more than one. *)
Definition titlecase_special : list (N * list N) :=
  [(0xDF, [0x53; 0x73]); (0x149, [0x2BC; 0x4E]); (0x1F0, [0x4A; 0x30C]);
   (0x390, [0x399; 0x308; 0x301]); (0x3B0, [0x3A5; 0x308; 0x301]);
   (0x587, [0x535; 0x582]); (0x1E96, [0x48; 0x331]); (0x1E97, [0x54; 0x308]);
   (0x1E98, [0x57; 0x30A]); (0x1E99, [0x59; 0x30A]); (0x1E9A, [0x41; 0x2BE]);
   (0x1F50, [0x3A5; 0x313]); (0x1F52, [0x3A5; 0x313; 0x300]);
   (0x1F54, [0x3A5; 0x313; 0x301]); (0x1F56, [0x3A5; 0x313; 0x342]);
   (0x1FB2, [0x1FBA; 0x345]); (0x1FB4, [0x386; 0x345]);
   (0x1FB6, [0x391; 0x342]); (0x1FB7, [0x391; 0x342; 0x345]);
   (0x1FC2, [0x1FCA; 0x345]); (0x1FC4, [0x389; 0x345]);
   (0x1FC6, [0x397; 0x342]); (0x1FC7, [0x397; 0x342; 0x345]);
   (0x1FD2, [0x399; 0x308; 0x300]); (0x1FD3, [0x399; 0x308; 0x301]);
   (0x1FD6, [0x399; 0x342]); (0x1FD7, [0x399; 0x308; 0x342]);
   (0x1FE2, [0x3A5; 0x308; 0x300]); (0x1FE3, [0x3A5; 0x308; 0x301]);
   (0x1FE4, [0x3A1; 0x313]); (0x1FE6, [0x3A5; 0x342]);
   (0x1FE7, [0x3A5; 0x308; 0x342]); (0x1FF2, [0x1FFA; 0x345]);
   (0x1FF4, [0x38F; 0x345]); (0x1FF6, [0x3A9; 0x342]);
   (0x1FF7, [0x3A9; 0x342; 0x345]); (0xFB00, [0x46; 0x66]);
   (0xFB01, [0x46; 0x69]); (0xFB02, [0x46; 0x6C]);
   (0xFB03, [0x46; 0x66; 0x69]); (0xFB04, [0x46; 0x66; 0x6C]);
   (0xFB05, [0x53; 0x74]); (0xFB06, [0x53; 0x74]); (0xFB13, [0x544; 0x576]);
   (0xFB14, [0x544; 0x565]); (0xFB15, [0x544; 0x56B]);
   (0xFB16, [0x54E; 0x576]); (0xFB17, [0x544; 0x56D]) ]%N.

(** [c] lies in one of the ranges, which are sorted. *)
Fixpoint in_ranges (c : N) (rs : list (N * N)) : bool :=
  match rs with
  | [] => false
  | (lo, hi) :: rs' =>
      if (c <? lo)%N then false
      else if (c <=? hi)%N then true
      else in_ranges c rs'
  end.

(** The image of [c] under a mapping given by runs, when it has one. *)
Fixpoint in_runs (c : N) (rs : list (N * N * N * N)) : option N :=
  match rs with
  | [] => None
  | (lo, hi, step, image) :: rs' =>
      if ((lo <=? c) && (c <=? hi) && ((c - lo) mod step =? 0))%N%bool
      then Some (image + (c - lo))%N
      else in_runs c rs'
  end.

Fixpoint assoc (c : N) (l : list (N * list N)) : option (list N) :=
  match l with
  | [] => None
  | (c', v) :: l' => if (c =? c')%N then Some v else assoc c l'
  end.

Definition isspace (c : N) : bool := in_ranges c whitespace.
Definition isalpha (c : N) : bool := in_ranges c alphabetic.
Definition isdecimal (c : N) : bool := in_ranges c decimal.
Definition isdigit (c : N) : bool := in_ranges c digit.
Definition isnumeric (c : N) : bool := in_ranges c numeric.

(** [str.isalnum], and with the underscore the class [\w]. *)
Definition isalnum (c : N) : bool :=
  (isalpha c || isdecimal c || isdigit c || isnumeric c)%bool.

Definition iscased (c : N) : bool := in_ranges c cased.
Definition iscaseignorable (c : N) : bool := in_ranges c case_ignorable.

(** The lowercase of one character by itself, as [re] takes it under
    [(?i)]. *)
Definition tolower (c : N) : N :=
  match in_runs c lowercase with
  | Some d => d
  | None => c
  end.

(** The full lowercase mapping: only U+0130 gives two characters. *)
Definition lower_full (c : N) : list N :=
  if (c =? 0x130)%N then [0x69; 0x307]%N else [tolower c].

(** The full titlecase mapping. *)
Definition title_full (c : N) : list N :=
  match assoc c titlecase_special with
  | Some l => l
  | None =>
      match in_runs c titlecase with
      | Some d => [d]
      | None => [c]
      end
  end.

(** U+03A3 is in the Final_Sigma context when a cased character comes
    before it and none after it, case-ignorable characters apart.
    [before] holds the characters before it, the nearest first, and
    [after] those after it. *)
Fixpoint first_not_ignorable (l : list N) : option N :=
  match l with
  | [] => None
  | c :: l' => if iscaseignorable c then first_not_ignorable l' else Some c
  end.

Definition final_sigma (before after : list N) : bool :=
  (match first_not_ignorable before with
   | Some c => iscased c
   | None => false
   end
   && match first_not_ignorable after with
      | Some c => negb (iscased c)
      | None => true
      end)%bool.

(** The lowercase of the character [c] standing between [before] and
    [after]. *)
Definition lower_in (before : list N) (c : N) (after : list N) : list N :=
  if (c =? 0x3A3)%N
  then [if final_sigma before after then 0x3C2 else 0x3C3]%N
  else lower_full c.

(** The [_ignorecase_fixes] of [re] for the lowercase ASCII letters: the
    characters that match a letter under [(?i)] without having it as their
    lowercase. *)
Definition casefix (lo : N) : list N :=
  if (lo =? 0x69)%N then [0x131]%N
  else if (lo =? 0x73)%N then [0x17F]%N
  else [].

End Unicode.

(* ====================================================================== *)
(** * Python strings *)
(* ====================================================================== *)

Module Str.

(** ** Strings as sequences of code points *)

Definition byte (b : ascii) : N := N_of_ascii b.

Definition continuation (x : N) : bool :=
  ((0x80 <=? x) && (x <=? 0xBF))%N%bool.

(** The code point of a sequence of two, three or four bytes; the shortest
    sequence is the only one accepted. *)
Definition two (x0 x1 : N) : option N :=
  if ((0xC2 <=? x0) && (x0 <=? 0xDF))%N%bool && continuation x1
  then Some ((x0 - 0xC0) * 64 + (x1 - 0x80))%N
  else None.

Definition three (x0 x1 x2 : N) : option N :=
  let c := ((x0 - 0xE0) * 4096 + (x1 - 0x80) * 64 + (x2 - 0x80))%N in
  if ((0xE0 <=? x0) && (x0 <=? 0xEF))%N%bool
     && continuation x1 && continuation x2 && (0x800 <=? c)%N
  then Some c
  else None.

Definition four (x0 x1 x2 x3 : N) : option N :=
  let c := ((x0 - 0xF0) * 262144 + (x1 - 0x80) * 4096
            + (x2 - 0x80) * 64 + (x3 - 0x80))%N in
  if ((0xF0 <=? x0) && (x0 <=? 0xF4))%N%bool
     && continuation x1 && continuation x2 && continuation x3
     && (0x10000 <=? c)%N && (c <? 0x110000)%N
  then Some c
  else None.

(** What a byte that starts no sequence stands for. *)
Definition replacement : N := 0xFFFD%N.

(** The code points of a string. *)
Fixpoint chars (s : string) : list N :=
  match s with
  | EmptyString => []
  | String b0 s1 =>
      if (byte b0 <? 0x80)%N then byte b0 :: chars s1
      else
        match s1 with
        | EmptyString => [replacement]
        | String b1 s2 =>
            match two (byte b0) (byte b1) with
            | Some c => c :: chars s2
            | None =>
                match s2 with
                | EmptyString => replacement :: chars s1
                | String b2 s3 =>
                    match three (byte b0) (byte b1) (byte b2) with
                    | Some c => c :: chars s3
                    | None =>
                        match s3 with
                        | EmptyString => replacement :: chars s1
                        | String b3 s4 =>
                            match four (byte b0) (byte b1) (byte b2)
                                       (byte b3) with
                            | Some c => c :: chars s4
                            | None => replacement :: chars s1
                            end
                        end
                    end
                end
            end
        end
  end.

(** The bytes of a code point. *)
Definition utf8 (c : N) : string :=
  let b (x : N) (rest : string) : string := String (ascii_of_N x) rest in
  if (c <? 0x80)%N then b c EmptyString
  else if (c <? 0x800)%N then
    b (0xC0 + c / 64)%N (b (0x80 + c mod 64)%N EmptyString)
  else if (c <? 0x10000)%N then
    b (0xE0 + c / 4096)%N
      (b (0x80 + (c / 64) mod 64)%N (b (0x80 + c mod 64)%N EmptyString))
  else
    b (0xF0 + c / 262144)%N
      (b (0x80 + (c / 4096) mod 64)%N
         (b (0x80 + (c / 64) mod 64)%N (b (0x80 + c mod 64)%N EmptyString))).

(** The string of a sequence of code points. *)
Fixpoint of_chars (l : list N) : string :=
  match l with
  | [] => EmptyString
  | c :: l' => utf8 c ++ of_chars l'
  end.

(** [len(s)] *)
Definition len (s : string) : nat := List.length (chars s).

(** ** Characters *)

Definition isspace : N -> bool := Unicode.isspace.
Definition isdigit : N -> bool := Unicode.isdigit.
Definition isalpha : N -> bool := Unicode.isalpha.

(** The code point of an ASCII character of the source. *)
Definition is_char (c : ascii) (x : N) : bool := (x =? byte c)%N.

(** ** Methods *)

(** [s.lower()].  [before] holds the characters already read, the last one
    first. *)
Fixpoint lower_from (before l : list N) : list N :=
  match l with
  | [] => []
  | c :: rest => Unicode.lower_in before c rest ++ lower_from (c :: before) rest
  end.

Definition lower (s : string) : string := of_chars (lower_from [] (chars s)).

Fixpoint lstrip (l : list N) : list N :=
  match l with
  | [] => []
  | c :: l' => if isspace c then lstrip l' else l
  end.

(** [rstrip]: a character is kept when something non-blank follows it or
    it is itself non-blank. *)
Fixpoint rstrip (l : list N) : list N :=
  match l with
  | [] => []
  | c :: l' =>
      match rstrip l' with
      | [] => if isspace c then [] else [c]
      | t => c :: t
      end
  end.

(** [s.strip()] *)
Definition strip (s : string) : string := of_chars (rstrip (lstrip (chars s))).

(** [sum(1 for c in s if p(c))] *)
Fixpoint count_in (p : N -> bool) (l : list N) : nat :=
  match l with
  | [] => 0
  | c :: l' => (if p c then 1 else 0) + count_in p l'
  end.

Definition count (p : N -> bool) (s : string) : nat := count_in p (chars s).

Fixpoint starts_with (needle l : list N) : bool :=
  match needle, l with
  | [], _ => true
  | x :: needle', y :: l' => ((x =? y)%N && starts_with needle' l')%bool
  | _ :: _, [] => false
  end.

Fixpoint contains_in (needle l : list N) : bool :=
  if starts_with needle l then true
  else match l with
       | [] => false
       | _ :: l' => contains_in needle l'
       end.

(** [needle in s] for strings. *)
Definition contains (needle s : string) : bool :=
  contains_in (chars needle) (chars s).

(** [s.split()]: the maximal runs of non-blank characters.  [cur] is the
    run being read, reversed. *)
Fixpoint split_ws_aux (cur : list N) (l : list N) : list (list N) :=
  let flush := match cur with
               | [] => []
               | _ => [rev cur]
               end in
  match l with
  | [] => flush
  | c :: l' =>
      if isspace c then flush ++ split_ws_aux [] l'
      else split_ws_aux (c :: cur) l'
  end.

Definition split_ws (s : string) : list string :=
  map of_chars (split_ws_aux [] (chars s)).

(** Python truthiness of a string. *)
Definition nonempty (s : string) : bool :=
  match s with EmptyString => false | _ => true end.

(** [x in seen] for a collection of strings. *)
Definition mem (x : string) (l : list string) : bool :=
  existsb (String.eqb x) l.

(** ** More string methods *)

(** [s.split(sep)] for a separator of one character: the pieces between
    the separators, empty ones included.  [cur] is the piece being read,
    reversed. *)
Fixpoint split_char_aux (sep : N) (cur : list N) (l : list N)
  : list (list N) :=
  match l with
  | [] => [rev cur]
  | c :: l' =>
      if (c =? sep)%N
      then rev cur :: split_char_aux sep [] l'
      else split_char_aux sep (c :: cur) l'
  end.

Definition split_char (sep : ascii) (s : string) : list string :=
  map of_chars (split_char_aux (byte sep) [] (chars s)).

(** [s.replace(old, new)] for a non-empty [old]: every occurrence, from the
    left, without overlap.  [fuel] bounds the length of [l]. *)
Fixpoint replace_aux (fuel : nat) (old new l : list N) : list N :=
  match fuel with
  | 0 => l
  | S fuel' =>
      match l with
      | [] => []
      | c :: l' =>
          if starts_with old l
          then new ++ replace_aux fuel' old new (skipn (List.length old) l)
          else c :: replace_aux fuel' old new l'
      end
  end.

Definition replace (old new s : string) : string :=
  of_chars (replace_aux (S (len s)) (chars old) (chars new) (chars s)).

(** [s.title()]: the character after a cased one is lowered, any other is
    put in titlecase. *)
Fixpoint title_from (before : list N) (previous_is_cased : bool)
    (l : list N) : list N :=
  match l with
  | [] => []
  | c :: rest =>
      (if previous_is_cased then Unicode.lower_in before c rest
       else Unicode.title_full c)
      ++ title_from (c :: before) (Unicode.iscased c) rest
  end.

Definition title (s : string) : string :=
  of_chars (title_from [] false (chars s)).

End Str.

(* ====================================================================== *)
(** * Regular expressions, with the backtracking semantics of [re] *)
(* ====================================================================== *)

Module Re.

Inductive regex : Type :=
| Eps                              (* the empty pattern *)
| Cls (p : N -> bool)              (* one character of a class *)
| Cat (r1 r2 : regex)              (* r1r2 *)
| Alt (r1 r2 : regex)              (* r1|r2, left alternative first *)
| Star (r : regex)                 (* r*, greedy *)
| Eos.                             (* $ *)

(** ** Pattern syntax *)

Fixpoint seq (rs : list regex) : regex :=
  match rs with
  | [] => Eps
  | [r] => r
  | r :: rs' => Cat r (seq rs')
  end.

Fixpoint alts (rs : list regex) : regex :=
  match rs with
  | [] => Cls (fun _ => false)
  | [r] => r
  | r :: rs' => Alt r (alts rs')
  end.

(** one character *)
Definition point (c : N) : regex := Cls (N.eqb c).
Definition chr (c : ascii) : regex := point (Str.byte c).

(** One character under [(?i)].  The compiler of [re] keeps a character
    without case as it is; for a cased one the lowercase of the character
    read must be the lowercase of the pattern's, or one of its fixes.  The
    cased characters of the patterns are ASCII letters. *)
Definition ascii_letter (c : N) : bool :=
  (((0x41 <=? c) && (c <=? 0x5A)) || ((0x61 <=? c) && (c <=? 0x7A)))%N%bool.

Definition ipoint (c : N) : regex :=
  if ascii_letter c
  then let lo := Unicode.tolower c in
       Cls (fun x => existsb (N.eqb (Unicode.tolower x))
                             (lo :: Unicode.casefix lo))
  else point c.
Definition ichr (c : ascii) : regex := ipoint (Str.byte c).

(** a literal *)
Definition lit (s : string) : regex := seq (map point (Str.chars s)).

(** a literal under [(?i)] *)
Definition ilit (s : string) : regex := seq (map ipoint (Str.chars s)).

Definition opt (r : regex) : regex := Alt r Eps.          (* r? *)
Definition plus (r : regex) : regex := Cat r (Star r).    (* r+ *)

Fixpoint upto (n : nat) (r : regex) : regex :=            (* r{0,n} *)
  match n with
  | 0 => Eps
  | S n' => opt (Cat r (upto n' r))
  end.

Fixpoint exactly (n : nat) (r : regex) : regex :=         (* r{n} *)
  match n with
  | 0 => Eps
  | S n' => Cat r (exactly n' r)
  end.

Definition rep (lo hi : nat) (r : regex) : regex :=       (* r{lo,hi} *)
  Cat (exactly lo r) (upto (hi - lo) r).

Definition s_ : regex := Cls Unicode.isspace.             (* \s *)
Definition d_ : regex := Cls Unicode.isdecimal.           (* \d *)
Definition w_ : regex :=                                  (* \w *)
  Cls (fun c => (Unicode.isalnum c || (c =? 0x5F)%N)%bool).
Definition dot : regex :=                                 (* . *)
  Cls (fun c => negb (c =? 10)%N).
Definition oneof (s : string) : regex :=                  (* [...] *)
  Cls (fun c => existsb (N.eqb c) (Str.chars s)).
Definition noneof (s : string) : regex :=                 (* [^...] *)
  Cls (fun c => negb (existsb (N.eqb c) (Str.chars s))).

(** ** Matching

    [exec fuel r s k] runs [r] at the front of the characters [s] and hands
    what is left to the continuation [k]; a failing continuation makes the
    matcher backtrack into the next choice, in the order [re] tries them
    (left alternative first, one more iteration of a star before
    stopping).  An iteration of a star that consumes nothing is abandoned,
    so any [fuel] above the length of [s] gives the same answer
    ([exec_fuel] below). *)

Section Exec.
Variable A : Type.

Fixpoint exec (fuel : nat)
  : regex -> list N -> (list N -> option A) -> option A :=
  fix go (r : regex) (s : list N) (k : list N -> option A) : option A :=
    match r with
    | Eps => k s
    | Cls p =>
        match s with
        | c :: s' => if p c then k s' else None
        | [] => None
        end
    | Cat r1 r2 => go r1 s (fun s' => go r2 s' k)
    | Alt r1 r2 =>
        match go r1 s k with
        | Some x => Some x
        | None => go r2 s k
        end
    | Star r1 =>
        match fuel with
        | 0 => k s
        | S fuel' =>
            match go r1 s (fun s' =>
                     if Nat.ltb (List.length s') (List.length s)
                     then exec fuel' (Star r1) s' k
                     else None) with
            | Some x => Some x
            | None => k s
            end
        end
    | Eos =>
        match s with
        | [] => k s
        | [10%N] => k s
        | _ => None
        end
    end.
End Exec.

(** What is left of [s] after the match of [r] at its start. *)
Definition match_at (r : regex) (s : list N) : option (list N) :=
  exec (S (List.length s)) r s (fun rest => Some rest).

Definition matches_in (r : regex) (s : list N) : bool :=
  match match_at r s with Some _ => true | None => false end.

(** [pattern.match(s)] as a truth value. *)
Definition matches (r : regex) (s : string) : bool :=
  matches_in r (Str.chars s).

Fixpoint search_in (r : regex) (s : list N) : bool :=
  if matches_in r s then true
  else match s with
       | [] => false
       | _ :: s' => search_in r s'
       end.

(** [pattern.search(s)] as a truth value: a match at some position. *)
Definition search (r : regex) (s : string) : bool :=
  search_in r (Str.chars s).

(** The text of [s] that [rest] is a suffix of, without that suffix. *)
Definition consumed (s rest : list N) : nat :=
  List.length s - List.length rest.

(** [re.split(r, s)] for a pattern that matches no empty string.  [cur]
    is the piece being read, reversed; [fuel] bounds the length of [s]. *)
Fixpoint split_aux (fuel : nat) (r : regex) (cur : list N) (s : list N)
  : list (list N) :=
  match fuel with
  | 0 => [rev cur]
  | S fuel' =>
      match s with
      | [] => [rev cur]
      | c :: s' =>
          match match_at r s with
          | Some rest =>
              if Nat.ltb 0 (consumed s rest)
              then rev cur :: split_aux fuel' r [] rest
              else split_aux fuel' r (c :: cur) s'
          | None => split_aux fuel' r (c :: cur) s'
          end
      end
  end.

Definition split (r : regex) (s : string) : list string :=
  map Str.of_chars (split_aux (S (Str.len s)) r [] (Str.chars s)).

(** [re.sub(r, '', s)] for a pattern that matches no empty string. *)
Definition remove (r : regex) (s : string) : string :=
  String.concat EmptyString (split r s).

(** [re.sub(r, '', s)] for a pattern that starts with [^] and matches no
    empty string: only a match at the start of [s] is removed. *)
Definition remove_prefix (r : regex) (s : string) : string :=
  match match_at r (Str.chars s) with
  | Some rest => Str.of_chars rest
  | None => s
  end.

End Re.

(* ====================================================================== *)
(** * Python dictionaries and sorting *)
(* ====================================================================== *)

(** A [dict] with string keys, in insertion order. *)
Module PyDict.
Section Dict.
Variable V : Type.

Definition t : Type := list (string * V).

(** [d.get(k)] *)
Fixpoint get (k : string) (d : t) : option V :=
  match d with
  | [] => None
  | (k', v) :: d' => if String.eqb k k' then Some v else get k d'
  end.

(** [k in d] *)
Definition mem (k : string) (d : t) : bool :=
  match get k d with Some _ => true | None => false end.

(** [d[k] = v]: an existing key keeps its place, a new one goes last. *)
Fixpoint set (k : string) (v : V) (d : t) : t :=
  match d with
  | [] => [(k, v)]
  | (k', v') :: d' =>
      if String.eqb k k' then (k, v) :: d' else (k', v') :: set k v d'
  end.

Definition keys (d : t) : list string := map fst d.
Definition values (d : t) : list V := map snd d.
End Dict.
End PyDict.

(** [l.sort(key=..., reverse=True)]: the stable sort by decreasing key.
    [ltb] is the [<] of the keys. *)
Module PySort.
Section Sort.
Variables (A K : Type) (ltb : K -> K -> bool) (key : A -> K).

(** [x] comes from the left of everything in [l]: it goes before the
    first element whose key is not greater than its own. *)
Fixpoint insert_desc (x : A) (l : list A) : list A :=
  match l with
  | [] => [x]
  | y :: l' =>
      if ltb (key x) (key y) then y :: insert_desc x l' else x :: l
  end.

Definition sort_desc (l : list A) : list A :=
  fold_right insert_desc [] l.
End Sort.

(** [l.sort(key=...)]: the stable sort by increasing key. *)
Section SortAsc.
Variables (A K : Type) (ltb : K -> K -> bool) (key : A -> K).

(** [x] comes from the left of everything in [l]: it goes before the
    first element whose key is not smaller than its own. *)
Fixpoint insert_asc (x : A) (l : list A) : list A :=
  match l with
  | [] => [x]
  | y :: l' =>
      if ltb (key y) (key x) then y :: insert_asc x l' else x :: l
  end.

Definition sort_asc (l : list A) : list A :=
  fold_right insert_asc [] l.
End SortAsc.
End PySort.

(** [l[:k]]: the first [k] elements, or for a negative [k] all but the
    last [-k]. *)
Module PyList.
Definition slice_to (A : Type) (k : Z) (l : list A) : list A :=
  if (k <? 0)%Z then firstn (List.length l - Z.to_nat (- k)) l
  else firstn (Z.to_nat k) l.
End PyList.

(* ====================================================================== *)
(** * storage.py *)
(* ====================================================================== *)

(** The festival reference stored with an artist: [festival_entry]. *)
Module FestivalRef.
Record t : Type := mk { name : string; url : string; date_scraped : string }.
End FestivalRef.

(** An element of [data["festivals"]]: the reference and [artist_count]. *)
Module Festival.
Record t : Type :=
  mk { name : string; url : string; date_scraped : string;
       artist_count : nat }.
End Festival.

Module Artist.
Record t : Type :=
  mk { name : string;
       genres : list string;
       timbre : list string;
       festivals : list FestivalRef.t;
       first_seen : string;
       last_updated : string }.
End Artist.

(** A value of the [classifications] mapping.  Both keys are present, as in
    every dict [classify_artist] and [classify_batch] build, so
    [c["genres"]] and [c.get("genres", [])] agree. *)
Module Classification.
Record t : Type := mk { genres : list string; timbre : list string }.
End Classification.

Module Storage.

Record Metadata : Type :=
  { version : Z; last_modified : option string }.

Record Data : Type :=
  { artists : PyDict.t Artist.t;
    festivals : list Festival.t;
    metadata : Metadata }.

Record FestivalInfo : Type := { name : string; url : string }.

Definition _empty_data : Data :=
  {| artists := []; festivals := [];
     metadata := {| version := 1; last_modified := None |} |}.

Definition _normalize_name (name : string) : string :=
  Str.lower (Str.strip name).

Definition with_artists (data : Data) (a : PyDict.t Artist.t) : Data :=
  {| artists := a; festivals := festivals data; metadata := metadata data |}.

Definition with_festivals (data : Data) (f : list Festival.t) : Data :=
  {| artists := artists data; festivals := f; metadata := metadata data |}.

(** Python truthiness of a list. *)
Definition truthy {A : Type} (l : list A) : bool :=
  match l with [] => false | _ => true end.

(** The branch [if key in data["artists"]] of the loop body. *)
Definition update_artist (now : string) (festival_info : FestivalInfo)
    (festival_entry : FestivalRef.t) (classification : Classification.t)
    (artist : Artist.t) : Artist.t :=
  (* Merge festival if not already listed *)
  let existing_urls := map FestivalRef.url (Artist.festivals artist) in
  let festivals' :=
    if negb (Str.mem (url festival_info) existing_urls)
    then Artist.festivals artist ++ [festival_entry]
    else Artist.festivals artist in
  (* Update classification if we got new data *)
  let '(genres', timbre') :=
    if truthy (Classification.genres classification)
    then (Classification.genres classification,
          Classification.timbre classification)
    else (Artist.genres artist, Artist.timbre artist) in
  Artist.mk (Artist.name artist) genres' timbre' festivals'
            (Artist.first_seen artist) now.

(** The [else] branch of the loop body. *)
Definition new_artist (now : string) (name : string)
    (festival_entry : FestivalRef.t) (classification : Classification.t)
    : Artist.t :=
  Artist.mk name
            (Classification.genres classification)
            (Classification.timbre classification)
            [festival_entry] now now.

(** One iteration of [for name in artist_names]. *)
Definition merge_name (now : string)
    (classifications : PyDict.t Classification.t)
    (festival_info : FestivalInfo) (festival_entry : FestivalRef.t)
    (data : Data) (name : string) : Data :=
  let key := _normalize_name name in
  let classification :=
    match PyDict.get name classifications with
    | Some c => c
    | None => Classification.mk [] []
    end in
  match PyDict.get key (artists data) with
  | Some artist =>
      with_artists data
        (PyDict.set key
           (update_artist now festival_info festival_entry classification
                          artist)
           (artists data))
  | None =>
      with_artists data
        (PyDict.set key (new_artist now name festival_entry classification)
                    (artists data))
  end.

(** The festival record is appended unless its url is already there. *)
Definition add_festival (now : string) (data : Data)
    (artist_names : list string) (festival_info : FestivalInfo) : Data :=
  (* Check if this festival URL was already scraped *)
  let url_exists :=
    existsb (fun f => String.eqb (Festival.url f) (url festival_info))
            (festivals data) in
  if negb url_exists
  then with_festivals data
         (festivals data ++
            [Festival.mk (name festival_info) (url festival_info) now
                         (List.length artist_names)])
  else data.

Definition merge_artists (now : string) (data : Data)
    (artist_names : list string)
    (classifications : PyDict.t Classification.t)
    (festival_info : FestivalInfo) : Data :=
  let festival_entry :=
    FestivalRef.mk (name festival_info) (url festival_info) now in
  fold_left (merge_name now classifications festival_info festival_entry)
            artist_names
            (add_festival now data artist_names festival_info).

End Storage.

(* ====================================================================== *)
(** * The metadata service and the effects of the client *)
(* ====================================================================== *)

Module Net.

(** The two GET requests of the client: the artist search with its
    [query] and [limit] parameters, and the tag lookup of an artist id. *)
Inductive Request : Type :=
| Search (query : string) (limit : Z)
| Tags (artist_id : string).

(** What a run does, oldest event first: requests, [time.sleep] (in
    tenths of a second) and calls of the progress callback. *)
Inductive Event : Type :=
| Get (r : Request)
| Sleep (tenths : Z)
| Progress (name : string) (done total : nat).

Definition Trace : Type := list Event.

(** An element of the ["artists"] array of a search answer, with the
    defaults of [artist.get("name", '')] and [artist.get("score", 0)]
    applied; [id] is [None] when the key is missing.  A hit is a
    non-empty object, hence truthy. *)
Record Hit : Type := { id : option string; name : string; score : Z }.

(** An element of the ["tags"] array, [t.get("count", 0)] applied. *)
Record Tag : Type := { tag_name : string; count : Z }.

(** The outcome of [requests.get]: it raises (timeout, connection
    error), or gives a response with a status code and a body, [None]
    when [resp.json()] cannot decode it. *)
Inductive Reply (A : Type) : Type :=
| Failed
| Response (status_code : Z) (json : option A).
Arguments Failed {A}.

(** The service answers from what it has seen so far. *)
Record Service : Type :=
  { search : Trace -> string -> Z -> Reply (list Hit);
    tags : Trace -> string -> Reply (list Tag) }.

Inductive Exn : Type :=
| RequestException    (* raised by requests.get *)
| HTTPError           (* raised by raise_for_status *)
| JSONDecodeError     (* raised by resp.json() *)
| RecursionError.     (* maximum recursion depth exceeded *)

Inductive Outcome (A : Type) : Type :=
| Return (a : A)
| Raise (e : Exn).
Arguments Raise {A}.

(** A computation extends the trace and returns or raises. *)
Definition M (A : Type) : Type := Trace -> Trace * Outcome A.

Definition ret {A : Type} (a : A) : M A := fun tr => (tr, Return a).
Definition raise {A : Type} (e : Exn) : M A := fun tr => (tr, Raise e).

Definition bind {A B : Type} (m : M A) (f : A -> M B) : M B :=
  fun tr =>
    match m tr with
    | (tr', Return a) => f a tr'
    | (tr', Raise e) => (tr', Raise e)
    end.

(** [try: m except Exception: h] *)
Definition try_except {A : Type} (m : M A) (h : M A) : M A :=
  fun tr =>
    match m tr with
    | (tr', Return a) => (tr', Return a)
    | (tr', Raise _) => h tr'
    end.

Definition emit (e : Event) : M unit := fun tr => (tr ++ [e], Return tt).

Definition sleep (tenths : Z) : M unit := emit (Sleep tenths).

Definition run {A : Type} (m : M A) : Trace * Outcome A := m [].

Module Notations.
Notation "x <- m ;; k" := (bind m (fun x => k))
  (at level 61, m at next level, right associativity).
Notation "m ;;; k" := (bind m (fun _ => k))
  (at level 61, right associativity).
End Notations.

Section Client.
Variable svc : Service.

Definition get_search (query : string) (limit : Z)
  : M (Z * option (list Hit)) :=
  fun tr =>
    (tr ++ [Get (Search query limit)],
     match search svc tr query limit with
     | Failed => Raise RequestException
     | Response st js => Return (st, js)
     end).

Definition get_tags (artist_id : string) : M (Z * option (list Tag)) :=
  fun tr =>
    (tr ++ [Get (Tags artist_id)],
     match tags svc tr artist_id with
     | Failed => Raise RequestException
     | Response st js => Return (st, js)
     end).
End Client.

(** [resp.raise_for_status()] *)
Definition raise_for_status (status_code : Z) : M unit :=
  if ((400 <=? status_code) && (status_code <? 600))%Z
  then raise HTTPError else ret tt.

(** [resp.json()] *)
Definition json {A : Type} (body : option A) : M A :=
  match body with
  | Some a => ret a
  | None => raise JSONDecodeError
  end.

(** The number of search requests, and of tag requests, in a trace. *)
Definition is_search (e : Event) : bool :=
  match e with Get (Search _ _) => true | _ => false end.
Definition is_tags (e : Event) : bool :=
  match e with Get (Tags _) => true | _ => false end.
Definition is_request (e : Event) : bool :=
  match e with Get _ => true | _ => false end.

Definition searches (tr : Trace) : nat := List.length (filter is_search tr).
Definition tag_lookups (tr : Trace) : nat := List.length (filter is_tags tr).
Definition requests (tr : Trace) : nat := List.length (filter is_request tr).

End Net.

(* ====================================================================== *)
(** * classifier.py *)
(* ====================================================================== *)

Module Classifier.
Import Net Net.Notations.

Definition dquote : string := String (ascii_of_nat 34) EmptyString.

(** [f'artist:"{name}"'] *)
Definition artist_query (name : string) : string :=
  "artist:" ++ dquote ++ name ++ dquote.

(** Map MusicBrainz tags to simplified timbre/vibe descriptors *)
Definition TIMBRE_MAP : list (string * list string) :=
  [ ("energetic", ["punk"; "hardcore"; "metal"; "thrash"; "power metal";
                   "hard rock"; "drum and bass"; "gabber"]);
    ("chill", ["ambient"; "chillout"; "lo-fi"; "downtempo"; "trip-hop";
               "lounge"; "new age"; "easy listening"]);
    ("dark", ["gothic"; "darkwave"; "doom"; "black metal"; "death metal";
              "industrial"; "dark ambient"; "witch house"]);
    ("dreamy", ["shoegaze"; "dream pop"; "ethereal"; "ambient pop";
                "slowcore"; "chamber pop"]);
    ("groovy", ["funk"; "disco"; "house"; "soul"; "groove"; "dancehall";
                "afrobeat"; "boogie"]);
    ("melodic", ["pop"; "singer-songwriter"; "folk"; "baroque pop";
                 "power pop"; "indie pop"; "soft rock"]);
    ("heavy", ["metal"; "sludge"; "stoner rock"; "grunge"; "noise rock";
               "post-metal"; "djent"]);
    ("atmospheric", ["post-rock"; "ambient"; "shoegaze"; "space rock";
                     "drone"; "ethereal wave"]);
    ("raw", ["garage rock"; "punk"; "lo-fi"; "noise"; "grindcore";
             "crust punk"; "post-punk"]);
    ("experimental", ["avant-garde"; "experimental"; "noise"; "art rock";
                      "free jazz"; "musique concrète"]);
    ("smooth", ["r&b"; "soul"; "jazz"; "smooth jazz"; "neo soul";
                "quiet storm"; "bossa nova"]);
    ("uplifting", ["trance"; "euphoric"; "gospel"; "reggae"; "ska";
                   "happy hardcore"]);
    ("electronic", ["electronic"; "techno"; "house"; "edm"; "synth";
                    "electro"; "idm"; "dubstep"]);
    ("acoustic", ["acoustic"; "folk"; "unplugged"; "bluegrass"; "country";
                  "americana"]) ].

Section Client.
Variable svc : Service.

(** Search MusicBrainz for an artist by name.  [depth] is the number of
    nested calls the interpreter's recursion limit still allows: the
    source retries a 503 by calling itself, with no count of its own. *)
Fixpoint _search_artist (depth : nat) (name : string) : M (option Hit) :=
  resp <- get_search svc (artist_query name) 1 ;;
  let '(status_code, body) := resp in
  if (status_code =? 503)%Z then
    sleep 20 ;;;
    match depth with
    | 0 => raise RecursionError
    | S depth' => _search_artist depth' name
    end
  else
    raise_for_status status_code ;;;
    artists <- json body ;;
    ret (match artists with
         | a :: _ => Some a
         | [] => None
         end).

(** Get genre tags for an artist from MusicBrainz. *)
Fixpoint _get_artist_tags (depth : nat) (artist_id : string)
  : M (list string) :=
  resp <- get_tags svc artist_id ;;
  let '(status_code, body) := resp in
  if (status_code =? 503)%Z then
    sleep 20 ;;;
    match depth with
    | 0 => raise RecursionError
    | S depth' => _get_artist_tags depth' artist_id
    end
  else if negb (status_code =? 200)%Z then ret []
  else
    tags <- json body ;;
    (* Sort by count (most popular tags first) and return names *)
    let tags := PySort.sort_desc Z.ltb count tags in
    ret (map (fun t => Str.lower (tag_name t))
             (filter (fun t => (0 <? count t)%Z) tags)).
End Client.

(** Patterns for tags that are NOT genres *)
Definition _NON_GENRE_PATTERN : Re.regex :=
  Re.Cat
    (Re.alts
       ([ Re.Cat (Re.exactly 4 Re.d_) (Re.opt (Re.chr "s")) ]    (* \d{4}s? *)
        ++ map Re.lit
             [ "american"; "british"; "english"; "irish"; "scottish";
               "welsh"; "australian"; "canadian";
               "french"; "german"; "italian"; "spanish"; "dutch";
               "swedish"; "norwegian"; "danish"; "finnish";
               "japanese"; "korean"; "chinese"; "brazilian"; "mexican";
               "colombian"; "argentine";
               "african"; "nigerian"; "south african"; "jamaican"; "cuban";
               "puerto rican";
               "indian"; "russian"; "polish"; "belgian"; "austrian";
               "swiss"; "portuguese"; "icelandic";
               "new zealand" ]
        ++ [ Re.Cat (Re.lit "male vocalist") (Re.opt (Re.chr "s"));
             Re.Cat (Re.lit "female vocalist") (Re.opt (Re.chr "s"));
             Re.lit "seen live";
             Re.Cat (Re.lit "favorite") (Re.opt (Re.chr "s"));
             Re.Cat (Re.lit "favourite") (Re.opt (Re.chr "s"));
             Re.Cat (Re.lit "under ") (Re.plus Re.d_);            (* under \d+ *)
             Re.lit "spotify";
             Re.Cat (Re.plus Re.d_) (Re.chr "s") ]))              (* \d+s *)
    Re.Eos.

Definition unknown : list string := ["unknown"].

(** Extract genre labels from MusicBrainz tags, filtering out non-genres. *)
Definition _tags_to_genres (tags : list string) : list string :=
  if negb (Storage.truthy tags) then unknown
  else
    let filtered :=
      filter (fun t => negb (Re.matches _NON_GENRE_PATTERN t)) tags in
    if negb (Storage.truthy filtered) then firstn 3 tags
    else firstn 3 filtered.

(** [keyword in tag_set or any(keyword in t for t in tag_set)] *)
Definition keyword_hit (tag_set : list string) (keyword : string) : bool :=
  (Str.mem keyword tag_set || existsb (Str.contains keyword) tag_set)%bool.

(** The loop over [TIMBRE_MAP.items()], from the entries still to visit. *)
Fixpoint timbre_loop (table : list (string * list string))
    (tag_set : list string) (descriptors : list string) : list string :=
  match table with
  | [] => descriptors
  | (descriptor, keywords) :: table' =>
      let descriptors :=
        if existsb (keyword_hit tag_set) keywords
        then descriptors ++ [descriptor] else descriptors in
      if Nat.leb 4 (List.length descriptors) then descriptors
      else timbre_loop table' tag_set descriptors
  end.

(** Map MusicBrainz tags to timbre/vibe descriptors. *)
Definition _tags_to_timbre (tags : list string) : list string :=
  if negb (Storage.truthy tags) then unknown
  else
    let descriptors := timbre_loop TIMBRE_MAP tags [] in
    if negb (Storage.truthy descriptors) then descriptors ++ ["dynamic"]
    else descriptors.

Definition unknown_pair : Classification.t :=
  Classification.mk unknown unknown.

Section Batch.
Variable svc : Service.
Variable depth : nat.

(** Classify an artist using MusicBrainz API. *)
Definition classify_artist (name : string) : M Classification.t :=
  artist <- _search_artist svc depth name ;;
  match artist with
  | None => ret unknown_pair
  | Some artist =>
      match id artist with
      | None => ret unknown_pair
      | Some artist_id =>
          if negb (Str.nonempty artist_id) then ret unknown_pair
          else
            tags <- _get_artist_tags svc depth artist_id ;;
            let genres := _tags_to_genres tags in
            let timbre := _tags_to_timbre tags in
            ret (Classification.mk genres timbre)
      end
  end.

(** [existing.get("genres") and existing["genres"] != ["unknown"]] *)
Definition has_real_genres (existing : Artist.t) : bool :=
  (Storage.truthy (Artist.genres existing)
   && negb (if list_eq_dec string_dec (Artist.genres existing) unknown
            then true else false))%bool.

(** Skip if already classified with real (non-unknown) data *)
Definition already_classified (existing_data : Storage.Data)
    (name : string) : bool :=
  let key := Str.lower (Str.strip name) in
  match PyDict.get key (Storage.artists existing_data) with
  | Some existing => has_real_genres existing
  | None => false
  end.

Definition report (on_progress : bool) (name : string) (i total : nat)
  : M unit :=
  if on_progress then emit (Progress name i total) else ret tt.

(** The body of [for i, name in enumerate(names, 1)]. *)
Definition classify_step (existing_data : Storage.Data)
    (on_progress : bool) (total : nat)
    (classifications : PyDict.t Classification.t) (i : nat)
    (name : string) : M (PyDict.t Classification.t) :=
  if already_classified existing_data name then
    report on_progress name i total ;;;
    ret classifications
  else
    (* New artist or previously unknown: query MusicBrainz *)
    result <- try_except (classify_artist name) (ret unknown_pair) ;;
    let classifications := PyDict.set name result classifications in
    report on_progress name i total ;;;
    (* MusicBrainz rate limit: 1 request/sec, we make 2 per artist *)
    sleep 11 ;;;
    ret classifications.

Fixpoint classify_loop (existing_data : Storage.Data)
    (on_progress : bool) (total : nat)
    (classifications : PyDict.t Classification.t) (i : nat)
    (names : list string) : M (PyDict.t Classification.t) :=
  match names with
  | [] => ret classifications
  | name :: names' =>
      classifications <-
        classify_step existing_data on_progress total classifications
                      i name ;;
      classify_loop existing_data on_progress total classifications
                    (S i) names'
  end.

(** Classify a batch of artists using MusicBrainz API. *)
Definition classify_batch (names : list string)
    (existing_data : Storage.Data) (on_progress : bool)
  : M (PyDict.t Classification.t) :=
  classify_loop existing_data on_progress (List.length names) [] 1 names.
End Batch.

End Classifier.


(* ====================================================================== *)
(** * ocr.py *)
(* ====================================================================== *)

Module Ocr.
Import Net Net.Notations.

(** ** Noise filters

    The three patterns below are compiled with [(?i)] or without it as in
    the source; each is only used through [.match], so its leading [^] is
    the start of the text. *)

Definition sp : Re.regex := Re.plus Re.s_.        (* \s+ *)
Definition sp0 : Re.regex := Re.Star Re.s_.       (* \s* *)

(** [(jan|feb|mar|apr|may|jun|jul|aug|sep|oct|nov|dec)] *)
Definition month : Re.regex :=
  Re.alts (map Re.ilit ["jan"; "feb"; "mar"; "apr"; "may"; "jun"; "jul";
                        "aug"; "sep"; "oct"; "nov"; "dec"]).

(** [(mon|tue|wed|thu|fri|sat|sun)] *)
Definition weekday : Re.regex :=
  Re.alts (map Re.ilit ["mon"; "tue"; "wed"; "thu"; "fri"; "sat"; "sun"]).

(** [(st|nd|rd|th)] *)
Definition ordinal : Re.regex :=
  Re.alts (map Re.ilit ["st"; "nd"; "rd"; "th"]).

(** [[/\-\.]] *)
Definition datesep : Re.regex := Re.oneof "/-.".

(** Dates: "June 14", "14-16 July", "2025", "Fri 21st", etc. *)
Definition _DATE_PATTERN : Re.regex :=
  Re.Cat
    (Re.alts
       [ (* \d{1,2}[/\-\.]\d{1,2}([/\-\.]\d{2,4})? *)
         Re.seq [Re.rep 1 2 Re.d_; datesep; Re.rep 1 2 Re.d_;
                 Re.opt (Re.Cat datesep (Re.rep 2 4 Re.d_))];
         (* \d{1,2}\s*(st|nd|rd|th)?\s*(of\s+)?(jan|...|dec)\w* *)
         Re.seq [Re.rep 1 2 Re.d_; sp0; Re.opt ordinal; sp0;
                 Re.opt (Re.Cat (Re.ilit "of") sp); month; Re.Star Re.w_];
         (* (jan|...|dec)\w*\s+\d{1,2}\s*(st|nd|rd|th)?
            (\s*[\-–]\s*\d{1,2}\s*(st|nd|rd|th)?)? *)
         Re.seq [month; Re.Star Re.w_; sp; Re.rep 1 2 Re.d_; sp0;
                 Re.opt ordinal;
                 Re.opt (Re.seq [sp0; Re.Alt (Re.chr "-") (Re.lit "–"); sp0;
                                 Re.rep 1 2 Re.d_; sp0; Re.opt ordinal])];
         (* (mon|...|sun)\w*\s+\d{1,2} *)
         Re.seq [weekday; Re.Star Re.w_; sp; Re.rep 1 2 Re.d_];
         (* \d{1,2}\s*(st|nd|rd|th)\s+(mon|...|sun)\w* *)
         Re.seq [Re.rep 1 2 Re.d_; sp0; ordinal; sp; weekday; Re.Star Re.w_];
         (* 20\d{2}|19\d{2} *)
         Re.Cat (Re.lit "20") (Re.exactly 2 Re.d_);
         Re.Cat (Re.lit "19") (Re.exactly 2 Re.d_) ])
    Re.Eos.

(** Sentence-like text (contains sentence punctuation mid-string) *)
Definition _SENTENCE_CHARS : Re.regex := Re.oneof ".!?;".

(** Multiple commas suggest a sentence or address, not an artist name *)
Definition _MULTI_COMMA : Re.regex :=
  Re.seq [Re.chr ","; Re.Star Re.dot; Re.chr ","].

(** Words of one alternative, separated by [\s+]. *)
Definition words (ws : list string) : Re.regex :=
  Re.seq (flat_map (fun w => [sp; Re.ilit w]) ws).
Definition phrase (w : string) (ws : list string) : Re.regex :=
  Re.Cat (Re.ilit w) (words ws).

(** [w] followed by an optional [c]: [ws?]. *)
Definition optional_end (w : string) (c : ascii) : Re.regex :=
  Re.Cat (Re.ilit w) (Re.opt (Re.ichr c)).

(** [[a-z]] under [(?i)] *)
Definition letter : Re.regex :=
  Re.Cls (fun c =>
            let lo := Unicode.tolower c in
            (((0x61 <=? lo) && (lo <=? 0x7A))
             || (lo =? 0x131) || (lo =? 0x17F))%N%bool).

(** Common poster noise words *)
Definition _POSTER_NOISE : Re.regex :=
  Re.Cat
    (Re.alts
       [ (* presents?|featuring|feat\.?|ft\.?|with|and more| *)
         optional_end "present" "s"; Re.ilit "featuring";
         optional_end "feat" "."; optional_end "ft" ".";
         Re.ilit "with"; Re.ilit "and more";
         (* tickets?|buy\s+now|on\s+sale|sold\s+out|presale| *)
         optional_end "ticket" "s"; phrase "buy" ["now"];
         phrase "on" ["sale"]; phrase "sold" ["out"]; Re.ilit "presale";
         (* vip|general\s+admission|early\s+bird| *)
         Re.ilit "vip"; phrase "general" ["admission"];
         phrase "early" ["bird"];
         (* main\s+stage|stage\s*\d*|tent|arena| *)
         phrase "main" ["stage"];
         Re.seq [Re.ilit "stage"; sp0; Re.Star Re.d_];
         Re.ilit "tent"; Re.ilit "arena";
         (* day\s*\d+|day\s+one|day\s+two|day\s+three| *)
         Re.seq [Re.ilit "day"; sp0; Re.plus Re.d_];
         phrase "day" ["one"]; phrase "day" ["two"]; phrase "day" ["three"];
         (* doors?\s+open|set\s+times?|schedule|line\s*up| *)
         Re.seq [optional_end "door" "s"; sp; Re.ilit "open"];
         Re.seq [Re.ilit "set"; sp; optional_end "time" "s"];
         Re.ilit "schedule";
         Re.seq [Re.ilit "line"; sp0; Re.ilit "up"];
         (* sponsored\s+by|presented\s+by|powered\s+by| *)
         phrase "sponsored" ["by"]; phrase "presented" ["by"];
         phrase "powered" ["by"];
         (* follow\s+us|share|copyright|©|all\s+rights| *)
         phrase "follow" ["us"]; Re.ilit "share"; Re.ilit "copyright";
         Re.lit "©"; phrase "all" ["rights"];
         (* terms|privacy|cookie|info|www\.|\.com| *)
         Re.ilit "terms"; Re.ilit "privacy"; Re.ilit "cookie";
         Re.ilit "info"; Re.ilit "www."; Re.ilit ".com";
         (* sign\s+up|subscribe|newsletter|rsvp| *)
         phrase "sign" ["up"]; Re.ilit "subscribe"; Re.ilit "newsletter";
         Re.ilit "rsvp";
         (* more\s+(info|artists?|acts?|tba|tbc)| *)
         Re.seq [Re.ilit "more"; sp;
                 Re.alts [Re.ilit "info"; optional_end "artist" "s";
                          optional_end "act" "s"; Re.ilit "tba";
                          Re.ilit "tbc"]];
         (* free|ages?\s+\d|all\s+ages|18\+|21\+| *)
         Re.ilit "free";
         Re.seq [optional_end "age" "s"; sp; Re.d_];
         phrase "all" ["ages"]; Re.lit "18+"; Re.lit "21+";
         (* parking|camping|lodging|directions|map| *)
         Re.ilit "parking"; Re.ilit "camping"; Re.ilit "lodging";
         Re.ilit "directions"; Re.ilit "map";
         (* food|drink|merch|vendor| *)
         Re.ilit "food"; Re.ilit "drink"; Re.ilit "merch"; Re.ilit "vendor";
         (* fest(ival)?(\s+\d{4})?|music\s+festival| *)
         Re.seq [Re.ilit "fest"; Re.opt (Re.ilit "ival");
                 Re.opt (Re.Cat sp (Re.exactly 4 Re.d_))];
         phrase "music" ["festival"];
         (* phase\s+\d|announcement|reveal| *)
         Re.seq [Re.ilit "phase"; sp; Re.d_];
         Re.ilit "announcement"; Re.ilit "reveal";
         (* [a-z]+\.(com|org|net|co|io|uk)| *)
         Re.seq [Re.plus letter; Re.chr ".";
                 Re.alts (map Re.ilit ["com"; "org"; "net"; "co"; "io";
                                       "uk"])];
         (* #\w+ *)
         Re.Cat (Re.chr "#") (Re.plus Re.w_) ])
    Re.Eos.

(** Return True if text looks like a date, sentence, or poster noise. *)
Definition _is_ocr_noise (text : string) : bool :=
  let text := Str.strip text in
  if negb (Str.nonempty text) then true
  (* Too short (single char OCR artifacts) *)
  else if Nat.ltb (Str.len text) 2 then true
  (* Contains sentence-ending punctuation (periods, exclamation, etc.) *)
  else if Re.search _SENTENCE_CHARS text then true
  (* Multiple commas = sentence or list, not a single artist name *)
  else if Re.search _MULTI_COMMA text then true
  (* Contains colon (likely a time or label like "Stage: Main") *)
  else if Str.contains ":" text then true
  (* Dates *)
  else if Re.matches _DATE_PATTERN text then true
  (* Poster noise *)
  else if Re.matches _POSTER_NOISE text then true
  else
    (* Mostly digits: digit_count > len(text) * 0.5 *)
    let digit_count := Str.count Str.isdigit text in
    if Nat.ltb (Str.len text) (2 * digit_count) then true
    (* Too many words for an artist name *)
    else if Nat.ltb 6 (List.length (Str.split_ws text)) then true
    else
      (* Single character or just symbols *)
      let alpha_count := Str.count Str.isalpha text in
      if Nat.ltb alpha_count 2 then true
      else false.

(** ** MusicBrainz validation *)

(** The loop [for c1, c2 in zip(shorter, longer)] from [diffs]. *)
Fixpoint zip_diffs (shorter longer : list N) (diffs : nat) : nat :=
  match shorter, longer with
  | c1 :: s1, c2 :: s2 =>
      zip_diffs s1 s2 (if (c1 =? c2)%N then diffs else diffs + 1)
  | _, _ => diffs
  end.

(** Simple fuzzy match: allows 1-2 char differences for OCR errors. *)
Definition _fuzzy_match (a b : string) : bool :=
  let la := Str.len a in
  let lb := Str.len b in
  if Nat.ltb 2 (if Nat.leb la lb then lb - la else la - lb) then false
  else
    let '(shorter, longer) := if Nat.leb la lb then (a, b) else (b, a) in
    let diffs := Str.len longer - Str.len shorter in
    Nat.leb (zip_diffs (Str.chars shorter) (Str.chars longer) diffs) 2.

(** The loop [for artist in artists]: the first close match. *)
Fixpoint close_match (name_lower : string) (artists : list Hit)
  : option string :=
  match artists with
  | [] => None
  | artist :: artists' =>
      let mb_name := name artist in
      let score := score artist in
      let mb_lower := Str.strip (Str.lower mb_name) in
      (* High confidence exact-ish match *)
      if ((90 <=? score)%Z && String.eqb mb_lower name_lower)%bool
      then Some mb_name
      (* Fuzzy: score >= 80 and names are similar length *)
      else if ((80 <=? score)%Z
               && (String.eqb mb_lower name_lower
                   || _fuzzy_match name_lower mb_lower))%bool
      then Some mb_name
      else close_match name_lower artists'
  end.

Section Client.
Variable svc : Service.

(** Check if a name matches a real artist on MusicBrainz.  [depth] is the
    number of nested calls the interpreter still allows, as in
    [_search_artist]; here the source counts its retries itself. *)
Fixpoint validate (depth : nat) (name : string) (_retries : nat)
  : M (option string) :=
  try_except
    (resp <- get_search svc (Classifier.artist_query name) 3 ;;
     let '(status_code, body) := resp in
     if ((status_code =? 503)%Z && Nat.ltb _retries 3)%bool then
       sleep 20 ;;;
       match depth with
       | 0 => raise RecursionError
       | S depth' => validate depth' name (_retries + 1)
       end
     else if negb (status_code =? 200)%Z then ret None
     else
       artists <- json body ;;
       if negb (Storage.truthy artists) then ret None
       else
         (* Check if any result is a close match *)
         let name_lower := Str.strip (Str.lower name) in
         ret (close_match name_lower artists))
    (ret None).

Definition _validate_artist_musicbrainz (depth : nat) (name : string)
  : M (option string) :=
  validate depth name 0.
End Client.

(** ** Main extraction *)

(** [[•·\-\*\|>#@\s]+] and [[•·\-\*\|<#@\s]+]: runs of decoration. *)
Definition leading_symbols : Re.regex :=
  Re.plus (Re.alts [Re.lit "•"; Re.lit "·"; Re.oneof "-*|>#@"; Re.s_]).
Definition trailing_symbols : Re.regex :=
  Re.Cat
    (Re.plus (Re.alts [Re.lit "•"; Re.lit "·"; Re.oneof "-*|<#@"; Re.s_]))
    Re.Eos.

(** [\s*[|/]\s*] *)
Definition pipe_or_slash : Re.regex :=
  Re.seq [Re.Star Re.s_; Re.oneof "|/"; Re.Star Re.s_].

(** One reading of the OCR engine: [(bbox, text, conf)].  The box is not
    looked at. *)
Record Reading : Type := { text : string; conf : float }.

(** The body of [for (bbox, text, conf) in raw_results]: what one reading
    adds to [candidates]. *)
Definition clean_reading (reading : Reading) : list string :=
  let text := Str.strip (text reading) in
  if (negb (Str.nonempty text) || PrimFloat.ltb (conf reading) 0.25%float)%bool
  then []
  else
    (* Strip leading/trailing symbols *)
    let text := Re.remove_prefix leading_symbols text in
    let text := Re.remove trailing_symbols text in
    let text := Str.strip text in
    if _is_ocr_noise text then []
    (* Try splitting on delimiters that appear in poster text *)
    else if (Str.contains " | " text || Str.contains " / " text)%bool then
      flat_map
        (fun part =>
           let part := Str.strip part in
           if (Str.nonempty part && negb (_is_ocr_noise part))%bool
           then [part] else [])
        (Re.split pipe_or_slash text)
    else [text].

(** Filter OCR results to plausible artist names. *)
Definition _clean_ocr_text (raw_results : list Reading) : list string :=
  flat_map clean_reading raw_results.

(** The loop "Deduplicate case-insensitively" of
    [extract_artists_from_image]. *)
Fixpoint unique_candidates (seen : list string) (all_candidates : list string)
  : list string :=
  match all_candidates with
  | [] => []
  | name :: rest =>
      let key := Str.strip (Str.lower name) in
      if (negb (Str.mem key seen) && Nat.leb 2 (Str.len key))%bool
      then name :: unique_candidates (key :: seen) rest
      else unique_candidates seen rest
  end.

(** The loop "Final dedup on validated names". *)
Fixpoint final_dedup (seen : list string) (validated : list string)
  : list string :=
  match validated with
  | [] => []
  | name :: rest =>
      let key := Str.lower name in
      if negb (Str.mem key seen) then name :: final_dedup (key :: seen) rest
      else final_dedup seen rest
  end.

Section Extract.
Variable svc : Service.
Variable depth : nat.

(** The loop "Validate against MusicBrainz": [i] counts from 0,
    [validated] is the list built so far. *)
Fixpoint validate_loop (on_progress : bool) (total : nat)
    (validated : list string) (i : nat) (unique : list string)
  : M (list string) :=
  match unique with
  | [] => ret validated
  | name :: rest =>
      (if on_progress then emit (Progress name (i + 1) total) else ret tt) ;;;
      corrected <- _validate_artist_musicbrainz svc depth name ;;
      let validated :=
        match corrected with
        | Some c => if Str.nonempty c then validated ++ [c] else validated
        | None => validated
        end in
      (* Rate limit: MusicBrainz allows ~1 req/sec *)
      sleep 11 ;;;
      validate_loop on_progress total validated (i + 1) rest
  end.

(** [extract_artists_from_image] from the candidates of all OCR passes on:
    deduplicate, and when [validate] is set keep the names the service
    confirms, in its spelling, deduplicated again.  The progress calls
    here all have the stage "validating"; those of the loading and OCR
    stages come before. *)
Definition names_from_candidates (all_candidates : list string)
    (validate on_progress : bool) : M (list string) :=
  let unique := unique_candidates [] all_candidates in
  (if on_progress then emit (Progress EmptyString 0 (List.length unique))
   else ret tt) ;;;
  if negb validate then ret unique
  else
    validated <-
      validate_loop on_progress (List.length unique) [] 0 unique ;;
    ret (final_dedup [] validated).
End Extract.

End Ocr.

(* ====================================================================== *)
(** * app.py *)
(* ====================================================================== *)

Module App.

(** [\s*[Bb]2[Bb]\s*] *)
Definition b2b : Re.regex :=
  Re.seq [Re.Star Re.s_; Re.oneof "Bb"; Re.chr "2"; Re.oneof "Bb";
          Re.Star Re.s_].

(** [\s*\([^)]*\)] *)
Definition parenthesized : Re.regex :=
  Re.seq [Re.Star Re.s_; Re.chr "("; Re.Star (Re.noneof ")"); Re.chr ")"].

(** The first loop: split B2B names and strip parenthesized text. *)
Definition clean_parts (names : list string) : list string :=
  flat_map
    (fun name =>
       (* Split on B2B (case-insensitive, with or without spaces) *)
       let parts := Re.split b2b name in
       flat_map
         (fun part =>
            (* Strip parenthesized text like (Sunrise Set) *)
            let part := Str.strip (Re.remove parenthesized part) in
            if Str.nonempty part then [part] else [])
         parts)
    names.

(** The second loop: deduplicate case-insensitively, preserving order. *)
Fixpoint dedup (seen : list string) (cleaned : list string) : list string :=
  match cleaned with
  | [] => []
  | name :: cleaned' =>
      let key := Str.lower name in
      if negb (Str.mem key seen) then name :: dedup (key :: seen) cleaned'
      else dedup seen cleaned'
  end.

(** Split B2B names and strip parenthesized text, then deduplicate. *)
Definition _clean_artist_names (names : list string) : list string :=
  dedup [] (clean_parts names).

(** ** The similarity recommender

    Python's [float] is IEEE binary64, which is [PrimFloat.float];
    [math.sqrt] and [/] round as [PrimFloat.sqrt] and [PrimFloat.div] do.
    An [int] becomes a float through [of_uint63]; the sums it is applied
    to are bounded by the size of the vocabulary. *)

(** A float division raises on a zero divisor. *)
Inductive Result (A : Type) : Type :=
| Ok (a : A)
| ZeroDivisionError.
Arguments ZeroDivisionError {A}.

Definition to_float (z : Z) : float := PrimFloat.of_uint63 (Uint63.of_Z z).

(** [all_tags]: the genres and timbres of every artist, as a set, without
    ["unknown"]. *)
Definition all_tags (all_artists : PyDict.t Artist.t) : list string :=
  let tags :=
    flat_map (fun a => Artist.genres a ++ Artist.timbre a)
             (PyDict.values all_artists) in
  filter (fun t => negb (String.eqb t "unknown")) (nodup string_dec tags).

(** [sorted] on distinct strings. *)
Fixpoint insert_sorted (x : string) (l : list string) : list string :=
  match l with
  | [] => [x]
  | y :: l' => if String.ltb y x then y :: insert_sorted x l' else x :: l
  end.
Definition sorted (l : list string) : list string :=
  fold_right insert_sorted [] l.

(** [tag_to_idx.get(t)] *)
Fixpoint tag_to_idx (vocab : list string) (t : string) : option nat :=
  match vocab with
  | [] => None
  | t' :: vocab' =>
      if String.eqb t t' then Some 0
      else option_map S (tag_to_idx vocab' t)
  end.

(** [vec[i] = 1] *)
Fixpoint set_one (i : nat) (vec : list Z) : list Z :=
  match vec, i with
  | [], _ => []
  | _ :: vec', 0 => 1%Z :: vec'
  | x :: vec', S i' => x :: set_one i' vec'
  end.

(** [for g in tags: if g in tag_to_idx: vec[tag_to_idx[g]] = 1] *)
Definition mark (vocab : list string) (tags : list string) (vec : list Z)
  : list Z :=
  fold_left (fun vec g =>
               match tag_to_idx vocab g with
               | Some i => set_one i vec
               | None => vec
               end)
            tags vec.

Definition to_vector (vocab : list string) (artist : Artist.t) : list Z :=
  mark vocab (Artist.timbre artist)
       (mark vocab (Artist.genres artist)
             (repeat 0%Z (List.length vocab))).

(** [sum(x * y for x, y in zip(a, b))] *)
Fixpoint dot_product (a b : list Z) : Z :=
  match a, b with
  | x :: a', y :: b' => (x * y + dot_product a' b')%Z
  | _, _ => 0%Z
  end.

Definition magnitude (a : list Z) : float :=
  PrimFloat.sqrt (to_float (dot_product a a)).

Definition is_zero (x : float) : bool := PrimFloat.eqb x 0%float.

Definition cosine_sim (a b : list Z) : Result float :=
  let dot := dot_product a b in
  let mag_a := magnitude a in
  let mag_b := magnitude b in
  if (is_zero mag_a || is_zero mag_b)%bool then Ok 0%float
  else
    let divisor := PrimFloat.mul mag_a mag_b in
    if is_zero divisor then ZeroDivisionError
    else Ok (PrimFloat.div (to_float dot) divisor).

(** [a.get("genres") == ["unknown"]] *)
Definition is_unknown (a : Artist.t) : bool :=
  if list_eq_dec string_dec (Artist.genres a) ["unknown"] then true else false.

(** The artists the loop scores: not the target's key, not unknown. *)
Definition candidate (target_key : string) (item : string * Artist.t)
  : bool :=
  (negb (String.eqb (fst item) target_key) && negb (is_unknown (snd item)))%bool.

(** The loop [for key, a in all_artists.items()]. *)
Fixpoint score_all (vocab : list string) (target_vec : list Z)
    (target_key : string) (items : list (string * Artist.t))
  : Result (list (float * Artist.t)) :=
  match items with
  | [] => Ok []
  | (key, a) :: items' =>
      if negb (candidate target_key (key, a))
      then score_all vocab target_vec target_key items'
      else
        match cosine_sim target_vec (to_vector vocab a) with
        | ZeroDivisionError => ZeroDivisionError
        | Ok sim =>
            match score_all vocab target_vec target_key items' with
            | ZeroDivisionError => ZeroDivisionError
            | Ok scored => Ok ((sim, a) :: scored)
            end
        end
  end.

(** Find k nearest neighbors using cosine similarity on genre+timbre
    vectors.  The one caller leaves [k] at its default, 3. *)
Definition _find_similar_artists (target : Artist.t)
    (all_artists : PyDict.t Artist.t) (k : Z) : Result (list Artist.t) :=
  (* Build vocabulary from all artists *)
  let vocab := sorted (all_tags all_artists) in
  if negb (Storage.truthy vocab) then Ok []
  else
    let target_vec := to_vector vocab target in
    let target_key := Str.lower (Artist.name target) in
    match score_all vocab target_vec target_key all_artists with
    | ZeroDivisionError => ZeroDivisionError
    | Ok scored =>
        let scored := PySort.sort_desc PrimFloat.ltb fst scored in
        Ok (map snd (PyList.slice_to k scored))
    end.

(** ** The background workers

    Of the job record only the progress callback is kept.  A worker gives
    the data it hands to [save_data], or [None] when it ends with the
    status "error".  [data] is what the first [load_data()] returns and
    [reloaded] what the second returns. *)

Section Workers.
Import Net Net.Notations.
Variable svc : Net.Service.
Variable depth : nat.

(** Background worker that classifies artists and updates job progress. *)
Definition _run_classification (now : string) (data reloaded : Storage.Data)
    (artist_names : list string) (festival_info : Storage.FestivalInfo)
  : M (option Storage.Data) :=
  try_except
    (classifications <-
       Classifier.classify_batch svc depth artist_names data true ;;
     (* reload in case of concurrent changes *)
     ret (Some (Storage.merge_artists now reloaded artist_names
                                      classifications festival_info)))
    (ret None).

(** What the loop of [_run_ocr_and_classify] builds. *)
Definition Scan : Type := (list string * PyDict.t Classification.t)%type.

(** The artist under the key of [name], when it has real data. *)
Definition known_artist (data : Storage.Data) (name : string)
  : option Artist.t :=
  let key := Str.lower (Str.strip name) in
  match PyDict.get key (Storage.artists data) with
  | Some existing =>
      if Classifier.has_real_genres existing then Some existing else None
  | None => None
  end.

(** The body of [for i, name in enumerate(candidates)]. *)
Definition scan_step (data : Storage.Data) (scan : Scan) (name : string)
  : M Scan :=
  let '(validated_names, classifications) := scan in
  match known_artist data name with
  | Some existing =>
      (* Already have good data, just add to lineup *)
      ret (validated_names ++ [Artist.name existing], classifications)
  | None =>
      (* Not in DB (or is unknown): validate against MusicBrainz *)
      corrected <- Ocr._validate_artist_musicbrainz svc depth name ;;
      match corrected with
      | None => sleep 3 ;;; ret scan
      | Some corrected =>
          if negb (Str.nonempty corrected) then sleep 3 ;;; ret scan
          else
            (* It's a real artist: classify it *)
            result <-
              try_except (Classifier.classify_artist svc depth corrected)
                         (ret Classifier.unknown_pair) ;;
            sleep 11 ;;;
            ret (validated_names ++ [corrected],
                 PyDict.set corrected result classifications)
      end
  end.

Fixpoint scan_loop (data : Storage.Data) (scan : Scan)
    (candidates : list string) : M Scan :=
  match candidates with
  | [] => ret scan
  | name :: rest =>
      scan <- scan_step data scan name ;;
      scan_loop data scan rest
  end.

(** Background worker: OCR, then validate and classify in one pass.
    [all_candidates] is what the OCR passes read. *)
Definition _run_ocr_and_classify (now : string)
    (data reloaded : Storage.Data) (all_candidates : list string)
    (festival_info : Storage.FestivalInfo) : M (option Storage.Data) :=
  try_except
    ((* Phase 1: Quick OCR scan (no validation yet) *)
     candidates <-
       Ocr.names_from_candidates svc depth all_candidates false true ;;
     let candidates := _clean_artist_names candidates in
     if negb (Storage.truthy candidates) then ret None
     else
       (* Phase 2: Validate + classify in one seamless loop *)
       scan <- scan_loop data ([], []) candidates ;;
       let '(validated_names, classifications) := scan in
       if negb (Storage.truthy validated_names) then ret None
       else
         (* Save results *)
         ret (Some (Storage.merge_artists now reloaded validated_names
                                          classifications festival_info)))
    (ret None).
End Workers.

(** ** The festival page *)

(** [any(f["name"] == name for f in a.get("festivals", []))] *)
Definition at_festival (name : string) (a : Artist.t) : bool :=
  existsb (fun f => String.eqb (FestivalRef.name f) name) (Artist.festivals a).

(** What the route [/festival/<name>] hands to its template: the artists,
    all their genres and all their timbres. *)
Definition festival (name : string) (data : Storage.Data)
  : list Artist.t * list string * list string :=
  (* Find artists that belong to this festival *)
  let artist_list :=
    filter (at_festival name) (PyDict.values (Storage.artists data)) in
  let artist_list :=
    PySort.sort_asc String.ltb (fun a => Str.lower (Artist.name a))
                    artist_list in
  let all_genres :=
    sorted (nodup string_dec (flat_map Artist.genres artist_list)) in
  let all_timbres :=
    sorted (nodup string_dec (flat_map Artist.timbre artist_list)) in
  (artist_list, all_genres, all_timbres).

End App.

(* ====================================================================== *)
(** * scraper.py *)
(* ====================================================================== *)

Module Scraper.

(** [w(rest)?] under [(?i)] *)
Definition abbreviated (w rest : string) : Re.regex :=
  Re.Cat (Re.ilit w) (Re.opt (Re.ilit rest)).

(** Words/patterns that indicate a line is NOT an artist name *)
Definition NOISE_PATTERNS : Re.regex :=
  Re.Cat
    (Re.alts
       [ (* buy\s+tickets?|get\s+tickets?|sold\s+out|on\s+sale|presale| *)
         Re.seq [Re.ilit "buy"; Ocr.sp; Ocr.optional_end "ticket" "s"];
         Re.seq [Re.ilit "get"; Ocr.sp; Ocr.optional_end "ticket" "s"];
         Ocr.phrase "sold" ["out"]; Ocr.phrase "on" ["sale"];
         Re.ilit "presale";
         (* vip|general\s+admission|early\s+bird| *)
         Re.ilit "vip"; Ocr.phrase "general" ["admission"];
         Ocr.phrase "early" ["bird"];
         (* main\s+stage|stage\s*\d*|tent|arena| *)
         Ocr.phrase "main" ["stage"];
         Re.seq [Re.ilit "stage"; Ocr.sp0; Re.Star Re.d_];
         Re.ilit "tent"; Re.ilit "arena";
         (* day\s*\d+|friday|saturday|sunday|monday|tuesday|wednesday|
            thursday| *)
         Re.seq [Re.ilit "day"; Ocr.sp0; Re.plus Re.d_];
         Re.ilit "friday"; Re.ilit "saturday"; Re.ilit "sunday";
         Re.ilit "monday"; Re.ilit "tuesday"; Re.ilit "wednesday";
         Re.ilit "thursday";
         (* jan(uary)?|feb(ruary)?|mar(ch)?|apr(il)?|may|june?|july?| *)
         abbreviated "jan" "uary"; abbreviated "feb" "ruary";
         abbreviated "mar" "ch"; abbreviated "apr" "il"; Re.ilit "may";
         Ocr.optional_end "jun" "e"; Ocr.optional_end "jul" "y";
         (* aug(ust)?|sep(tember)?|oct(ober)?|nov(ember)?|dec(ember)?| *)
         abbreviated "aug" "ust"; abbreviated "sep" "tember";
         abbreviated "oct" "ober"; abbreviated "nov" "ember";
         abbreviated "dec" "ember";
         (* \d{1,2}[:/]\d{2}|\d{1,2}\s*(am|pm)| *)
         Re.seq [Re.rep 1 2 Re.d_; Re.oneof ":/"; Re.exactly 2 Re.d_];
         Re.seq [Re.rep 1 2 Re.d_; Ocr.sp0;
                 Re.Alt (Re.ilit "am") (Re.ilit "pm")];
         (* doors?\s+open|set\s+times?|schedule|lineup| *)
         Re.seq [Ocr.optional_end "door" "s"; Ocr.sp; Re.ilit "open"];
         Re.seq [Re.ilit "set"; Ocr.sp; Ocr.optional_end "time" "s"];
         Re.ilit "schedule"; Re.ilit "lineup";
         (* sponsored\s+by|presented\s+by|powered\s+by| *)
         Ocr.phrase "sponsored" ["by"]; Ocr.phrase "presented" ["by"];
         Ocr.phrase "powered" ["by"];
         (* follow\s+us|share|copyright|©|\d{4}| *)
         Ocr.phrase "follow" ["us"]; Re.ilit "share"; Re.ilit "copyright";
         Re.lit "©"; Re.exactly 4 Re.d_;
         (* terms|privacy|cookie|faq|contact|about|home|menu| *)
         Re.ilit "terms"; Re.ilit "privacy"; Re.ilit "cookie"; Re.ilit "faq";
         Re.ilit "contact"; Re.ilit "about"; Re.ilit "home"; Re.ilit "menu";
         (* sign\s+up|subscribe|newsletter|email| *)
         Ocr.phrase "sign" ["up"]; Re.ilit "subscribe";
         Re.ilit "newsletter"; Re.ilit "email";
         (* more\s+info|learn\s+more|read\s+more|see\s+more| *)
         Ocr.phrase "more" ["info"]; Ocr.phrase "learn" ["more"];
         Ocr.phrase "read" ["more"]; Ocr.phrase "see" ["more"];
         (* fest(ival)?(\s+\d{4})?|music\s+festival| *)
         Re.seq [Re.ilit "fest"; Re.opt (Re.ilit "ival");
                 Re.opt (Re.Cat Ocr.sp (Re.exactly 4 Re.d_))];
         Ocr.phrase "music" ["festival"];
         (* free|ages?\s+\d|all\s+ages|18\+|21\+| *)
         Re.ilit "free";
         Re.seq [Ocr.optional_end "age" "s"; Ocr.sp; Re.d_];
         Ocr.phrase "all" ["ages"]; Re.lit "18+"; Re.lit "21+";
         (* parking|camping|lodging|directions|map| *)
         Re.ilit "parking"; Re.ilit "camping"; Re.ilit "lodging";
         Re.ilit "directions"; Re.ilit "map";
         (* food|drink|merch|vendor *)
         Re.ilit "food"; Re.ilit "drink"; Re.ilit "merch"; Re.ilit "vendor" ])
    Re.Eos.

(** Minimum/maximum word counts for a plausible artist name *)
Definition MIN_WORDS : nat := 1.
Definition MAX_WORDS : nat := 6.

(** [https?://|www\.|@.*\.] *)
Definition url_or_email : Re.regex :=
  Re.alts [ Re.seq [Re.lit "http"; Re.opt (Re.chr "s"); Re.lit "://"];
            Re.lit "www.";
            Re.seq [Re.chr "@"; Re.Star Re.dot; Re.chr "."] ].

Definition of_nat (n : nat) : float := App.to_float (Z.of_nat n).

(** [alpha_chars < len(text) * 0.4]; the float nearest to 0.4 is
    0x1.999999999999ap-2. *)
Definition mostly_symbols (alpha_chars len : nat) : bool :=
  PrimFloat.ltb (of_nat alpha_chars)
                (PrimFloat.mul (of_nat len) 0x1.999999999999ap-2%float).

(** Check if a string looks like it could be an artist name. *)
Definition _is_plausible_artist (text : string) : bool :=
  let text := Str.strip text in
  if negb (Str.nonempty text) then false
  (* Too short or too long *)
  else if (Nat.ltb (Str.len text) 2
           || Nat.ltb 80 (Str.len text))%bool then false
  else
    let word_count := List.length (Str.split_ws text) in
    if (Nat.ltb word_count MIN_WORDS || Nat.ltb MAX_WORDS word_count)%bool
    then false
    (* Matches known noise *)
    else if Re.matches NOISE_PATTERNS text then false
    (* Contains URLs or email-like patterns *)
    else if Re.search url_or_email text then false
    else
      (* Mostly digits or punctuation *)
      let alpha_chars := Str.count Str.isalpha text in
      if mostly_symbols alpha_chars (Str.len text) then false
      (* Very long single words that aren't artist names *)
      else if (Nat.eqb word_count 1 && Nat.ltb 30 (Str.len text))%bool
      then false
      else true.

(** [p for p in parts if p] *)
Definition truthy_parts (parts : list string) : list string :=
  filter Str.nonempty parts.

(** [\s*[•·]\s*] *)
Definition bullet : Re.regex :=
  Re.seq [Re.Star Re.s_; Re.Alt (Re.lit "•") (Re.lit "·"); Re.Star Re.s_].

(** The body of [for line in page_text.split("\n")]: what one line adds to
    [candidates]. *)
Definition line_candidates (line : string) : list string :=
  let line := Str.strip line in
  let individual := if _is_plausible_artist line then [line] else [] in
  let bullets :=
    (* Try bullet/dot-separated lists *)
    if (Str.contains " • " line || Str.contains " · " line)%bool then
      let parts := Re.split bullet line in
      if forallb _is_plausible_artist (truthy_parts parts)
      then truthy_parts parts
      else individual
    else individual in
  (* Try comma-separated lists (common in lineup announcements) *)
  if (Str.contains "," line
      && Nat.leb 2 (Str.count (Str.is_char ",") line))%bool then
    let parts := map Str.strip (Str.split_char "," line) in
    if forallb _is_plausible_artist (truthy_parts parts)
    then truthy_parts parts
    else bullets
  else bullets.

(** Extract potential artist names from plain text lines. *)
Definition _extract_from_text_lines (page_text : string) : list string :=
  flat_map line_candidates (Str.split_char "010" page_text).

(** The loop of [_deduplicate] from the keys [seen] so far. *)
Fixpoint deduplicate_from (seen : list string) (names : list string)
  : list string :=
  match names with
  | [] => []
  | name :: rest =>
      let key := Str.lower (Str.strip name) in
      if negb (Str.mem key seen)
      then Str.strip name :: deduplicate_from (key :: seen) rest
      else deduplicate_from seen rest
  end.

(** Remove duplicates while preserving order, case-insensitive. *)
Definition _deduplicate (names : list string) : list string :=
  deduplicate_from [] names.

(** ** The page

    The parsed page is used through [bs4] and [readability]; what the
    extraction asks of them is gathered here.  [Soup] is a parsed document
    or one of its elements. *)
Record Page (Soup : Type) : Type :=
  { (* BeautifulSoup(html, "html.parser") *)
    parse : string -> Soup;
    (* for tag in soup([names]): tag.decompose() *)
    decompose : Soup -> list string -> Soup;
    (* soup.find(name) *)
    find : Soup -> string -> option Soup;
    (* soup.select_one(selector) *)
    select_one : Soup -> string -> option Soup;
    (* [el.get_text(strip=True) for el in soup.select(selector)] *)
    select_texts : Soup -> string -> list string;
    (* soup.get_text(strip=True) *)
    get_text : Soup -> string;
    (* soup.get_text(separator="\n", strip=True) *)
    get_text_lines : Soup -> string;
    (* tag.string *)
    string_of : Soup -> option string;
    (* ReadabilityDocument(raw_html).summary(), None when it raises *)
    summary : string -> option string }.

Section Extraction.
Variable Soup : Type.
Variable page : Page Soup.

Definition specific_selectors : list string :=
  [ ".lineup li"; ".lineup a"; ".lineup h2"; ".lineup h3"; ".lineup h4";
    "[class*='lineup'] li"; "[class*='lineup'] a";
    "[class*='artist']"; ".artist"; ".performer";
    "[class*='performer']";
    "[class*='lineup'] h2"; "[class*='lineup'] h3"; "[class*='lineup'] h4" ].

(** The plausible texts of the elements of the selectors, in order. *)
Definition select_plausible (soup : Soup) (selectors : list string)
  : list string :=
  flat_map (fun selector =>
              filter _is_plausible_artist (select_texts page soup selector))
           selectors.

(** Extract potential artist names from list-like HTML structures. *)
Definition _extract_from_list_elements (soup : Soup) : list string :=
  (* Try lineup-specific selectors first *)
  let candidates := select_plausible soup specific_selectors in
  (* Only fall back to generic selectors if specific ones found nothing *)
  if negb (Storage.truthy candidates)
  then select_plausible soup ["li"; "h2"; "h3"; "h4"]
  else candidates.

(** The loop over the content wrappers of [_scope_to_main]. *)
Fixpoint first_selected (soup : Soup) (selectors : list string) : Soup :=
  match selectors with
  | [] => soup
  | selector :: rest =>
      match select_one page soup selector with
      | Some found => found
      | None => first_selected soup rest
      end
  end.

(** Narrow the soup to inside <main> if it exists, to avoid nav/footer
    noise. *)
Definition _scope_to_main (soup : Soup) : Soup :=
  match find page soup "main" with
  | Some main_tag => main_tag
  | None =>
      first_selected soup
        ["[role='main']"; "#main-content"; "#content"; ".main-content";
         ".content"]
  end.

(** The artists of [extract_artists], from the fetched [raw_html] on. *)
Definition artists_of_html (raw_html : string) : list string :=
  let original_soup := parse page raw_html in
  (* Remove non-content tags *)
  let original_soup :=
    decompose page original_soup
              ["script"; "style"; "nav"; "footer"; "header"; "noscript"] in
  (* Primary: original HTML scoped to <main> *)
  let content_scope := _scope_to_main original_soup in
  let candidates := _extract_from_list_elements content_scope in
  let scoped_text := get_text_lines page content_scope in
  let candidates := candidates ++ _extract_from_text_lines scoped_text in
  (* Supplement: Readability may catch extra names *)
  let candidates :=
    match summary page raw_html with
    | None => candidates
    | Some readable_html =>
        let readable_soup := parse page readable_html in
        if Nat.ltb 100 (Str.len (get_text page readable_soup))
        then candidates
               ++ _extract_from_list_elements readable_soup
               ++ _extract_from_text_lines
                    (get_text_lines page readable_soup)
        else candidates
    end in
  _deduplicate candidates.
(** ** The festival name *)

Definition _GENERIC_NAMES : list string :=
  ["lineup"; "artists"; "line-up"; "schedule"; "tickets"; "home"; "festival"].

(** [\s*[|\-–—:]\s*] *)
Definition title_delimiter : Re.regex :=
  Re.seq [Re.Star Re.s_;
          Re.alts [Re.oneof "|-:"; Re.lit "–"; Re.lit "—"];
          Re.Star Re.s_].

(** [\s+(lineup|artists?|schedule|tickets?|\d{4})$] under [re.I] *)
Definition trailing_words : Re.regex :=
  Re.seq [Ocr.sp;
          Re.alts [Re.ilit "lineup"; Ocr.optional_end "artist" "s";
                   Re.ilit "schedule"; Ocr.optional_end "ticket" "s";
                   Re.exactly 4 Re.d_];
          Re.Eos].

(** [urlparse(url).hostname], [None] when the url has none. *)
Variable hostname : string -> option string.

(** The candidates from <title>, <h1> and the URL, in this order. *)
Definition name_candidates (soup : Soup) (url : string) : list string :=
  (* Try <title>: split on common delimiters, collect all parts *)
  let from_title :=
    match find page soup "title" with
    | Some title_tag =>
        match string_of page title_tag with
        | Some title =>
            if Str.nonempty title
            then truthy_parts
                   (map Str.strip (Re.split title_delimiter (Str.strip title)))
            else []
        | None => []
        end
    | None => []
    end in
  (* Try <h1> *)
  let from_h1 :=
    match find page soup "h1" with
    | Some h1 => [get_text page h1]
    | None => []
    end in
  (* Try extracting from URL domain *)
  let from_url :=
    if Str.nonempty url then
      let hostname :=
        match hostname url with
        | Some h => h
        | None => EmptyString
        end in
      (* Strip www. and TLD *)
      let domain_name :=
        hd EmptyString
           (Str.split_char "." (Str.replace "www." EmptyString hostname)) in
      if (Str.nonempty domain_name
          && Nat.ltb 2 (Str.len domain_name))%bool
      then [Str.title (Str.replace "-" " " domain_name)]
      else []
    else [] in
  from_title ++ from_h1 ++ from_url.

Definition generic (candidate : string) : bool :=
  Str.mem (Str.lower candidate) _GENERIC_NAMES.

(** Pick the best candidate: skip generic names. *)
Fixpoint pick (candidates : list string) : option string :=
  match candidates with
  | [] => None
  | candidate :: rest =>
      if (negb (generic candidate)
          && Nat.ltb 2 (Str.len candidate))%bool
      then
        (* Strip trailing year/lineup words *)
        let cleaned := Str.strip (Re.remove trailing_words candidate) in
        if (Str.nonempty cleaned && negb (generic cleaned))%bool
        then Some cleaned
        else Some candidate
      else pick rest
  end.

(** Try to get the festival name from <title>, <h1>, or URL. *)
Definition _extract_festival_name (soup : Soup) (url : string) : string :=
  let candidates := name_candidates soup url in
  match pick candidates with
  | Some name => name
  | None =>
      match candidates with
      | first :: _ => first
      | [] => "Unknown Festival"
      end
  end.

(** [_fetch_raw_html(url)], [None] when the request raises. *)
Variable _fetch_raw_html : string -> option string.

(** Extract artist names from a festival lineup page; [None] when the page
    cannot be fetched. *)
Definition extract_artists (url : string) : option (string * list string) :=
  match _fetch_raw_html url with
  | None => None
  | Some raw_html =>
      let original_soup := parse page raw_html in
      let festival_name := _extract_festival_name original_soup url in
      Some (festival_name, artists_of_html raw_html)
  end.
End Extraction.

End Scraper.

(* ====================================================================== *)
(** * Vocabulary of the statements *)
(* ====================================================================== *)

(** ** Characters *)

(** A code point. *)
Definition scalar (c : N) : Prop := (c < 0x110000)%N.

(** The largest image of a run. *)
Definition run_top (r : N * N * N * N) : N :=
  let '(lo, hi, _, image) := r in (image + (hi - lo))%N.

(** The code points from [lo] to [hi]. *)
Definition range (lo hi : N) : list N :=
  map (fun i => (lo + N.of_nat i)%N) (seq 0 (S (N.to_nat (hi - lo)))).

Definition points (rs : list (N * N)) : list N :=
  flat_map (fun r => range (fst r) (snd r)) rs.

(** The characters that a mapping moves, with their images. *)
Definition run_pairs (r : N * N * N * N) : list (N * N) :=
  let '(lo, hi, step, image) := r in
  map (fun c => (c, (image + (c - lo))%N))
      (filter (fun c => ((c - lo) mod step =? 0)%N) (range lo hi)).

Definition pairs (rs : list (N * N * N * N)) : list (N * N) :=
  flat_map run_pairs rs.

(** A character that lowering leaves alone, whatever stands around it. *)
Definition settled (d : N) : bool :=
  (negb (d =? 0x3A3)%N && negb (d =? 0x130)%N
   && match Unicode.in_runs d Unicode.lowercase with
      | Some _ => false
      | None => true
      end)%bool.

(** What the characters before and after a sigma say about it. *)
Definition sigma_before (before : list N) : bool :=
  match Unicode.first_not_ignorable before with
  | Some c => Unicode.iscased c
  | None => false
  end.

Definition sigma_after (after : list N) : bool :=
  match Unicode.first_not_ignorable after with
  | Some c => negb (Unicode.iscased c)
  | None => true
  end.

Definition blank (w : list N) : Prop :=
  Forall (fun c => Unicode.isspace c = true) w.

(** ** The store *)

(** The festival references stored under key [k], if the key is there. *)
Definition festivals_at (k : string) (data : Storage.Data)
  : option (list FestivalRef.t) :=
  option_map Artist.festivals (PyDict.get k (Storage.artists data)).

(** The artist under key [k] exists and lists the festival url [u]. *)
Definition listed_at (u : string) (k : string) (data : Storage.Data) : bool :=
  match festivals_at k data with
  | Some fs => Str.mem u (map FestivalRef.url fs)
  | None => false
  end.

(** ** Sample data *)

Definition x_test : Storage.FestivalInfo :=
  {| Storage.name := "X Fest"; Storage.url := "https://x.test" |}.

(** A store that knows "daft punk" with real genres. *)
Definition daft_punk_store : Storage.Data :=
  {| Storage.artists :=
       [("daft punk",
         Artist.mk "Daft Punk" ["house"; "french house"; "electronic"]
                   ["groovy"; "electronic"]
                   [FestivalRef.mk "Y Fest" "https://y.test" "2024-01-01"]
                   "2024-01-01" "2024-01-01")];
     Storage.festivals :=
       [Festival.mk "Y Fest" "https://y.test" "2024-01-01" 1];
     Storage.metadata :=
       {| Storage.version := 1; Storage.last_modified := None |} |}.

(** A service that answers 503 to every request. *)
Definition always_503 : Net.Service :=
  {| Net.search := fun _ _ _ => Net.Response 503 None;
     Net.tags := fun _ _ => Net.Response 503 None |}.

(** A service that knows every artist by the id "mbid-1" and tags it
    house (3 votes), french (1 vote) and 2010s (no vote). *)
Definition friendly : Net.Service :=
  {| Net.search := fun _ _ _ =>
       Net.Response 200
         (Some [ {| Net.id := Some "mbid-1"; Net.name := "Daft Punk";
                    Net.score := 100 |} ]);
     Net.tags := fun _ _ =>
       Net.Response 200
         (Some [ {| Net.tag_name := "French"; Net.count := 1 |};
                 {| Net.tag_name := "2010s"; Net.count := 0 |};
                 {| Net.tag_name := "House"; Net.count := 3 |} ]) |}.

(** A mapping of six artists; "c" is unknown, "f" has no tags, and "d" and
    "f" share nothing with "a". *)
Definition tagged (name : string) (genres timbre : list string) : Artist.t :=
  Artist.mk name genres timbre [] "2024-01-01" "2024-01-01".

Definition six_artists : PyDict.t Artist.t :=
  [ ("a", tagged "A" ["house"; "techno"] ["groovy"]);
    ("b", tagged "B" ["house"] ["groovy"]);
    ("c", tagged "C" ["unknown"] ["unknown"]);
    ("d", tagged "D" ["rock"] ["raw"]);
    ("e", tagged "E" ["techno"; "house"] ["groovy"; "dark"]);
    ("f", tagged "F" [] []) ].

(** A mapping in which the name of an artist is written with blanks around
    it: the store keeps the name as it came and files it under the
    stripped, lowercased key. *)
Definition justice_store : PyDict.t Artist.t :=
  [ ("justice", tagged " Justice " ["house"] ["groovy"]);
    ("daft punk", tagged "Daft Punk" ["house"] ["groovy"; "electronic"]) ].

(** ** Classifications *)

(** Between 1 and 3 genres and between 1 and 4 timbre descriptors. *)
Definition within_bounds (c : Classification.t) : Prop :=
  1 <= List.length (Classification.genres c) <= 3 /\
  1 <= List.length (Classification.timbre c) <= 4.

(** What [classify_artist] builds: the unknown pair, or the genres and
    timbre of a tag list. *)
Definition from_tags (c : Classification.t) : Prop :=
  c = Classifier.unknown_pair \/
  exists tags,
    c = Classification.mk (Classifier._tags_to_genres tags)
                          (Classifier._tags_to_timbre tags).

(** ** Requests *)

(** The service never answers 503. *)
Definition never_503 (svc : Net.Service) : Prop :=
  (forall tr q l st body,
      Net.search svc tr q l = Net.Response st body -> st <> 503%Z) /\
  (forall tr i st body,
      Net.tags svc tr i = Net.Response st body -> st <> 503%Z).

(** What one search request, not retried, gives [_search_artist]. *)
Definition search_result (reply : Net.Reply (list Net.Hit))
  : Net.Outcome (option Net.Hit) :=
  match reply with
  | Net.Failed => Net.Raise Net.RequestException
  | Net.Response st body =>
      if ((400 <=? st) && (st <? 600))%Z then Net.Raise Net.HTTPError
      else match body with
           | None => Net.Raise Net.JSONDecodeError
           | Some artists => Net.Return (hd_error artists)
           end
  end.

(** The id of the artist that a search request finds, when it returns an
    artist carrying one. *)
Definition found_id (svc : Net.Service) (seen : Net.Trace)
    (query : string) (limit : Z) : option string :=
  match search_result (Net.search svc seen query limit) with
  | Net.Return (Some hit) =>
      match Net.id hit with
      | Some artist_id =>
          if Str.nonempty artist_id then Some artist_id else None
      | None => None
      end
  | _ => None
  end.

(** The number of search requests of [rest], issued after [seen], whose
    answer was an artist carrying an id. *)
Fixpoint found_count (svc : Net.Service) (seen rest : Net.Trace) : nat :=
  match rest with
  | [] => 0
  | e :: rest' =>
      match e with
      | Net.Get (Net.Search query limit) =>
          match found_id svc seen query limit with
          | Some _ => 1
          | None => 0
          end
      | _ => 0
      end + found_count svc (seen ++ [e]) rest'
  end.

(** The number of [time.sleep(2)] in a trace. *)
Definition backoffs (tr : Net.Trace) : nat :=
  List.length
    (filter (fun e => match e with Net.Sleep 20 => true | _ => false end) tr).

(** The requests of one classification: the search, then the tag lookup of
    the id it found, if any. *)
Definition classify_requests (svc : Net.Service) (name : string)
    (tr : Net.Trace) : Net.Trace :=
  Net.Get (Net.Search (Classifier.artist_query name) 1)
  :: match found_id svc tr (Classifier.artist_query name) 1 with
     | Some artist_id => [Net.Get (Net.Tags artist_id)]
     | None => []
     end.

(** ** The acceptance rule of the fuzzy validator, in the words of the
       specification *)

(** The lowercase of the character at position [i] of a text, and of the
    text. *)
Definition lowercase_at (l : list N) (i : nat) : list N :=
  match nth_error l i with
  | Some c => Unicode.lower_in (rev (firstn i l)) c (skipn (S i) l)
  | None => []
  end.

Definition lowercase (l : list N) : list N :=
  flat_map (lowercase_at l) (seq 0 (List.length l)).

(** A text without the whitespace before it, and without the whitespace
    around it. *)
Fixpoint without_leading_blanks (l : list N) : list N :=
  match l with
  | [] => []
  | c :: l' => if Unicode.isspace c then without_leading_blanks l' else l
  end.

Definition trimmed (l : list N) : list N :=
  rev (without_leading_blanks (rev (without_leading_blanks l))).

(** A name with case ignored. *)
Definition lowered (s : string) : string :=
  Str.of_chars (lowercase (Str.chars s)).

(** Comparison is insensitive to case and to surrounding whitespace. *)
Definition normalized (s : string) : string :=
  Str.of_chars (trimmed (lowercase (Str.chars s))).

Definition length_difference (a b : string) : nat :=
  Nat.max (List.length (Str.chars a)) (List.length (Str.chars b))
  - Nat.min (List.length (Str.chars a)) (List.length (Str.chars b)).

(** The positions, within the shorter text, where the characters differ. *)
Fixpoint mismatches (a b : list N) : nat :=
  match a, b with
  | c1 :: a', c2 :: b' =>
      (if N.eq_dec c1 c2 then 0 else 1) + mismatches a' b'
  | _, _ => 0
  end.

Definition position_mismatches (a b : string) : nat :=
  mismatches (Str.chars a) (Str.chars b).

(** Length difference at most 2, and mismatches plus length difference at
    most 2 in total. *)
Definition bounded_edit_check (a b : string) : Prop :=
  length_difference a b <= 2 /\
  position_mismatches a b + length_difference a b <= 2.

(** (a) score >= 90 and equal names, or (b) score >= 80 and equal names or
    the bounded edit-distance check. *)
Definition accepted_by_spec (q : string) (candidate : Net.Hit) : Prop :=
  ((90 <= Net.score candidate)%Z /\
   normalized (Net.name candidate) = normalized q) \/
  ((80 <= Net.score candidate)%Z /\
   (normalized (Net.name candidate) = normalized q \/
    bounded_edit_check (normalized q) (normalized (Net.name candidate)))).

(** A candidate of the service, and a service that answers every search
    with the one candidate "Motörhead", at score 85. *)
Definition hit (name : string) (score : Z) : Net.Hit :=
  {| Net.id := None; Net.name := name; Net.score := score |}.

Definition motorhead : Net.Service :=
  {| Net.search := fun _ _ _ =>
       Net.Response 200 (Some [hit "Motörhead" 85]);
     Net.tags := fun _ _ => Net.Failed |}.

(** ** The recommender *)

(** Ascending order of keys: [x] is not above [y]. *)
Definition not_above {A K : Type} (ltb : K -> K -> bool) (key : A -> K)
    (x y : A) : Prop :=
  ltb (key y) (key x) = false.

(** Descending order of keys: [x] is not below [y]. *)
Definition not_below {A K : Type} (ltb : K -> K -> bool) (key : A -> K)
    (x y : A) : Prop :=
  ltb (key x) (key y) = false.

(** [x] ties with the key [k]: neither is below the other. *)
Definition tied {A K : Type} (ltb : K -> K -> bool) (key : A -> K) (k : K)
    (x : A) : bool :=
  (negb (ltb (key x) k) && negb (ltb k (key x)))%bool.

(** The vocabulary of a mapping. *)
Definition vocabulary (all_artists : PyDict.t Artist.t) : list string :=
  App.sorted (App.all_tags all_artists).

(** The tags of an artist. *)
Definition tags_of (a : Artist.t) : list string :=
  Artist.genres a ++ Artist.timbre a.

(** A tag counts when some artist of the mapping has it and it is not
    "unknown". *)
Definition counted (all_artists : PyDict.t Artist.t) (t : string) : bool :=
  (negb (String.eqb t "unknown")
   && existsb (fun item => Str.mem t (tags_of (snd item))) all_artists)%bool.

(** The number of different tags that count and that two artists share. *)
Definition common_tags (all_artists : PyDict.t Artist.t) (a b : Artist.t)
  : nat :=
  List.length
    (filter (fun t => (counted all_artists t && Str.mem t (tags_of b))%bool)
            (nodup string_dec (tags_of a))).

(** The cosine of the angle between two vectors of zeros and ones, from
    the number of ones they share and the number of ones of each, in
    binary64; 0 when a vector has no one. *)
Definition count_to_float (n : nat) : float :=
  PrimFloat.of_uint63 (Uint63.of_Z (Z.of_nat n)).

Definition cosine (shared_ones ones_a ones_b : nat) : float :=
  let mag_a := PrimFloat.sqrt (count_to_float ones_a) in
  let mag_b := PrimFloat.sqrt (count_to_float ones_b) in
  if (PrimFloat.eqb mag_a 0 || PrimFloat.eqb mag_b 0)%bool then 0%float
  else PrimFloat.div (count_to_float shared_ones) (PrimFloat.mul mag_a mag_b).

(** The cosine similarity of the target and an artist over the tags of the
    mapping. *)
Definition similarity (target : Artist.t) (all_artists : PyDict.t Artist.t)
    (a : Artist.t) : float :=
  cosine (common_tags all_artists target a)
         (common_tags all_artists target target)
         (common_tags all_artists a a).

(** The artists of the mapping that are scored, in iteration order: those
    under another key than the lowercased name of the target, with other
    genres than ["unknown"]. *)
Definition candidates (target : Artist.t) (all_artists : PyDict.t Artist.t)
  : list Artist.t :=
  map snd
      (filter (fun item =>
                 if string_dec (fst item) (lowered (Artist.name target))
                 then false
                 else if list_eq_dec string_dec (Artist.genres (snd item))
                                     ["unknown"]
                      then false else true)
              all_artists).

(** The target is on record under its lowercased name only. *)
Definition on_record (target : Artist.t) (all_artists : PyDict.t Artist.t)
  : Prop :=
  forall key,
    In (key, target) all_artists -> key = lowered (Artist.name target).

(** Zero, a positive finite number, or plus infinity: never a NaN. *)
Definition nonneg (x : spec_float) : Prop :=
  match x with
  | S754_zero _ => True
  | S754_finite false _ _ => True
  | S754_infinity false => True
  | _ => False
  end.

(** Positive, with an exponent of at least [lo] when finite. *)
Definition positive_from (lo : Z) (x : spec_float) : Prop :=
  match x with
  | S754_finite false _ e => (lo <= e)%Z
  | S754_infinity false => True
  | _ => False
  end.

(** The three shapes of a rounded non-negative mantissa. *)
Inductive rounded (s : bool) (e : Z) : spec_float -> Prop :=
| rounded_zero : rounded s e (S754_zero s)
| rounded_finite m' e' : (e <= e')%Z -> rounded s e (S754_finite s m' e')
| rounded_infinity : rounded s e (S754_infinity s).

(** The place of a non-negative float in the order: zero, then the finite
    numbers by exponent and mantissa, then infinity. *)
Definition rank (x : spec_float) : Z * Z * Z :=
  match x with
  | S754_finite false m e => (1, e, Zpos m)%Z
  | S754_infinity false => (2, 0, 0)%Z
  | _ => (0, 0, 0)%Z
  end.

Definition lex_lt (a b : Z * Z * Z) : Prop :=
  let '(a1, a2, a3) := a in
  let '(b1, b2, b3) := b in
  (a1 < b1 \/ (a1 = b1 /\ (a2 < b2 \/ (a2 = b2 /\ a3 < b3))))%Z.


(** ** The store under a merge *)

(** [l2] is [l1] followed by more. *)
Definition prefix_of {A : Type} (l1 l2 : list A) : Prop :=
  exists more, l2 = l1 ++ more.

(** Nothing of [before] is lost in [after]: the keys keep their order, and
    every artist keeps its name, its date of first sighting and, in order,
    the festivals it listed. *)
Definition kept (before after : Storage.Data) : Prop :=
  prefix_of (PyDict.keys (Storage.artists before))
            (PyDict.keys (Storage.artists after)) /\
  forall k a,
    PyDict.get k (Storage.artists before) = Some a ->
    exists a',
      PyDict.get k (Storage.artists after) = Some a' /\
      Artist.name a' = Artist.name a /\
      Artist.first_seen a' = Artist.first_seen a /\
      prefix_of (Artist.festivals a) (Artist.festivals a').

(** No url occurs twice among the festivals on record, nor among the
    festivals of any artist. *)
Definition distinct_urls (data : Storage.Data) : Prop :=
  NoDup (map Festival.url (Storage.festivals data)) /\
  forall k a,
    PyDict.get k (Storage.artists data) = Some a ->
    NoDup (map FestivalRef.url (Artist.festivals a)).

(** No name of the batch comes with genres. *)
Definition without_genres (classifications : PyDict.t Classification.t)
    (artist_names : list string) : Prop :=
  forall name,
    In name artist_names ->
    match PyDict.get name classifications with
    | Some c => Classification.genres c = []
    | None => True
    end.

(** The festival info of an uploaded poster: [upload_lineup] gives it the
    name typed in and the empty url. *)
Definition uploaded (festival_name : string) : Storage.FestivalInfo :=
  {| Storage.name := festival_name; Storage.url := EmptyString |}.

(** ** Traces *)

(** Every run of [m] only appends events, all of them satisfying [P]. *)
Definition emits {A : Type} (P : Net.Event -> Prop) (m : Net.M A) : Prop :=
  forall tr, exists delta out, m tr = (tr ++ delta, out) /\ Forall P delta.

(** The events of a lookup: requests and the two-second back-off. *)
Definition lookup_event (e : Net.Event) : Prop :=
  match e with
  | Net.Get _ => True
  | Net.Sleep 20 => True
  | _ => False
  end.

Definition is_progress (e : Net.Event) : bool :=
  match e with Net.Progress _ _ _ => true | _ => false end.

(** The number of [time.sleep(1.1)] in a trace. *)
Definition pauses (tr : Net.Trace) : nat :=
  List.length
    (filter (fun e => match e with Net.Sleep 11 => true | _ => false end) tr).

(** The calls [on_progress(i, total, name)] of a batch, [i] counting up. *)
Fixpoint progress_calls (i total : nat) (names : list string) : Net.Trace :=
  match names with
  | [] => []
  | name :: rest =>
      Net.Progress name i total :: progress_calls (S i) total rest
  end.

(** The names of a batch that are looked up. *)
Definition looked_up (existing_data : Storage.Data) (names : list string)
  : list string :=
  filter (fun name => negb (Classifier.already_classified existing_data name))
         names.

(** A service that cannot be reached: every request raises. *)
Definition unreachable : Net.Service :=
  {| Net.search := fun _ _ _ => Net.Failed;
     Net.tags := fun _ _ => Net.Failed |}.

(** ** Tags *)

(** The descriptors of the table with a keyword that is a tag or is
    contained in one. *)
Definition timbre_hits (table : list (string * list string))
    (tags : list string) : list string :=
  map fst
      (filter (fun entry => existsb (Classifier.keyword_hit tags) (snd entry))
              table).

(** The tags that [_NON_GENRE_PATTERN] lets through. *)
Definition genre_tags (tags : list string) : list string :=
  filter (fun t => negb (Re.matches Classifier._NON_GENRE_PATTERN t)) tags.

(** Tags by decreasing count. *)
Definition by_count (x y : Net.Tag) : Prop := (Net.count y <= Net.count x)%Z.

(** ** Deduplication loops

    The four loops that drop repeated names ([_clean_artist_names], the two
    of [extract_artists_from_image], [_deduplicate]) have one shape: a name
    is kept, as [out name], when [keep name] holds and its [key] was not
    seen before. *)
Fixpoint dedup_by (key : string -> string) (keep : string -> bool)
    (out : string -> string) (seen : list string) (names : list string)
  : list string :=
  match names with
  | [] => []
  | name :: rest =>
      if (negb (Str.mem (key name) seen) && keep name)%bool
      then out name :: dedup_by key keep out (key name :: seen) rest
      else dedup_by key keep out seen rest
  end.

(** The names are pairwise different, also when case is ignored. *)
Definition distinct_ignoring_case (names : list string) : Prop :=
  NoDup (map lowered names).

(** ** Names *)

(** The characters [_is_ocr_noise] refuses anywhere in a name. *)
Definition sentence_mark (c : N) : bool :=
  existsb (N.eqb c) (Str.chars ".!?;:").

(** What every text that is not OCR noise looks like. *)
Definition name_like (s : string) : Prop :=
  2 <= Str.len s /\
  2 <= Str.count Str.isalpha s /\
  List.length (Str.split_ws s) <= 6 /\
  2 * Str.count Str.isdigit s <= Str.len s /\
  Str.count sentence_mark s = 0.

(** [conf >= 0.25], as the loop of [_clean_ocr_text] tests it. *)
Definition confident (reading : Ocr.Reading) : bool :=
  negb (PrimFloat.ltb (Ocr.conf reading) 0.25%float).

(** The service confirmed [name] as [c]: some 200 answer to the search for
    [name] has [c] as the name of its first close match. *)
Definition confirmed (svc : Net.Service) (name c : string) : Prop :=
  exists seen hits,
    Net.search svc seen (Classifier.artist_query name) 3
    = Net.Response 200 (Some hits) /\
    Ocr.close_match (normalized name) hits = Some c.

(** ** The scraper *)

(** The float comparison of [_is_plausible_artist] on all the counts a
    text of at most 80 characters can give. *)
Definition letters_test_agrees (bound : nat) : bool :=
  forallb
    (fun n =>
       forallb
         (fun a =>
            Bool.eqb (Scraper.mostly_symbols a n) (Nat.ltb (5 * a) (2 * n)))
         (seq 0 (S bound)))
    (seq 0 (S bound)).

(** The new line character. *)
Definition newline : string := String "010" EmptyString.

(** ** Vectors *)

(** 1 where the tag of the vocabulary is a tag of the artist, 0
    elsewhere. *)
Definition indicator (vocab : list string) (a : Artist.t) : list Z :=
  map (fun t => if Str.mem t (tags_of a) then 1%Z else 0%Z) vocab.

(** The tags of the vocabulary that two artists share. *)
Definition shared (vocab : list string) (a b : Artist.t) : list string :=
  filter (fun t => (Str.mem t (tags_of a) && Str.mem t (tags_of b))%bool)
         vocab.

(** ** The workers *)

(** Where a name of the lineup built by [_run_ocr_and_classify] comes
    from: it is the stored name of a candidate that has real data, or the
    service's name for a candidate that has none. *)
Definition lineup_origin (svc : Net.Service) (data : Storage.Data)
    (candidates : list string) (v : string) : Prop :=
  exists name,
    In name candidates /\
    match App.known_artist data name with
    | Some existing => v = Artist.name existing
    | None => confirmed svc name v /\ Str.nonempty v = true
    end.

(* ====================================================================== *)
(** * Properties *)
(* ====================================================================== *)

Unset Implicit Arguments.

(** ** Strings and their code points *)

Ltac nlia := zify; Z.to_euclidean_division_equations; lia.

Lemma byte_ascii (x : N) : (x < 256)%N -> Str.byte (ascii_of_N x) = x.
Proof. apply N_ascii_embedding. Qed.

Lemma byte_bound (b : ascii) : (Str.byte b < 256)%N.
Proof. apply N_ascii_bounded. Qed.

Lemma leb_true a b : (a <= b)%N -> (a <=? b)%N = true.
Proof. apply N.leb_le. Qed.

Lemma leb_false a b : (b < a)%N -> (a <=? b)%N = false.
Proof. apply N.leb_gt. Qed.

Lemma ltb_true a b : (a < b)%N -> (a <? b)%N = true.
Proof. apply N.ltb_lt. Qed.

Lemma ltb_false a b : (b <= a)%N -> (a <? b)%N = false.
Proof. apply N.ltb_ge. Qed.

(** Settle the comparisons of the goal by arithmetic. *)
Ltac compare_N :=
  repeat
    match goal with
    | |- context [(?a <=? ?b)%N] =>
        first [ rewrite (leb_true a b) by nlia
              | rewrite (leb_false a b) by nlia ]
    | |- context [(?a <? ?b)%N] =>
        first [ rewrite (ltb_true a b) by nlia
              | rewrite (ltb_false a b) by nlia ]
    end.

Lemma chars_cons b0 s1 :
  Str.chars (String b0 s1)
  = if (Str.byte b0 <? 0x80)%N then Str.byte b0 :: Str.chars s1
    else
      match s1 with
      | EmptyString => [Str.replacement]
      | String b1 s2 =>
          match Str.two (Str.byte b0) (Str.byte b1) with
          | Some c => c :: Str.chars s2
          | None =>
              match s2 with
              | EmptyString => Str.replacement :: Str.chars s1
              | String b2 s3 =>
                  match Str.three (Str.byte b0) (Str.byte b1) (Str.byte b2) with
                  | Some c => c :: Str.chars s3
                  | None =>
                      match s3 with
                      | EmptyString => Str.replacement :: Str.chars s1
                      | String b3 s4 =>
                          match Str.four (Str.byte b0) (Str.byte b1)
                                         (Str.byte b2) (Str.byte b3) with
                          | Some c => c :: Str.chars s4
                          | None => Str.replacement :: Str.chars s1
                          end
                      end
                  end
              end
          end
      end.
Proof. destruct s1 as [|b1 [|b2 [|b3 s4]]]; reflexivity. Qed.

(** Decoding undoes encoding. *)
Lemma chars_utf8 c s :
  scalar c -> Str.chars (Str.utf8 c ++ s) = c :: Str.chars s.
Proof.
  unfold scalar. intros V. unfold Str.utf8.
  destruct (N.ltb_spec c 0x80) as [H1|H1].
  { cbn [append]. rewrite chars_cons, byte_ascii by lia.
    compare_N. reflexivity. }
  destruct (N.ltb_spec c 0x800) as [H2|H2].
  { cbn [append]. rewrite chars_cons, !byte_ascii by nlia.
    unfold Str.two, Str.continuation. compare_N. cbn [andb].
    f_equal. nlia. }
  destruct (N.ltb_spec c 0x10000) as [H3|H3].
  { cbn [append]. rewrite chars_cons, !byte_ascii by nlia.
    unfold Str.two, Str.three, Str.continuation. compare_N. cbn [andb].
    compare_N. f_equal. nlia. }
  cbn [append]. rewrite chars_cons, !byte_ascii by nlia.
  unfold Str.two, Str.three, Str.four, Str.continuation.
  compare_N. cbn [andb]. compare_N. cbn [andb]. f_equal. nlia.
Qed.

Lemma chars_of_chars l :
  Forall scalar l -> Str.chars (Str.of_chars l) = l.
Proof.
  induction 1 as [|c l Hc _ IH]; [reflexivity|].
  cbn [Str.of_chars]. rewrite chars_utf8 by exact Hc. now rewrite IH.
Qed.

Lemma two_scalar x0 x1 c : Str.two x0 x1 = Some c -> scalar c.
Proof.
  unfold Str.two, Str.continuation, scalar.
  destruct (_ && _)%bool eqn:E; [|discriminate]. intros [= <-].
  rewrite !andb_true_iff, !N.leb_le in E. nlia.
Qed.

Lemma three_scalar x0 x1 x2 c : Str.three x0 x1 x2 = Some c -> scalar c.
Proof.
  unfold Str.three, Str.continuation, scalar.
  destruct (_ && _)%bool eqn:E; [|discriminate]. intros [= <-].
  rewrite !andb_true_iff, !N.leb_le in E. nlia.
Qed.

Lemma four_scalar x0 x1 x2 x3 c : Str.four x0 x1 x2 x3 = Some c -> scalar c.
Proof.
  unfold Str.four, scalar.
  destruct (_ && _)%bool eqn:E; [|discriminate]. intros [= <-].
  rewrite !andb_true_iff, N.ltb_lt in E. apply E.
Qed.

(** Every string is a sequence of code points. *)
Lemma chars_scalar s : Forall scalar (Str.chars s).
Proof.
  remember (String.length s) as n eqn:En.
  revert s En. induction n as [n IH] using lt_wf_ind. intros s En.
  assert (R : forall t, String.length t < n -> Forall scalar (Str.chars t))
    by (intros t Ht; exact (IH _ Ht t eq_refl)).
  clear IH. subst n.
  assert (F : scalar Str.replacement) by (unfold scalar, Str.replacement; lia).
  destruct s as [|b0 s1]; [constructor|].
  rewrite chars_cons.
  pose proof (byte_bound b0) as B0.
  destruct (N.ltb_spec (Str.byte b0) 0x80).
  { constructor; [unfold scalar; lia | apply R; cbn; lia]. }
  destruct s1 as [|b1 s2]; [repeat constructor; exact F|].
  destruct (Str.two _ _) as [c|] eqn:E2.
  { constructor; [eapply two_scalar, E2 | apply R; cbn; lia]. }
  destruct s2 as [|b2 s3]; [constructor; [exact F | apply R; cbn; lia]|].
  destruct (Str.three _ _ _) as [c|] eqn:E3.
  { constructor; [eapply three_scalar, E3 | apply R; cbn; lia]. }
  destruct s3 as [|b3 s4]; [constructor; [exact F | apply R; cbn; lia]|].
  destruct (Str.four _ _ _ _) as [c|] eqn:E4.
  { constructor; [eapply four_scalar, E4 | apply R; cbn; lia]. }
  constructor; [exact F | apply R; cbn; lia].
Qed.

(** A string read as code points and written back is read the same. *)
Lemma chars_of_chars_chars s :
  Str.chars (Str.of_chars (Str.chars s)) = Str.chars s.
Proof. apply chars_of_chars, chars_scalar. Qed.

Lemma Forall_scalar_sub (l l' : list N) :
  (forall c, In c l' -> In c l) -> Forall scalar l -> Forall scalar l'.
Proof.
  intros H F. rewrite Forall_forall in *. auto.
Qed.

(** ** [strip] *)

Lemma lstrip_incl l c : In c (Str.lstrip l) -> In c l.
Proof.
  induction l as [|d l IH]; cbn [Str.lstrip]; [auto|].
  destruct (Str.isspace d); [intros H; right; auto | auto].
Qed.

Lemma rstrip_incl l c : In c (Str.rstrip l) -> In c l.
Proof.
  revert c. induction l as [|d l IH]; intros c; cbn [Str.rstrip]; [auto|].
  destruct (Str.rstrip l) as [|e t].
  - destruct (Str.isspace d); cbn [In]; tauto.
  - intros [->|H]; [now left | right; apply IH, H].
Qed.

Lemma lstrip_starts l :
  match Str.lstrip l with
  | c :: _ => Str.isspace c = false
  | [] => True
  end.
Proof.
  induction l as [|c l IH]; cbn [Str.lstrip]; [exact I|].
  destruct (Str.isspace c) eqn:E; [exact IH | exact E].
Qed.

Lemma lstrip_fixed l :
  match l with
  | c :: _ => Str.isspace c = false
  | [] => True
  end ->
  Str.lstrip l = l.
Proof.
  destruct l as [|c l]; cbn [Str.lstrip]; [reflexivity|].
  intros ->. reflexivity.
Qed.

Lemma rstrip_starts l :
  match l with
  | c :: _ => Str.isspace c = false
  | [] => True
  end ->
  match Str.rstrip l with
  | c :: _ => Str.isspace c = false
  | [] => True
  end.
Proof.
  destruct l as [|c l]; cbn [Str.rstrip]; [trivial|].
  intros E. destruct (Str.rstrip l); [rewrite E|]; exact E.
Qed.

Lemma rstrip_idem l : Str.rstrip (Str.rstrip l) = Str.rstrip l.
Proof.
  induction l as [|c l IH]; cbn [Str.rstrip]; [reflexivity|].
  destruct (Str.rstrip l) as [|d t] eqn:E.
  - destruct (Str.isspace c) eqn:Ec; cbn [Str.rstrip]; [reflexivity|].
    rewrite Ec. reflexivity.
  - change (Str.rstrip (c :: d :: t))
      with (match Str.rstrip (d :: t) with
            | [] => if Str.isspace c then [] else [c]
            | u => c :: u
            end).
    rewrite IH. reflexivity.
Qed.

Lemma strip_chars_idem l :
  Str.rstrip (Str.lstrip (Str.rstrip (Str.lstrip l)))
  = Str.rstrip (Str.lstrip l).
Proof.
  rewrite (lstrip_fixed (Str.rstrip (Str.lstrip l))).
  - apply rstrip_idem.
  - apply rstrip_starts, lstrip_starts.
Qed.

(** The characters of a stripped string. *)
Lemma chars_strip s :
  Str.chars (Str.strip s) = Str.rstrip (Str.lstrip (Str.chars s)).
Proof.
  unfold Str.strip. apply chars_of_chars.
  eapply Forall_scalar_sub; [|apply (chars_scalar s)].
  intros c H. apply lstrip_incl, rstrip_incl, H.
Qed.

(** [strip] changes nothing the second time. *)
Lemma strip_idem s : Str.strip (Str.strip s) = Str.strip s.
Proof.
  unfold Str.strip at 1. rewrite chars_strip, strip_chars_idem. reflexivity.
Qed.

Lemma mem_true x l : Str.mem x l = true <-> In x l.
Proof.
  unfold Str.mem. rewrite existsb_exists. split.
  - intros (y & Hy & E). apply String.eqb_eq in E. subst. exact Hy.
  - intros H. exists x. split; [exact H | apply String.eqb_refl].
Qed.

Lemma mem_false x l : Str.mem x l = false <-> ~ In x l.
Proof.
  rewrite <- mem_true. destruct (Str.mem x l); split; congruence.
Qed.

(** ** The case mappings give code points *)

Lemma in_runs_image c rs d :
  Unicode.in_runs c rs = Some d ->
  exists lo hi step image,
    In (lo, hi, step, image) rs /\
    (lo <= c <= hi)%N /\ d = (image + (c - lo))%N.
Proof.
  induction rs as [|[[[lo hi] step] image] rs IH]; cbn [Unicode.in_runs];
    [discriminate|].
  destruct (_ && _)%bool eqn:E.
  - intros [= <-]. exists lo, hi, step, image.
    rewrite !andb_true_iff, !N.leb_le in E.
    split; [now left|]. split; [lia|reflexivity].
  - intros H. destruct (IH H) as (lo' & hi' & step' & image' & Hin & R).
    exists lo', hi', step', image'. split; [now right | exact R].
Qed.

Lemma in_runs_scalar c rs d :
  forallb (fun r => (run_top r <? 0x110000)%N) rs = true ->
  Unicode.in_runs c rs = Some d -> scalar d.
Proof.
  intros T H. apply in_runs_image in H.
  destruct H as (lo & hi & step & image & Hin & R & ->).
  rewrite forallb_forall in T. specialize (T _ Hin).
  cbn [run_top] in T. apply N.ltb_lt in T. unfold scalar. lia.
Qed.

Lemma tolower_scalar c : scalar c -> scalar (Unicode.tolower c).
Proof.
  intros V. unfold Unicode.tolower.
  destruct (Unicode.in_runs c Unicode.lowercase) as [d|] eqn:E; [|exact V].
  eapply in_runs_scalar; [|exact E]. vm_compute. reflexivity.
Qed.

Lemma lower_in_scalar before c after :
  scalar c -> Forall scalar (Unicode.lower_in before c after).
Proof.
  intros V. unfold Unicode.lower_in, Unicode.lower_full.
  destruct (c =? 0x3A3)%N.
  - destruct (Unicode.final_sigma before after); repeat constructor;
      unfold scalar; lia.
  - destruct (c =? 0x130)%N; repeat constructor;
      try (unfold scalar; lia). apply tolower_scalar, V.
Qed.

Lemma lower_from_scalar l :
  forall before, Forall scalar l -> Forall scalar (Str.lower_from before l).
Proof.
  induction l as [|c l IH]; intros before H; cbn [Str.lower_from];
    [constructor|].
  inversion H as [|? ? Hc Hl]; subst.
  apply Forall_app. split; [apply lower_in_scalar, Hc | apply IH, Hl].
Qed.

(** The characters of a lowered string. *)
Lemma chars_lower s :
  Str.chars (Str.lower s) = Str.lower_from [] (Str.chars s).
Proof.
  unfold Str.lower. apply chars_of_chars, lower_from_scalar, chars_scalar.
Qed.

(** ** The methods and the words of the specification *)

Lemma lowercase_at_middle pre c post :
  lowercase_at (pre ++ c :: post) (List.length pre)
  = Unicode.lower_in (rev pre) c post.
Proof.
  unfold lowercase_at.
  rewrite nth_error_app2, Nat.sub_diag by lia. cbn [nth_error].
  rewrite firstn_app, Nat.sub_diag, firstn_all. cbn [firstn].
  rewrite app_nil_r.
  replace (S (List.length pre)) with (List.length (pre ++ [c]))
    by (rewrite length_app; cbn; lia).
  replace (pre ++ c :: post) with ((pre ++ [c]) ++ post)
    by (rewrite <- app_assoc; reflexivity).
  rewrite skipn_app, Nat.sub_diag, skipn_all. reflexivity.
Qed.

Lemma lower_from_lowercase l :
  forall before,
    Str.lower_from before l
    = flat_map (lowercase_at (rev before ++ l))
               (seq (List.length before) (List.length l)).
Proof.
  induction l as [|c l IH]; intros before; [reflexivity|].
  cbn [Str.lower_from List.length seq flat_map].
  rewrite (IH (c :: before)). cbn [rev List.length].
  rewrite <- app_assoc. cbn [app]. f_equal.
  rewrite <- (length_rev before), lowercase_at_middle, rev_involutive.
  reflexivity.
Qed.

Lemma lower_lowered s : Str.lower s = lowered s.
Proof.
  unfold Str.lower, lowered, lowercase.
  rewrite (lower_from_lowercase (Str.chars s) []). reflexivity.
Qed.

Lemma lstrip_without l : Str.lstrip l = without_leading_blanks l.
Proof. induction l as [|c l IH]; [reflexivity|]. cbn. now rewrite IH. Qed.

Lemma rstrip_snoc l c :
  Str.rstrip (l ++ [c])
  = if Str.isspace c then Str.rstrip l else l ++ [c].
Proof.
  induction l as [|d l IH]; cbn [app Str.rstrip].
  - destruct (Str.isspace c); reflexivity.
  - rewrite IH. destruct (Str.isspace c) eqn:E; [reflexivity|].
    destruct l; reflexivity.
Qed.

Lemma rstrip_rev l : Str.rstrip l = rev (Str.lstrip (rev l)).
Proof.
  induction l as [|c l IH] using rev_ind; [reflexivity|].
  rewrite rstrip_snoc, rev_app_distr. cbn [rev app Str.lstrip].
  destruct (Str.isspace c); [exact IH|].
  cbn [rev]. now rewrite rev_involutive.
Qed.

Lemma strip_trimmed l : Str.rstrip (Str.lstrip l) = trimmed l.
Proof.
  unfold trimmed. rewrite rstrip_rev, !lstrip_without. reflexivity.
Qed.

(** The code's [lower().strip()] is the normal form of the
    specification. *)
Lemma strip_lower_normalized s : Str.strip (Str.lower s) = normalized s.
Proof.
  unfold Str.strip at 1. rewrite chars_lower, strip_trimmed.
  unfold normalized, lowercase.
  rewrite (lower_from_lowercase (Str.chars s) []). reflexivity.
Qed.

(** ** An ASCII character between two strings *)

Lemma continuation_ascii x : (x < 0x80)%N -> Str.continuation x = false.
Proof.
  intros H. unfold Str.continuation. rewrite (leb_false 0x80 x) by lia.
  reflexivity.
Qed.

Lemma two_ascii x0 x : (x < 0x80)%N -> Str.two x0 x = None.
Proof.
  intros H. unfold Str.two. rewrite (continuation_ascii x H).
  now rewrite Bool.andb_false_r.
Qed.

Lemma three_ascii_1 x0 x x2 : (x < 0x80)%N -> Str.three x0 x x2 = None.
Proof.
  intros H. unfold Str.three. rewrite (continuation_ascii x H).
  now rewrite Bool.andb_false_r.
Qed.

Lemma three_ascii_2 x0 x1 x : (x < 0x80)%N -> Str.three x0 x1 x = None.
Proof.
  intros H. unfold Str.three. rewrite (continuation_ascii x H).
  now rewrite Bool.andb_false_r.
Qed.

Lemma four_ascii_1 x0 x x2 x3 : (x < 0x80)%N -> Str.four x0 x x2 x3 = None.
Proof.
  intros H. unfold Str.four. rewrite (continuation_ascii x H).
  now rewrite Bool.andb_false_r.
Qed.

Lemma four_ascii_2 x0 x1 x x3 : (x < 0x80)%N -> Str.four x0 x1 x x3 = None.
Proof.
  intros H. unfold Str.four. rewrite (continuation_ascii x H).
  now rewrite Bool.andb_false_r.
Qed.

Lemma four_ascii_3 x0 x1 x2 x : (x < 0x80)%N -> Str.four x0 x1 x2 x = None.
Proof.
  intros H. unfold Str.four. rewrite (continuation_ascii x H).
  now rewrite Bool.andb_false_r.
Qed.

Lemma chars_ascii c s :
  (Str.byte c < 0x80)%N -> Str.chars (String c s) = Str.byte c :: Str.chars s.
Proof. intros H. rewrite chars_cons, (ltb_true _ _ H). reflexivity. Qed.

(** A byte that starts no character, followed by an ASCII character. *)
Lemma chars_stray b0 c s :
  (0x80 <= Str.byte b0)%N -> (Str.byte c < 0x80)%N ->
  Str.chars (String b0 (String c s))
  = Str.replacement :: Str.chars (String c s).
Proof.
  intros H0 Hc. rewrite (chars_cons b0), (ltb_false _ _ H0).
  rewrite (two_ascii _ _ Hc).
  destruct s as [|b2 [|b3 s4]]; [reflexivity| |];
    rewrite (three_ascii_1 _ _ _ Hc); [reflexivity|].
  rewrite (four_ascii_1 _ _ _ _ Hc). reflexivity.
Qed.

(** An ASCII character ends whatever comes before it: the characters of a
    string with such a character in it are those before it, the character
    and those after it. *)
Lemma chars_app_ascii c a b :
  (Str.byte c < 0x80)%N ->
  Str.chars (a ++ String c b) = Str.chars a ++ Str.byte c :: Str.chars b.
Proof.
  intros Hc.
  remember (String.length a) as n eqn:En.
  revert a En. induction n as [n IH] using lt_wf_ind. intros a En.
  assert (R : forall t, String.length t < n ->
                        Str.chars (t ++ String c b)
                        = Str.chars t ++ Str.byte c :: Str.chars b)
    by (intros t Ht; exact (IH _ Ht t eq_refl)).
  clear IH. subst n.
  destruct a as [|b0 a1]; [apply chars_ascii, Hc|].
  cbn [append]. rewrite (chars_cons b0 a1), (chars_cons b0 (a1 ++ _)).
  destruct (N.ltb_spec (Str.byte b0) 0x80) as [H0|H0].
  { cbn [app]. f_equal. apply R. cbn. lia. }
  destruct a1 as [|b1 a2].
  { cbn [append app]. rewrite (two_ascii _ _ Hc).
    rewrite (chars_ascii c b Hc).
    destruct b as [|b2 [|b3 s4]]; [reflexivity| |];
      rewrite (three_ascii_1 _ _ _ Hc); [reflexivity|].
    rewrite (four_ascii_1 _ _ _ _ Hc). reflexivity. }
  cbn [append].
  destruct (Str.two (Str.byte b0) (Str.byte b1)) as [c2|].
  { cbn [app]. f_equal. apply R. cbn. lia. }
  assert (R1 : Str.chars (String b1 (a2 ++ String c b))
               = Str.chars (String b1 a2) ++ Str.byte c :: Str.chars b)
    by (apply (R (String b1 a2)); cbn; lia).
  destruct a2 as [|b2 a3].
  { cbn [append app] in *. rewrite (three_ascii_2 _ _ _ Hc).
    destruct b as [|b3 s4]; [rewrite R1; reflexivity|].
    rewrite (four_ascii_2 _ _ _ _ Hc), R1. reflexivity. }
  cbn [append] in *.
  destruct (Str.three (Str.byte b0) (Str.byte b1) (Str.byte b2)) as [c3|].
  { cbn [app]. f_equal. apply R. cbn. lia. }
  destruct a3 as [|b3 a4].
  { cbn [append app] in *. rewrite (four_ascii_3 _ _ _ _ Hc), R1.
    reflexivity. }
  cbn [append] in *.
  destruct (Str.four _ _ _ _) as [c4|].
  { cbn [app]. f_equal. apply R. cbn. lia. }
  cbn [app]. rewrite R1. reflexivity.
Qed.

(** ** Splitting at a character *)

Lemma split_char_aux_app sep a b :
  forall cur,
    Str.split_char_aux sep cur (a ++ sep :: b)
    = Str.split_char_aux sep cur a ++ Str.split_char_aux sep [] b.
Proof.
  induction a as [|c a IH]; intros cur; cbn [app Str.split_char_aux].
  - rewrite N.eqb_refl. reflexivity.
  - destruct (c =? sep)%N; [cbn [app]; f_equal|]; apply IH.
Qed.

Lemma split_char_app (sep : ascii) a b :
  (Str.byte sep < 0x80)%N ->
  Str.split_char sep (a ++ String sep b)
  = Str.split_char sep a ++ Str.split_char sep b.
Proof.
  intros H. unfold Str.split_char.
  rewrite (chars_app_ascii sep a b H), split_char_aux_app, map_app.
  reflexivity.
Qed.

(** ** The tables, point by point *)

Lemma in_range lo hi c : (lo <= c <= hi)%N -> In c (range lo hi).
Proof.
  intros H. unfold range. apply in_map_iff.
  exists (N.to_nat (c - lo)). split; [lia|]. apply in_seq. lia.
Qed.

Lemma in_ranges_points c rs :
  Unicode.in_ranges c rs = true -> In c (points rs).
Proof.
  induction rs as [|[lo hi] rs IH]; cbn [Unicode.in_ranges points flat_map];
    [discriminate|].
  destruct (N.ltb_spec c lo) as [L|L]; [discriminate|].
  destruct (N.leb_spec c hi) as [U|U].
  - intros _. apply in_or_app. left. apply in_range. cbn [fst snd]. lia.
  - intros H. apply in_or_app. right. apply IH, H.
Qed.

Lemma in_runs_pairs c rs d :
  Unicode.in_runs c rs = Some d -> In (c, d) (pairs rs).
Proof.
  induction rs as [|[[[lo hi] step] image] rs IH];
    cbn [Unicode.in_runs pairs flat_map]; [discriminate|].
  destruct (_ && _)%bool eqn:E.
  - intros [= <-]. apply in_or_app. left.
    rewrite !andb_true_iff, !N.leb_le in E. destruct E as [[H1 H2] H3].
    unfold run_pairs. apply in_map_iff. exists c. split; [reflexivity|].
    apply filter_In. split; [apply in_range; lia | exact H3].
  - intros H. apply in_or_app. right. apply IH, H.
Qed.

Lemma settled_lower_in d before after :
  settled d = true -> Unicode.lower_in before d after = [d].
Proof.
  unfold settled, Unicode.lower_in, Unicode.lower_full, Unicode.tolower.
  destruct (d =? 0x3A3)%N; [discriminate|].
  destruct (d =? 0x130)%N; [discriminate|].
  destruct (Unicode.in_runs d Unicode.lowercase); [discriminate|].
  reflexivity.
Qed.

(** Whitespace has no case, is not ignored next to a sigma, and is left
    alone by lowering. *)
Lemma isspace_plain c :
  Unicode.isspace c = true ->
  settled c = true /\
  Unicode.iscased c = false /\ Unicode.iscaseignorable c = false.
Proof.
  intros H. apply in_ranges_points in H.
  assert (T : forallb (fun c => settled c && negb (Unicode.iscased c)
                                && negb (Unicode.iscaseignorable c))%bool
                      (points Unicode.whitespace) = true)
    by (vm_compute; reflexivity).
  rewrite forallb_forall in T. specialize (T c H).
  rewrite !andb_true_iff, !negb_true_iff in T. tauto.
Qed.

(** The image of a character that lowering moves is settled and is no
    whitespace. *)
Lemma moved_image c d :
  Unicode.in_runs c Unicode.lowercase = Some d ->
  settled d = true /\ Unicode.isspace d = false.
Proof.
  intros H. apply in_runs_pairs in H.
  assert (T : forallb (fun p => settled (snd p)
                                && negb (Unicode.isspace (snd p)))%bool
                      (pairs Unicode.lowercase) = true)
    by (vm_compute; reflexivity).
  rewrite forallb_forall in T. specialize (T _ H). cbn [snd] in T.
  rewrite andb_true_iff, negb_true_iff in T. exact T.
Qed.

(** Every character of a lowered character is settled, and is whitespace
    only when the character is. *)
Lemma lower_in_settled before c after d :
  In d (Unicode.lower_in before c after) ->
  settled d = true /\ (Unicode.isspace c = false -> Unicode.isspace d = false).
Proof.
  unfold Unicode.lower_in, Unicode.lower_full, Unicode.tolower.
  destruct (c =? 0x3A3)%N.
  { destruct (Unicode.final_sigma before after); intros [<-|[]];
      split; try reflexivity; intros _; vm_compute; reflexivity. }
  destruct (N.eqb_spec c 0x130) as [->|N130].
  { intros [<-|[<-|[]]]; split; try (vm_compute; reflexivity);
      intros _; vm_compute; reflexivity. }
  destruct (Unicode.in_runs c Unicode.lowercase) as [e|] eqn:E.
  - intros [<-|[]]. destruct (moved_image c e E) as [S W].
    split; [exact S | intros _; exact W].
  - intros [<-|[]]. split; [|auto].
    unfold settled. rewrite E.
    apply N.eqb_neq in N130. rewrite N130.
    destruct (c =? 0x3A3)%N eqn:E3; [|reflexivity].
    apply N.eqb_eq in E3. subst c. vm_compute in E. discriminate E.
Qed.

(** ** Lowering, and lowering a stripped text *)

Lemma lower_in_context b1 b2 a1 a2 c :
  sigma_before b1 = sigma_before b2 -> sigma_after a1 = sigma_after a2 ->
  Unicode.lower_in b1 c a1 = Unicode.lower_in b2 c a2.
Proof.
  intros Hb Ha. unfold Unicode.lower_in, Unicode.final_sigma.
  fold (sigma_before b1) (sigma_before b2) (sigma_after a1) (sigma_after a2).
  rewrite Hb, Ha. reflexivity.
Qed.

Lemma sigma_before_cons c b1 b2 :
  sigma_before b1 = sigma_before b2 ->
  sigma_before (c :: b1) = sigma_before (c :: b2).
Proof.
  unfold sigma_before. cbn [Unicode.first_not_ignorable].
  destruct (Unicode.iscaseignorable c); auto.
Qed.

(** Only the nearest character that counts matters before a text. *)
Lemma lower_from_before l :
  forall b1 b2,
    sigma_before b1 = sigma_before b2 ->
    Str.lower_from b1 l = Str.lower_from b2 l.
Proof.
  induction l as [|c l IH]; intros b1 b2 H; cbn [Str.lower_from];
    [reflexivity|].
  rewrite (lower_in_context b1 b2 l l c H eq_refl).
  f_equal. apply IH, sigma_before_cons, H.
Qed.

Lemma sigma_before_blank w : blank w -> sigma_before w = false.
Proof.
  destruct 1 as [|c w Hc _]; [reflexivity|].
  unfold sigma_before. cbn [Unicode.first_not_ignorable].
  destruct (isspace_plain c Hc) as (_ & C & G). rewrite G. exact C.
Qed.

Lemma sigma_after_blank a w : blank w -> sigma_after (a ++ w) = sigma_after a.
Proof.
  intros Hw. unfold sigma_after.
  induction a as [|x a IH]; cbn [app Unicode.first_not_ignorable].
  - destruct Hw as [|c w Hc _]; [reflexivity|].
    cbn [Unicode.first_not_ignorable].
    destruct (isspace_plain c Hc) as (_ & C & G). rewrite G, C. reflexivity.
  - destruct (Unicode.iscaseignorable x); [exact IH | reflexivity].
Qed.

Lemma lower_from_settled l :
  forall before,
    Forall (fun d => settled d = true) l -> Str.lower_from before l = l.
Proof.
  induction l as [|d l IH]; intros before H; cbn [Str.lower_from];
    [reflexivity|].
  inversion H as [|? ? Hd Hl]; subst.
  rewrite (settled_lower_in d before l Hd), (IH _ Hl). reflexivity.
Qed.

Lemma lower_from_is_settled l :
  forall before, Forall (fun d => settled d = true) (Str.lower_from before l).
Proof.
  induction l as [|c l IH]; intros before; cbn [Str.lower_from];
    [constructor|].
  apply Forall_app. split; [|apply IH].
  apply Forall_forall. intros d Hd.
  apply (lower_in_settled before c l d Hd).
Qed.

Lemma blank_settled w : blank w -> Forall (fun d => settled d = true) w.
Proof.
  intros H. eapply Forall_impl; [|exact H].
  intros c Hc. apply (isspace_plain c Hc).
Qed.

(** Blanks after a text do not change its lowercase. *)
Lemma lower_from_blank_after l w :
  blank w ->
  forall before,
    Str.lower_from before (l ++ w) = Str.lower_from before l ++ w.
Proof.
  intros Hw. induction l as [|c l IH]; intros before;
    cbn [app Str.lower_from].
  - apply lower_from_settled, blank_settled, Hw.
  - rewrite (lower_in_context before before (l ++ w) l c eq_refl
               (sigma_after_blank l w Hw)).
    rewrite IH, app_assoc. reflexivity.
Qed.

(** Blanks before a text do not change its lowercase. *)
Lemma lower_from_blank_before l w :
  blank w ->
  forall before,
    sigma_before before = false ->
    Str.lower_from before (w ++ l) = w ++ Str.lower_from [] l.
Proof.
  induction 1 as [|c w Hc Hw IH]; intros before Hb; cbn [app].
  - apply lower_from_before. exact Hb.
  - cbn [Str.lower_from].
    destruct (isspace_plain c Hc) as (S & C & G).
    rewrite (settled_lower_in c before (w ++ l) S). cbn [app]. f_equal.
    apply IH. unfold sigma_before. cbn [Unicode.first_not_ignorable].
    rewrite G. exact C.
Qed.

Lemma lstrip_split l : exists w, blank w /\ l = w ++ Str.lstrip l.
Proof.
  induction l as [|c l (w & Hw & E)]; cbn [Str.lstrip].
  - exists []. split; [constructor | reflexivity].
  - destruct (Str.isspace c) eqn:Ec.
    + exists (c :: w). split; [constructor; assumption|].
      cbn [app]. f_equal. exact E.
    + exists []. split; [constructor | reflexivity].
Qed.

Lemma rstrip_split l : exists w, blank w /\ l = Str.rstrip l ++ w.
Proof.
  induction l as [|c l (w & Hw & E)]; cbn [Str.rstrip].
  - exists []. split; [constructor | reflexivity].
  - destruct (Str.rstrip l) as [|d t].
    + cbn [app] in E. subst w.
      destruct (Str.isspace c) eqn:Ec.
      * exists (c :: l). split; [constructor; assumption | reflexivity].
      * exists l. split; [exact Hw | reflexivity].
    + exists w. split; [exact Hw|]. cbn [app]. f_equal. exact E.
Qed.

Lemma lstrip_blank w l : blank w -> Str.lstrip (w ++ l) = Str.lstrip l.
Proof.
  induction 1 as [|c w Hc _ IH]; cbn [app Str.lstrip]; [reflexivity|].
  unfold Str.isspace. rewrite Hc. exact IH.
Qed.

Lemma rstrip_blank l w : blank w -> Str.rstrip (l ++ w) = Str.rstrip l.
Proof.
  intros Hw. induction w as [|c w IH] using rev_ind.
  - now rewrite app_nil_r.
  - apply Forall_app in Hw. destruct Hw as [Hw Hc].
    inversion Hc as [|? ? Hc' _]; subst.
    rewrite app_assoc, rstrip_snoc. unfold Str.isspace at 1. rewrite Hc'.
    apply IH, Hw.
Qed.

Lemma lower_in_nonempty before c after :
  Unicode.lower_in before c after <> [].
Proof.
  unfold Unicode.lower_in, Unicode.lower_full.
  destruct (c =? 0x3A3)%N; [discriminate|].
  destruct (c =? 0x130)%N; discriminate.
Qed.

(** A text that does not start with a blank has a lowercase that does
    not. *)
Lemma lstrip_lower_from l before :
  Str.lstrip l = l ->
  Str.lstrip (Str.lower_from before l) = Str.lower_from before l.
Proof.
  destruct l as [|c l]; [reflexivity|].
  cbn [Str.lstrip Str.lower_from]. intros H.
  destruct (Str.isspace c) eqn:Ec.
  { exfalso. pose proof (lstrip_split l) as (w & _ & E).
    apply (f_equal (@List.length N)) in H, E.
    rewrite length_app in E. cbn [List.length] in H. lia. }
  pose proof (lower_in_nonempty before c l) as Hn.
  destruct (Unicode.lower_in before c l) as [|d t] eqn:E; [contradiction|].
  cbn [app]. apply lstrip_fixed.
  apply (lower_in_settled before c l d); [rewrite E; now left | exact Ec].
Qed.

Lemma lower_from_app l1 :
  forall before l2,
    exists done,
      Str.lower_from before (l1 ++ l2)
      = done ++ Str.lower_from (rev l1 ++ before) l2.
Proof.
  induction l1 as [|c l1 IH]; intros before l2; cbn [app rev].
  - exists []. reflexivity.
  - cbn [Str.lower_from].
    destruct (IH (c :: before) l2) as (done & ->).
    exists (Unicode.lower_in before c (l1 ++ l2) ++ done).
    rewrite <- !app_assoc. reflexivity.
Qed.

Lemma rstrip_length l : List.length (Str.rstrip l) <= List.length l.
Proof.
  destruct (rstrip_split l) as (w & _ & E).
  apply (f_equal (@List.length N)) in E. rewrite length_app in E. lia.
Qed.

(** A text that does not end with a blank has a lowercase that does
    not. *)
Lemma rstrip_lower_from l before :
  Str.rstrip l = l ->
  Str.rstrip (Str.lower_from before l) = Str.lower_from before l.
Proof.
  destruct l as [|c l _] using rev_ind; [reflexivity|].
  rewrite rstrip_snoc. intros H.
  destruct (Str.isspace c) eqn:Ec.
  { exfalso. pose proof (rstrip_length l) as L.
    apply (f_equal (@List.length N)) in H.
    rewrite length_app in H. cbn [List.length] in H. lia. }
  destruct (lower_from_app l before [c]) as (done & ->).
  cbn [Str.lower_from]. rewrite app_nil_r.
  pose proof (lower_in_nonempty (rev l ++ before) c []) as Hn.
  destruct (Unicode.lower_in (rev l ++ before) c []) as [|d t _] eqn:E
    using rev_ind; [contradiction|].
  rewrite app_assoc, rstrip_snoc.
  replace (Str.isspace d) with false; [reflexivity|].
  symmetry. apply (lower_in_settled (rev l ++ before) c [] d);
    [rewrite E; apply in_or_app; right; now left | exact Ec].
Qed.

(** Lowering and stripping commute, on the characters. *)
Lemma lower_from_strip l :
  Str.rstrip (Str.lstrip (Str.lower_from [] l))
  = Str.lower_from [] (Str.rstrip (Str.lstrip l)).
Proof.
  destruct (lstrip_split l) as (w1 & Hw1 & E1).
  destruct (rstrip_split (Str.lstrip l)) as (w2 & Hw2 & E2).
  set (core := Str.rstrip (Str.lstrip l)) in *.
  assert (Hl : Str.lstrip core = core).
  { apply lstrip_fixed. apply rstrip_starts, lstrip_starts. }
  assert (Hr : Str.rstrip core = core) by apply rstrip_idem.
  rewrite E1 at 1. rewrite E2.
  rewrite (lower_from_blank_before (core ++ w2) w1 Hw1 [] eq_refl).
  rewrite (lower_from_blank_after core w2 Hw2).
  rewrite (lstrip_blank w1 _ Hw1).
  destruct (Str.lower_from [] core) as [|d t] eqn:E.
  - cbn [app]. rewrite <- (app_nil_r w2), (lstrip_blank w2 [] Hw2).
    reflexivity.
  - rewrite <- E.
    replace (Str.lstrip (Str.lower_from [] core ++ w2))
      with (Str.lower_from [] core ++ w2).
    + rewrite (rstrip_blank _ w2 Hw2). apply rstrip_lower_from, Hr.
    + pose proof (lstrip_lower_from core [] Hl) as H.
      rewrite E in H |- *. cbn [app Str.lstrip] in H |- *.
      destruct (Str.isspace d); [|reflexivity].
      exfalso. pose proof (lstrip_split t) as (w & _ & Et).
      apply (f_equal (@List.length N)) in H, Et.
      rewrite length_app in Et. cbn [List.length] in H. lia.
Qed.

(** Lowering and stripping commute. *)
Lemma lower_strip s : Str.lower (Str.strip s) = Str.strip (Str.lower s).
Proof.
  unfold Str.lower at 1. unfold Str.strip at 2.
  rewrite chars_strip, chars_lower, lower_from_strip. reflexivity.
Qed.

(** Lowering changes nothing the second time. *)
Lemma lower_idem s : Str.lower (Str.lower s) = Str.lower s.
Proof.
  unfold Str.lower at 1. rewrite chars_lower.
  rewrite (lower_from_settled _ [] (lower_from_is_settled (Str.chars s) [])).
  reflexivity.
Qed.

Set Implicit Arguments.

(** ** The noise filter and the name normalizer on the sample inputs *)

(** C5, for the samples that the filter decides by a rule of its own:
    "June 14" is noise, being a date, and "VIP" is noise, being a noise
    word; "Fred again.." is noise too, because a text with a full stop in
    it is noise: without its full stops the name is kept. *)
Theorem C5_noise_samples :
  (Ocr._is_ocr_noise "June 14" = true /\
   Re.matches Ocr._DATE_PATTERN "June 14" = true) /\
  (Ocr._is_ocr_noise "VIP" = true /\
   Re.matches Ocr._POSTER_NOISE "VIP" = true) /\
  (Ocr._is_ocr_noise "Fred again.." = true /\
   Re.search Ocr._SENTENCE_CHARS "Fred again.." = true /\
   Ocr._is_ocr_noise "Fred again" = false).
Proof. repeat split; vm_compute; reflexivity. Qed.

(** C5 as stated does not hold: "Fred again.." is not decided false, so
    the four samples are not decided true, true, true, false. *)
Lemma C5_samples_not_as_stated :
  Ocr._is_ocr_noise "Fred again.." <> false /\
  ~ (Ocr._is_ocr_noise "June 14" = true /\
     Ocr._is_ocr_noise "VIP" = true /\
     Ocr._is_ocr_noise "Main Stage 2" = true /\
     Ocr._is_ocr_noise "Fred again.." = false).
Proof.
  assert (F : Ocr._is_ocr_noise "Fred again.." <> false)
    by (vm_compute; discriminate).
  split; [exact F|]. intros (_ & _ & _ & H). exact (F H).
Qed.

(** The fourth sample: the noise words have "main stage", and "stage" with
    digits, as whole texts, but not the two together. *)
Lemma main_stage_sample :
  Ocr._is_ocr_noise "Main Stage 2" = false /\
  Re.matches Ocr._POSTER_NOISE "Main Stage 2" = false /\
  Re.matches Ocr._POSTER_NOISE "Main Stage" = true /\
  Re.matches Ocr._POSTER_NOISE "Stage 2" = true.
Proof. repeat split; vm_compute; reflexivity. Qed.

(** C8: the normalizer maps the sample list to ["Artist A"; "Artist B"]:
    the first entry is split at the b2b marker, the parenthesized note is
    removed, and "artist a" is dropped as a case-insensitive duplicate. *)
Theorem C8_normalizer_sample :
  Re.split App.b2b "Artist A b2b Artist B (Sunrise Set)"
    = ["Artist A"; "Artist B (Sunrise Set)"] /\
  Str.strip (Re.remove App.parenthesized "Artist B (Sunrise Set)")
    = "Artist B" /\
  App.clean_parts ["Artist A b2b Artist B (Sunrise Set)"; "artist a"]
    = ["Artist A"; "Artist B"; "artist a"] /\
  App._clean_artist_names
    ["Artist A b2b Artist B (Sunrise Set)"; "artist a"]
    = ["Artist A"; "Artist B"].
Proof. repeat split; vm_compute; reflexivity. Qed.

(** The marker is recognised in either case. *)
Lemma b2b_any_case :
  map (Re.split App.b2b) ["A b2b B"; "A B2B B"; "A b2B B"; "A B2b B"]
    = [["A"; "B"]; ["A"; "B"]; ["A"; "B"]; ["A"; "B"]].
Proof. vm_compute; reflexivity. Qed.

(** ** Dictionaries *)

Section DictFacts.
Variable V : Type.
Implicit Types (d : PyDict.t V) (k : string) (v : V).

Lemma get_set_same d k v : PyDict.get k (PyDict.set k v d) = Some v.
Proof.
  induction d as [|[k' v'] d IH]; simpl.
  - now rewrite String.eqb_refl.
  - destruct (String.eqb_spec k k') as [->|Hne]; simpl.
    + now rewrite String.eqb_refl.
    + apply String.eqb_neq in Hne. now rewrite Hne.
Qed.

Lemma get_set_other d k k' v :
  k' <> k -> PyDict.get k' (PyDict.set k v d) = PyDict.get k' d.
Proof.
  intros Hne. induction d as [|[k0 v0] d IH]; simpl.
  - apply String.eqb_neq in Hne. now rewrite Hne.
  - destruct (String.eqb_spec k k0) as [->|Hk]; simpl.
    + apply String.eqb_neq in Hne. now rewrite Hne.
    + now rewrite IH.
Qed.

Lemma keys_set_present d k v a :
  PyDict.get k d = Some a -> PyDict.keys (PyDict.set k v d) = PyDict.keys d.
Proof.
  unfold PyDict.keys. induction d as [|[k0 v0] d IH]; simpl; [discriminate|].
  destruct (String.eqb_spec k k0) as [->|Hk]; simpl; intros H.
  - reflexivity.
  - now rewrite IH.
Qed.

Lemma set_absent d k v :
  PyDict.get k d = None -> PyDict.set k v d = d ++ [(k, v)].
Proof.
  induction d as [|[k0 v0] d IH]; simpl; [reflexivity|].
  destruct (String.eqb_spec k k0) as [->|Hk]; [discriminate|].
  intros H. now rewrite IH.
Qed.

Lemma keys_length d : List.length (PyDict.keys d) = List.length d.
Proof. apply length_map. Qed.

Lemma get_in d k v : PyDict.get k d = Some v -> In (k, v) d.
Proof.
  induction d as [|[k0 v0] d IH]; simpl; [discriminate|].
  destruct (String.eqb_spec k k0) as [->|Hk].
  - intros [= ->]. now left.
  - intros H. right. now apply IH.
Qed.
End DictFacts.

Lemma mem_app_last (x : string) (l : list string) :
  Str.mem x (l ++ [x]) = true.
Proof.
  unfold Str.mem. rewrite existsb_app. simpl.
  rewrite String.eqb_refl. now rewrite orb_true_r.
Qed.

(** ** storage.py: the merge *)

Section MergeFacts.
Import Storage.
Variables (now : string) (cls : PyDict.t Classification.t)
          (info : FestivalInfo) (entry : FestivalRef.t).
Hypothesis entry_url : FestivalRef.url entry = url info.

Let step := merge_name now cls info entry.

Lemma merge_name_festivals data n : festivals (step data n) = festivals data.
Proof.
  unfold step, merge_name.
  destruct (PyDict.get (_normalize_name n) (artists data)); reflexivity.
Qed.

Lemma merge_loop_festivals names :
  forall data, festivals (fold_left step names data) = festivals data.
Proof.
  induction names as [|n names IH]; intros data; simpl; [reflexivity|].
  rewrite IH. apply merge_name_festivals.
Qed.

Lemma update_artist_lists c a :
  Str.mem (url info)
    (map FestivalRef.url (Artist.festivals (update_artist now info entry c a)))
  = true.
Proof.
  unfold update_artist.
  destruct (truthy (Classification.genres c)); simpl;
    destruct (Str.mem (url info) (map FestivalRef.url (Artist.festivals a)))
      eqn:E; simpl; try exact E;
    rewrite map_app; simpl; rewrite entry_url; apply mem_app_last.
Qed.

Lemma update_artist_listed_festivals c a :
  Str.mem (url info) (map FestivalRef.url (Artist.festivals a)) = true ->
  Artist.festivals (update_artist now info entry c a) = Artist.festivals a.
Proof.
  intros H. unfold update_artist. rewrite H.
  destruct (truthy (Classification.genres c)); reflexivity.
Qed.

(** After its iteration a name's key is in the store and lists the url. *)
Lemma merge_name_lists data n :
  listed_at (url info) (_normalize_name n) (step data n) = true.
Proof.
  unfold listed_at, festivals_at, step, merge_name.
  destruct (PyDict.get (_normalize_name n) (artists data)) as [a|]; simpl;
    rewrite get_set_same; simpl.
  - apply update_artist_lists.
  - rewrite entry_url. now rewrite String.eqb_refl.
Qed.

(** An iteration never unlists the url anywhere. *)
Lemma merge_name_keeps_listed data n k :
  listed_at (url info) k data = true ->
  listed_at (url info) k (step data n) = true.
Proof.
  intros H. destruct (string_dec k (_normalize_name n)) as [->|Hne].
  - apply merge_name_lists.
  - revert H. unfold listed_at, festivals_at, step, merge_name.
    destruct (PyDict.get (_normalize_name n) (artists data)); simpl;
      now rewrite get_set_other.
Qed.

Lemma merge_loop_keeps_listed names k :
  forall data,
    listed_at (url info) k data = true ->
    listed_at (url info) k (fold_left step names data) = true.
Proof.
  induction names as [|n names IH]; intros data H; simpl; [exact H|].
  apply IH. now apply merge_name_keeps_listed.
Qed.

Lemma merge_loop_lists names :
  forall data n,
    In n names ->
    listed_at (url info) (_normalize_name n) (fold_left step names data) = true.
Proof.
  induction names as [|m names IH]; intros data n Hin; simpl; [destruct Hin|].
  destruct Hin as [->|Hin].
  - apply merge_loop_keeps_listed, merge_name_lists.
  - now apply IH.
Qed.

(** On a name that is already listed, an iteration changes neither the
    keys nor anybody's festival references. *)
Lemma merge_name_listed_same data n :
  listed_at (url info) (_normalize_name n) data = true ->
  PyDict.keys (artists (step data n)) = PyDict.keys (artists data) /\
  forall k, festivals_at k (step data n) = festivals_at k data.
Proof.
  unfold listed_at, festivals_at, step, merge_name.
  destruct (PyDict.get (_normalize_name n) (artists data)) as [a|] eqn:E;
    simpl; [|discriminate].
  intros H. split.
  - eapply keys_set_present. exact E.
  - intros k. destruct (string_dec k (_normalize_name n)) as [->|Hne].
    + rewrite get_set_same, E. simpl.
      now rewrite update_artist_listed_festivals.
    + now rewrite get_set_other.
Qed.

Lemma merge_loop_listed_same names :
  forall data,
    (forall n, In n names ->
               listed_at (url info) (_normalize_name n) data = true) ->
    PyDict.keys (artists (fold_left step names data))
      = PyDict.keys (artists data) /\
    forall k, festivals_at k (fold_left step names data) = festivals_at k data.
Proof.
  induction names as [|n names IH]; intros data H; simpl; [now split|].
  destruct (merge_name_listed_same data n) as [Hk Hf].
  { apply H. now left. }
  destruct (IH (step data n)) as [Hk' Hf'].
  { intros m Hm. unfold listed_at. rewrite Hf.
    apply H. now right. }
  split.
  - now rewrite Hk'.
  - intros k. now rewrite Hf'.
Qed.
End MergeFacts.

Lemma add_festival_artists now data names info :
  Storage.artists (Storage.add_festival now data names info)
  = Storage.artists data.
Proof.
  unfold Storage.add_festival.
  destruct (negb _); reflexivity.
Qed.

(** Once a festival has been added, its url is found. *)
Lemma add_festival_url_exists now data names info :
  existsb (fun f => String.eqb (Festival.url f) (Storage.url info))
          (Storage.festivals (Storage.add_festival now data names info))
  = true.
Proof.
  unfold Storage.add_festival.
  destruct (existsb _ (Storage.festivals data)) eqn:E; simpl; [exact E|].
  rewrite existsb_app. simpl. rewrite String.eqb_refl.
  now rewrite orb_true_r.
Qed.

Lemma add_festival_again now data names info :
  existsb (fun f => String.eqb (Festival.url f) (Storage.url info))
          (Storage.festivals data) = true ->
  Storage.add_festival now data names info = data.
Proof. intros H. unfold Storage.add_festival. now rewrite H. Qed.

(** C2: merging the same (names, classifications, festival_info) a second
    time, at any later time, leaves the festival list as it is, the artist
    keys as they are (hence both cardinalities), and the festival
    references of every artist as they are: no second festival record and
    no second reference. *)
Theorem C2_merge_twice_same_cardinalities :
  forall (now1 now2 : string) (data : Storage.Data) (names : list string)
         (classifications : PyDict.t Classification.t)
         (festival_info : Storage.FestivalInfo),
    let once :=
      Storage.merge_artists now1 data names classifications festival_info in
    let twice :=
      Storage.merge_artists now2 once names classifications festival_info in
    List.length (Storage.artists twice) = List.length (Storage.artists once) /\
    List.length (Storage.festivals twice)
      = List.length (Storage.festivals once) /\
    Storage.festivals twice = Storage.festivals once /\
    PyDict.keys (Storage.artists twice) = PyDict.keys (Storage.artists once) /\
    forall k, festivals_at k twice = festivals_at k once.
Proof.
  intros now1 now2 data names cls info once twice.
  assert (Hfest : existsb
            (fun f => String.eqb (Festival.url f) (Storage.url info))
            (Storage.festivals once) = true).
  { unfold once, Storage.merge_artists.
    rewrite merge_loop_festivals. apply add_festival_url_exists. }
  assert (Hlisted : forall n, In n names ->
            listed_at (Storage.url info) (Storage._normalize_name n) once
            = true).
  { intros n Hn. unfold once, Storage.merge_artists.
    now apply merge_loop_lists. }
  assert (Hsame :
            PyDict.keys (Storage.artists twice)
              = PyDict.keys (Storage.artists once) /\
            forall k, festivals_at k twice = festivals_at k once).
  { unfold twice, Storage.merge_artists.
    rewrite (add_festival_again now2 once names info Hfest).
    now apply merge_loop_listed_same. }
  assert (Hf : Storage.festivals twice = Storage.festivals once).
  { unfold twice, Storage.merge_artists.
    rewrite merge_loop_festivals.
    now rewrite (add_festival_again now2 once names info Hfest). }
  destruct Hsame as [Hk Hfs].
  repeat split.
  - rewrite <- !keys_length. now rewrite Hk.
  - now rewrite Hf.
  - exact Hf.
  - exact Hk.
  - exact Hfs.
Qed.

(** A classification without genres (or no classification at all) leaves
    the stored genres and timbre of a known artist alone. *)
Lemma update_artist_without_data now info entry c a :
  Classification.genres c = [] ->
  Artist.genres (Storage.update_artist now info entry c a) = Artist.genres a /\
  Artist.timbre (Storage.update_artist now info entry c a) = Artist.timbre a.
Proof.
  intros H. unfold Storage.update_artist. rewrite H. simpl. now split.
Qed.

(** Any classification with a non-empty genre list replaces them, the
    sentinel included. *)
Lemma update_artist_with_genres now info entry c a :
  Classification.genres c <> [] ->
  Artist.genres (Storage.update_artist now info entry c a)
    = Classification.genres c /\
  Artist.timbre (Storage.update_artist now info entry c a)
    = Classification.timbre c.
Proof.
  intros H. unfold Storage.update_artist.
  destruct (Classification.genres c) eqn:E; [contradiction|].
  simpl. now split.
Qed.

(** C1 on the code: the store knows "daft punk" with the genres house,
    french house, electronic; merging the name "Daft Punk" classified as
    the unknown pair replaces genres and timbre by ["unknown"]. *)
Theorem C1_unknown_overwrites_known_genres :
  let merged :=
    Storage.merge_artists "2024-06-01" daft_punk_store ["Daft Punk"]
      [("Daft Punk", Classifier.unknown_pair)] x_test in
  option_map Artist.genres
    (PyDict.get "daft punk" (Storage.artists daft_punk_store))
    = Some ["house"; "french house"; "electronic"] /\
  option_map Artist.genres (PyDict.get "daft punk" (Storage.artists merged))
    = Some ["unknown"] /\
  option_map Artist.timbre (PyDict.get "daft punk" (Storage.artists merged))
    = Some ["unknown"].
Proof. repeat split; vm_compute; reflexivity. Qed.

(** C10: when the loop of [merge_artists] reaches a name whose key is not
    yet in the store and which has no entry in [classifications], it adds,
    after all others, the record with this name, genres [] and timbre [],
    the one festival reference, and both timestamps [now]. *)
Theorem C10_unclassified_new_artist_is_empty :
  forall (now : string) (data : Storage.Data) (names : list string)
         (classifications : PyDict.t Classification.t)
         (festival_info : Storage.FestivalInfo)
         (pre : list string) (name : string) (post : list string),
    names = pre ++ name :: post ->
    let festival_entry :=
      FestivalRef.mk (Storage.name festival_info)
                     (Storage.url festival_info) now in
    let step :=
      Storage.merge_name now classifications festival_info festival_entry in
    let reached :=
      fold_left step pre
                (Storage.add_festival now data names festival_info) in
    PyDict.get (Storage._normalize_name name) (Storage.artists reached)
      = None ->
    PyDict.get name classifications = None ->
    Storage.artists (step reached name)
      = Storage.artists reached
          ++ [(Storage._normalize_name name,
               Artist.mk name [] [] [festival_entry] now now)] /\
    Storage.merge_artists now data names classifications festival_info
      = fold_left step post (step reached name).
Proof.
  intros now data names cls info pre name post -> entry step reached Hkey Hcls.
  split.
  - unfold step, Storage.merge_name. rewrite Hkey, Hcls. simpl.
    now apply set_absent.
  - unfold Storage.merge_artists. rewrite fold_left_app. reflexivity.
Qed.

Lemma C10_unclassified_new_artist_witness :
  Storage.artists
    (Storage.merge_name "2024-06-01" [] x_test
       (FestivalRef.mk "X Fest" "https://x.test" "2024-06-01")
       (Storage.add_festival "2024-06-01" daft_punk_store
          [" Justice "] x_test)
       " Justice ")
  = Storage.artists daft_punk_store
      ++ [("justice",
           Artist.mk " Justice " [] []
                     [FestivalRef.mk "X Fest" "https://x.test" "2024-06-01"]
                     "2024-06-01" "2024-06-01")].
Proof.
  exact (proj1 (C10_unclassified_new_artist_is_empty
                  "2024-06-01" daft_punk_store [] x_test
                  [] " Justice " [] eq_refl eq_refl eq_refl)).
Defined.

(** ** classifier.py: the shape of a classification *)

Lemma firstn_nonempty_bounds (A : Type) (n : nat) (l : list A) :
  l <> [] -> 1 <= n -> 1 <= List.length (firstn n l) <= n.
Proof.
  intros Hl Hn. rewrite length_firstn.
  destruct l as [|x l]; [contradiction|]. simpl. lia.
Qed.

Lemma tags_to_genres_bounds tags :
  1 <= List.length (Classifier._tags_to_genres tags) <= 3.
Proof.
  unfold Classifier._tags_to_genres.
  destruct tags as [|t tags]; [simpl; lia|].
  change (Storage.truthy (t :: tags)) with true. cbv beta iota delta [negb].
  match goal with
  | |- context [filter ?p ?l] => destruct (filter p l) as [|g filtered]
  end.
  - apply firstn_nonempty_bounds; [discriminate|lia].
  - apply firstn_nonempty_bounds; [discriminate|lia].
Qed.

(** The loop is entered with fewer than four descriptors and leaves with at
    most four. *)
Lemma timbre_loop_bound table tag_set :
  forall descriptors,
    List.length descriptors < 4 ->
    List.length (Classifier.timbre_loop table tag_set descriptors) <= 4.
Proof.
  induction table as [|[descriptor keywords] table IH];
    intros descriptors H; cbn [Classifier.timbre_loop]; [lia|].
  destruct (existsb (Classifier.keyword_hit tag_set) keywords).
  - destruct (Nat.leb_spec 4 (List.length (descriptors ++ [descriptor])))
      as [Hge|Hlt].
    + rewrite length_app. cbn [List.length]. lia.
    + now apply IH.
  - destruct (Nat.leb_spec 4 (List.length descriptors)) as [Hge|Hlt];
      [lia|now apply IH].
Qed.

Lemma tags_to_timbre_bounds tags :
  1 <= List.length (Classifier._tags_to_timbre tags) <= 4.
Proof.
  unfold Classifier._tags_to_timbre.
  destruct tags as [|t tags]; [cbn; lia|].
  change (Storage.truthy (t :: tags)) with true. cbv beta iota delta [negb].
  assert (H : List.length
                (Classifier.timbre_loop Classifier.TIMBRE_MAP (t :: tags) [])
              <= 4).
  { apply timbre_loop_bound. cbn [List.length]. lia. }
  set (ds := Classifier.timbre_loop Classifier.TIMBRE_MAP (t :: tags) []) in *.
  clearbody ds.
  destruct ds as [|d ds]; cbn [Storage.truthy List.length app] in *; lia.
Qed.

Lemma from_tags_within_bounds c : from_tags c -> within_bounds c.
Proof.
  intros [->|[tags ->]]; unfold within_bounds; simpl.
  - lia.
  - split; [apply tags_to_genres_bounds|apply tags_to_timbre_bounds].
Qed.

Lemma classify_artist_from_tags svc depth name tr :
  match Classifier.classify_artist svc depth name tr with
  | (_, Net.Return c) => from_tags c
  | (_, Net.Raise _) => True
  end.
Proof.
  unfold Classifier.classify_artist, Net.bind.
  destruct (Classifier._search_artist svc depth name tr) as [tr1 [[hit|]|e]];
    try exact I; try (now left).
  destruct (Net.id hit) as [artist_id|]; [|now left].
  destruct (Str.nonempty artist_id); simpl; [|now left].
  destruct (Classifier._get_artist_tags svc depth artist_id tr1)
    as [tr2 [tags|e]]; [|exact I].
  right. now exists tags.
Qed.

(** Unfolding of the monad operations. *)
Ltac run_monad :=
  unfold Net.raise_for_status, Net.json, Classifier.report, Net.sleep in *;
  unfold Net.bind, Net.ret, Net.raise, Net.try_except, Net.emit in *.

Lemma set_from_tags name c cls :
  from_tags c ->
  Forall (fun kv => from_tags (snd kv)) cls ->
  Forall (fun kv => from_tags (snd kv)) (PyDict.set name c cls).
Proof.
  intros Hc Hcls. induction cls as [|[k v] cls IH]; simpl.
  - now constructor.
  - inversion Hcls; subst.
    destruct (String.eqb name k); constructor; auto.
Qed.

Lemma classify_step_from_tags svc depth data prog total cls i name tr :
  Forall (fun kv => from_tags (snd kv)) cls ->
  exists tr' cls',
    Classifier.classify_step svc depth data prog total cls i name tr
      = (tr', Net.Return cls') /\
    Forall (fun kv => from_tags (snd kv)) cls'.
Proof.
  intros Hcls. unfold Classifier.classify_step.
  destruct (Classifier.already_classified data name).
  - run_monad. destruct prog; simpl; eauto.
  - pose proof (classify_artist_from_tags svc depth name tr) as Hc.
    run_monad.
    destruct (Classifier.classify_artist svc depth name tr) as [tr1 [c|e]].
    + pose proof (set_from_tags name Hc Hcls).
      destruct prog; simpl; eauto.
    + assert (Hu : from_tags Classifier.unknown_pair) by now left.
      pose proof (set_from_tags name Hu Hcls).
      destruct prog; simpl; eauto.
Qed.

Lemma classify_loop_from_tags svc depth data prog total names :
  forall cls i tr,
    Forall (fun kv => from_tags (snd kv)) cls ->
    exists tr' cls',
      Classifier.classify_loop svc depth data prog total cls i names tr
        = (tr', Net.Return cls') /\
      Forall (fun kv => from_tags (snd kv)) cls'.
Proof.
  induction names as [|name names IH]; intros cls i tr Hcls; simpl.
  - unfold Net.ret. eauto.
  - unfold Net.bind.
    destruct (classify_step_from_tags svc depth data prog total i name tr Hcls)
      as (tr1 & cls1 & -> & Hcls1).
    now apply IH.
Qed.

(** C9: [_tags_to_genres] yields 1 to 3 entries and [_tags_to_timbre] 1 to
    4, for every tag list, and ["unknown"] for the empty one; whatever
    [classify_artist] returns, and every value of the mapping that
    [classify_batch] returns (it always returns one), is the unknown pair
    or comes from a tag list, and so is within these bounds. *)
Theorem C9_classification_bounds :
  (forall tags, 1 <= List.length (Classifier._tags_to_genres tags) <= 3) /\
  (forall tags, 1 <= List.length (Classifier._tags_to_timbre tags) <= 4) /\
  Classifier._tags_to_genres [] = ["unknown"] /\
  Classifier._tags_to_timbre [] = ["unknown"] /\
  (forall svc depth name tr,
      match Classifier.classify_artist svc depth name tr with
      | (_, Net.Return c) => from_tags c /\ within_bounds c
      | (_, Net.Raise _) => True
      end) /\
  (forall svc depth names existing_data on_progress tr,
      match Classifier.classify_batch svc depth names existing_data
                                      on_progress tr with
      | (_, Net.Return classifications) =>
          Forall (fun kv => from_tags (snd kv) /\ within_bounds (snd kv))
                 classifications
      | (_, Net.Raise _) => False
      end).
Proof.
  split; [exact tags_to_genres_bounds|].
  split; [exact tags_to_timbre_bounds|].
  split; [reflexivity|]. split; [reflexivity|]. split.
  - intros svc depth name tr.
    pose proof (classify_artist_from_tags svc depth name tr) as H.
    destruct (Classifier.classify_artist svc depth name tr) as [tr' [c|e]];
      [|exact I].
    split; [exact H|now apply from_tags_within_bounds].
  - intros svc depth names data prog tr.
    unfold Classifier.classify_batch.
    destruct (@classify_loop_from_tags svc depth data prog
                (List.length names) names [] 1 tr (Forall_nil _))
      as (tr' & cls' & -> & H).
    eapply Forall_impl; [|exact H].
    intros kv Hkv. split; [exact Hkv|now apply from_tags_within_bounds].
Qed.

(** ** Retries *)

Lemma requests_app tr1 tr2 :
  Net.requests (tr1 ++ tr2) = Net.requests tr1 + Net.requests tr2.
Proof. unfold Net.requests. now rewrite filter_app, length_app. Qed.

Lemma searches_app tr1 tr2 :
  Net.searches (tr1 ++ tr2) = Net.searches tr1 + Net.searches tr2.
Proof. unfold Net.searches. now rewrite filter_app, length_app. Qed.

Lemma tag_lookups_app tr1 tr2 :
  Net.tag_lookups (tr1 ++ tr2) = Net.tag_lookups tr1 + Net.tag_lookups tr2.
Proof. unfold Net.tag_lookups. now rewrite filter_app, length_app. Qed.

Lemma backoffs_app tr1 tr2 :
  backoffs (tr1 ++ tr2) = backoffs tr1 + backoffs tr2.
Proof. unfold backoffs. now rewrite filter_app, length_app. Qed.

(** Against [always_503], [_search_artist] asks once more at every level
    of the recursion and ends in the interpreter's RecursionError. *)
Lemma search_artist_always_503 name :
  forall depth tr,
    exists delta,
      Classifier._search_artist always_503 depth name tr
        = (tr ++ delta, Net.Raise Net.RecursionError) /\
      Net.searches delta = S depth /\ backoffs delta = S depth.
Proof.
  induction depth as [|depth IH]; intros tr.
  - exists [Net.Get (Net.Search (Classifier.artist_query name) 1);
            Net.Sleep 20].
    cbn. rewrite <- app_assoc. now repeat split.
  - destruct (IH ((tr ++ [Net.Get (Net.Search (Classifier.artist_query name) 1)])
                    ++ [Net.Sleep 20])) as (delta & Heq & Hs & Hb).
    exists ([Net.Get (Net.Search (Classifier.artist_query name) 1);
             Net.Sleep 20] ++ delta).
    split.
    + cbn [Classifier._search_artist]. run_monad.
      unfold Net.get_search. cbn [Net.search always_503 Z.eqb Pos.eqb].
      rewrite Heq. now rewrite <- !app_assoc.
    + rewrite searches_app, backoffs_app, Hs, Hb. now split.
Qed.

Lemma get_artist_tags_always_503 artist_id :
  forall depth tr,
    exists delta,
      Classifier._get_artist_tags always_503 depth artist_id tr
        = (tr ++ delta, Net.Raise Net.RecursionError) /\
      Net.tag_lookups delta = S depth /\ backoffs delta = S depth.
Proof.
  induction depth as [|depth IH]; intros tr.
  - exists [Net.Get (Net.Tags artist_id); Net.Sleep 20].
    cbn. rewrite <- app_assoc. now repeat split.
  - destruct (IH ((tr ++ [Net.Get (Net.Tags artist_id)]) ++ [Net.Sleep 20]))
      as (delta & Heq & Hs & Hb).
    exists ([Net.Get (Net.Tags artist_id); Net.Sleep 20] ++ delta).
    split.
    + cbn [Classifier._get_artist_tags]. run_monad.
      unfold Net.get_tags. cbn [Net.tags always_503 Z.eqb Pos.eqb].
      rewrite Heq. now rewrite <- !app_assoc.
    + rewrite tag_lookups_app, backoffs_app, Hs, Hb. now split.
Qed.

(** [_validate_artist_musicbrainz] counts its retries: whatever the service
    does, it asks at most 1 + (3 - _retries) times, backs off at most
    3 - _retries times, and returns. *)
Lemma validate_bounded svc name :
  forall depth retries tr,
    exists delta out,
      Ocr.validate svc depth name retries tr = (tr ++ delta, Net.Return out) /\
      Net.requests delta <= S (3 - retries) /\
      backoffs delta <= 3 - retries.
Proof.
  induction depth as [|depth IH]; intros r tr.
  - cbn [Ocr.validate]. run_monad. unfold Net.get_search.
    destruct (Net.search svc tr (Classifier.artist_query name) 3)
      as [|st body].
    + exists [Net.Get (Net.Search (Classifier.artist_query name) 3)], None.
      cbn -[Nat.sub Classifier.artist_query]. repeat split; lia.
    + destruct ((st =? 503)%Z && Nat.ltb r 3) eqn:E.
      * exists [Net.Get (Net.Search (Classifier.artist_query name) 3);
                Net.Sleep 20], None.
        rewrite <- app_assoc. cbn -[Nat.sub Classifier.artist_query].
        apply andb_prop in E. destruct E as [_ E].
        apply Nat.ltb_lt in E. repeat split; lia.
      * exists [Net.Get (Net.Search (Classifier.artist_query name) 3)].
        destruct (negb (st =? 200)%Z); [exists None; cbn -[Nat.sub Classifier.artist_query]; repeat split; lia|].
        destruct body as [artists|]; [|exists None; cbn -[Nat.sub Classifier.artist_query]; repeat split; lia].
        cbn -[Nat.sub Classifier.artist_query].
        destruct (negb (Storage.truthy artists));
          [exists None
          |exists (Ocr.close_match (Str.strip (Str.lower name)) artists)];
          cbn -[Nat.sub Classifier.artist_query]; repeat split; lia.
  - cbn [Ocr.validate]. run_monad. unfold Net.get_search.
    destruct (Net.search svc tr (Classifier.artist_query name) 3)
      as [|st body].
    + exists [Net.Get (Net.Search (Classifier.artist_query name) 3)], None.
      cbn -[Nat.sub Classifier.artist_query]. repeat split; lia.
    + destruct ((st =? 503)%Z && Nat.ltb r 3) eqn:E.
      * destruct (IH (r + 1)
                    ((tr ++ [Net.Get (Net.Search (Classifier.artist_query name) 3)])
                       ++ [Net.Sleep 20])) as (delta & out & Heq & Hr & Hb).
        exists ([Net.Get (Net.Search (Classifier.artist_query name) 3);
                 Net.Sleep 20] ++ delta), out.
        rewrite Heq. rewrite <- !app_assoc.
        apply andb_prop in E. destruct E as [_ E].
        apply Nat.ltb_lt in E.
        rewrite requests_app, backoffs_app. cbn -[Nat.sub Classifier.artist_query]. repeat split; lia.
      * exists [Net.Get (Net.Search (Classifier.artist_query name) 3)].
        destruct (negb (st =? 200)%Z); [exists None; cbn -[Nat.sub Classifier.artist_query]; repeat split; lia|].
        destruct body as [artists|]; [|exists None; cbn -[Nat.sub Classifier.artist_query]; repeat split; lia].
        cbn -[Nat.sub Classifier.artist_query].
        destruct (negb (Storage.truthy artists));
          [exists None
          |exists (Ocr.close_match (Str.strip (Str.lower name)) artists)];
          cbn -[Nat.sub Classifier.artist_query]; repeat split; lia.
Qed.

(** C3 on the code.  The validator of [ocr.py] caps its retries: for every
    service it issues at most 4 requests (3 retries, each after a
    2-second sleep) and returns.  [_search_artist] and [_get_artist_tags]
    have no cap: against a service that always answers 503, they issue one
    request at every level of recursion the interpreter allows, depth + 1
    in all, and end by raising RecursionError, not by reporting absence
    of data. *)
Theorem C3_classifier_retries_unbounded :
  (forall svc depth name tr,
      exists delta out,
        Ocr._validate_artist_musicbrainz svc depth name tr
          = (tr ++ delta, Net.Return out) /\
        Net.requests delta <= 4 /\ backoffs delta <= 3) /\
  (forall depth name tr,
      exists delta,
        Classifier._search_artist always_503 depth name tr
          = (tr ++ delta, Net.Raise Net.RecursionError) /\
        Net.searches delta = S depth /\ backoffs delta = S depth) /\
  (forall depth artist_id tr,
      exists delta,
        Classifier._get_artist_tags always_503 depth artist_id tr
          = (tr ++ delta, Net.Raise Net.RecursionError) /\
        Net.tag_lookups delta = S depth /\ backoffs delta = S depth).
Proof.
  split; [|split].
  - intros svc depth name tr. unfold Ocr._validate_artist_musicbrainz.
    destruct (validate_bounded svc name depth 0 tr)
      as (delta & out & Heq & Hr & Hb).
    exists delta, out. now repeat split.
  - intros depth name tr. apply search_artist_always_503.
  - intros depth artist_id tr. apply get_artist_tags_always_503.
Qed.

(** ** The requests of a batch *)

Lemma found_count_app svc d1 :
  forall seen d2,
    found_count svc seen (d1 ++ d2)
    = found_count svc seen d1 + found_count svc (seen ++ d1) d2.
Proof.
  induction d1 as [|e d1 IH]; intros seen d2; simpl.
  - now rewrite app_nil_r.
  - rewrite IH. rewrite <- app_assoc. simpl. lia.
Qed.

Section NoRetry.
Variable svc : Net.Service.
Hypothesis no_503 : never_503 svc.

(** Without a 503 the search is one request. *)
Lemma search_artist_once depth name tr :
  Classifier._search_artist svc depth name tr
  = (tr ++ [Net.Get (Net.Search (Classifier.artist_query name) 1)],
     search_result (Net.search svc tr (Classifier.artist_query name) 1)).
Proof.
  destruct no_503 as [Hs _].
  assert (H : forall st body,
             Net.search svc tr (Classifier.artist_query name) 1
             = Net.Response st body -> (st =? 503)%Z = false).
  { intros st body E. apply Z.eqb_neq. eapply Hs. exact E. }
  destruct depth; cbn [Classifier._search_artist]; run_monad;
    unfold Net.get_search, search_result;
    destruct (Net.search svc tr (Classifier.artist_query name) 1)
      as [|st body]; try reflexivity;
    rewrite (H st body eq_refl);
    destruct ((400 <=? st)%Z && (st <? 600)%Z); try reflexivity;
    destruct body as [[|a artists]|]; reflexivity.
Qed.

(** Without a 503 the tag lookup is one request. *)
Lemma get_artist_tags_once depth artist_id tr :
  exists out,
    Classifier._get_artist_tags svc depth artist_id tr
    = (tr ++ [Net.Get (Net.Tags artist_id)], out).
Proof.
  destruct no_503 as [_ Ht].
  assert (H : forall st body,
             Net.tags svc tr artist_id = Net.Response st body ->
             (st =? 503)%Z = false).
  { intros st body E. apply Z.eqb_neq. eapply Ht. exact E. }
  destruct depth; cbn [Classifier._get_artist_tags]; run_monad;
    unfold Net.get_tags;
    (destruct (Net.tags svc tr artist_id) as [|st body];
     [eexists; reflexivity|]);
    rewrite (H st body eq_refl);
    (destruct (negb (st =? 200)%Z); [eexists; reflexivity|]);
    destruct body; eexists; reflexivity.
Qed.

Lemma classify_artist_requests depth name tr :
  exists out,
    Classifier.classify_artist svc depth name tr
    = (tr ++ classify_requests svc name tr, out).
Proof.
  unfold Classifier.classify_artist, classify_requests, found_id, Net.bind.
  rewrite search_artist_once.
  destruct (search_result
              (Net.search svc tr (Classifier.artist_query name) 1))
    as [[hit|]|e]; try (unfold Net.ret; eexists; reflexivity).
  destruct (Net.id hit) as [artist_id|]; [|unfold Net.ret; eauto].
  destruct (Str.nonempty artist_id); cbn [negb]; [|unfold Net.ret; eauto].
  destruct (get_artist_tags_once depth artist_id
              (tr ++ [Net.Get (Net.Search (Classifier.artist_query name) 1)]))
    as [out ->].
  rewrite <- app_assoc. destruct out; unfold Net.ret; eauto.
Qed.

Lemma classify_requests_counts name tr :
  Net.searches (classify_requests svc name tr) = 1 /\
  Net.tag_lookups (classify_requests svc name tr) <= 1 /\
  Net.tag_lookups (classify_requests svc name tr)
    = found_count svc tr (classify_requests svc name tr).
Proof.
  unfold classify_requests.
  cbn [found_count].
  destruct (found_id svc tr (Classifier.artist_query name) 1);
    cbn; repeat split; lia.
Qed.

(** One iteration on a name that is not skipped: the requests of its
    classification, then the progress report and the pause. *)
Lemma classify_step_requests depth data prog total cls i name tr :
  Classifier.already_classified data name = false ->
  exists delta cls',
    Classifier.classify_step svc depth data prog total cls i name tr
      = (tr ++ delta, Net.Return cls') /\
    Net.searches delta = 1 /\
    Net.tag_lookups delta <= 1 /\
    Net.tag_lookups delta = found_count svc tr delta.
Proof.
  intros Hnew. unfold Classifier.classify_step. rewrite Hnew.
  destruct (classify_artist_requests depth name tr) as [out Hout].
  destruct (classify_requests_counts name tr) as (Hs & Hle & Hf).
  exists (classify_requests svc name tr
          ++ (if prog then [Net.Progress name i total] else [])
          ++ [Net.Sleep 11]).
  set (tail := (if prog then [Net.Progress name i total] else [])
               ++ [Net.Sleep 11]).
  assert (Hrest : forall seen, found_count svc seen tail = 0)
    by (intros seen; unfold tail; destruct prog; reflexivity).
  assert (Hts : Net.searches tail = 0)
    by (unfold tail; destruct prog; reflexivity).
  assert (Htt : Net.tag_lookups tail = 0)
    by (unfold tail; destruct prog; reflexivity).
  rewrite searches_app, tag_lookups_app, found_count_app, Hrest, Hs, Hts,
    Htt, <- Hf.
  run_monad. rewrite Hout. unfold tail.
  destruct out as [c|e]; destruct prog;
    cbn -[classify_requests Net.searches Net.tag_lookups found_count];
    rewrite <- ?app_assoc;
    eexists; (split; [reflexivity|]); repeat split; lia.
Qed.

Lemma classify_loop_requests depth data prog total names :
  (forall n, In n names -> Classifier.already_classified data n = false) ->
  forall cls i tr,
    exists delta cls',
      Classifier.classify_loop svc depth data prog total cls i names tr
        = (tr ++ delta, Net.Return cls') /\
      Net.searches delta = List.length names /\
      Net.tag_lookups delta <= List.length names /\
      Net.tag_lookups delta = found_count svc tr delta.
Proof.
  induction names as [|name names IH]; intros Hnew cls i tr.
  - exists [], cls. cbn. rewrite app_nil_r. now repeat split.
  - cbn [Classifier.classify_loop]. unfold Net.bind.
    destruct (@classify_step_requests depth data prog total cls i name tr)
      as (d1 & cls1 & -> & Hs1 & Hle1 & Hf1).
    { apply Hnew. now left. }
    destruct (IH (fun n Hn => Hnew n (or_intror Hn)) cls1 (S i) (tr ++ d1))
      as (d2 & cls2 & -> & Hs2 & Hle2 & Hf2).
    exists (d1 ++ d2), cls2.
    rewrite searches_app, tag_lookups_app, found_count_app, <- app_assoc.
    cbn [List.length]. repeat split; lia.
Qed.
End NoRetry.

Lemma requests_split tr :
  Net.requests tr = Net.searches tr + Net.tag_lookups tr.
Proof.
  unfold Net.requests, Net.searches, Net.tag_lookups.
  induction tr as [|[[q l|i]|t|n d total] tr IH]; simpl; lia.
Qed.

(** C6: a batch of N names, none of which is skipped as already classified
    with real genres, against a service that never answers 503, returns
    after exactly N search requests and at most N tag requests, one for
    each search that found an artist carrying an id; a trace holds no other
    kind of request.  This holds whether or not a request raises. *)
Theorem C6_batch_requests :
  forall (svc : Net.Service) (depth : nat) (names : list string)
         (existing_data : Storage.Data) (on_progress : bool),
    never_503 svc ->
    (forall n, In n names ->
               Classifier.already_classified existing_data n = false) ->
    exists tr classifications,
      Net.run (Classifier.classify_batch svc depth names existing_data
                                         on_progress)
        = (tr, Net.Return classifications) /\
      Net.searches tr = List.length names /\
      Net.tag_lookups tr <= List.length names /\
      Net.tag_lookups tr = found_count svc [] tr /\
      Net.requests tr = Net.searches tr + Net.tag_lookups tr.
Proof.
  intros svc depth names data prog H503 Hnew.
  unfold Net.run, Classifier.classify_batch.
  destruct (@classify_loop_requests svc H503 depth data prog
              (List.length names) names Hnew [] 1 [])
    as (delta & cls & Heq & Hs & Hle & Hf).
  exists delta, cls. rewrite Heq. cbn [app].
  repeat split; try assumption. apply requests_split.
Qed.

Lemma C6_batch_requests_witness :
  exists tr classifications,
    Net.run (Classifier.classify_batch friendly 1000 ["Daft Punk"; "Justice"]
                                       Storage._empty_data true)
      = (tr, Net.Return classifications) /\
    Net.searches tr = 2 /\
    Net.tag_lookups tr <= 2 /\
    Net.tag_lookups tr = found_count friendly [] tr /\
    Net.requests tr = Net.searches tr + Net.tag_lookups tr.
Proof.
  apply (@C6_batch_requests friendly 1000 ["Daft Punk"; "Justice"]
           Storage._empty_data true).
  - split.
    + intros tr q l st body H. simpl in H. injection H as <- _. lia.
    + intros tr i st body H. simpl in H. injection H as <- _. lia.
  - intros n _. reflexivity.
Defined.

(** ** ocr.py: the fuzzy validator *)

Lemma zip_diffs_mismatches shorter :
  forall longer diffs,
    Ocr.zip_diffs shorter longer diffs = diffs + mismatches shorter longer.
Proof.
  induction shorter as [|c1 s1 IH]; intros [|c2 s2] diffs;
    cbn [Ocr.zip_diffs mismatches]; try lia.
  rewrite IH.
  destruct (N.eqb_spec c1 c2), (N.eq_dec c1 c2); try contradiction; lia.
Qed.

Lemma mismatches_sym a : forall b, mismatches a b = mismatches b a.
Proof.
  induction a as [|c1 a IH]; intros [|c2 b]; cbn [mismatches];
    try reflexivity.
  rewrite IH.
  destruct (N.eq_dec c1 c2), (N.eq_dec c2 c1); try reflexivity;
    exfalso; auto.
Qed.

(** The code's check is the specification's bounded edit-distance check. *)
Lemma fuzzy_match_spec a b :
  Ocr._fuzzy_match a b = true <-> bounded_edit_check a b.
Proof.
  unfold Ocr._fuzzy_match, bounded_edit_check, length_difference,
    position_mismatches, Str.len.
  set (la := List.length (Str.chars a)). set (lb := List.length (Str.chars b)).
  destruct (Nat.leb_spec la lb) as [Hle|Hgt].
  - destruct (Nat.ltb_spec 2 (lb - la)).
    + split; [discriminate|lia].
    + rewrite zip_diffs_mismatches, Nat.leb_le. lia.
  - destruct (Nat.ltb_spec 2 (la - lb)).
    + split; [discriminate|lia].
    + rewrite zip_diffs_mismatches, Nat.leb_le.
      rewrite (mismatches_sym (Str.chars b) (Str.chars a)). lia.
Qed.

(** One round of the loop accepts exactly the candidates the
    specification accepts. *)
Lemma candidate_accepted_spec q (h : Net.Hit) :
  (((90 <=? Net.score h)%Z
    && String.eqb (Str.strip (Str.lower (Net.name h))) (normalized q))
   || ((80 <=? Net.score h)%Z
       && (String.eqb (Str.strip (Str.lower (Net.name h))) (normalized q)
           || Ocr._fuzzy_match (normalized q)
                (Str.strip (Str.lower (Net.name h))))))%bool = true
  <-> accepted_by_spec q h.
Proof.
  unfold accepted_by_spec. rewrite strip_lower_normalized.
  rewrite orb_true_iff, !andb_true_iff, orb_true_iff, !Z.leb_le,
    String.eqb_eq, fuzzy_match_spec.
  reflexivity.
Qed.

Lemma close_match_spec q :
  forall hits,
    match Ocr.close_match (normalized q) hits with
    | Some c =>
        exists pre h post,
          hits = pre ++ h :: post /\ c = Net.name h /\
          accepted_by_spec q h /\
          Forall (fun h' => ~ accepted_by_spec q h') pre
    | None => Forall (fun h => ~ accepted_by_spec q h) hits
    end.
Proof.
  induction hits as [|h hits IH]; cbn [Ocr.close_match]; [constructor|].
  pose proof (candidate_accepted_spec q h) as Hacc.
  destruct ((90 <=? Net.score h)%Z
            && String.eqb (Str.strip (Str.lower (Net.name h))) (normalized q))
    eqn:E1.
  - exists [], h, hits. repeat split; [|constructor].
    apply Hacc. reflexivity.
  - destruct ((80 <=? Net.score h)%Z
              && (String.eqb (Str.strip (Str.lower (Net.name h)))
                             (normalized q)
                  || Ocr._fuzzy_match (normalized q)
                       (Str.strip (Str.lower (Net.name h))))) eqn:E2.
    + exists [], h, hits. repeat split; [|constructor].
      apply Hacc. reflexivity.
    + assert (Hno : ~ accepted_by_spec q h).
      { intros Hyes. apply Hacc in Hyes. discriminate Hyes. }
      destruct (Ocr.close_match (normalized q) hits) as [c|].
      * destruct IH as (pre & h' & post & -> & -> & Hh' & Hpre).
        exists (h :: pre), h', post. repeat split; auto.
      * constructor; assumption.
Qed.

Section Validator.
Variables (svc : Net.Service) (name : string).

Let query := Classifier.artist_query name.

(** A 200 answer is decided by the first close match among its
    candidates, at any retry. *)
Lemma validate_on_200 depth retries tr hits :
  Net.search svc tr query 3 = Net.Response 200 (Some hits) ->
  Ocr.validate svc depth name retries tr
  = (tr ++ [Net.Get (Net.Search query 3)],
     Net.Return (Ocr.close_match (normalized name) hits)).
Proof.
  intros H. rewrite <- strip_lower_normalized.
  destruct depth; cbn [Ocr.validate]; run_monad; unfold Net.get_search;
    fold query; rewrite H; cbn -[Classifier.artist_query];
    destruct hits; reflexivity.
Qed.

(** A request that fails in transport gives None. *)
Lemma validate_on_failure depth retries tr :
  Net.search svc tr query 3 = Net.Failed ->
  Ocr.validate svc depth name retries tr
  = (tr ++ [Net.Get (Net.Search query 3)], Net.Return None).
Proof.
  intros H.
  destruct depth; cbn [Ocr.validate]; run_monad; unfold Net.get_search;
    fold query; rewrite H; reflexivity.
Qed.

(** Any other status than 200 and 503 gives None. *)
Lemma validate_on_error depth retries tr st body :
  Net.search svc tr query 3 = Net.Response st body ->
  st <> 200%Z -> st <> 503%Z ->
  Ocr.validate svc depth name retries tr
  = (tr ++ [Net.Get (Net.Search query 3)], Net.Return None).
Proof.
  intros H H200 H503.
  apply Z.eqb_neq in H200. apply Z.eqb_neq in H503.
  destruct depth; cbn [Ocr.validate]; run_monad; unfold Net.get_search;
    fold query; rewrite H; cbn -[Classifier.artist_query];
    rewrite H200, H503; reflexivity.
Qed.

(** A name is only ever returned for a close match of a 200 answer. *)
Lemma validate_sound :
  forall depth retries tr tr' c,
    Ocr.validate svc depth name retries tr = (tr', Net.Return (Some c)) ->
    exists seen hits,
      Net.search svc seen query 3 = Net.Response 200 (Some hits) /\
      Ocr.close_match (normalized name) hits = Some c.
Proof.
  induction depth as [|depth IH]; intros r tr tr' c;
    cbn [Ocr.validate]; run_monad; unfold Net.get_search; fold query;
    destruct (Net.search svc tr query 3) as [|st body] eqn:E;
    try discriminate;
    destruct ((st =? 503)%Z && Nat.ltb r 3);
    cbn -[Classifier.artist_query]; try discriminate.
  1, 3: destruct (Z.eqb_spec st 200) as [->|Hst];
    cbn -[Classifier.artist_query]; [|discriminate];
    destruct body as [[|h hits]|]; cbn -[Classifier.artist_query];
    try discriminate;
    intros [= _ Hc]; exists tr, (h :: hits);
    (split; [exact E | rewrite <- strip_lower_normalized; exact Hc]).
  specialize (IH (r + 1)
                 ((tr ++ [Net.Get (Net.Search query 3)]) ++ [Net.Sleep 20])).
  destruct (Ocr.validate svc depth name (r + 1)
              ((tr ++ [Net.Get (Net.Search query 3)]) ++ [Net.Sleep 20]))
    as [tr1 [out|e]] eqn:Ev; [|discriminate].
  intros [= _ ->]. eapply IH. reflexivity.
Qed.
End Validator.

(** C4: the code's per-candidate test is the acceptance rule of the
    specification ((a) score >= 90 and equal normalized names, or (b)
    score >= 80 and equal names or the bounded edit-distance check); the
    validator answers a 200 response with the service's spelling of the
    first accepted candidate, or None when there is none; a transport
    failure gives None; it never raises; and a name it returns is always
    the service's name of an accepted candidate of a 200 response.  On
    samples: names are compared without their case and the whitespace
    around them, character by character, so that "Motorhead" is one
    mismatch away from "Motörhead"; at score 85 the service's "Motörhead"
    is accepted for it, and is what the validator answers to " MOTORHEAD  ",
    but not at score 79, and a name that is further away is not
    accepted. *)
Theorem C4_fuzzy_validator :
  (forall a b, Ocr._fuzzy_match a b = true <-> bounded_edit_check a b) /\
  (forall q hits,
      match Ocr.close_match (normalized q) hits with
      | Some c =>
          exists pre h post,
            hits = pre ++ h :: post /\ c = Net.name h /\
            accepted_by_spec q h /\
            Forall (fun h' => ~ accepted_by_spec q h') pre
      | None => Forall (fun h => ~ accepted_by_spec q h) hits
      end) /\
  (forall svc depth name retries tr hits,
      Net.search svc tr (Classifier.artist_query name) 3
        = Net.Response 200 (Some hits) ->
      Ocr.validate svc depth name retries tr
      = (tr ++ [Net.Get (Net.Search (Classifier.artist_query name) 3)],
         Net.Return (Ocr.close_match (normalized name) hits))) /\
  (forall svc depth name retries tr,
      Net.search svc tr (Classifier.artist_query name) 3 = Net.Failed ->
      Ocr.validate svc depth name retries tr
      = (tr ++ [Net.Get (Net.Search (Classifier.artist_query name) 3)],
         Net.Return None)) /\
  (forall svc depth name tr,
      exists tr' out,
        Ocr._validate_artist_musicbrainz svc depth name tr
        = (tr', Net.Return out)) /\
  (forall svc depth name tr tr' c,
      Ocr._validate_artist_musicbrainz svc depth name tr
        = (tr', Net.Return (Some c)) ->
      exists seen hits h,
        Net.search svc seen (Classifier.artist_query name) 3
          = Net.Response 200 (Some hits) /\
        In h hits /\ accepted_by_spec name h /\ c = Net.name h) /\
  (normalized "  MOTÖRHEAD " = "motörhead" /\
   normalized " daft PUNK" = normalized "Daft Punk" /\
   length_difference "motorhead" "motörhead" = 0 /\
   position_mismatches "motorhead" "motörhead" = 1 /\
   length_difference "daft" "daft punk" = 5 /\
   accepted_by_spec "Motorhead" (hit "Motörhead" 85) /\
   ~ accepted_by_spec "Motorhead" (hit "Motörhead" 79) /\
   ~ accepted_by_spec "Motorhead" (hit "Motley Crue" 100) /\
   accepted_by_spec " daft PUNK" (hit "Daft Punk" 90) /\
   ~ accepted_by_spec "daft" (hit "Daft Punk" 100) /\
   Ocr._validate_artist_musicbrainz motorhead 1000 " MOTORHEAD  " []
   = ([Net.Get (Net.Search (Classifier.artist_query " MOTORHEAD  ") 3)],
      Net.Return (Some "Motörhead"))).
Proof.
  assert (Samples :
            normalized "  MOTÖRHEAD " = "motörhead" /\
            normalized " daft PUNK" = normalized "Daft Punk" /\
            length_difference "motorhead" "motörhead" = 0 /\
            position_mismatches "motorhead" "motörhead" = 1 /\
            length_difference "daft" "daft punk" = 5 /\
            accepted_by_spec "Motorhead" (hit "Motörhead" 85) /\
            ~ accepted_by_spec "Motorhead" (hit "Motörhead" 79) /\
            ~ accepted_by_spec "Motorhead" (hit "Motley Crue" 100) /\
            accepted_by_spec " daft PUNK" (hit "Daft Punk" 90) /\
            ~ accepted_by_spec "daft" (hit "Daft Punk" 100) /\
            Ocr._validate_artist_musicbrainz motorhead 1000 " MOTORHEAD  " []
            = ([Net.Get
                  (Net.Search (Classifier.artist_query " MOTORHEAD  ") 3)],
               Net.Return (Some "Motörhead"))).
  { repeat match goal with |- _ /\ _ => split end;
      try (vm_compute; reflexivity);
      try (apply candidate_accepted_spec; vm_compute; reflexivity);
      intros H; apply candidate_accepted_spec in H; vm_compute in H;
      discriminate H. }
  split; [exact fuzzy_match_spec|].
  split; [exact close_match_spec|].
  split; [intros; now apply validate_on_200|].
  split; [intros; now apply validate_on_failure|].
  split; [|split].
  - intros svc depth name tr.
    destruct (validate_bounded svc name depth 0 tr) as (delta & out & H & _).
    eauto.
  - intros svc depth name tr tr' c H.
    destruct (validate_sound svc name depth 0 tr H) as (seen & hits & Hs & Hc).
    pose proof (close_match_spec name hits) as Hspec.
    rewrite Hc in Hspec.
    destruct Hspec as (pre & h & post & -> & -> & Hacc & _).
    exists seen, (pre ++ h :: post), h.
    repeat split; auto. apply in_elt.
  - exact Samples.
Qed.

Lemma C4_fuzzy_validator_witness :
  Ocr.validate friendly 1000 "daft pumk" 0 []
  = ([Net.Get (Net.Search (Classifier.artist_query "daft pumk") 3)],
     Net.Return (Some "Daft Punk")).
Proof.
  exact (proj1 (proj2 (proj2 C4_fuzzy_validator))
               friendly 1000 "daft pumk" 0 [] _ eq_refl).
Defined.

Unset Implicit Arguments.

(** ** Binary64 rounding never invents a NaN

    The specification of the primitive floats ([SpecFloat]) rounds a
    mantissa and an exponent with [binary_round_aux]; what follows bounds
    its result for the non-negative mantissas of the recommender. *)

Section Binary64.
Local Open Scope Z_scope.


Lemma digits2_pos_bounds (p : positive) :
  2 ^ (Zpos (digits2_pos p) - 1) <= Zpos p < 2 ^ Zpos (digits2_pos p).
Proof.
  induction p as [p IH|p IH|]; cbn [digits2_pos].
  - rewrite Pos2Z.inj_succ, Z.pow_succ_r by lia.
    replace (Z.succ (Zpos (digits2_pos p)) - 1)
      with (Z.succ (Zpos (digits2_pos p) - 1)) by lia.
    rewrite Z.pow_succ_r by lia. lia.
  - rewrite Pos2Z.inj_succ, Z.pow_succ_r by lia.
    replace (Z.succ (Zpos (digits2_pos p)) - 1)
      with (Z.succ (Zpos (digits2_pos p) - 1)) by lia.
    rewrite Z.pow_succ_r by lia. lia.
  - cbn. lia.
Qed.

Lemma Zdigits2_nonneg m : 0 <= Zdigits2 m.
Proof. destruct m; cbn; lia. Qed.

Lemma Zdigits2_lower m : 0 < m -> 2 ^ (Zdigits2 m - 1) <= m.
Proof.
  destruct m as [|p|p]; try lia. intros _. apply digits2_pos_bounds.
Qed.

Lemma Zdigits2_upper m k : 0 <= m < 2 ^ k -> 0 <= k -> Zdigits2 m <= k.
Proof.
  destruct m as [|p|p]; cbn [Zdigits2]; try lia. intros [_ H] Hk.
  pose proof (digits2_pos_bounds p) as [Hlo _].
  destruct (Z_le_gt_dec (Zpos (digits2_pos p)) k) as [|Hgt]; [assumption|].
  exfalso.
  assert (2 ^ k <= 2 ^ (Zpos (digits2_pos p) - 1))
    by (apply Z.pow_le_mono_r; lia).
  lia.
Qed.

Lemma shr_1_div2 mrs :
  0 <= shr_m mrs -> shr_m (shr_1 mrs) = shr_m mrs / 2.
Proof.
  destruct mrs as [m r s]. cbn [shr_m]. intros Hm.
  rewrite <- Z.div2_div.
  destruct m as [|[p|p|]|p]; try reflexivity; lia.
Qed.

Lemma iter_shr_1 (p : positive) :
  forall mrs,
    0 <= shr_m mrs ->
    shr_m (iter_pos shr_1 p mrs) = shr_m mrs / 2 ^ Zpos p.
Proof.
  induction p as [p IH|p IH|]; intros mrs Hm; cbn [iter_pos].
  - assert (H1 : 0 <= shr_m (shr_1 mrs))
      by (rewrite shr_1_div2 by assumption; apply Z.div_pos; lia).
    assert (H2 : 0 <= shr_m (iter_pos shr_1 p (shr_1 mrs)))
      by (rewrite IH by assumption; apply Z.div_pos; lia).
    rewrite IH, IH, shr_1_div2 by assumption.
    rewrite !Z.div_div by lia.
    f_equal.
    replace (Zpos p~1) with (1 + Zpos p + Zpos p) by lia.
    rewrite !Z.pow_add_r by lia. lia.
  - assert (H2 : 0 <= shr_m (iter_pos shr_1 p mrs))
      by (rewrite IH by assumption; apply Z.div_pos; lia).
    rewrite IH, IH by assumption.
    rewrite !Z.div_div by lia.
    f_equal.
    replace (Zpos p~0) with (Zpos p + Zpos p) by lia.
    rewrite !Z.pow_add_r by lia. lia.
  - rewrite shr_1_div2 by assumption. reflexivity.
Qed.

Lemma shr_m_of_loc m l : shr_m (shr_record_of_loc m l) = m.
Proof. destruct l as [|[]]; reflexivity. Qed.

(** One normalising shift: the mantissa stays non-negative and does not
    grow, the exponent does not shrink; above [emin] a positive mantissa
    stays positive and the exponent grows by less than the number of
    digits. *)
Lemma shr_fexp_bounds m e l :
  0 <= m ->
  let '(mrs, e') := shr_fexp prec emax m e l in
  0 <= shr_m mrs <= m /\ e <= e' /\
  (-1074 <= e -> 0 < m -> 0 < shr_m mrs /\ e' <= e + Zdigits2 m).
Proof.
  intros Hm. unfold shr_fexp, shr, fexp, emin, prec, emax.
  pose proof (Zdigits2_nonneg m) as Hd.
  destruct (Z.max (Zdigits2 m + e - 53) (3 - 1024 - 53) - e) as [|n|n] eqn:En;
    rewrite ?shr_m_of_loc.
  - repeat split; lia.
  - rewrite iter_shr_1 by (rewrite shr_m_of_loc; assumption).
    rewrite shr_m_of_loc.
    assert (Hpow : 0 < 2 ^ Zpos n) by (apply Z.pow_pos_nonneg; lia).
    repeat split.
    + apply Z.div_pos; lia.
    + apply Z.div_le_upper_bound; nia.
    + lia.
    + apply Z.div_str_pos. split; [assumption|].
      pose proof (Zdigits2_lower m ltac:(assumption)) as Hlo.
      assert (2 ^ Zpos n <= 2 ^ (Zdigits2 m - 1))
        by (apply Z.pow_le_mono_r; lia).
      lia.
    + lia.
  - repeat split; lia.
Qed.

Lemma round_nearest_even_bounds m l :
  m <= round_nearest_even m l <= m + 1.
Proof.
  destruct l as [|[]]; cbn [round_nearest_even]; try lia.
  destruct (Z.even m); lia.
Qed.

Lemma binary_round_aux_nonneg s m e l :
  0 <= m -> rounded s e (binary_round_aux prec emax s m e l).
Proof.
  intros Hm. unfold binary_round_aux.
  pose proof (shr_fexp_bounds m e l Hm) as H1.
  destruct (shr_fexp prec emax m e l) as [mrs1 e1].
  destruct H1 as ((H1lo & H1hi) & H1e & _).
  pose proof (round_nearest_even_bounds (shr_m mrs1)
                (loc_of_shr_record mrs1)) as Hr.
  set (m1 := round_nearest_even (shr_m mrs1) (loc_of_shr_record mrs1)) in *.
  pose proof (shr_fexp_bounds m1 e1 loc_Exact ltac:(lia)) as H2.
  destruct (shr_fexp prec emax m1 e1 loc_Exact) as [mrs2 e2].
  destruct H2 as ((H2lo & H2hi) & H2e & _).
  destruct (shr_m mrs2) as [|p|p]; try lia.
  - constructor.
  - destruct (e2 <=? emax - prec); constructor. lia.
Qed.

(** Above [emin] a positive mantissa never rounds to zero. *)
Lemma binary_round_aux_pos s m e l :
  0 < m -> -1074 <= e ->
  match binary_round_aux prec emax s m e l with
  | S754_finite s' _ e' => s' = s /\ e <= e'
  | S754_infinity s' => s' = s
  | _ => False
  end.
Proof.
  intros Hm He. unfold binary_round_aux.
  pose proof (shr_fexp_bounds m e l ltac:(lia)) as H1.
  destruct (shr_fexp prec emax m e l) as [mrs1 e1].
  destruct H1 as ((H1lo & H1hi) & H1e & H1p).
  destruct (H1p He Hm) as [H1pos _].
  pose proof (round_nearest_even_bounds (shr_m mrs1)
                (loc_of_shr_record mrs1)) as Hr.
  set (m1 := round_nearest_even (shr_m mrs1) (loc_of_shr_record mrs1)) in *.
  pose proof (shr_fexp_bounds m1 e1 loc_Exact ltac:(lia)) as H2.
  destruct (shr_fexp prec emax m1 e1 loc_Exact) as [mrs2 e2].
  destruct H2 as ((H2lo & H2hi) & H2e & H2p).
  destruct (H2p ltac:(lia) ltac:(lia)) as [H2pos _].
  destruct (shr_m mrs2) as [|p|p]; try lia.
  destruct (e2 <=? emax - prec); [split|]; try reflexivity. lia.
Qed.

(** A positive mantissa below [2 ^ k], with an exponent between [emin] and
    0, rounds to a finite number when [2 * k + 1] stays below the largest
    exponent. *)
Lemma binary_round_aux_finite s m e l k :
  0 < m < 2 ^ k -> 0 <= k -> 2 * k + 1 <= 971 -> -1074 <= e <= 0 ->
  exists m' e',
    binary_round_aux prec emax s m e l = S754_finite s m' e' /\ e <= e'.
Proof.
  intros Hm Hk Hk' He. unfold binary_round_aux.
  pose proof (shr_fexp_bounds m e l ltac:(lia)) as H1.
  destruct (shr_fexp prec emax m e l) as [mrs1 e1].
  destruct H1 as ((H1lo & H1hi) & H1e & H1p).
  destruct (H1p ltac:(lia) ltac:(lia)) as [H1pos H1up].
  pose proof (round_nearest_even_bounds (shr_m mrs1)
                (loc_of_shr_record mrs1)) as Hr.
  set (m1 := round_nearest_even (shr_m mrs1) (loc_of_shr_record mrs1)) in *.
  pose proof (shr_fexp_bounds m1 e1 loc_Exact ltac:(lia)) as H2.
  destruct (shr_fexp prec emax m1 e1 loc_Exact) as [mrs2 e2].
  destruct H2 as ((H2lo & H2hi) & H2e & H2p).
  destruct (H2p ltac:(lia) ltac:(lia)) as [H2pos H2up].
  assert (Hd : Zdigits2 m <= k) by (apply Zdigits2_upper; lia).
  assert (Hd1 : Zdigits2 m1 <= k + 1).
  { apply Zdigits2_upper; [|lia]. rewrite Z.pow_add_r by lia. lia. }
  destruct (shr_m mrs2) as [|p|p]; try lia.
  unfold emax, prec.
  destruct (Z.leb_spec e2 (1024 - 53)); [|lia].
  exists p, e2. split; [reflexivity|lia].
Qed.

(** ** The floats of the recommender *)

Lemma iter_xO_pow2 (p d : positive) :
  Zpos (Pos.iter xO p d) = Zpos p * 2 ^ Zpos d.
Proof.
  induction d as [|d IH] using Pos.peano_ind.
  - cbn. lia.
  - rewrite Pos.iter_succ, Pos2Z.inj_xO, IH, Pos2Z.inj_succ,
      Z.pow_succ_r by lia.
    lia.
Qed.

(** An [int] converts to zero or to a finite positive float whose exponent
    is at least -52. *)
Lemma of_uint63_shape (n : int) :
  match Prim2SF (of_uint63 n) with
  | S754_zero false => True
  | S754_finite false _ e => -52 <= e
  | _ => False
  end.
Proof.
  rewrite of_uint63_spec.
  pose proof (Uint63.to_Z_bounded n) as Hn.
  change wB with (2 ^ 63) in Hn.
  destruct (Uint63.to_Z n) as [|p|p]; cbn [binary_normalize];
    [exact I| |lia].
  unfold binary_round, shl_align.
  pose proof (digits2_pos_bounds p) as Hd.
  assert (Hfexp : -52 <= fexp prec emax (Zpos (digits2_pos p) + 0))
    by (unfold fexp, emin, prec, emax; lia).
  assert (Hfexp' : -1074 <= fexp prec emax (Zpos (digits2_pos p) + 0))
    by lia.
  assert (Hp : 0 < Zpos p < 2 ^ 116) by lia.
  destruct (fexp prec emax (Zpos (digits2_pos p) + 0) - 0) as [|d|d] eqn:Ed.
  - destruct (@binary_round_aux_finite false (Zpos p) 0 loc_Exact 116)
      as (m' & e' & -> & He); lia.
  - destruct (@binary_round_aux_finite false (Zpos p) 0 loc_Exact 116)
      as (m' & e' & -> & He); lia.
  - assert (Hd52 : Zpos d <= 52) by lia.
    assert (H52 : 2 ^ Zpos d <= 2 ^ 52) by (apply Z.pow_le_mono_r; lia).
    assert (H0 : 0 < 2 ^ Zpos d) by (apply Z.pow_pos_nonneg; lia).
    assert (Hm : 0 < Zpos (Pos.iter xO p d) < 2 ^ 116).
    { rewrite iter_xO_pow2. split; [lia|].
      change (2 ^ 116) with (2 ^ 63 * 2 ^ 53).
      change (2 ^ 52) with 4503599627370496 in H52.
      change (2 ^ 53) with 9007199254740992.
      change (2 ^ 63) with 9223372036854775808 in *.
      nia. }
    destruct (@binary_round_aux_finite false (Zpos (Pos.iter xO p d))
                (fexp prec emax (Zpos (digits2_pos p) + 0)) loc_Exact 116)
      as (m' & e' & -> & He); lia.
Qed.

(** The square root of a converted [int] is zero, or positive with an
    exponent of at least -78. *)
Lemma sqrt_of_uint63_shape (n : int) :
  match Prim2SF (PrimFloat.sqrt (of_uint63 n)) with
  | S754_zero false => True
  | x => positive_from (-78) x
  end.
Proof.
  rewrite sqrt_spec. unfold SF64sqrt.
  pose proof (of_uint63_shape n) as Hx.
  destruct (Prim2SF (of_uint63 n)) as [[|]|[|]| |[|] m e]; try contradiction;
    cbn [SFsqrt]; [exact I|].
  unfold SFsqrt_core_binary.
  set (e' := Z.min (fexp prec emax
                      (Z.div2 (Zdigits2 (Zpos m) + e + 1))) (Z.div2 e)).
  assert (He' : -78 <= e').
  { unfold e', fexp, emin, prec, emax. rewrite !Z.div2_div.
    assert (1 <= Zdigits2 (Zpos m)) by (cbn [Zdigits2]; lia).
    assert (-26 <= e / 2) by (apply Z.div_le_lower_bound; lia).
    assert (-25 <= (Zdigits2 (Zpos m) + e + 1) / 2)
      by (apply Z.div_le_lower_bound; lia).
    lia. }
  set (m' := match e - 2 * e' with
             | 0 => Zpos m
             | Zpos _ => Z.shiftl (Zpos m) (e - 2 * e')
             | Zneg _ => 0
             end).
  pose proof (Z.sqrtrem_spec m') as Hs.
  destruct (Z.sqrtrem m') as [q r] eqn:Eq.
  assert (Hq : 0 <= q).
  { replace q with (fst (Z.sqrtrem m')) by (rewrite Eq; reflexivity).
    rewrite Z.sqrtrem_sqrt. apply Z.sqrt_nonneg. }
  match goal with
  | |- context [binary_round_aux prec emax false q e' ?l] =>
      destruct (binary_round_aux_nonneg false q e' l Hq) as [|m2 e2 He2|]
  end; cbn; try exact I. lia.
Qed.

Lemma is_zero_false_positive lo (x : float) :
  App.is_zero x = false ->
  match Prim2SF x with
  | S754_zero false => True
  | y => positive_from lo y
  end ->
  positive_from lo (Prim2SF x).
Proof.
  unfold App.is_zero. rewrite eqb_spec.
  change (Prim2SF 0%float) with (S754_zero false).
  destruct (Prim2SF x) as [[|]|[|]| |[|] m e]; cbn; try discriminate; auto.
Qed.

(** The product of two positive floats with exponents from -78 is
    positive: it does not underflow to zero. *)
Lemma mul_positive (x y : float) :
  positive_from (-78) (Prim2SF x) -> positive_from (-78) (Prim2SF y) ->
  positive_from (-156) (Prim2SF (x * y)%float).
Proof.
  rewrite mul_spec. unfold SF64mul.
  destruct (Prim2SF x) as [[|]|[|]| |[|] mx ex]; try contradiction;
    destruct (Prim2SF y) as [[|]|[|]| |[|] my ey]; try contradiction;
    cbn [SFmul positive_from xorb]; try exact (fun _ _ => I).
  intros Hx Hy.
  pose proof (@binary_round_aux_pos false (Zpos (mx * my)) (ex + ey)
                loc_Exact ltac:(lia) ltac:(lia)) as H.
  destruct (binary_round_aux prec emax false (Zpos (mx * my)) (ex + ey)
              loc_Exact) as [[|]|[|]| |[|] m e]; cbn; try tauto;
    try (now destruct H); try discriminate.
  lia.
Qed.

(** An [int] divided by a positive float is not a NaN. *)
Lemma div_nonneg (n : int) (y : float) :
  positive_from (-156) (Prim2SF y) ->
  nonneg (Prim2SF (of_uint63 n / y)%float).
Proof.
  rewrite div_spec. unfold SF64div.
  pose proof (of_uint63_shape n) as Hx.
  destruct (Prim2SF (of_uint63 n)) as [[|]|[|]| |[|] mx ex];
    try contradiction;
    destruct (Prim2SF y) as [[|]|[|]| |[|] my ey]; try contradiction;
    cbn [SFdiv nonneg xorb]; try exact (fun _ => I).
  intros _. unfold SFdiv_core_binary.
  match goal with
  | |- context [Z.div_eucl ?a ?b] =>
      assert (Hq : 0 <= fst (Z.div_eucl a b));
      [|destruct (Z.div_eucl a b) as [q r]]
  end.
  { match goal with
    | |- 0 <= fst (Z.div_eucl ?a ?b) => change (0 <= a / b)
    end.
    apply Z.div_pos; [|lia].
    match goal with
    | |- 0 <= match ?s with _ => _ end => destruct s
    end; try lia.
    apply Z.shiftl_nonneg. lia. }
  cbn [fst] in Hq.
  match goal with
  | |- context [binary_round_aux prec emax false q ?e ?l] =>
      destruct (binary_round_aux_nonneg false q e l Hq)
  end; exact I.
Qed.

(** The similarity of two vectors is always computed, without a division
    error, and is not a NaN. *)
Lemma cosine_sim_total (a b : list Z) :
  exists x, App.cosine_sim a b = App.Ok x /\ nonneg (Prim2SF x).
Proof.
  unfold App.cosine_sim, App.magnitude, App.to_float.
  set (ma := PrimFloat.sqrt _). set (mb := PrimFloat.sqrt _).
  destruct (App.is_zero ma) eqn:Ea; cbn [orb];
    [exists 0%float; split; [reflexivity|exact I]|].
  destruct (App.is_zero mb) eqn:Eb; cbn [orb];
    [exists 0%float; split; [reflexivity|exact I]|].
  assert (Ha : positive_from (-78) (Prim2SF ma)).
  { apply is_zero_false_positive; [exact Ea|]. apply sqrt_of_uint63_shape. }
  assert (Hb : positive_from (-78) (Prim2SF mb)).
  { apply is_zero_false_positive; [exact Eb|]. apply sqrt_of_uint63_shape. }
  pose proof (mul_positive ma mb Ha Hb) as Hm.
  assert (Hz : App.is_zero (ma * mb)%float = false).
  { unfold App.is_zero. rewrite eqb_spec.
    change (Prim2SF 0%float) with (S754_zero false).
    destruct (Prim2SF (ma * mb)%float) as [[|]|[|]| |[|] m e];
      try contradiction; reflexivity. }
  rewrite Hz. eexists. split; [reflexivity|].
  now apply div_nonneg.
Qed.

(** The similarity of two vectors is the cosine of the counts that their
    dot products are. *)
Lemma cosine_sim_counts (a b : list Z) (n_ab n_a n_b : nat) :
  App.dot_product a b = Z.of_nat n_ab ->
  App.dot_product a a = Z.of_nat n_a ->
  App.dot_product b b = Z.of_nat n_b ->
  App.cosine_sim a b = App.Ok (cosine n_ab n_a n_b) /\
  nonneg (Prim2SF (cosine n_ab n_a n_b)).
Proof.
  intros Hab Ha Hb.
  destruct (cosine_sim_total a b) as (x & E & Hx). rewrite E.
  unfold App.cosine_sim, App.magnitude, App.to_float, App.is_zero in E.
  rewrite Hab, Ha, Hb in E.
  unfold cosine, count_to_float.
  destruct (_ || _)%bool.
  - injection E as <-. split; [reflexivity | exact Hx].
  - destruct (PrimFloat.eqb _ _); [discriminate E|].
    injection E as <-. split; [reflexivity | exact Hx].
Qed.
End Binary64.

(** ** The order of non-negative floats *)

Lemma SFltb_rank (x y : spec_float) :
  nonneg x -> nonneg y ->
  (SFltb x y = true <-> lex_lt (rank x) (rank y)).
Proof.
  unfold SFltb.
  destruct x as [sx|[|]| |[|] mx ex]; try contradiction;
    destruct y as [sy|[|]| |[|] my ey]; try contradiction;
    intros _ _; cbn [SFcompare rank lex_lt];
    try (split; [discriminate|lia]); try (split; [lia|reflexivity]);
    try (split; [reflexivity|lia]).
  rewrite Pos.compare_cont_spec. cbn [Pos.switch_Eq].
  destruct (Z.compare_spec ex ey) as [->|Hlt|Hgt].
  - destruct (Pos.compare_spec mx my) as [->|Hm|Hm];
      (split; [try discriminate; intros; lia|try reflexivity; intros; lia]).
  - split; [intros; lia|reflexivity].
  - split; [discriminate|intros; lia].
Qed.

Lemma ltb_rank (x y : float) :
  nonneg (Prim2SF x) -> nonneg (Prim2SF y) ->
  (PrimFloat.ltb x y = true <-> lex_lt (rank (Prim2SF x)) (rank (Prim2SF y))).
Proof. rewrite ltb_spec. apply SFltb_rank. Qed.

Lemma ltb_asym (x y : float) :
  nonneg (Prim2SF x) -> nonneg (Prim2SF y) ->
  PrimFloat.ltb x y = true -> PrimFloat.ltb y x = false.
Proof.
  intros Hx Hy H. apply (ltb_rank x y Hx Hy) in H.
  apply not_true_is_false. intros H'. apply (ltb_rank y x Hy Hx) in H'.
  revert H H'. unfold lex_lt.
  destruct (rank (Prim2SF x)) as [[a1 a2] a3].
  destruct (rank (Prim2SF y)) as [[b1 b2] b3]. lia.
Qed.

Lemma ltb_negtrans (x y z : float) :
  nonneg (Prim2SF x) -> nonneg (Prim2SF y) -> nonneg (Prim2SF z) ->
  PrimFloat.ltb x y = false -> PrimFloat.ltb y z = false ->
  PrimFloat.ltb x z = false.
Proof.
  intros Hx Hy Hz Hxy Hyz.
  apply not_true_is_false. intros Hxz.
  apply (ltb_rank x z Hx Hz) in Hxz.
  apply not_true_iff_false in Hxy, Hyz.
  rewrite (ltb_rank x y Hx Hy) in Hxy. rewrite (ltb_rank y z Hy Hz) in Hyz.
  revert Hxy Hyz Hxz. unfold lex_lt.
  destruct (rank (Prim2SF x)) as [[a1 a2] a3].
  destruct (rank (Prim2SF y)) as [[b1 b2] b3].
  destruct (rank (Prim2SF z)) as [[c1 c2] c3]. lia.
Qed.

(** ** The stable descending sort *)

Section SortFacts.
Variables (A K : Type) (ltb : K -> K -> bool) (key : A -> K).
Variable good : K -> Prop.
Hypothesis asym :
  forall a b, good a -> good b -> ltb a b = true -> ltb b a = false.
Hypothesis negtrans :
  forall a b c, good a -> good b -> good c ->
                ltb a b = false -> ltb b c = false -> ltb a c = false.

Let insert := PySort.insert_desc ltb key.
Let sort := PySort.sort_desc ltb key.
Let goodl (l : list A) := Forall (fun x => good (key x)) l.

Lemma insert_desc_perm x l : Permutation (insert x l) (x :: l).
Proof.
  induction l as [|y l IH]; cbn; [reflexivity|].
  destruct (ltb (key x) (key y)); [|reflexivity].
  rewrite IH. apply perm_swap.
Qed.

Lemma sort_desc_perm l : Permutation (sort l) l.
Proof.
  induction l as [|x l IH]; [reflexivity|].
  change (sort (x :: l)) with (insert x (sort l)).
  rewrite insert_desc_perm. now constructor.
Qed.

Lemma sort_desc_good l : goodl l -> goodl (sort l).
Proof.
  intros H. unfold goodl.
  eapply Permutation_Forall; [|exact H].
  symmetry. apply sort_desc_perm.
Qed.

Lemma insert_desc_sorted x l :
  good (key x) -> goodl l ->
  StronglySorted (not_below ltb key) l ->
  StronglySorted (not_below ltb key) (insert x l).
Proof.
  intros Hx Hl Hs. induction Hs as [|y l Hs IH Hy]; cbn.
  - constructor; constructor.
  - inversion Hl as [|y' l' Hgy Hgl]; subst.
    destruct (ltb (key x) (key y)) eqn:E.
    + constructor; [now apply IH|].
      eapply Permutation_Forall;
        [symmetry; apply insert_desc_perm|].
      constructor; [|exact Hy].
      unfold not_below. now apply asym.
    + constructor; [now constructor|].
      constructor; [exact E|].
      rewrite Forall_forall in *. intros z Hz.
      unfold not_below in *.
      apply negtrans with (key y); auto.
Qed.

Lemma sort_desc_sorted l :
  goodl l -> StronglySorted (not_below ltb key) (sort l).
Proof.
  induction l as [|x l IH]; intros Hl; [constructor|].
  inversion Hl; subst.
  change (sort (x :: l)) with (insert x (sort l)).
  apply insert_desc_sorted; auto. now apply sort_desc_good.
Qed.

Lemma insert_desc_stable k x l :
  good k -> good (key x) -> goodl l ->
  filter (tied ltb key k) (insert x l) = filter (tied ltb key k) (x :: l).
Proof.
  intros Hk Hx Hl. induction l as [|y l IH]; [reflexivity|].
  inversion Hl as [|y' l' Hy Hl']; subst.
  cbn [insert PySort.insert_desc].
  destruct (ltb (key x) (key y)) eqn:E; [|reflexivity].
  cbn [filter]. fold insert. rewrite (IH Hl'). cbn [filter].
  destruct (tied ltb key k x) eqn:Tx; [|reflexivity].
  destruct (tied ltb key k y) eqn:Ty; [|reflexivity].
  exfalso. unfold tied in Tx, Ty.
  apply andb_prop in Tx, Ty.
  destruct Tx as [Tx _]. destruct Ty as [_ Ty].
  apply negb_true_iff in Tx, Ty.
  assert (E' : ltb (key x) (key y) = false)
    by (apply negtrans with k; assumption).
  rewrite E' in E. discriminate E.
Qed.

Lemma sort_desc_stable k l :
  good k -> goodl l ->
  filter (tied ltb key k) (sort l) = filter (tied ltb key k) l.
Proof.
  intros Hk. induction l as [|x l IH]; intros Hl; [reflexivity|].
  inversion Hl; subst.
  change (sort (x :: l)) with (insert x (sort l)).
  rewrite insert_desc_stable; auto; [|now apply sort_desc_good].
  cbn [filter]. now rewrite IH.
Qed.
End SortFacts.

(** Sorting the scored pairs by their score sorts the artists by it. *)
Lemma sort_desc_scored (A K : Type) (ltb : K -> K -> bool) (f : A -> K)
    (l : list A) :
  PySort.sort_desc ltb fst (map (fun a => (f a, a)) l)
  = map (fun a => (f a, a)) (PySort.sort_desc ltb f l).
Proof.
  induction l as [|x l IH]; [reflexivity|].
  cbn [map PySort.sort_desc fold_right].
  fold (PySort.sort_desc ltb fst (map (fun a => (f a, a)) l)).
  fold (PySort.sort_desc ltb f l).
  rewrite IH. generalize (PySort.sort_desc ltb f l) as s. clear IH.
  induction s as [|y s IH]; [reflexivity|].
  cbn [map PySort.insert_desc fst].
  destruct (ltb (f x) (f y)); [|reflexivity].
  cbn [map]. now rewrite IH.
Qed.

(** ** The vocabulary and the vectors *)

Lemma insert_sorted_perm x l : Permutation (App.insert_sorted x l) (x :: l).
Proof.
  induction l as [|y l IH]; cbn; [apply Permutation_refl|].
  destruct (String.ltb y x); [|apply Permutation_refl].
  eapply Permutation_trans; [apply perm_skip, IH | apply perm_swap].
Qed.

Lemma sorted_perm l : Permutation (App.sorted l) l.
Proof.
  induction l as [|x l IH]; cbn; [constructor|].
  eapply Permutation_trans; [apply insert_sorted_perm|].
  apply perm_skip, IH.
Qed.

Lemma vocabulary_distinct all_artists : NoDup (vocabulary all_artists).
Proof.
  unfold vocabulary.
  eapply Permutation_NoDup; [apply Permutation_sym, sorted_perm|].
  unfold App.all_tags. apply NoDup_filter, NoDup_nodup.
Qed.

Lemma set_one_at vocab g (f : string -> Z) :
  NoDup vocab ->
  match App.tag_to_idx vocab g with
  | Some i => App.set_one i (map f vocab)
  | None => map f vocab
  end
  = map (fun t => if String.eqb t g then 1%Z else f t) vocab.
Proof.
  induction vocab as [|t vocab IH]; intros N; cbn; [reflexivity|].
  inversion N as [|? ? Nt N']; subst.
  destruct (String.eqb g t) eqn:E.
  - apply String.eqb_eq in E. subst t. rewrite String.eqb_refl. cbn.
    f_equal. apply map_ext_in. intros u Hu.
    destruct (String.eqb u g) eqn:E; [|reflexivity].
    apply String.eqb_eq in E. subst u. contradiction.
  - rewrite String.eqb_sym, E. specialize (IH N').
    destruct (App.tag_to_idx vocab g) as [i|]; cbn; f_equal; exact IH.
Qed.

Lemma mark_indicator vocab tags :
  NoDup vocab ->
  forall f : string -> Z,
    App.mark vocab tags (map f vocab)
    = map (fun t => if Str.mem t tags then 1%Z else f t) vocab.
Proof.
  intros N. unfold App.mark.
  induction tags as [|g tags IH]; intros f; cbn [fold_left].
  - reflexivity.
  - rewrite (set_one_at vocab g f N), IH.
    apply map_ext. intros t. unfold Str.mem. cbn [existsb].
    destruct (String.eqb t g), (existsb (String.eqb t) tags); reflexivity.
Qed.

Lemma to_vector_indicator vocab a :
  NoDup vocab -> App.to_vector vocab a = indicator vocab a.
Proof.
  intros N. unfold App.to_vector, indicator, tags_of.
  replace (repeat 0%Z (List.length vocab)) with (map (fun _ => 0%Z) vocab)
    by (clear N; induction vocab; cbn; congruence).
  rewrite !mark_indicator by exact N.
  apply map_ext. intros t. unfold Str.mem. rewrite existsb_app.
  destruct (existsb (String.eqb t) (Artist.genres a)),
           (existsb (String.eqb t) (Artist.timbre a)); reflexivity.
Qed.

Lemma dot_product_indicator vocab a b :
  App.dot_product (indicator vocab a) (indicator vocab b)
  = Z.of_nat (List.length (shared vocab a b)).
Proof.
  unfold indicator, shared.
  induction vocab as [|t vocab IH]; cbn [map App.dot_product filter];
    [reflexivity|].
  rewrite IH.
  destruct (Str.mem t (tags_of a)), (Str.mem t (tags_of b));
    cbn [andb List.length]; lia.
Qed.

Lemma vocabulary_counted all_artists t :
  In t (vocabulary all_artists) <-> counted all_artists t = true.
Proof.
  unfold vocabulary, counted, App.all_tags. split.
  - intros H. apply (Permutation_in _ (sorted_perm _)) in H.
    apply filter_In in H. destruct H as [H E]. rewrite E. cbn [andb].
    apply nodup_In, in_flat_map in H. destruct H as (a & Ha & Ht).
    unfold PyDict.values in Ha. apply in_map_iff in Ha.
    destruct Ha as (item & <- & Hin).
    apply existsb_exists. exists item. split; [exact Hin|].
    apply mem_true. exact Ht.
  - intros H. apply andb_prop in H. destruct H as [E H].
    apply existsb_exists in H. destruct H as (item & Hin & Ht).
    apply mem_true in Ht.
    apply (Permutation_in _ (Permutation_sym (sorted_perm _))).
    apply filter_In. split; [|exact E].
    apply nodup_In, in_flat_map. exists (snd item). split; [|exact Ht].
    unfold PyDict.values. apply in_map. exact Hin.
Qed.

(** Counting the tags of the vocabulary that two artists share, or the
    counted tags of the one that the other has, gives the same number. *)
Lemma shared_common all_artists a b :
  List.length (shared (vocabulary all_artists) a b)
  = common_tags all_artists a b.
Proof.
  unfold shared, common_tags. apply Permutation_length, NoDup_Permutation.
  - apply NoDup_filter, vocabulary_distinct.
  - apply NoDup_filter, NoDup_nodup.
  - intros t.
    rewrite !filter_In, nodup_In, !andb_true_iff, !mem_true,
      vocabulary_counted.
    tauto.
Qed.

(** ** app.py: the recommender *)

(** The code computes the similarity of the specification, and it is not
    a NaN. *)
Lemma cosine_sim_similarity target all_artists a :
  App.cosine_sim (App.to_vector (vocabulary all_artists) target)
                 (App.to_vector (vocabulary all_artists) a)
  = App.Ok (similarity target all_artists a) /\
  nonneg (Prim2SF (similarity target all_artists a)).
Proof.
  unfold similarity. apply cosine_sim_counts;
    rewrite !to_vector_indicator by apply vocabulary_distinct;
    rewrite dot_product_indicator, shared_common; reflexivity.
Qed.

Lemma similarity_nonneg target all_artists a :
  nonneg (Prim2SF (similarity target all_artists a)).
Proof. apply cosine_sim_similarity. Qed.

(** The test of the loop keeps the candidates of the specification. *)
Lemma candidate_scored target (item : string * Artist.t) :
  App.candidate (Str.lower (Artist.name target)) item
  = if string_dec (fst item) (lowered (Artist.name target)) then false
    else if list_eq_dec string_dec (Artist.genres (snd item)) ["unknown"]
         then false else true.
Proof.
  unfold App.candidate, App.is_unknown. rewrite lower_lowered.
  destruct (string_dec (fst item) (lowered (Artist.name target))) as [->|N].
  - rewrite String.eqb_refl. reflexivity.
  - apply String.eqb_neq in N. rewrite N.
    destruct (list_eq_dec string_dec _ _); reflexivity.
Qed.

(** The scoring loop never fails: it pairs every candidate with its
    similarity, in iteration order. *)
Lemma score_all_candidates target all_artists :
  forall items,
    App.score_all (vocabulary all_artists)
      (App.to_vector (vocabulary all_artists) target)
      (Str.lower (Artist.name target)) items
    = App.Ok (map (fun a => (similarity target all_artists a, a))
                  (map snd
                       (filter (App.candidate
                                  (Str.lower (Artist.name target)))
                               items))).
Proof.
  induction items as [|[key a] items IH]; [reflexivity|].
  cbn [App.score_all filter].
  destruct (App.candidate (Str.lower (Artist.name target)) (key, a));
    cbn [negb]; [|exact IH].
  rewrite IH. cbn [map snd].
  destruct (cosine_sim_similarity target all_artists a) as [-> _].
  reflexivity.
Qed.

Lemma slice_to_map (A B : Type) (f : A -> B) (k : Z) (l : list A) :
  PyList.slice_to k (map f l) = map f (PyList.slice_to k l).
Proof.
  unfold PyList.slice_to. rewrite length_map.
  destruct (k <? 0)%Z; apply firstn_map.
Qed.

(** What the recommender returns: nothing over an empty vocabulary,
    otherwise the slice [[:k]] of the candidates in the stable descending
    order of similarity. *)
Lemma find_similar_artists_eq target all_artists k :
  App._find_similar_artists target all_artists k
  = App.Ok
      (PyList.slice_to k
         (match vocabulary all_artists with
          | [] => []
          | _ => PySort.sort_desc PrimFloat.ltb
                   (similarity target all_artists)
                   (candidates target all_artists)
          end)).
Proof.
  unfold App._find_similar_artists. fold (vocabulary all_artists).
  destruct (vocabulary all_artists) as [|t vocab] eqn:Ev.
  - cbn. unfold PyList.slice_to. now rewrite !firstn_nil, Tauto.if_same.
  - cbn [Storage.truthy negb]. rewrite <- Ev.
    rewrite score_all_candidates.
    rewrite (filter_ext _ _ (candidate_scored target)).
    fold (candidates target all_artists).
    rewrite sort_desc_scored, slice_to_map, map_map. cbn [snd].
    now rewrite map_id.
Qed.

Lemma candidates_from_mapping target all_artists a :
  In a (candidates target all_artists) ->
  exists key,
    In (key, a) all_artists /\
    key <> lowered (Artist.name target) /\
    Artist.genres a <> ["unknown"].
Proof.
  unfold candidates. rewrite in_map_iff.
  intros ([key a'] & Ha & Hin). cbn in Ha. subst a'.
  apply filter_In in Hin. destruct Hin as [Hin Hc].
  exists key. split; [exact Hin|]. cbn [fst snd] in Hc.
  destruct (string_dec key (lowered (Artist.name target))); [discriminate|].
  destruct (list_eq_dec string_dec (Artist.genres a) ["unknown"]);
    [discriminate|auto].
Qed.

(** C7, for a target that is on record under its lowercased name only and
    a count [k] that is not negative: the recommender returns the first
    [k] artists of a ranking, hence at most [k].  The ranked artists are
    entries of the mapping, with genres other than ["unknown"]; the target
    is not among them; when some tag counts they are all of those entries.
    No ranked artist has a smaller cosine similarity to the target than a
    later one, and artists of equal similarity stand in the order of the
    mapping.  When no tag counts (the vocabulary is empty) nothing is
    returned and every similarity is 0; an artist or a target without a
    counted tag (a vector of zero magnitude) has similarity 0; and the
    similarity is always computed: the divisor is never zero and the
    result is never a NaN. *)
Theorem C7_similar_artists :
  forall (target : Artist.t) (all_artists : PyDict.t Artist.t) (k : Z),
    on_record target all_artists ->
    (0 <= k)%Z ->
    let sim := similarity target all_artists in
    exists ranked : list Artist.t,
      App._find_similar_artists target all_artists k
        = App.Ok (firstn (Z.to_nat k) ranked) /\
      (Z.of_nat (List.length (firstn (Z.to_nat k) ranked)) <= k)%Z /\
      (forall a, In a ranked ->
                 exists key,
                   In (key, a) all_artists /\
                   key <> lowered (Artist.name target) /\
                   Artist.genres a <> ["unknown"]) /\
      ~ In target ranked /\
      StronglySorted (not_below PrimFloat.ltb sim) ranked /\
      (forall b, In b ranked ->
                 filter (tied PrimFloat.ltb sim (sim b)) ranked
                 = filter (tied PrimFloat.ltb sim (sim b))
                          (candidates target all_artists)) /\
      ((exists t, counted all_artists t = true) ->
       Permutation ranked (candidates target all_artists)) /\
      ((forall t, counted all_artists t = false) ->
       ranked = [] /\ forall a, sim a = 0%float) /\
      (forall a,
          common_tags all_artists target target = 0 \/
          common_tags all_artists a a = 0 ->
          sim a = 0%float) /\
      (forall a,
          App.cosine_sim (App.to_vector (vocabulary all_artists) target)
                         (App.to_vector (vocabulary all_artists) a)
          = App.Ok (sim a)) /\
      (forall a b,
          App.is_zero (App.magnitude a) = true \/
          App.is_zero (App.magnitude b) = true ->
          App.cosine_sim a b = App.Ok 0%float) /\
      (forall a, App.dot_product a a = 0%Z ->
                 App.is_zero (App.magnitude a) = true) /\
      (forall a b, exists x,
            App.cosine_sim a b = App.Ok x /\ Prim2SF x <> S754_nan).
Proof.
  intros target all_artists k Hrec Hk sim.
  pose (good := fun x : float => nonneg (Prim2SF x)).
  assert (Hgood : forall l : list Artist.t,
             Forall (fun a => good (sim a)) l).
  { intros l. apply Forall_forall. intros a _.
    apply similarity_nonneg. }
  assert (Hzero : forall a,
             common_tags all_artists target target = 0 \/
             common_tags all_artists a a = 0 ->
             sim a = 0%float).
  { intros a H. unfold sim, similarity, cosine.
    destruct H as [-> | ->]; [reflexivity|].
    change (PrimFloat.eqb (PrimFloat.sqrt (count_to_float 0)) 0) with true.
    now rewrite orb_true_r. }
  assert (Hdegenerate :
            (forall a b,
                App.is_zero (App.magnitude a) = true \/
                App.is_zero (App.magnitude b) = true ->
                App.cosine_sim a b = App.Ok 0%float) /\
            (forall a, App.dot_product a a = 0%Z ->
                       App.is_zero (App.magnitude a) = true) /\
            (forall a b, exists x,
                  App.cosine_sim a b = App.Ok x /\ Prim2SF x <> S754_nan)).
  { split; [|split].
    - intros a b H. unfold App.cosine_sim.
      destruct H as [-> | ->]; [reflexivity|].
      now rewrite orb_true_r.
    - intros a H. unfold App.magnitude. rewrite H. reflexivity.
    - intros a b. destruct (cosine_sim_total a b) as (x & Hx & Hn).
      exists x. split; [exact Hx|].
      intros E. rewrite E in Hn. exact Hn. }
  assert (Hcode : forall a,
             App.cosine_sim (App.to_vector (vocabulary all_artists) target)
                            (App.to_vector (vocabulary all_artists) a)
             = App.Ok (sim a))
    by (intros a; apply cosine_sim_similarity).
  assert (Hfirst : forall ranked : list Artist.t,
             (Z.of_nat (List.length (firstn (Z.to_nat k) ranked)) <= k)%Z).
  { intros ranked. rewrite length_firstn. lia. }
  rewrite find_similar_artists_eq.
  unfold PyList.slice_to.
  destruct (Z.ltb_spec k 0) as [Hneg|_]; [lia|].
  destruct (vocabulary all_artists) as [|t vocab] eqn:Ev.
  - exists []. split; [reflexivity|]. split; [apply Hfirst|].
    split; [intros a []|]. split; [intros []|]. split; [constructor|].
    split; [intros b []|]. split.
    { intros [t Ht]. apply vocabulary_counted in Ht.
      rewrite Ev in Ht. destruct Ht. }
    split.
    { intros Hno. split; [reflexivity|]. intros a. apply Hzero. left.
      unfold common_tags.
      rewrite (filter_ext _ (fun _ => false)); [|intros u; now rewrite Hno].
      clear. induction (nodup string_dec (tags_of target)); auto. }
    split; [exact Hzero|]. split; [exact Hcode | exact Hdegenerate].
  - exists (PySort.sort_desc PrimFloat.ltb sim
                             (candidates target all_artists)).
    assert (Hin : forall a,
               In a (PySort.sort_desc PrimFloat.ltb sim
                       (candidates target all_artists)) ->
               exists key,
                 In (key, a) all_artists /\
                 key <> lowered (Artist.name target) /\
                 Artist.genres a <> ["unknown"]).
    { intros a Ha. apply candidates_from_mapping.
      eapply Permutation_in; [apply sort_desc_perm|exact Ha]. }
    split; [reflexivity|]. split; [apply Hfirst|]. split; [exact Hin|].
    split.
    { intros Ht. destruct (Hin _ Ht) as (key & Hkey & Hne & _).
      apply Hne, Hrec, Hkey. }
    split.
    { apply (sort_desc_sorted _ _ PrimFloat.ltb sim good);
        [exact ltb_asym|exact ltb_negtrans|apply Hgood]. }
    split.
    { intros b _.
      apply (sort_desc_stable _ _ PrimFloat.ltb sim good);
        [exact ltb_negtrans|apply similarity_nonneg|apply Hgood]. }
    split; [intros _; apply sort_desc_perm|].
    split.
    { intros Hno. exfalso.
      assert (Ht : In t (vocabulary all_artists))
        by (rewrite Ev; now left).
      apply vocabulary_counted in Ht. rewrite Hno in Ht. discriminate Ht. }
    split; [exact Hzero|]. split; [exact Hcode | exact Hdegenerate].
Qed.

Lemma C7_similar_artists_witness :
  exists ranked : list Artist.t,
    App._find_similar_artists (tagged "A" ["house"; "techno"] ["groovy"])
                              six_artists 3
    = App.Ok (firstn 3 ranked).
Proof.
  assert (R : on_record (tagged "A" ["house"; "techno"] ["groovy"])
                        six_artists).
  { intros key H. cbn in H.
    repeat (destruct H as [H|H]; [injection H as <-; try discriminate|]);
      [vm_compute; reflexivity | destruct H]. }
  destruct (C7_similar_artists (tagged "A" ["house"; "techno"] ["groovy"])
              six_artists 3 R ltac:(lia)) as (ranked & H & _).
  exists ranked. exact H.
Defined.

(** C7 as stated does not hold for every [k] and every target: with
    [k = -1] three artists are returned, and a target whose name is written
    with blanks around it is under another key than its lowercased name,
    so that it is returned as its own nearest neighbour. *)
Lemma C7_not_as_stated :
  (exists result,
      App._find_similar_artists (tagged "A" ["house"; "techno"] ["groovy"])
                                six_artists (-1)
      = App.Ok result /\
      ~ (Z.of_nat (List.length result) <= -1)%Z) /\
  (exists result,
      PyDict.get (Storage._normalize_name " Justice ") justice_store
      = Some (tagged " Justice " ["house"] ["groovy"]) /\
      App._find_similar_artists (tagged " Justice " ["house"] ["groovy"])
                                justice_store 3
      = App.Ok result /\
      In (tagged " Justice " ["house"] ["groovy"]) result).
Proof.
  split.
  - eexists. split; [vm_compute; reflexivity|]. cbn. lia.
  - eexists. split; [vm_compute; reflexivity|].
    split; [vm_compute; reflexivity|]. left. reflexivity.
Qed.

(** On the sample mapping: "E" and "B" share tags with "A"; "D" and "F"
    tie at similarity 0 and keep the order of the mapping; "A" itself and
    the unknown "C" are left out. *)
Example similar_artists_example :
  App._find_similar_artists (tagged "A" ["house"; "techno"] ["groovy"])
                            six_artists 3
  = App.Ok [ tagged "E" ["techno"; "house"] ["groovy"; "dark"];
             tagged "B" ["house"] ["groovy"];
             tagged "D" ["rock"] ["raw"] ] /\
  vocabulary six_artists
  = ["dark"; "groovy"; "house"; "raw"; "rock"; "techno"] /\
  map Artist.name
      (PySort.sort_desc PrimFloat.ltb
         (similarity (tagged "A" ["house"; "techno"] ["groovy"]) six_artists)
         (candidates (tagged "A" ["house"; "techno"] ["groovy"])
                     six_artists))
  = ["E"; "B"; "D"; "F"].
Proof. repeat split; vm_compute; reflexivity. Qed.

(** ** The regex matcher does not depend on its fuel *)

Section ExecFacts.
Variable A : Type.
Implicit Types (k : list N -> option A) (r : Re.regex) (s : list N).

Lemma exec_Eps fuel s k : Re.exec fuel Re.Eps s k = k s.
Proof. destruct fuel; reflexivity. Qed.

Lemma exec_Cls fuel p s k :
  Re.exec fuel (Re.Cls p) s k
  = match s with
    | c :: s' => if p c then k s' else None
    | [] => None
    end.
Proof. destruct fuel; reflexivity. Qed.

Lemma exec_Cat fuel r1 r2 s k :
  Re.exec fuel (Re.Cat r1 r2) s k
  = Re.exec fuel r1 s (fun s' => Re.exec fuel r2 s' k).
Proof. destruct fuel; reflexivity. Qed.

Lemma exec_Alt fuel r1 r2 s k :
  Re.exec fuel (Re.Alt r1 r2) s k
  = match Re.exec fuel r1 s k with
    | Some x => Some x
    | None => Re.exec fuel r2 s k
    end.
Proof. destruct fuel; reflexivity. Qed.

Lemma exec_Star fuel r s k :
  Re.exec (S fuel) (Re.Star r) s k
  = match Re.exec (S fuel) r s
            (fun s' => if Nat.ltb (List.length s') (List.length s)
                       then Re.exec fuel (Re.Star r) s' k
                       else None) with
    | Some x => Some x
    | None => k s
    end.
Proof. reflexivity. Qed.

Lemma exec_Eos fuel s k :
  Re.exec fuel Re.Eos s k
  = match s with
    | [] => k s
    | [10%N] => k s
    | _ => None
    end.
Proof. destruct fuel; reflexivity. Qed.

(** The matcher only asks its continuation about texts that are not
    longer than the one it started from. *)
Lemma exec_ext :
  forall fuel r s k1 k2,
    (forall s', List.length s' <= List.length s -> k1 s' = k2 s') ->
    Re.exec fuel r s k1 = Re.exec fuel r s k2.
Proof.
  induction fuel as [|fuel IHf]; intros r;
    induction r as [|p|r1 IH1 r2 IH2|r1 IH1 r2 IH2|r1 IH1|];
    intros s k1 k2 Hk;
    rewrite ?exec_Eps, ?exec_Cls, ?exec_Cat, ?exec_Alt, ?exec_Eos;
    try (now apply Hk);
    try (destruct s as [|c s']; [reflexivity|];
         destruct (p c); [apply Hk; cbn; lia|reflexivity]);
    try (apply IH1; intros s' Hs'; apply IH2; intros s'' Hs'';
         apply Hk; lia);
    try (rewrite (IH1 s k1 k2 Hk), (IH2 s k1 k2 Hk); reflexivity);
    try (rewrite (Hk s (le_n _)); reflexivity).
  rewrite !exec_Star.
  rewrite (Hk s (le_n _)).
  erewrite IH1; [reflexivity|].
  intros s' Hs'. cbv beta.
  destruct (Nat.ltb_spec (List.length s') (List.length s));
    [|reflexivity].
  apply IHf. intros s'' Hs''. apply Hk. lia.
Qed.

(** Any fuel above the length of the text gives the same answer: an
    iteration of a star has to consume a character. *)
Lemma exec_fuel :
  forall r s k fuel1 fuel2,
    List.length s < fuel1 -> List.length s < fuel2 ->
    Re.exec fuel1 r s k = Re.exec fuel2 r s k.
Proof.
  induction r as [|p|r1 IH1 r2 IH2|r1 IH1 r2 IH2|r1 IH1|];
    intros s k fuel1 fuel2 H1 H2;
    rewrite ?exec_Eps, ?exec_Cls, ?exec_Cat, ?exec_Alt, ?exec_Eos;
    try reflexivity.
  - rewrite (IH1 s _ fuel1 fuel2 H1 H2).
    apply exec_ext. intros s' Hs'. apply IH2; lia.
  - rewrite (IH1 s k fuel1 fuel2 H1 H2), (IH2 s k fuel1 fuel2 H1 H2).
    reflexivity.
  - revert k fuel1 fuel2 H1 H2.
    remember (List.length s) as n eqn:En. revert s En.
    induction n as [n IHn] using lt_wf_ind.
    intros s -> k fuel1 fuel2 H1 H2.
    destruct fuel1 as [|f1]; [lia|]. destruct fuel2 as [|f2]; [lia|].
    rewrite !exec_Star.
    rewrite (IH1 s _ (S f1) (S f2) H1 H2).
    erewrite exec_ext; [reflexivity|].
    intros s' Hs'. cbv beta.
    destruct (Nat.ltb_spec (List.length s') (List.length s));
      [|reflexivity].
    eapply IHn; [|reflexivity| |]; lia.
Qed.

End ExecFacts.

(** [match_at] could be given any larger fuel. *)
Lemma match_at_fuel (r : Re.regex) (s : list N) (fuel : nat) :
  List.length s < fuel ->
  Re.match_at r s = Re.exec fuel r s (fun rest => Some rest).
Proof.
  intros H. unfold Re.match_at. apply exec_fuel; lia.
Qed.

(* ====================================================================== *)
(** * Further properties *)
(* ====================================================================== *)

(** ** More on the merge *)

Lemma normalize_name_idem n :
  Storage._normalize_name (Storage._normalize_name n)
  = Storage._normalize_name n.
Proof.
  unfold Storage._normalize_name.
  rewrite <- lower_strip, lower_idem, strip_idem. reflexivity.
Qed.

(** X1: the key of a name does not depend on its case or on the
    whitespace around it, a key is its own key, and lowering and stripping
    can be done in either order: the keys of the store, of the classifier
    and of the OCR deduplication agree. *)
Theorem normalize_name_canonical :
  forall name,
    Storage._normalize_name (Storage._normalize_name name)
    = Storage._normalize_name name /\
    Storage._normalize_name (Str.lower name) = Storage._normalize_name name /\
    Storage._normalize_name (Str.strip name) = Storage._normalize_name name /\
    Storage._normalize_name name = normalized name.
Proof.
  intros name. split; [apply normalize_name_idem|].
  unfold Storage._normalize_name.
  rewrite strip_idem, <- strip_lower_normalized, <- !lower_strip, lower_idem.
  auto.
Qed.

Lemma prefix_of_refl (A : Type) (l : list A) : prefix_of l l.
Proof. exists []. symmetry. apply app_nil_r. Qed.

Lemma prefix_of_trans (A : Type) (l1 l2 l3 : list A) :
  prefix_of l1 l2 -> prefix_of l2 l3 -> prefix_of l1 l3.
Proof.
  intros [m1 ->] [m2 ->]. exists (m1 ++ m2). rewrite app_assoc. reflexivity.
Qed.

Lemma kept_refl data : kept data data.
Proof.
  split; [apply prefix_of_refl|].
  intros k a H. exists a. repeat split; auto using prefix_of_refl.
Qed.

Lemma kept_trans d1 d2 d3 : kept d1 d2 -> kept d2 d3 -> kept d1 d3.
Proof.
  intros [K1 A1] [K2 A2]. split; [eapply prefix_of_trans; eauto|].
  intros k a H.
  destruct (A1 k a H) as (a' & H' & N1 & F1 & P1).
  destruct (A2 k a' H') as (a'' & H'' & N2 & F2 & P2).
  exists a''. repeat split; try congruence.
  eapply prefix_of_trans; eauto.
Qed.

Lemma update_artist_keeps now info entry c a :
  let a' := Storage.update_artist now info entry c a in
  Artist.name a' = Artist.name a /\
  Artist.first_seen a' = Artist.first_seen a /\
  prefix_of (Artist.festivals a) (Artist.festivals a').
Proof.
  unfold Storage.update_artist.
  destruct (Storage.truthy (Classification.genres c)); simpl;
    (repeat split;
     destruct (negb _); [eexists; reflexivity | apply prefix_of_refl]).
Qed.

Lemma merge_name_kept now cls info entry data n :
  kept data (Storage.merge_name now cls info entry data n).
Proof.
  unfold Storage.merge_name.
  set (key := Storage._normalize_name n).
  set (c := match PyDict.get n cls with Some c => c | None => _ end).
  destruct (PyDict.get key (Storage.artists data)) as [artist|] eqn:G.
  - split; simpl.
    + erewrite keys_set_present by exact G. apply prefix_of_refl.
    + intros k a H. destruct (string_dec k key) as [->|Hk].
      * rewrite get_set_same. eexists. split; [reflexivity|].
        rewrite G in H. injection H as <-. apply update_artist_keeps.
      * rewrite get_set_other by exact Hk. exists a.
        repeat split; auto using prefix_of_refl.
  - split; simpl.
    + rewrite set_absent by exact G. unfold PyDict.keys.
      rewrite map_app. eexists. reflexivity.
    + intros k a H. destruct (string_dec k key) as [->|Hk]; [congruence|].
      rewrite get_set_other by exact Hk. exists a.
      repeat split; auto using prefix_of_refl.
Qed.

Lemma merge_loop_kept now cls info entry names :
  forall data,
    kept data (fold_left (Storage.merge_name now cls info entry) names data).
Proof.
  induction names as [|n names IH]; intros data; simpl; [apply kept_refl|].
  eapply kept_trans; [apply merge_name_kept | apply IH].
Qed.

Lemma add_festival_kept now data names info :
  kept data (Storage.add_festival now data names info).
Proof.
  unfold kept. rewrite add_festival_artists. apply kept_refl.
Qed.

Lemma add_festival_festivals now data names info :
  Storage.festivals (Storage.add_festival now data names info)
  = Storage.festivals data ++
      (if existsb (fun f => String.eqb (Festival.url f) (Storage.url info))
                  (Storage.festivals data)
       then []
       else [Festival.mk (Storage.name info) (Storage.url info) now
                         (List.length names)]).
Proof.
  unfold Storage.add_festival.
  destruct (existsb _ _); simpl; [rewrite app_nil_r|]; reflexivity.
Qed.

Lemma merge_name_metadata now cls info entry data n :
  Storage.metadata (Storage.merge_name now cls info entry data n)
  = Storage.metadata data.
Proof.
  unfold Storage.merge_name.
  destruct (PyDict.get _ (Storage.artists data)); reflexivity.
Qed.

(** X2: a merge only adds: the keys of the store keep their order and
    new ones follow, every artist keeps its name, its date of first
    sighting and the festivals it listed, in order; the festival records
    are kept, followed by the new one unless its url was on record. *)
Theorem merge_artists_append_only :
  forall (now : string) (data : Storage.Data) (artist_names : list string)
         (classifications : PyDict.t Classification.t)
         (festival_info : Storage.FestivalInfo),
    let merged :=
      Storage.merge_artists now data artist_names classifications
                            festival_info in
    kept data merged /\
    Storage.festivals merged
    = Storage.festivals data ++
        (if existsb (fun f => String.eqb (Festival.url f)
                                         (Storage.url festival_info))
                    (Storage.festivals data)
         then []
         else [Festival.mk (Storage.name festival_info)
                           (Storage.url festival_info) now
                           (List.length artist_names)]).
Proof.
  intros now data names cls info merged. subst merged.
  unfold Storage.merge_artists. split.
  - eapply kept_trans; [apply add_festival_kept | apply merge_loop_kept].
  - rewrite merge_loop_festivals. apply add_festival_festivals.
Qed.

Lemma merge_name_elsewhere now cls info entry data n k :
  k <> Storage._normalize_name n ->
  PyDict.get k (Storage.artists (Storage.merge_name now cls info entry data n))
  = PyDict.get k (Storage.artists data).
Proof.
  intros Hk. unfold Storage.merge_name.
  destruct (PyDict.get _ (Storage.artists data)); simpl;
    apply get_set_other; exact Hk.
Qed.

(** X3: a merge leaves alone every artist whose key is not the key of a
    name of the batch. *)
Theorem merge_artists_elsewhere :
  forall (now : string) (data : Storage.Data) (artist_names : list string)
         (classifications : PyDict.t Classification.t)
         (festival_info : Storage.FestivalInfo) (k : string),
    ~ In k (map Storage._normalize_name artist_names) ->
    PyDict.get k
      (Storage.artists
         (Storage.merge_artists now data artist_names classifications
                                festival_info))
    = PyDict.get k (Storage.artists data).
Proof.
  intros now data names cls info k. unfold Storage.merge_artists.
  rewrite <- (add_festival_artists now data names info).
  generalize (Storage.add_festival now data names info).
  induction names as [|n names' IH]; intros d Hk; simpl; [reflexivity|].
  rewrite IH by (intros H; apply Hk; right; exact H).
  apply merge_name_elsewhere. intros ->. apply Hk. left. reflexivity.
Qed.

Lemma merge_artists_elsewhere_witness :
  PyDict.get "daft punk"
    (Storage.artists
       (Storage.merge_artists "2024-06-01" daft_punk_store
          [" Justice "; "JUSTICE"] [] x_test))
  = PyDict.get "daft punk" (Storage.artists daft_punk_store).
Proof.
  apply merge_artists_elsewhere.
  vm_compute. intros [H|[H|[]]]; discriminate H.
Defined.

(** X4: after a merge the festival is on record and every name of the
    batch has an artist that lists it. *)
Theorem merge_artists_lists_batch :
  forall (now : string) (data : Storage.Data) (artist_names : list string)
         (classifications : PyDict.t Classification.t)
         (festival_info : Storage.FestivalInfo),
    let merged :=
      Storage.merge_artists now data artist_names classifications
                            festival_info in
    existsb (fun f => String.eqb (Festival.url f) (Storage.url festival_info))
            (Storage.festivals merged) = true /\
    forall name,
      In name artist_names ->
      listed_at (Storage.url festival_info) (Storage._normalize_name name)
                merged = true.
Proof.
  intros now data names cls info merged. subst merged.
  unfold Storage.merge_artists. split.
  - rewrite merge_loop_festivals. apply add_festival_url_exists.
  - intros name Hin. apply merge_loop_lists; [reflexivity | exact Hin].
Qed.

Lemma NoDup_snoc (A : Type) (x : A) (l : list A) :
  NoDup l -> ~ In x l -> NoDup (l ++ [x]).
Proof.
  intros Hl Hx. induction Hl as [|y l Hy Hl IH]; simpl.
  - constructor; [intros []|constructor].
  - constructor.
    + rewrite in_app_iff. intros [H|[H|[]]]; [exact (Hy H)|].
      subst. apply Hx. left. reflexivity.
    + apply IH. intros H. apply Hx. right. exact H.
Qed.

Lemma update_artist_distinct now info c a :
  let entry := FestivalRef.mk (Storage.name info) (Storage.url info) now in
  NoDup (map FestivalRef.url (Artist.festivals a)) ->
  NoDup (map FestivalRef.url
             (Artist.festivals (Storage.update_artist now info entry c a))).
Proof.
  intros entry H. unfold Storage.update_artist.
  destruct (Storage.truthy (Classification.genres c)); simpl;
    (destruct (Str.mem (Storage.url info)
                       (map FestivalRef.url (Artist.festivals a))) eqn:M;
     simpl; [exact H|];
     rewrite map_app; apply NoDup_snoc; [exact H|];
     apply mem_false; exact M).
Qed.

Lemma merge_name_distinct now cls info data n :
  let entry := FestivalRef.mk (Storage.name info) (Storage.url info) now in
  distinct_urls data ->
  distinct_urls (Storage.merge_name now cls info entry data n).
Proof.
  intros entry [F A]. split.
  - rewrite merge_name_festivals. exact F.
  - intros k a. unfold Storage.merge_name.
    set (key := Storage._normalize_name n).
    set (c := match PyDict.get n cls with Some c => c | None => _ end).
    destruct (PyDict.get key (Storage.artists data)) as [artist|] eqn:G;
      simpl; (destruct (string_dec k key) as [->|Hk];
              [rewrite get_set_same | rewrite get_set_other by exact Hk;
                                      apply A]).
    + intros [= <-]. apply update_artist_distinct. exact (A _ _ G).
    + intros [= <-]. simpl. constructor; [intros []|constructor].
Qed.

Lemma existsb_url_false u fs :
  existsb (fun f => String.eqb (Festival.url f) u) fs = false ->
  ~ In u (map Festival.url fs).
Proof.
  intros E H. apply in_map_iff in H. destruct H as (f & <- & Hf).
  apply Bool.not_true_iff_false in E. apply E.
  apply existsb_exists. exists f. split; [exact Hf | apply String.eqb_refl].
Qed.

(** X5: a store in which no url occurs twice, among the festival records
    or among the festivals of an artist, stays so under a merge. *)
Theorem merge_artists_distinct_urls :
  forall (now : string) (data : Storage.Data) (artist_names : list string)
         (classifications : PyDict.t Classification.t)
         (festival_info : Storage.FestivalInfo),
    distinct_urls data ->
    distinct_urls
      (Storage.merge_artists now data artist_names classifications
                             festival_info).
Proof.
  intros now data names cls info [F A]. unfold Storage.merge_artists.
  assert (H0 : distinct_urls (Storage.add_festival now data names info)).
  { split.
    - rewrite add_festival_festivals.
      destruct (existsb _ _) eqn:E; [rewrite app_nil_r; exact F|].
      rewrite map_app. apply NoDup_snoc; [exact F|].
      apply existsb_url_false. exact E.
    - rewrite add_festival_artists. exact A. }
  revert H0. generalize (Storage.add_festival now data names info).
  induction names as [|n names' IH]; intros d Hd; simpl; [exact Hd|].
  apply IH. apply merge_name_distinct. exact Hd.
Qed.

Lemma merge_artists_distinct_urls_witness :
  distinct_urls
    (Storage.merge_artists "2024-06-01" daft_punk_store
       ["Daft Punk"; "Justice"; "daft punk "] [] x_test).
Proof.
  apply merge_artists_distinct_urls. split.
  - simpl. constructor; [intros []|constructor].
  - intros k a. simpl. destruct (String.eqb k "daft punk"); [|discriminate].
    intros [= <-]. simpl. constructor; [intros []|constructor].
Defined.

Lemma merge_name_without_genres now cls info entry data n k a :
  match PyDict.get n cls with
  | Some c => Classification.genres c = []
  | None => True
  end ->
  PyDict.get k (Storage.artists data) = Some a ->
  exists a',
    PyDict.get k (Storage.artists (Storage.merge_name now cls info entry data n))
      = Some a' /\
    Artist.genres a' = Artist.genres a /\ Artist.timbre a' = Artist.timbre a.
Proof.
  intros Hc G. unfold Storage.merge_name.
  set (key := Storage._normalize_name n).
  destruct (string_dec k key) as [->|Hk].
  - rewrite G. simpl. rewrite get_set_same. eexists. split; [reflexivity|].
    apply update_artist_without_data.
    destruct (PyDict.get n cls); [exact Hc | reflexivity].
  - destruct (PyDict.get key (Storage.artists data)); simpl;
      rewrite get_set_other by exact Hk; exists a; auto.
Qed.

(** X6: a merge whose batch comes without genres changes the genres and
    the timbre of no artist of the store. *)
Theorem merge_artists_without_genres :
  forall (now : string) (data : Storage.Data) (artist_names : list string)
         (classifications : PyDict.t Classification.t)
         (festival_info : Storage.FestivalInfo),
    without_genres classifications artist_names ->
    forall k a,
      PyDict.get k (Storage.artists data) = Some a ->
      exists a',
        PyDict.get k
          (Storage.artists
             (Storage.merge_artists now data artist_names classifications
                                    festival_info))
          = Some a' /\
        Artist.genres a' = Artist.genres a /\
        Artist.timbre a' = Artist.timbre a.
Proof.
  intros now data names cls info Hc k a. unfold Storage.merge_artists.
  rewrite <- (add_festival_artists now data names info).
  generalize (Storage.add_festival now data names info).
  revert a. unfold without_genres in Hc.
  induction names as [|n names' IH]; intros a d G; simpl.
  - exists a. auto.
  - destruct (merge_name_without_genres now cls info
                (FestivalRef.mk (Storage.name info) (Storage.url info) now)
                d n k a (Hc n (or_introl eq_refl)) G)
      as (a1 & G1 & E1 & E2).
    destruct (IH (fun m Hm => Hc m (or_intror Hm)) a1 _ G1)
      as (a2 & G2 & E3 & E4).
    exists a2. repeat split; congruence.
Qed.

Lemma merge_artists_without_genres_witness :
  exists a',
    PyDict.get "daft punk"
      (Storage.artists
         (Storage.merge_artists "2024-06-01" daft_punk_store
            ["Daft Punk"; "Justice"]
            [("Daft Punk", Classification.mk [] ["dynamic"])] x_test))
      = Some a' /\
    Artist.genres a' = ["house"; "french house"; "electronic"] /\
    Artist.timbre a' = ["groovy"; "electronic"].
Proof.
  refine (merge_artists_without_genres "2024-06-01" daft_punk_store
            ["Daft Punk"; "Justice"]
            [("Daft Punk", Classification.mk [] ["dynamic"])] x_test
            _ "daft punk" _ eq_refl).
  intros name [<-|[<-|[]]]; vm_compute; reflexivity.
Defined.

(** ** What a batch does *)

Section Emits.
Variable P : Net.Event -> Prop.

Lemma emits_ret (A : Type) (a : A) : emits P (Net.ret a).
Proof. intros tr. exists [], (Net.Return a). rewrite app_nil_r. auto. Qed.

Lemma emits_raise (A : Type) (e : Net.Exn) : emits P (@Net.raise A e).
Proof. intros tr. exists [], (Net.Raise e). rewrite app_nil_r. auto. Qed.

Lemma emits_emit (e : Net.Event) : P e -> emits P (Net.emit e).
Proof. intros H tr. exists [e], (Net.Return tt). auto. Qed.

Lemma emits_bind (A B : Type) (m : Net.M A) (f : A -> Net.M B) :
  emits P m -> (forall a, emits P (f a)) -> emits P (Net.bind m f).
Proof.
  intros Hm Hf tr. unfold Net.bind.
  destruct (Hm tr) as (d1 & [a|e] & -> & H1).
  - destruct (Hf a (tr ++ d1)) as (d2 & out & -> & H2).
    exists (d1 ++ d2), out. rewrite app_assoc. split; [reflexivity|].
    apply Forall_app. auto.
  - exists d1, (Net.Raise e). auto.
Qed.

Lemma emits_try (A : Type) (m h : Net.M A) :
  emits P m -> emits P h -> emits P (Net.try_except m h).
Proof.
  intros Hm Hh tr. unfold Net.try_except.
  destruct (Hm tr) as (d1 & [a|e] & -> & H1).
  - exists d1, (Net.Return a). auto.
  - destruct (Hh (tr ++ d1)) as (d2 & out & -> & H2).
    exists (d1 ++ d2), out. rewrite app_assoc. split; [reflexivity|].
    apply Forall_app. auto.
Qed.

Lemma emits_get_search svc q l :
  P (Net.Get (Net.Search q l)) -> emits P (Net.get_search svc q l).
Proof. intros H tr. unfold Net.get_search. eauto. Qed.

Lemma emits_get_tags svc i :
  P (Net.Get (Net.Tags i)) -> emits P (Net.get_tags svc i).
Proof. intros H tr. unfold Net.get_tags. eauto. Qed.

Lemma emits_raise_for_status st : emits P (Net.raise_for_status st).
Proof.
  unfold Net.raise_for_status.
  destruct (_ && _)%bool; [apply emits_raise | apply emits_ret].
Qed.

Lemma emits_json (A : Type) (body : option A) : emits P (Net.json body).
Proof. destruct body; [apply emits_ret | apply emits_raise]. Qed.
End Emits.

Lemma emits_weaken (A : Type) (P Q : Net.Event -> Prop) (m : Net.M A) :
  (forall e, P e -> Q e) -> emits P m -> emits Q m.
Proof.
  intros H Hm tr. destruct (Hm tr) as (d & out & E & F).
  exists d, out. split; [exact E|]. eapply Forall_impl; eauto.
Qed.

Lemma search_artist_lookup svc name :
  forall depth, emits lookup_event (Classifier._search_artist svc depth name).
Proof.
  induction depth as [|depth IH]; cbn [Classifier._search_artist];
    (apply emits_bind; [apply emits_get_search; exact I|]);
    intros [st body]; destruct (st =? 503)%Z.
  - apply emits_bind; [apply emits_emit; exact I|].
    intros _. apply emits_raise.
  - apply emits_bind; [apply emits_raise_for_status|]. intros _.
    apply emits_bind; [apply emits_json|]. intros a. apply emits_ret.
  - apply emits_bind; [apply emits_emit; exact I|].
    intros _. apply IH.
  - apply emits_bind; [apply emits_raise_for_status|]. intros _.
    apply emits_bind; [apply emits_json|]. intros a. apply emits_ret.
Qed.

Lemma get_artist_tags_lookup svc artist_id :
  forall depth,
    emits lookup_event (Classifier._get_artist_tags svc depth artist_id).
Proof.
  induction depth as [|depth IH]; cbn [Classifier._get_artist_tags];
    (apply emits_bind; [apply emits_get_tags; exact I|]);
    intros [st body]; destruct (st =? 503)%Z.
  - apply emits_bind; [apply emits_emit; exact I|].
    intros _. apply emits_raise.
  - destruct (negb _); [apply emits_ret|].
    apply emits_bind; [apply emits_json|]. intros a. apply emits_ret.
  - apply emits_bind; [apply emits_emit; exact I|].
    intros _. apply IH.
  - destruct (negb _); [apply emits_ret|].
    apply emits_bind; [apply emits_json|]. intros a. apply emits_ret.
Qed.

Lemma classify_artist_lookup svc depth name :
  emits lookup_event (Classifier.classify_artist svc depth name).
Proof.
  unfold Classifier.classify_artist.
  apply emits_bind; [apply search_artist_lookup|].
  intros [hit|]; [|apply emits_ret].
  destruct (Net.id hit) as [artist_id|]; [|apply emits_ret].
  destruct (negb _); [apply emits_ret|].
  apply emits_bind; [apply get_artist_tags_lookup|].
  intros tags. apply emits_ret.
Qed.

(** A search always starts with its request. *)
Lemma search_artist_starts svc depth name tr :
  exists delta,
    fst (Classifier._search_artist svc depth name tr)
    = tr ++ Net.Get (Net.Search (Classifier.artist_query name) 1) :: delta.
Proof.
  assert (H : forall f : Z * option (list Net.Hit) -> Net.M (option Net.Hit),
             (forall a, emits lookup_event (f a)) ->
             exists delta,
               fst (Net.bind (Net.get_search svc (Classifier.artist_query name) 1)
                             f tr)
               = tr ++ Net.Get (Net.Search (Classifier.artist_query name) 1)
                         :: delta).
  { intros f Hf. unfold Net.bind, Net.get_search.
    destruct (Net.search svc tr (Classifier.artist_query name) 1) as [|st body].
    - exists []. reflexivity.
    - destruct (Hf (st, body)
                   (tr ++ [Net.Get (Net.Search (Classifier.artist_query name) 1)]))
        as (d & out & -> & _).
      exists d. simpl. rewrite <- app_assoc. reflexivity. }
  destruct depth as [|depth]; cbn [Classifier._search_artist]; apply H;
    intros [st body]; destruct (st =? 503)%Z.
  - apply emits_bind; [apply emits_emit; exact I|].
    intros _. apply emits_raise.
  - apply emits_bind; [apply emits_raise_for_status|]. intros _.
    apply emits_bind; [apply emits_json|]. intros a. apply emits_ret.
  - apply emits_bind; [apply emits_emit; exact I|].
    intros _. apply search_artist_lookup.
  - apply emits_bind; [apply emits_raise_for_status|]. intros _.
    apply emits_bind; [apply emits_json|]. intros a. apply emits_ret.
Qed.

Lemma lookup_no_progress delta :
  Forall lookup_event delta ->
  filter is_progress delta = [] /\ pauses delta = 0.
Proof.
  unfold pauses.
  induction 1 as [|e delta He _ [IH1 IH2]]; [split; reflexivity|].
  destruct e as [r|z|n d t]; simpl in *; try contradiction; [auto|].
  destruct z as [|p|p]; try contradiction.
  do 5 (destruct p as [p|p|]; try contradiction). simpl. auto.
Qed.

Lemma classify_artist_starts svc depth name tr :
  exists delta out,
    Classifier.classify_artist svc depth name tr
    = (tr ++ Net.Get (Net.Search (Classifier.artist_query name) 1) :: delta,
       out) /\
    Forall lookup_event delta.
Proof.
  destruct (classify_artist_lookup svc depth name tr) as (d & out & E & F).
  assert (S : exists d',
             d = Net.Get (Net.Search (Classifier.artist_query name) 1) :: d').
  { revert E. unfold Classifier.classify_artist. unfold Net.bind at 1.
    destruct (search_artist_starts svc depth name tr) as [d1 H1].
    destruct (search_artist_lookup svc name depth tr) as (d0 & o0 & E0 & F0).
    rewrite E0 in *. simpl in H1. apply app_inv_head in H1. subst d0.
    assert (K : forall (m : Net.M Classification.t),
               emits lookup_event m ->
               m (tr ++ Net.Get (Net.Search (Classifier.artist_query name) 1)
                     :: d1)
               = (tr ++ d, out) ->
               exists d',
                 d = Net.Get (Net.Search (Classifier.artist_query name) 1) :: d').
    { intros m Hm Em.
      destruct (Hm (tr ++ Net.Get (Net.Search (Classifier.artist_query name) 1)
                       :: d1))
        as (d2 & o2 & E2 & _).
      rewrite E2 in Em. injection Em as Em _.
      rewrite <- app_assoc in Em. apply app_inv_head in Em.
      exists (d1 ++ d2). rewrite <- Em. reflexivity. }
    destruct o0 as [[hit|]|e].
    - destruct (Net.id hit) as [artist_id|]; [|apply K, emits_ret].
      destruct (negb _); [apply K, emits_ret|].
      apply K. apply emits_bind; [apply get_artist_tags_lookup|].
      intros tags. apply emits_ret.
    - apply K, emits_ret.
    - intros [= Em _]. apply app_inv_head in Em. eauto. }
  destruct S as [d' ->]. exists d', out. split; [exact E|].
  inversion F; assumption.
Qed.

Lemma pauses_app tr1 tr2 : pauses (tr1 ++ tr2) = pauses tr1 + pauses tr2.
Proof. unfold pauses. rewrite filter_app, length_app. reflexivity. Qed.

Lemma lookup_quiet delta :
  Forall lookup_event delta -> filter is_progress delta = [].
Proof. intros H. apply lookup_no_progress. exact H. Qed.

Lemma lookup_no_pause delta : Forall lookup_event delta -> pauses delta = 0.
Proof. intros H. apply lookup_no_progress. exact H. Qed.

(** One iteration: a name already classified only reports; any other is
    looked up, recorded, reported and followed by the pause. *)
Lemma classify_step_trace svc depth data (prog : bool) total cls i name tr :
  let reported := if prog then [Net.Progress name i total] else [] in
  if Classifier.already_classified data name
  then Classifier.classify_step svc depth data prog total cls i name tr
       = (tr ++ reported, Net.Return cls)
  else exists delta result,
      Classifier.classify_step svc depth data prog total cls i name tr
      = (tr ++ Net.Get (Net.Search (Classifier.artist_query name) 1)
            :: delta ++ reported ++ [Net.Sleep 11],
         Net.Return (PyDict.set name result cls)) /\
      Forall lookup_event delta.
Proof.
  intros reported. unfold Classifier.classify_step.
  destruct (Classifier.already_classified data name).
  - run_monad. subst reported. destruct prog; [reflexivity|].
    rewrite app_nil_r. reflexivity.
  - destruct (classify_artist_starts svc depth name tr) as (d & out & E & F).
    run_monad. rewrite E. exists d.
    destruct out as [c|e];
      [exists c | exists Classifier.unknown_pair];
      (split; [|exact F]); subst reported; destruct prog; simpl;
      rewrite <- ?app_assoc; simpl; rewrite <- ?app_assoc; reflexivity.
Qed.

Lemma mem_set (V : Type) (k k' : string) (v : V) (d : PyDict.t V) :
  PyDict.mem k' (PyDict.set k v d) = true
  <-> k' = k \/ PyDict.mem k' d = true.
Proof.
  unfold PyDict.mem. destruct (string_dec k' k) as [->|Hk].
  - rewrite get_set_same. tauto.
  - rewrite get_set_other by exact Hk. tauto.
Qed.

Lemma classify_loop_trace svc depth data (prog : bool) total names :
  forall cls i tr,
    exists delta cls',
      Classifier.classify_loop svc depth data prog total cls i names tr
      = (tr ++ delta, Net.Return cls') /\
      filter is_progress delta
      = (if prog then progress_calls i total names else []) /\
      pauses delta = List.length (looked_up data names) /\
      List.length (looked_up data names) <= Net.searches delta /\
      (looked_up data names = [] ->
       delta = filter is_progress delta /\ cls' = cls) /\
      (forall name,
          PyDict.mem name cls' = true
          <-> PyDict.mem name cls = true \/ In name (looked_up data names)).
Proof.
  induction names as [|name names IH]; intros cls i tr.
  - exists [], cls. simpl. unfold Net.ret. rewrite app_nil_r.
    destruct prog; repeat split; auto; tauto.
  - cbn [Classifier.classify_loop]. unfold Net.bind.
    pose proof (classify_step_trace svc depth data prog total cls i name tr)
      as Hs.
    unfold looked_up. cbn [filter progress_calls].
    destruct (Classifier.already_classified data name) eqn:Ha; cbn [negb].
    + rewrite Hs.
      destruct (IH cls (S i)
                   (tr ++ (if prog then [Net.Progress name i total] else [])))
        as (d & cls' & -> & Hp & Hn & Hsr & He & Hm).
      exists ((if prog then [Net.Progress name i total] else []) ++ d), cls'.
      rewrite app_assoc. split; [reflexivity|].
      fold (looked_up data names).
      rewrite filter_app, pauses_app, searches_app.
      split; [rewrite Hp; destruct prog; reflexivity|].
      split; [destruct prog; cbn; lia|].
      split; [destruct prog; cbn; lia|].
      split; [|exact Hm].
      intros H0. destruct (He H0) as [E1 E2]. split; [|exact E2].
      rewrite <- E1. destruct prog; reflexivity.
    + destruct Hs as (d1 & result & -> & F1).
      destruct (IH (PyDict.set name result cls) (S i)
                   (tr ++ Net.Get (Net.Search (Classifier.artist_query name) 1)
                       :: d1 ++ (if prog then [Net.Progress name i total] else [])
                       ++ [Net.Sleep 11]))
        as (d & cls' & -> & Hp & Hn & Hsr & He & Hm).
      exists ((Net.Get (Net.Search (Classifier.artist_query name) 1)
                 :: d1 ++ (if prog then [Net.Progress name i total] else [])
                 ++ [Net.Sleep 11]) ++ d), cls'.
      rewrite (app_assoc tr). split; [reflexivity|].
      fold (looked_up data names) in *.
      rewrite filter_app, pauses_app, searches_app, Hp.
      change (Net.Get (Net.Search (Classifier.artist_query name) 1)
                :: d1 ++ (if prog then [Net.Progress name i total] else [])
                ++ [Net.Sleep 11])
        with ([Net.Get (Net.Search (Classifier.artist_query name) 1)]
                ++ d1 ++ (if prog then [Net.Progress name i total] else [])
                ++ [Net.Sleep 11]).
      rewrite !filter_app, !pauses_app, !searches_app.
      rewrite (lookup_quiet _ F1), (lookup_no_pause _ F1).
      split; [destruct prog; reflexivity|].
      split; [destruct prog; cbn; lia|].
      split; [destruct prog; cbn; lia|].
      split; [discriminate|].
      intros n. rewrite Hm, mem_set. cbn [In]. intuition congruence.
Qed.

(** ** Lists *)

Lemma In_firstn (A : Type) (x : A) (n : nat) :
  forall l, In x (firstn n l) -> In x l.
Proof.
  induction n as [|n IH]; intros [|y l]; cbn; try tauto.
  intros [H|H]; [left; exact H | right; apply IH; exact H].
Qed.

Lemma StronglySorted_filter (A : Type) (R : A -> A -> Prop) (p : A -> bool)
    (l : list A) :
  StronglySorted R l -> StronglySorted R (filter p l).
Proof.
  induction 1 as [|x l Hl IH Hx]; cbn; [constructor|].
  destruct (p x); [|exact IH]. constructor; [exact IH|].
  apply Forall_forall. intros y Hy. apply filter_In in Hy.
  rewrite Forall_forall in Hx. apply Hx, Hy.
Qed.

Lemma Permutation_filter (A : Type) (p : A -> bool) (l1 l2 : list A) :
  Permutation l1 l2 -> Permutation (filter p l1) (filter p l2).
Proof.
  induction 1 as [|x l1 l2 _ IH|x y l|l1 l2 l3 _ IH1 _ IH2]; cbn.
  - constructor.
  - destruct (p x); [constructor|]; exact IH.
  - destruct (p x), (p y); try apply Permutation_refl. constructor.
  - eapply Permutation_trans; eauto.
Qed.

(** X7: every name of the batch that is not already classified gets an
    entry, and no other name does; the batch never raises. *)
Theorem classify_batch_entries :
  forall (svc : Net.Service) (depth : nat) (names : list string)
         (existing_data : Storage.Data) (on_progress : bool),
  exists tr classifications,
    Net.run (Classifier.classify_batch svc depth names existing_data
                                       on_progress)
    = (tr, Net.Return classifications) /\
    forall name,
      PyDict.mem name classifications = true
      <-> In name names /\
          Classifier.already_classified existing_data name = false.
Proof.
  intros svc depth names data prog.
  unfold Net.run, Classifier.classify_batch.
  destruct (classify_loop_trace svc depth data prog (List.length names) names
              [] 1 [])
    as (d & cls & E & _ & _ & _ & _ & Hm).
  exists d, cls. split; [exact E|].
  intros name. rewrite Hm. unfold looked_up. rewrite filter_In.
  rewrite Bool.negb_true_iff. cbn. intuition discriminate.
Qed.

(** X8: the progress callback is called once per name, in order, with the
    position counted from 1 and the size of the batch; there is one pause
    of 1.1 s per name looked up, and at least one search for each. *)
Theorem classify_batch_progress :
  forall (svc : Net.Service) (depth : nat) (names : list string)
         (existing_data : Storage.Data) (on_progress : bool),
    let tr :=
      fst (Net.run (Classifier.classify_batch svc depth names existing_data
                                              on_progress)) in
    filter is_progress tr
    = (if on_progress then progress_calls 1 (List.length names) names
       else []) /\
    pauses tr = List.length (looked_up existing_data names) /\
    List.length (looked_up existing_data names) <= Net.searches tr.
Proof.
  intros svc depth names data prog.
  unfold Net.run, Classifier.classify_batch.
  destruct (classify_loop_trace svc depth data prog (List.length names) names
              [] 1 [])
    as (d & cls & E & Hp & Hn & Hs & _ & _).
  rewrite E. cbn. auto.
Qed.

(** X9: a batch of names that are all classified already asks the service
    nothing and returns no entry. *)
Theorem classify_batch_all_known :
  forall (svc : Net.Service) (depth : nat) (names : list string)
         (existing_data : Storage.Data) (on_progress : bool),
    (forall name, In name names ->
                  Classifier.already_classified existing_data name = true) ->
    Net.run (Classifier.classify_batch svc depth names existing_data
                                       on_progress)
    = ((if on_progress then progress_calls 1 (List.length names) names
        else []),
       Net.Return []).
Proof.
  intros svc depth names data prog Hall.
  unfold Net.run, Classifier.classify_batch.
  destruct (classify_loop_trace svc depth data prog (List.length names) names
              [] 1 [])
    as (d & cls & E & Hp & _ & _ & He & _).
  rewrite E. cbn.
  assert (H0 : looked_up data names = []).
  { unfold looked_up. clear -Hall.
    induction names as [|n names IH]; [reflexivity|]. cbn.
    rewrite (Hall n (or_introl eq_refl)). cbn.
    apply IH. intros m Hm. apply Hall. right. exact Hm. }
  destruct (He H0) as [E1 ->]. rewrite E1, Hp. reflexivity.
Qed.

Lemma classify_batch_all_known_witness :
  Net.run (Classifier.classify_batch always_503 5
             ["Daft Punk"; " daft punk "] daft_punk_store true)
  = ([Net.Progress "Daft Punk" 1 2; Net.Progress " daft punk " 2 2],
     Net.Return []).
Proof.
  apply (classify_batch_all_known always_503 5 ["Daft Punk"; " daft punk "]
           daft_punk_store true).
  intros name [<-|[<-|[]]]; vm_compute; reflexivity.
Defined.

Lemma timbre_loop_hits tags table :
  forall descriptors,
    List.length descriptors < 4 ->
    Classifier.timbre_loop table tags descriptors
    = descriptors
        ++ firstn (4 - List.length descriptors) (timbre_hits table tags).
Proof.
  unfold timbre_hits.
  induction table as [|[d kws] table IH]; intros ds Hds;
    cbn [Classifier.timbre_loop filter map snd].
  - rewrite firstn_nil, app_nil_r. reflexivity.
  - destruct (existsb (Classifier.keyword_hit tags) kws).
    + destruct (Nat.leb 4 (List.length (ds ++ [d]))) eqn:E.
      * apply Nat.leb_le in E. rewrite length_app in E. cbn in E.
        assert (L : 4 - List.length ds = 1) by lia. rewrite L.
        cbn. reflexivity.
      * apply Nat.leb_gt in E. rewrite IH by exact E.
        rewrite length_app in *. cbn [List.length] in *.
        rewrite <- app_assoc. cbn [app map].
        replace (4 - List.length ds) with (S (4 - (List.length ds + 1)))
          by lia.
        reflexivity.
    + destruct (Nat.leb 4 (List.length ds)) eqn:E;
        [apply Nat.leb_le in E; lia|].
      apply IH. exact Hds.
Qed.

(** X10: the timbre of a non-empty tag list is the first four descriptors
    of the table, in its order, with a keyword that is a tag or part of
    one; ["dynamic"] when there is none. *)
Theorem tags_to_timbre_first_hits :
  forall tags,
    Classifier._tags_to_timbre tags
    = match tags with
      | [] => ["unknown"]
      | _ =>
          match timbre_hits Classifier.TIMBRE_MAP tags with
          | [] => ["dynamic"]
          | hits => firstn 4 hits
          end
      end.
Proof.
  intros [|t tags]; [reflexivity|].
  unfold Classifier._tags_to_timbre. cbn [Storage.truthy negb].
  rewrite timbre_loop_hits by (cbn; lia).
  cbn [app List.length Nat.sub].
  destruct (timbre_hits Classifier.TIMBRE_MAP (t :: tags)); reflexivity.
Qed.

(** X11: the genres of a non-empty tag list are tags of the list, and one
    that the non-genre pattern matches is returned only when the pattern
    matches every tag. *)
Theorem tags_to_genres_from_tags :
  forall tags,
    tags = [] \/
    Forall (fun g =>
              In g tags /\
              (Re.matches Classifier._NON_GENRE_PATTERN g = true ->
               genre_tags tags = []))
           (Classifier._tags_to_genres tags).
Proof.
  intros [|t tags]; [left; reflexivity|right].
  apply Forall_forall. intros g.
  unfold Classifier._tags_to_genres.
  cbn [Storage.truthy negb]. fold (genre_tags (t :: tags)).
  destruct (genre_tags (t :: tags)) as [|g0 gs] eqn:E;
    cbn [Storage.truthy negb]; intros Hg; apply In_firstn in Hg.
  - auto.
  - rewrite <- E in Hg. unfold genre_tags in Hg.
    apply filter_In in Hg. destruct Hg as [Hin Hm].
    split; [exact Hin|]. intros Hg. rewrite Hg in Hm. discriminate Hm.
Qed.

Lemma StronglySorted_weaken (A : Type) (R Q : A -> A -> Prop) (l : list A) :
  (forall x y, R x y -> Q x y) -> StronglySorted R l -> StronglySorted Q l.
Proof.
  intros H. induction 1 as [|x l Hl IH Hx]; constructor; [exact IH|].
  eapply Forall_impl; [|exact Hx]. apply H.
Qed.

Lemma filter_comm (A : Type) (p q : A -> bool) (l : list A) :
  filter p (filter q l) = filter q (filter p l).
Proof.
  induction l as [|x l IH]; cbn; [reflexivity|].
  destruct (p x) eqn:P, (q x) eqn:Q; cbn; rewrite ?P, ?Q, IH; reflexivity.
Qed.

(** X12: a 200 answer to the tag lookup gives the names, lowered, of the
    tags with a positive count, by decreasing count, tags of equal count
    in the order of the answer. *)
Theorem get_artist_tags_ranked :
  forall (svc : Net.Service) (depth : nat) (artist_id : string)
         (tr : Net.Trace) (tags : list Net.Tag),
    Net.tags svc tr artist_id = Net.Response 200 (Some tags) ->
    let voted := filter (fun t => (0 <? Net.count t)%Z) tags in
    exists ranked,
      Classifier._get_artist_tags svc depth artist_id tr
      = (tr ++ [Net.Get (Net.Tags artist_id)],
         Net.Return (map (fun t => Str.lower (Net.tag_name t)) ranked)) /\
      Permutation ranked voted /\
      StronglySorted by_count ranked /\
      forall k,
        filter (tied Z.ltb Net.count k) ranked
        = filter (tied Z.ltb Net.count k) voted.
Proof.
  intros svc depth artist_id tr tags H voted.
  exists (filter (fun t => (0 <? Net.count t)%Z)
                 (PySort.sort_desc Z.ltb Net.count tags)).
  assert (G : Forall (fun x : Net.Tag => True) tags)
    by (apply Forall_forall; auto).
  assert (Ha : forall a b : Z, True -> True ->
                               (a <? b)%Z = true -> (b <? a)%Z = false)
    by (intros a b _ _ E; apply Z.ltb_lt in E; apply Z.ltb_ge; lia).
  assert (Hn : forall a b c : Z, True -> True -> True ->
                                 (a <? b)%Z = false -> (b <? c)%Z = false ->
                                 (a <? c)%Z = false)
    by (intros a b c _ _ _ E1 E2; apply Z.ltb_ge in E1, E2; apply Z.ltb_ge;
        lia).
  split; [|split; [|split]].
  - destruct depth; cbn [Classifier._get_artist_tags]; run_monad;
      unfold Net.get_tags; rewrite H; reflexivity.
  - apply Permutation_filter, sort_desc_perm.
  - apply StronglySorted_filter.
    apply StronglySorted_weaken with (R := not_below Z.ltb Net.count).
    + unfold not_below, by_count. intros x y E. apply Z.ltb_ge in E. exact E.
    + apply sort_desc_sorted with (good := fun _ => True); assumption.
  - intros k. subst voted. rewrite filter_comm.
    rewrite (sort_desc_stable Net.Tag Z Z.ltb Net.count (fun _ => True)
               Hn k tags I G).
    apply filter_comm.
Qed.

Lemma get_artist_tags_ranked_witness :
  exists ranked,
    Classifier._get_artist_tags friendly 0 "mbid-1" []
    = ([] ++ [Net.Get (Net.Tags "mbid-1")],
       Net.Return (map (fun t => Str.lower (Net.tag_name t)) ranked)) /\
    Permutation ranked
      (filter (fun t => (0 <? Net.count t)%Z)
              [ {| Net.tag_name := "French"; Net.count := 1 |};
                {| Net.tag_name := "2010s"; Net.count := 0 |};
                {| Net.tag_name := "House"; Net.count := 3 |} ]) /\
    StronglySorted by_count ranked /\
    forall k,
      filter (tied Z.ltb Net.count k) ranked
      = filter (tied Z.ltb Net.count k)
          (filter (fun t => (0 <? Net.count t)%Z)
                  [ {| Net.tag_name := "French"; Net.count := 1 |};
                    {| Net.tag_name := "2010s"; Net.count := 0 |};
                    {| Net.tag_name := "House"; Net.count := 3 |} ]).
Proof.
  apply (get_artist_tags_ranked friendly 0 "mbid-1" []). reflexivity.
Defined.

(** ** Deduplication *)

Section DedupFacts.
Variables (key : string -> string) (keep : string -> bool)
          (out : string -> string).
Hypothesis key_out : forall x, key (out x) = key x.

Lemma dedup_by_fresh names :
  forall seen y,
    In y (dedup_by key keep out seen names) ->
    ~ In (key y) seen /\
    exists x, In x names /\ y = out x /\ keep x = true.
Proof.
  induction names as [|x names IH]; intros seen y; cbn; [tauto|].
  destruct (Str.mem (key x) seen) eqn:M; cbn [negb andb].
  - intros H. destruct (IH _ _ H) as (F & x' & I' & E & K).
    split; [exact F|]. exists x'. auto.
  - destruct (keep x) eqn:K.
    + intros [<-|H].
      * rewrite key_out. split; [apply mem_false; exact M|].
        exists x. auto.
      * destruct (IH _ _ H) as (F & x' & I' & E & K').
        split; [intros G; apply F; right; exact G|]. exists x'. auto.
    + intros H. destruct (IH _ _ H) as (F & x' & I' & E & K').
      split; [exact F|]. exists x'. auto.
Qed.

Lemma dedup_by_distinct names :
  forall seen, NoDup (map key (dedup_by key keep out seen names)).
Proof.
  induction names as [|x names IH]; intros seen; cbn; [constructor|].
  destruct (negb (Str.mem (key x) seen) && keep x)%bool; [|apply IH].
  cbn. constructor; [|apply IH].
  rewrite key_out. intros H. apply in_map_iff in H.
  destruct H as (y & E & Hy). apply dedup_by_fresh in Hy.
  destruct Hy as [F _]. apply F. left. symmetry. exact E.
Qed.

Lemma dedup_by_complete names :
  forall seen x,
    In x names -> keep x = true ->
    In (key x) seen \/ In (key x) (map key (dedup_by key keep out seen names)).
Proof.
  induction names as [|x0 names IH]; intros seen x; cbn; [tauto|].
  intros [->|H] K.
  - rewrite K. destruct (Str.mem (key x) seen) eqn:M; cbn [negb andb].
    + left. apply mem_true. exact M.
    + right. cbn. left. apply key_out.
  - destruct (negb (Str.mem (key x0) seen) && keep x0)%bool.
    + destruct (IH (key x0 :: seen) x H K) as [[E|G]|G].
      * right. cbn. left. rewrite key_out. exact E.
      * left. exact G.
      * right. cbn. right. exact G.
    + apply IH; assumption.
Qed.

Hypothesis out_out : forall x, out (out x) = out x.
Hypothesis keep_out : forall x, keep (out x) = keep x.

Lemma dedup_by_fixed names :
  forall seen,
    NoDup (map key names) ->
    (forall x, In x names -> ~ In (key x) seen /\ keep x = true) ->
    dedup_by key keep out seen names = map out names.
Proof.
  induction names as [|x names IH]; intros seen N H; cbn; [reflexivity|].
  destruct (H x (or_introl eq_refl)) as [F K].
  apply mem_false in F. rewrite F, K. cbn. f_equal.
  inversion N as [|? ? Nx N']; subst.
  apply IH; [exact N'|].
  intros y Hy. destruct (H y (or_intror Hy)) as [Fy Ky].
  split; [|exact Ky]. intros [E|G]; [|exact (Fy G)].
  apply Nx. rewrite E. apply in_map. exact Hy.
Qed.

Lemma dedup_by_idem names :
  dedup_by key keep out [] (dedup_by key keep out [] names)
  = dedup_by key keep out [] names.
Proof.
  rewrite dedup_by_fixed.
  - set (r := dedup_by key keep out [] names).
    assert (H : forall y, In y r -> out y = y).
    { intros y Hy. apply dedup_by_fresh in Hy.
      destruct Hy as (_ & x & _ & -> & _). apply out_out. }
    clearbody r. induction r as [|y r IH]; cbn; [reflexivity|].
    rewrite H by (left; reflexivity). f_equal.
    apply IH. intros z Hz. apply H. right. exact Hz.
  - apply dedup_by_distinct.
  - intros y Hy. apply dedup_by_fresh in Hy.
    destruct Hy as (_ & x & _ & -> & K). split; [intros []|].
    rewrite keep_out. exact K.
Qed.
End DedupFacts.

Lemma app_dedup_by names :
  forall seen,
    App.dedup seen names
    = dedup_by lowered (fun _ => true) (fun x => x) seen names.
Proof.
  induction names as [|x names IH]; intros seen;
    cbn [App.dedup dedup_by]; [reflexivity|].
  rewrite Bool.andb_true_r, !IH, lower_lowered. reflexivity.
Qed.

Lemma final_dedup_by names :
  forall seen,
    Ocr.final_dedup seen names
    = dedup_by lowered (fun _ => true) (fun x => x) seen names.
Proof.
  induction names as [|x names IH]; intros seen;
    cbn [Ocr.final_dedup dedup_by]; [reflexivity|].
  rewrite Bool.andb_true_r, !IH, lower_lowered. reflexivity.
Qed.

Lemma unique_candidates_by names :
  forall seen,
    Ocr.unique_candidates seen names
    = dedup_by normalized
               (fun x => Nat.leb 2 (Str.len (normalized x)))
               (fun x => x) seen names.
Proof.
  induction names as [|x names IH]; intros seen;
    cbn [Ocr.unique_candidates dedup_by]; [reflexivity|].
  rewrite !IH, strip_lower_normalized. reflexivity.
Qed.

Lemma deduplicate_by names :
  forall seen,
    Scraper.deduplicate_from seen names
    = dedup_by (fun x => lowered (Str.strip x)) (fun _ => true)
               Str.strip seen names.
Proof.
  induction names as [|x names IH]; intros seen;
    cbn [Scraper.deduplicate_from dedup_by]; [reflexivity|].
  rewrite Bool.andb_true_r, !IH, lower_lowered. reflexivity.
Qed.

(** ** The OCR filter *)

Lemma matches_in_Cls p l :
  Re.matches_in (Re.Cls p) l
  = match l with c :: _ => p c | [] => false end.
Proof.
  unfold Re.matches_in, Re.match_at. rewrite exec_Cls.
  destruct l as [|c l]; [reflexivity|]. destruct (p c); reflexivity.
Qed.

Lemma search_Cls p s :
  Re.search (Re.Cls p) s = false -> Str.count p s = 0.
Proof.
  unfold Re.search, Str.count.
  induction (Str.chars s) as [|c l IH]; cbn [Re.search_in Str.count_in];
    [reflexivity|].
  rewrite matches_in_Cls. destruct (p c); [discriminate|]. exact IH.
Qed.

Lemma contains_char (c : N) s :
  Str.contains_in [c] (Str.chars s) = false ->
  Str.count (N.eqb c) s = 0.
Proof.
  unfold Str.count.
  induction (Str.chars s) as [|d l IH];
    cbn [Str.contains_in Str.starts_with Str.count_in]; [reflexivity|].
  rewrite Bool.andb_true_r. destruct (c =? d)%N; [discriminate|]. exact IH.
Qed.

Lemma count_or p q s :
  Str.count p s = 0 -> Str.count q s = 0 ->
  Str.count (fun c => (p c || q c)%bool) s = 0.
Proof.
  unfold Str.count.
  induction (Str.chars s) as [|c l IH]; cbn [Str.count_in]; [reflexivity|].
  destruct (p c), (q c); cbn; try discriminate. exact IH.
Qed.

Lemma count_ext p q s :
  (forall c, p c = q c) -> Str.count p s = Str.count q s.
Proof.
  intros H. unfold Str.count.
  induction (Str.chars s) as [|c l IH]; cbn [Str.count_in]; [reflexivity|].
  rewrite H, IH. reflexivity.
Qed.

Lemma sentence_mark_split c :
  sentence_mark c
  = (existsb (N.eqb c) (Str.chars ".!?;") || (58 =? c)%N)%bool.
Proof.
  unfold sentence_mark.
  change (Str.chars ".!?;:") with (Str.chars ".!?;" ++ [58%N]).
  rewrite existsb_app. cbn [existsb].
  rewrite Bool.orb_false_r, N.eqb_sym. reflexivity.
Qed.

Lemma is_ocr_noise_strip t :
  Ocr._is_ocr_noise (Str.strip t) = Ocr._is_ocr_noise t.
Proof. unfold Ocr._is_ocr_noise. rewrite strip_idem. reflexivity. Qed.

Lemma not_noise_name_like t :
  Ocr._is_ocr_noise t = false -> name_like (Str.strip t).
Proof.
  unfold Ocr._is_ocr_noise. set (s := Str.strip t).
  destruct (negb (Str.nonempty s)); [discriminate|].
  destruct (Nat.ltb (Str.len s) 2) eqn:E1; [discriminate|].
  destruct (Re.search Ocr._SENTENCE_CHARS s) eqn:E2; [discriminate|].
  destruct (Re.search Ocr._MULTI_COMMA s); [discriminate|].
  destruct (Str.contains ":" s) eqn:E3; [discriminate|].
  destruct (Re.matches Ocr._DATE_PATTERN s); [discriminate|].
  destruct (Re.matches Ocr._POSTER_NOISE s); [discriminate|].
  cbv zeta.
  destruct (Nat.ltb (Str.len s) (2 * Str.count Str.isdigit s)) eqn:E4;
    [discriminate|].
  destruct (Nat.ltb 6 (List.length (Str.split_ws s))) eqn:E5; [discriminate|].
  destruct (Nat.ltb (Str.count Str.isalpha s) 2) eqn:E6; [discriminate|].
  intros _.
  apply Nat.ltb_ge in E1, E4, E5, E6.
  unfold name_like. repeat split; try assumption.
  rewrite (count_ext _ _ s sentence_mark_split).
  apply count_or.
  - apply search_Cls. exact E2.
  - apply contains_char. exact E3.
Qed.

Lemma clean_reading_name_like reading :
  Forall (fun c => Ocr._is_ocr_noise c = false /\ Str.strip c = c /\
                   name_like c)
         (Ocr.clean_reading reading).
Proof.
  assert (K : forall t, Ocr._is_ocr_noise (Str.strip t) = false ->
                        Ocr._is_ocr_noise (Str.strip t) = false /\
                        Str.strip (Str.strip t) = Str.strip t /\
                        name_like (Str.strip t)).
  { intros t H. split; [exact H|]. split; [apply strip_idem|].
    rewrite <- (strip_idem t). apply not_noise_name_like. exact H. }
  unfold Ocr.clean_reading.
  destruct (negb _ || _)%bool; [constructor|].
  match goal with
  | |- context [Ocr._is_ocr_noise (Str.strip ?t)] =>
      generalize t; intros text
  end.
  destruct (Ocr._is_ocr_noise (Str.strip text)) eqn:E; [constructor|].
  destruct (_ || _)%bool.
  - apply Forall_flat_map, Forall_forall. intros part _.
    destruct (Str.nonempty (Str.strip part)); cbn [andb]; [|constructor].
    destruct (Ocr._is_ocr_noise (Str.strip part)) eqn:E'; cbn [negb];
      constructor; [|constructor].
    apply K. exact E'.
  - constructor; [|constructor]. apply K. exact E.
Qed.

(** X13: every candidate of [_clean_ocr_text] is stripped, is not OCR
    noise, and so looks like a name; readings below the confidence
    threshold contribute nothing. *)
Theorem clean_ocr_text_candidates :
  forall raw_results,
    Forall (fun c => Ocr._is_ocr_noise c = false /\ Str.strip c = c /\
                     name_like c)
           (Ocr._clean_ocr_text raw_results) /\
    Ocr._clean_ocr_text (filter confident raw_results)
    = Ocr._clean_ocr_text raw_results.
Proof.
  intros raw. unfold Ocr._clean_ocr_text. split.
  - apply Forall_flat_map, Forall_forall. intros r _.
    apply clean_reading_name_like.
  - induction raw as [|r raw IH]; [reflexivity|]. cbn [filter flat_map].
    unfold confident at 1.
    destruct (PrimFloat.ltb (Ocr.conf r) 0.25) eqn:E; cbn [negb].
    + rewrite IH. unfold Ocr.clean_reading at 2. rewrite E.
      rewrite Bool.orb_true_r. reflexivity.
    + cbn [flat_map]. rewrite IH. reflexivity.
Qed.

(** ** The fuzzy match *)

Lemma position_mismatches_sym a b :
  position_mismatches a b = position_mismatches b a.
Proof. apply mismatches_sym. Qed.

Lemma position_mismatches_refl a : position_mismatches a a = 0.
Proof.
  unfold position_mismatches.
  induction (Str.chars a) as [|c l IH]; cbn [mismatches]; [reflexivity|].
  destruct (N.eq_dec c c) as [_|N]; [exact IH | now contradiction N].
Qed.

(** X14: the fuzzy match is reflexive and symmetric. *)
Theorem fuzzy_match_refl_sym :
  (forall a, Ocr._fuzzy_match a a = true) /\
  (forall a b, Ocr._fuzzy_match a b = Ocr._fuzzy_match b a).
Proof.
  assert (S : forall a b, bounded_edit_check a b -> bounded_edit_check b a).
  { intros a b. unfold bounded_edit_check, length_difference.
    rewrite (position_mismatches_sym a b). lia. }
  split.
  - intros a. apply fuzzy_match_spec.
    unfold bounded_edit_check, length_difference.
    rewrite position_mismatches_refl. lia.
  - intros a b.
    destruct (Ocr._fuzzy_match a b) eqn:E1, (Ocr._fuzzy_match b a) eqn:E2;
      try reflexivity.
    + apply fuzzy_match_spec, S, fuzzy_match_spec in E1. congruence.
    + apply fuzzy_match_spec, S, fuzzy_match_spec in E2. congruence.
Qed.

(** ** Extraction from an image *)

(** X15: the candidates kept for validation have pairwise different keys
    of at least two characters, come from the input, represent every
    input name with such a key, and are left alone by a second pass. *)
Theorem unique_candidates_distinct :
  forall all_candidates,
    let unique := Ocr.unique_candidates [] all_candidates in
    NoDup (map normalized unique) /\
    Forall (fun name => In name all_candidates /\
                        2 <= Str.len (normalized name)) unique /\
    Forall (fun name => 2 <= Str.len (normalized name) ->
                        In (normalized name) (map normalized unique))
           all_candidates /\
    Ocr.unique_candidates [] unique = unique.
Proof.
  intros l unique. subst unique. rewrite !unique_candidates_by.
  split; [|split; [|split]].
  - apply dedup_by_distinct. reflexivity.
  - apply Forall_forall. intros y Hy.
    apply dedup_by_fresh in Hy; [|reflexivity].
    destruct Hy as (_ & x & Hx & -> & K). apply Nat.leb_le in K. auto.
  - apply Forall_forall. intros x Hx K. apply Nat.leb_le in K.
    destruct (dedup_by_complete normalized
                (fun x => Nat.leb 2 (Str.len (normalized x)))
                (fun x => x) (fun x => eq_refl) l [] x Hx K) as [[]|H].
    exact H.
  - apply dedup_by_idem; reflexivity.
Qed.

Lemma validate_lookup svc name :
  forall depth retries,
    emits lookup_event (Ocr.validate svc depth name retries).
Proof.
  induction depth as [|depth IH]; intros r; cbn [Ocr.validate];
    (apply emits_try; [|apply emits_ret]);
    (apply emits_bind; [apply emits_get_search; exact I|]);
    intros [st body]; destruct (_ && _)%bool.
  - apply emits_bind; [apply emits_emit; exact I|].
    intros _. apply emits_raise.
  - destruct (negb _); [apply emits_ret|].
    apply emits_bind; [apply emits_json|]. intros a.
    destruct (negb _); apply emits_ret.
  - apply emits_bind; [apply emits_emit; exact I|].
    intros _. apply IH.
  - destruct (negb _); [apply emits_ret|].
    apply emits_bind; [apply emits_json|]. intros a.
    destruct (negb _); apply emits_ret.
Qed.

(** One validation: at most four requests, no pause, no progress call,
    and an answer that the service confirmed. *)
Lemma validate_once svc depth name tr :
  exists delta out,
    Ocr._validate_artist_musicbrainz svc depth name tr
    = (tr ++ delta, Net.Return out) /\
    Net.requests delta <= 4 /\ pauses delta = 0 /\
    filter is_progress delta = [] /\
    match out with
    | Some c => confirmed svc name c
    | None => True
    end.
Proof.
  unfold Ocr._validate_artist_musicbrainz.
  destruct (validate_bounded svc name depth 0 tr) as (d & out & E & R & _).
  destruct (validate_lookup svc name depth 0 tr) as (d' & out' & E' & F).
  assert (d' = d) as ->.
  { rewrite E in E'. injection E' as E' _. apply app_inv_head in E'.
    congruence. }
  exists d, out. split; [exact E|]. split; [exact R|].
  split; [apply lookup_no_pause; exact F|].
  split; [apply lookup_quiet; exact F|].
  destruct out as [c|]; [|exact I].
  exact (validate_sound svc name depth 0 tr E).
Qed.

Lemma validate_loop_trace svc depth (on_progress : bool) total unique :
  forall validated i tr,
    exists delta out,
      Ocr.validate_loop svc depth on_progress total validated i unique tr
      = (tr ++ delta, Net.Return out) /\
      Net.requests delta <= 4 * List.length unique /\
      pauses delta = List.length unique /\
      filter is_progress delta
      = (if on_progress then progress_calls (i + 1) total unique else []) /\
      Forall (fun c => In c validated \/
                       exists name, In name unique /\ confirmed svc name c)
             out.
Proof.
  induction unique as [|name rest IH]; intros validated i tr.
  - exists [], validated. cbn. unfold Net.ret. rewrite app_nil_r.
    repeat split; try lia.
    + destruct on_progress; reflexivity.
    + apply Forall_forall. auto.
  - cbn [Ocr.validate_loop]. unfold Net.bind at 1.
    set (reported := if on_progress
                     then [Net.Progress name (i + 1) total] else []).
    assert (E0 : (if on_progress
                  then Net.emit (Net.Progress name (i + 1) total)
                  else Net.ret tt) tr = (tr ++ reported, Net.Return tt)).
    { subst reported. destruct on_progress; [reflexivity|].
      unfold Net.ret. rewrite app_nil_r. reflexivity. }
    rewrite E0. unfold Net.bind at 1.
    destruct (validate_once svc depth name (tr ++ reported))
      as (d1 & corrected & -> & R1 & P1 & Q1 & C1).
    unfold Net.sleep, Net.bind, Net.emit.
    set (validated' := match corrected with
                       | Some c =>
                           if Str.nonempty c then validated ++ [c]
                           else validated
                       | None => validated
                       end).
    destruct (IH validated' (i + 1) (((tr ++ reported) ++ d1) ++ [Net.Sleep 11]))
      as (d2 & out & -> & R2 & P2 & Q2 & C2).
    exists (reported ++ d1 ++ [Net.Sleep 11] ++ d2), out.
    split; [rewrite <- !app_assoc; reflexivity|].
    rewrite !requests_app, !pauses_app, !filter_app, Q1, Q2, P1, P2.
    cbn [List.length progress_calls].
    replace (S (i + 1)) with (i + 1 + 1) by lia.
    split; [subst reported; destruct on_progress; cbn; lia|].
    split; [subst reported; destruct on_progress; cbn; lia|].
    split; [subst reported; destruct on_progress; reflexivity|].
    eapply Forall_impl; [|exact C2]. intros c [Hc|(n & Hn & Hc)].
    + subst validated'. destruct corrected as [c0|]; [|left; exact Hc].
      destruct (Str.nonempty c0); [|left; exact Hc].
      apply in_app_or in Hc. destruct Hc as [Hc|[<-|[]]]; [left; exact Hc|].
      right. exists name. split; [left; reflexivity | exact C1].
    + right. exists n. split; [right; exact Hn | exact Hc].
Qed.

(** X16: validation of the candidates never raises, makes at most four
    requests and exactly one pause per unique candidate, reports each of
    them once, and returns names that the service confirmed, pairwise
    different also when case is ignored; without validation nothing is
    requested. *)
Theorem names_from_candidates_validated :
  forall (svc : Net.Service) (depth : nat) (all_candidates : list string)
         (on_progress : bool),
    let unique := Ocr.unique_candidates [] all_candidates in
    (exists tr names,
        Net.run (Ocr.names_from_candidates svc depth all_candidates true
                                           on_progress)
        = (tr, Net.Return names) /\
        Net.requests tr <= 4 * List.length unique /\
        pauses tr = List.length unique /\
        filter is_progress tr
        = (if on_progress
           then Net.Progress EmptyString 0 (List.length unique)
                :: progress_calls 1 (List.length unique) unique
           else []) /\
        distinct_ignoring_case names /\
        Forall (fun c => exists name, In name unique /\ confirmed svc name c)
               names) /\
    Net.run (Ocr.names_from_candidates svc depth all_candidates false
                                       on_progress)
    = ((if on_progress
        then [Net.Progress EmptyString 0 (List.length unique)] else []),
       Net.Return unique).
Proof.
  intros svc depth l prog unique. split.
  - unfold Net.run, Ocr.names_from_candidates. fold unique.
    unfold Net.bind at 1.
    set (reported := if prog
                     then [Net.Progress EmptyString 0 (List.length unique)]
                     else []).
    assert (E0 : (if prog
                  then Net.emit
                         (Net.Progress EmptyString 0 (List.length unique))
                  else Net.ret tt) [] = ([] ++ reported, Net.Return tt)).
    { subst reported. destruct prog; reflexivity. }
    rewrite E0. cbn [negb]. unfold Net.bind.
    destruct (validate_loop_trace svc depth prog (List.length unique) unique
                [] 0 ([] ++ reported))
      as (d & out & -> & R & P & Q & C).
    unfold Net.ret. exists (([] ++ reported) ++ d), (Ocr.final_dedup [] out).
    split; [reflexivity|].
    rewrite !requests_app, !pauses_app, !filter_app, Q.
    split; [subst reported; destruct prog; cbn in *; lia|].
    split; [subst reported; destruct prog; cbn in *; lia|].
    split; [subst reported; destruct prog; reflexivity|].
    split.
    + unfold distinct_ignoring_case. rewrite final_dedup_by.
      apply dedup_by_distinct. reflexivity.
    + apply Forall_forall. intros c Hc. rewrite final_dedup_by in Hc.
      apply dedup_by_fresh in Hc; [|reflexivity].
      destruct Hc as (_ & x & Hx & -> & _).
      rewrite Forall_forall in C. destruct (C x Hx) as [[]|H]. exact H.
  - unfold Net.run, Ocr.names_from_candidates. fold unique.
    unfold Net.bind. destruct prog; reflexivity.
Qed.

(** ** The scraper *)

(** Up to 80 characters, [alpha_chars < len(text) * 0.4] in binary64 is
    [5 * alpha_chars < 2 * len(text)] on the integers. *)
Lemma letters_test_exact a n :
  a <= 80 -> n <= 80 ->
  Scraper.mostly_symbols a n = Nat.ltb (5 * a) (2 * n).
Proof.
  intros Ha Hn.
  assert (T : letters_test_agrees 80 = true) by (vm_compute; reflexivity).
  unfold letters_test_agrees in T.
  rewrite forallb_forall in T.
  assert (In n (seq 0 81)) as Hn' by (apply in_seq; lia).
  specialize (T n Hn'). rewrite forallb_forall in T.
  assert (In a (seq 0 81)) as Ha' by (apply in_seq; lia).
  specialize (T a Ha'). apply Bool.eqb_prop in T. exact T.
Qed.

Lemma count_le_length p s : Str.count p s <= Str.len s.
Proof.
  unfold Str.count, Str.len.
  induction (Str.chars s) as [|c l IH]; cbn [Str.count_in List.length];
    [lia|].
  destruct (p c); lia.
Qed.

(** X17: a text is plausible exactly when, stripped, it has 2 to 80
    characters and 1 to 6 words, is no noise word, holds no URL or e-mail
    pattern, has letters for at least 40% of its characters, and is not a
    single word of more than 30 characters. *)
Theorem plausible_artist_characterised :
  forall text,
    let t := Str.strip text in
    Scraper._is_plausible_artist text = true
    <-> 2 <= Str.len t <= 80 /\
        1 <= List.length (Str.split_ws t) <= 6 /\
        Re.matches Scraper.NOISE_PATTERNS t = false /\
        Re.search Scraper.url_or_email t = false /\
        2 * Str.len t <= 5 * Str.count Str.isalpha t /\
        (List.length (Str.split_ws t) = 1 -> Str.len t <= 30).
Proof.
  intros text t. unfold Scraper._is_plausible_artist. fold t.
  unfold Scraper.MIN_WORDS, Scraper.MAX_WORDS.
  destruct (Str.nonempty t) eqn:N; cbn [negb];
    [|destruct t; [split; [discriminate|cbn; lia] | discriminate]].
  destruct (Nat.ltb (Str.len t) 2) eqn:E1; cbn [orb];
    [apply Nat.ltb_lt in E1; split; [discriminate|lia]|].
  destruct (Nat.ltb 80 (Str.len t)) eqn:E2;
    [apply Nat.ltb_lt in E2; split; [discriminate|lia]|].
  apply Nat.ltb_ge in E1, E2.
  destruct (Nat.ltb (List.length (Str.split_ws t)) 1) eqn:E3; cbn [orb];
    [apply Nat.ltb_lt in E3; split; [discriminate|lia]|].
  destruct (Nat.ltb 6 (List.length (Str.split_ws t))) eqn:E4;
    [apply Nat.ltb_lt in E4; split; [discriminate|lia]|].
  apply Nat.ltb_ge in E3, E4.
  destruct (Re.matches Scraper.NOISE_PATTERNS t);
    [split; [discriminate | intros (_ & _ & H & _); discriminate H]|].
  destruct (Re.search Scraper.url_or_email t);
    [split; [discriminate | intros (_ & _ & _ & H & _); discriminate H]|].
  cbv zeta.
  rewrite letters_test_exact
    by (try (pose proof (count_le_length Str.isalpha t)); lia).
  destruct (Nat.ltb (5 * Str.count Str.isalpha t) (2 * Str.len t)) eqn:E5;
    [apply Nat.ltb_lt in E5; split; [discriminate|lia]|].
  apply Nat.ltb_ge in E5.
  destruct (Nat.eqb (List.length (Str.split_ws t)) 1) eqn:E6; cbn [andb].
  - apply Nat.eqb_eq in E6.
    destruct (Nat.ltb 30 (Str.len t)) eqn:E7.
    + apply Nat.ltb_lt in E7. split; [discriminate|].
      intros (_ & _ & _ & _ & _ & H). specialize (H E6). lia.
    + apply Nat.ltb_ge in E7. split; [|reflexivity]. intros _.
      repeat split; auto; lia.
  - apply Nat.eqb_neq in E6. split; [|reflexivity]. intros _.
    repeat split; auto; try lia; try (intros H; contradiction).
Qed.

Lemma plausible_strip text :
  Scraper._is_plausible_artist (Str.strip text)
  = Scraper._is_plausible_artist text.
Proof.
  unfold Scraper._is_plausible_artist. rewrite strip_idem. reflexivity.
Qed.

Lemma line_candidates_plausible line :
  Forall (fun c => Scraper._is_plausible_artist c = true)
         (Scraper.line_candidates line).
Proof.
  unfold Scraper.line_candidates.
  set (l := Str.strip line).
  assert (I : Forall (fun c => Scraper._is_plausible_artist c = true)
                     (if Scraper._is_plausible_artist l then [l] else [])).
  { destruct (Scraper._is_plausible_artist l) eqn:E; repeat constructor.
    exact E. }
  assert (B : forall parts (rest : list string),
             Forall (fun c => Scraper._is_plausible_artist c = true) rest ->
             Forall (fun c => Scraper._is_plausible_artist c = true)
                    (if forallb Scraper._is_plausible_artist
                                (Scraper.truthy_parts parts)
                     then Scraper.truthy_parts parts else rest)).
  { intros parts rest Hr.
    destruct (forallb _ (Scraper.truthy_parts parts)) eqn:E; [|exact Hr].
    apply Forall_forall. rewrite forallb_forall in E. exact E. }
  cbv zeta.
  destruct (_ && _)%bool; [apply B|]; (destruct (_ || _)%bool; [apply B|]);
    exact I.
Qed.

Lemma text_lines_plausible page_text :
  Forall (fun c => Scraper._is_plausible_artist c = true)
         (Scraper._extract_from_text_lines page_text).
Proof.
  unfold Scraper._extract_from_text_lines.
  apply Forall_flat_map, Forall_forall. intros line _.
  apply line_candidates_plausible.
Qed.

(** X18: every candidate read from the text lines is plausible, and the
    lines are read independently of each other. *)
Theorem extract_from_text_lines_plausible :
  forall page_text,
    Forall (fun c => Scraper._is_plausible_artist c = true)
           (Scraper._extract_from_text_lines page_text) /\
    forall more,
      Scraper._extract_from_text_lines (page_text ++ newline ++ more)
      = Scraper._extract_from_text_lines page_text
          ++ Scraper._extract_from_text_lines more.
Proof.
  intros page_text. split; [apply text_lines_plausible|].
  unfold Scraper._extract_from_text_lines.
  intros more. unfold newline.
  change (String "010" EmptyString ++ more)%string with (String "010" more).
  rewrite split_char_app by (vm_compute; reflexivity).
  apply flat_map_app.
Qed.

Lemma strip_key x :
  lowered (Str.strip (Str.strip x)) = lowered (Str.strip x).
Proof. rewrite strip_idem. reflexivity. Qed.

Lemma deduplicate_stripped names :
  Forall (fun name => Str.strip name = name /\
                      exists x, In x names /\ name = Str.strip x)
         (Scraper._deduplicate names).
Proof.
  unfold Scraper._deduplicate. rewrite deduplicate_by.
  apply Forall_forall. intros y Hy.
  apply dedup_by_fresh in Hy; [|exact strip_key].
  destruct Hy as (_ & x & Hx & -> & _).
  split; [apply strip_idem | eauto].
Qed.

Lemma deduplicate_keys names :
  map (fun x => lowered (Str.strip x)) (Scraper._deduplicate names)
  = map lowered (Scraper._deduplicate names).
Proof.
  apply map_ext_in. intros y Hy.
  pose proof (deduplicate_stripped names) as S.
  rewrite Forall_forall in S. destruct (S y Hy) as [E _].
  rewrite E. reflexivity.
Qed.

Lemma deduplicate_no_repeat names :
  distinct_ignoring_case (Scraper._deduplicate names).
Proof.
  unfold distinct_ignoring_case. rewrite <- deduplicate_keys.
  unfold Scraper._deduplicate. rewrite deduplicate_by.
  apply dedup_by_distinct. exact strip_key.
Qed.

(** X19: [_deduplicate] returns stripped names of its input, pairwise
    different also when case is ignored; every input name is represented;
    a second pass changes nothing. *)
Theorem deduplicate_distinct :
  forall names,
    let result := Scraper._deduplicate names in
    distinct_ignoring_case result /\
    Forall (fun name => Str.strip name = name /\
                        exists x, In x names /\ name = Str.strip x) result /\
    Forall (fun x => In (lowered (Str.strip x)) (map lowered result))
           names /\
    Scraper._deduplicate result = result.
Proof.
  intros names result. subst result.
  split; [apply deduplicate_no_repeat|].
  split; [apply deduplicate_stripped|]. split.
  - rewrite <- deduplicate_keys.
    unfold Scraper._deduplicate. rewrite deduplicate_by.
    apply Forall_forall. intros x Hx.
    destruct (dedup_by_complete (fun x => lowered (Str.strip x))
                (fun _ => true) Str.strip strip_key names [] x Hx eq_refl)
      as [[]|H].
    exact H.
  - unfold Scraper._deduplicate. rewrite !deduplicate_by.
    apply dedup_by_idem; [exact strip_key | apply strip_idem | reflexivity].
Qed.

Section PageFacts.
Variable Soup : Type.
Variable page : Scraper.Page Soup.

Let plausible (l : list string) : Prop :=
  Forall (fun c => Scraper._is_plausible_artist c = true) l.

Lemma select_plausible_plausible soup selectors :
  plausible (Scraper.select_plausible page soup selectors).
Proof.
  unfold Scraper.select_plausible.
  apply Forall_flat_map, Forall_forall. intros selector _.
  apply Forall_forall. intros c Hc. apply filter_In in Hc. apply Hc.
Qed.

Lemma extract_from_list_elements_plausible soup :
  plausible (Scraper._extract_from_list_elements page soup).
Proof.
  unfold Scraper._extract_from_list_elements.
  destruct (negb _); apply select_plausible_plausible.
Qed.

Lemma artists_of_html_plausible raw_html :
  let artists := Scraper.artists_of_html page raw_html in
  Forall (fun a => Scraper._is_plausible_artist a = true /\ Str.strip a = a)
         artists /\
  distinct_ignoring_case artists.
Proof.
  unfold Scraper.artists_of_html.
  match goal with
  | |- context [Scraper._deduplicate ?c] =>
      assert (P : plausible c); [|generalize dependent c]
  end.
  - pose proof text_lines_plausible as T.
    pose proof extract_from_list_elements_plausible as L.
    unfold plausible in *.
    destruct (Scraper.summary page raw_html) as [readable_html|];
      [destruct (Nat.ltb 100 _)|];
      repeat (apply Forall_app; split); auto.
  - intros c P. cbv zeta.
    pose proof (deduplicate_stripped c) as S.
    split; [|apply deduplicate_no_repeat].
    eapply Forall_impl; [|exact S]. intros a (E & x & Hx & ->).
    split; [|exact E]. rewrite plausible_strip.
    unfold plausible in P. rewrite Forall_forall in P. apply P, Hx.
Qed.
End PageFacts.

(** X20: whatever the page, every artist [extract_artists] returns is
    plausible and stripped, no two are equal when case is ignored, and
    nothing is returned only when the page cannot be fetched. *)
Theorem extract_artists_plausible :
  forall (Soup : Type) (page : Scraper.Page Soup)
         (hostname _fetch_raw_html : string -> option string) (url : string),
    match Scraper.extract_artists page hostname _fetch_raw_html url with
    | Some (festival_name, artists) =>
        Forall (fun a => Scraper._is_plausible_artist a = true /\
                         Str.strip a = a) artists /\
        distinct_ignoring_case artists
    | None => _fetch_raw_html url = None
    end.
Proof.
  intros Soup page hostname fetch url. unfold Scraper.extract_artists.
  destruct (fetch url) as [raw_html|]; [|reflexivity].
  apply artists_of_html_plausible.
Qed.

Lemma pick_specific candidates :
  match Scraper.pick candidates with
  | Some name => Scraper.generic name = false
  | None =>
      Forall (fun c => Scraper.generic c = true \/ Str.len c <= 2)
             candidates
  end.
Proof.
  induction candidates as [|c rest IH]; cbn [Scraper.pick]; [constructor|].
  destruct (Scraper.generic c) eqn:G; cbn [negb andb].
  - destruct (Scraper.pick rest); [exact IH|].
    constructor; [left; exact G | exact IH].
  - destruct (Nat.ltb 2 (Str.len c)) eqn:L.
    + cbv zeta.
      destruct (Str.nonempty _); cbn [andb]; [|exact G].
      destruct (Scraper.generic (Str.strip _)) eqn:G'; cbn [negb];
        [exact G | exact G'].
    + apply Nat.ltb_ge in L. destruct (Scraper.pick rest); [exact IH|].
      constructor; [right; exact L | exact IH].
Qed.

(** X21: the festival name is one of the generic names only when every
    candidate from the title, the heading and the URL is generic or has at
    most two characters; without any candidate it is "Unknown Festival". *)
Theorem extract_festival_name_specific :
  forall (Soup : Type) (page : Scraper.Page Soup)
         (hostname : string -> option string) (soup : Soup) (url : string),
    let candidates := Scraper.name_candidates page hostname soup url in
    let name := Scraper._extract_festival_name page hostname soup url in
    (Scraper.generic name = false \/
     Forall (fun c => Scraper.generic c = true \/ Str.len c <= 2)
            candidates) /\
    match candidates with
    | [] => name = "Unknown Festival"
    | first :: _ =>
        name = first \/
        Exists (fun c => Scraper.generic c = false /\ 2 < Str.len c)
               candidates
    end.
Proof.
  intros Soup page hostname soup url candidates name.
  subst name. unfold Scraper._extract_festival_name. fold candidates.
  pose proof (pick_specific candidates) as P.
  split.
  - destruct (Scraper.pick candidates); [left; exact P | right; exact P].
  - clear P. destruct candidates as [|first rest]; [reflexivity|].
    assert (H : forall l,
               Scraper.pick l <> None ->
               Exists (fun c => Scraper.generic c = false /\
                                2 < Str.len c) l).
    { induction l as [|c l IH]; cbn [Scraper.pick]; [congruence|].
      destruct (Scraper.generic c) eqn:G; cbn [negb andb];
        [intros H; right; apply IH, H|].
      destruct (Nat.ltb 2 (Str.len c)) eqn:L;
        [|intros H; right; apply IH, H].
      intros _. left. apply Nat.ltb_lt in L. auto. }
    specialize (H (first :: rest)).
    destruct (Scraper.pick (first :: rest)); [|left; reflexivity].
    right. apply H. discriminate.
Qed.

(** ** The name normalizer *)

(** X22: the cleaned names are non-empty and stripped, no two are equal
    when case is ignored, and every cleaned part is represented. *)
Theorem clean_artist_names_distinct :
  forall names,
    let result := App._clean_artist_names names in
    distinct_ignoring_case result /\
    Forall (fun name => Str.nonempty name = true /\ Str.strip name = name /\
                        In name (App.clean_parts names)) result /\
    Forall (fun part => In (lowered part) (map lowered result))
           (App.clean_parts names).
Proof.
  intros names result. subst result. unfold App._clean_artist_names.
  rewrite app_dedup_by.
  assert (P : Forall (fun p => Str.nonempty p = true /\ Str.strip p = p)
                     (App.clean_parts names)).
  { unfold App.clean_parts.
    apply Forall_flat_map, Forall_forall. intros name _.
    apply Forall_flat_map, Forall_forall. intros part _.
    destruct (Str.nonempty (Str.strip _)) eqn:E; constructor; [|constructor].
    split; [exact E | apply strip_idem]. }
  split; [|split].
  - apply dedup_by_distinct. reflexivity.
  - apply Forall_forall. intros y Hy.
    apply dedup_by_fresh in Hy; [|reflexivity].
    destruct Hy as (_ & x & Hx & -> & _).
    rewrite Forall_forall in P. destruct (P x Hx). auto.
  - apply Forall_forall. intros x Hx.
    destruct (dedup_by_complete lowered (fun _ => true) (fun x => x)
                (fun x => eq_refl) (App.clean_parts names) [] x Hx eq_refl)
      as [[]|H].
    exact H.
Qed.

(** X23: the vocabulary of a mapping has no repetition and holds exactly
    the genres and timbres of its artists other than "unknown"; over it,
    the vector of an artist is the indicator of the artist's tags, and the
    dot product of two vectors counts the tags the artists share. *)
Theorem to_vector_counts_shared_tags :
  forall (all_artists : PyDict.t Artist.t),
    let vocab := vocabulary all_artists in
    NoDup vocab /\
    (forall t, In t vocab
               <-> t <> "unknown" /\
                   exists key a, In (key, a) all_artists /\ In t (tags_of a)) /\
    (forall a, App.to_vector vocab a = indicator vocab a) /\
    (forall a b,
        App.dot_product (App.to_vector vocab a) (App.to_vector vocab b)
        = Z.of_nat (List.length (shared vocab a b))).
Proof.
  intros all vocab. pose proof (vocabulary_distinct all) as N. fold vocab in N.
  split; [exact N|]. split; [|split].
  - intros t. subst vocab. unfold vocabulary. split.
    + intros H. apply (Permutation_in _ (sorted_perm _)) in H.
      unfold App.all_tags in H. apply filter_In in H.
      destruct H as [H E]. apply nodup_In, in_flat_map in H.
      destruct H as (a & Ha & Ht). split.
      * intros ->. discriminate E.
      * unfold PyDict.values in Ha. apply in_map_iff in Ha.
        destruct Ha as ([key a'] & <- & Hin). exists key, a'. auto.
    + intros [E (key & a & Hin & Ht)].
      apply (Permutation_in _ (Permutation_sym (sorted_perm _))).
      unfold App.all_tags. apply filter_In. split.
      * apply nodup_In, in_flat_map. exists a. split; [|exact Ht].
        unfold PyDict.values. apply in_map_iff. exists (key, a). auto.
      * apply Bool.negb_true_iff, String.eqb_neq. exact E.
  - intros a. apply to_vector_indicator, N.
  - intros a b. rewrite !to_vector_indicator by exact N.
    apply dot_product_indicator.
Qed.

(** ** The similarity *)

Lemma SFmul_comm x y :
  SpecFloat.SFmul FloatOps.prec FloatOps.emax x y
  = SpecFloat.SFmul FloatOps.prec FloatOps.emax y x.
Proof.
  destruct x as [sx|sx| |sx mx ex], y as [sy|sy| |sy my ey]; cbn;
    rewrite ?(Bool.xorb_comm sx sy), ?(Pos.mul_comm mx my),
            ?(Z.add_comm ex ey);
    reflexivity.
Qed.

Lemma mul_comm (x y : float) : PrimFloat.mul x y = PrimFloat.mul y x.
Proof.
  apply Prim2SF_inj. rewrite !mul_spec. apply SFmul_comm.
Qed.

Lemma dot_product_comm a :
  forall b, App.dot_product a b = App.dot_product b a.
Proof.
  induction a as [|x a IH]; intros [|y b]; cbn; try reflexivity.
  rewrite IH, Z.mul_comm. reflexivity.
Qed.

(** X24: the cosine similarity is symmetric, down to the last bit. *)
Theorem cosine_sim_symmetric :
  forall a b, App.cosine_sim a b = App.cosine_sim b a.
Proof.
  intros a b. unfold App.cosine_sim.
  rewrite (dot_product_comm a b), (mul_comm (App.magnitude a)),
          (Bool.orb_comm (App.is_zero (App.magnitude a))).
  reflexivity.
Qed.

(** X25: asking for more neighbours only extends the answer: the [k]
    nearest are the first [k] of the [k + more] nearest. *)
Theorem find_similar_artists_prefix :
  forall (target : Artist.t) (all_artists : PyDict.t Artist.t)
         (k more : nat),
  exists nearest,
    App._find_similar_artists target all_artists (Z.of_nat (k + more))
    = App.Ok nearest /\
    App._find_similar_artists target all_artists (Z.of_nat k)
    = App.Ok (firstn k nearest).
Proof.
  intros target all k more. rewrite !find_similar_artists_eq.
  unfold PyList.slice_to.
  destruct (Z.ltb_spec (Z.of_nat (k + more)) 0) as [H|_]; [lia|].
  destruct (Z.ltb_spec (Z.of_nat k) 0) as [H|_]; [lia|].
  rewrite !Nat2Z.id.
  eexists. split; [reflexivity|].
  rewrite firstn_firstn. f_equal. f_equal. lia.
Qed.

(** ** The workers *)

Lemma merge_name_keeps_genres now cls info entry data n k a :
  (Storage._normalize_name n = k -> PyDict.get n cls = None) ->
  PyDict.get k (Storage.artists data) = Some a ->
  exists a',
    PyDict.get k (Storage.artists (Storage.merge_name now cls info entry data n))
      = Some a' /\
    Artist.genres a' = Artist.genres a /\ Artist.timbre a' = Artist.timbre a.
Proof.
  intros Hc G. destruct (string_dec k (Storage._normalize_name n)) as [E|E].
  - apply merge_name_without_genres; [|exact G].
    rewrite Hc by (symmetry; exact E). exact I.
  - rewrite merge_name_elsewhere by exact E. exists a. auto.
Qed.

Lemma merge_loop_keeps_genres now cls info entry k names :
  (forall n, In n names -> Storage._normalize_name n = k ->
             PyDict.get n cls = None) ->
  forall data a,
    PyDict.get k (Storage.artists data) = Some a ->
    exists a',
      PyDict.get k
        (Storage.artists
           (fold_left (Storage.merge_name now cls info entry) names data))
        = Some a' /\
      Artist.genres a' = Artist.genres a /\ Artist.timbre a' = Artist.timbre a.
Proof.
  induction names as [|n names IH]; intros Hc data a G; cbn [fold_left].
  - exists a. auto.
  - destruct (merge_name_keeps_genres now cls info entry data n k a
                (Hc n (or_introl eq_refl)) G) as (a1 & G1 & E1 & E2).
    destruct (IH (fun m Hm => Hc m (or_intror Hm)) _ a1 G1)
      as (a2 & G2 & E3 & E4).
    exists a2. repeat split; congruence.
Qed.

(** X26: [_run_classification] always reaches [save_data]; the data it
    saves lists the festival for every name of the batch, and an artist
    that had real genres at the first load keeps the genres and timbre it
    has at the reload. *)
Theorem run_classification_keeps_real_genres :
  forall (svc : Net.Service) (depth : nat) (now : string)
         (data reloaded : Storage.Data) (artist_names : list string)
         (festival_info : Storage.FestivalInfo),
  exists tr saved,
    Net.run (App._run_classification svc depth now data reloaded
                                     artist_names festival_info)
    = (tr, Net.Return (Some saved)) /\
    (forall name,
        In name artist_names ->
        listed_at (Storage.url festival_info) (Storage._normalize_name name)
                  saved = true) /\
    (forall k a a2,
        PyDict.get k (Storage.artists data) = Some a ->
        Classifier.has_real_genres a = true ->
        PyDict.get k (Storage.artists reloaded) = Some a2 ->
        exists a',
          PyDict.get k (Storage.artists saved) = Some a' /\
          Artist.genres a' = Artist.genres a2 /\
          Artist.timbre a' = Artist.timbre a2).
Proof.
  intros svc depth now data reloaded names info.
  unfold Net.run, App._run_classification, Net.try_except, Net.bind,
    Classifier.classify_batch.
  destruct (classify_loop_trace svc depth data true (List.length names) names
              [] 1 [])
    as (d & cls & E & _ & _ & _ & _ & Hm).
  rewrite E. unfold Net.ret. eexists. eexists. split; [reflexivity|].
  split.
  - intros name Hin. unfold Storage.merge_artists.
    apply merge_loop_lists; [reflexivity | exact Hin].
  - intros k a a2 G R G2. unfold Storage.merge_artists.
    apply merge_loop_keeps_genres.
    + intros n Hin En.
      destruct (PyDict.get n cls) as [c|] eqn:Gn; [|reflexivity].
      assert (M : PyDict.mem n cls = true)
        by (unfold PyDict.mem; rewrite Gn; reflexivity).
      apply Hm in M. destruct M as [M|M]; [discriminate M|].
      unfold looked_up in M. apply filter_In in M. destruct M as [_ M].
      unfold Classifier.already_classified in M.
      unfold Storage._normalize_name in En. rewrite En, G, R in M.
      discriminate M.
    + rewrite add_festival_artists. exact G2.
Qed.

Lemma scan_step_trace svc depth data validated
    (cls : PyDict.t Classification.t) name tr :
  Forall (fun kv => from_tags (snd kv)) cls ->
  exists delta validated' cls',
    App.scan_step svc depth data (validated, cls) name tr
    = (tr ++ delta, Net.Return (validated', cls')) /\
    Forall (fun kv => from_tags (snd kv)) cls' /\
    (forall c, PyDict.mem c cls' = true ->
               PyDict.mem c cls = true \/ In c validated') /\
    ((validated' = validated /\ cls' = cls) \/
     exists v, validated' = validated ++ [v] /\
               lineup_origin svc data [name] v).
Proof.
  intros F. unfold App.scan_step.
  destruct (App.known_artist data name) as [existing|] eqn:K.
  - exists [], (validated ++ [Artist.name existing]), cls.
    unfold Net.ret. rewrite app_nil_r. split; [reflexivity|].
    split; [exact F|]. split; [auto|]. right.
    exists (Artist.name existing). split; [reflexivity|].
    exists name. split; [left; reflexivity|]. rewrite K. reflexivity.
  - unfold Net.bind at 1.
    destruct (validate_once svc depth name tr)
      as (d1 & corrected & -> & _ & _ & _ & C1).
    assert (Skip : exists delta validated' cls',
               (Net.bind (Net.sleep 3) (fun _ => Net.ret (validated, cls)))
                 (tr ++ d1)
               = (tr ++ delta, Net.Return (validated', cls')) /\
               Forall (fun kv => from_tags (snd kv)) cls' /\
               (forall c, PyDict.mem c cls' = true ->
                          PyDict.mem c cls = true \/ In c validated') /\
               ((validated' = validated /\ cls' = cls) \/
                exists v, validated' = validated ++ [v] /\
                          lineup_origin svc data [name] v)).
    { exists (d1 ++ [Net.Sleep 3]), validated, cls.
      unfold Net.bind, Net.sleep, Net.emit, Net.ret.
      rewrite <- app_assoc. split; [reflexivity|].
      split; [exact F|]. split; auto. }
    destruct corrected as [c|]; [|exact Skip].
    destruct (Str.nonempty c) eqn:N; cbn [negb]; [|exact Skip].
    clear Skip. unfold Net.bind, Net.try_except.
    pose proof (classify_artist_from_tags svc depth c (tr ++ d1)) as Hc.
    destruct (classify_artist_lookup svc depth c (tr ++ d1))
      as (d2 & out & E2 & _).
    rewrite E2 in *. unfold Net.sleep, Net.emit, Net.ret.
    assert (Hu : from_tags Classifier.unknown_pair) by (left; reflexivity).
    destruct out as [result|e];
      [exists (d1 ++ d2 ++ [Net.Sleep 11]), (validated ++ [c]),
         (PyDict.set c result cls)
      |exists (d1 ++ d2 ++ [Net.Sleep 11]), (validated ++ [c]),
         (PyDict.set c Classifier.unknown_pair cls)];
      (split; [rewrite <- !app_assoc; reflexivity|];
       split; [apply set_from_tags; assumption|];
       split;
       [intros c0 M; apply mem_set in M; destruct M as [->|M]; [|auto];
        right; apply in_or_app; right; left; reflexivity
       |right; exists c; split; [reflexivity|];
        exists name; split; [left; reflexivity|]; rewrite K; auto]).
Qed.

Lemma lineup_origin_incl svc data l1 l2 v :
  incl l1 l2 -> lineup_origin svc data l1 v -> lineup_origin svc data l2 v.
Proof.
  intros H (name & Hin & Hm). exists name. split; [apply H, Hin | exact Hm].
Qed.

Lemma scan_loop_trace svc depth data candidates :
  forall validated (cls : PyDict.t Classification.t) tr,
    Forall (fun kv => from_tags (snd kv)) cls ->
    exists delta added cls',
      App.scan_loop svc depth data (validated, cls) candidates tr
      = (tr ++ delta, Net.Return (validated ++ added, cls')) /\
      Forall (fun kv => from_tags (snd kv)) cls' /\
      (forall c, PyDict.mem c cls' = true ->
                 PyDict.mem c cls = true \/ In c (validated ++ added)) /\
      List.length added <= List.length candidates /\
      Forall (lineup_origin svc data candidates) added.
Proof.
  induction candidates as [|name rest IH]; intros validated cls tr F.
  - exists [], [], cls. cbn. unfold Net.ret. rewrite !app_nil_r.
    repeat split; auto.
  - cbn [App.scan_loop]. unfold Net.bind.
    destruct (scan_step_trace svc depth data validated cls name tr F)
      as (d1 & v1 & cls1 & -> & F1 & M1 & O1).
    destruct (IH v1 cls1 (tr ++ d1) F1)
      as (d2 & added & cls2 & -> & F2 & M2 & L2 & O2).
    assert (O2' : Forall (lineup_origin svc data (name :: rest)) added).
    { eapply Forall_impl; [|exact O2]. intros v.
      apply lineup_origin_incl. intros x Hx. right. exact Hx. }
    destruct O1 as [[-> ->]|(v & -> & Ov)].
    + exists (d1 ++ d2), added, cls2.
      rewrite <- app_assoc. split; [reflexivity|].
      repeat split; auto. cbn. lia.
    + exists (d1 ++ d2), (v :: added), cls2.
      rewrite <- !app_assoc. cbn [app]. split; [reflexivity|].
      split; [exact F2|]. split.
      * intros c Mc. destruct (M2 c Mc) as [Mc'|Hin].
        -- destruct (M1 c Mc') as [H|H]; [left; exact H|].
           right. apply in_app_or in H. apply in_or_app.
           destruct H as [H|[<-|[]]]; [left; exact H | right; left; reflexivity].
        -- right. rewrite <- app_assoc in Hin. exact Hin.
      * split; [cbn; lia|]. constructor; [|exact O2'].
        eapply lineup_origin_incl; [|exact Ov].
        intros x [<-|[]]. left. reflexivity.
Qed.

(** X27: [_run_ocr_and_classify] never raises out of its handler; when it
    saves, the lineup is not empty and not longer than the cleaned
    candidates, each of its names is the stored name of a candidate with
    real data or the service's name for another candidate, only names of
    the lineup are classified, and the saved data lists the festival for
    every name of the lineup. *)
Theorem run_ocr_and_classify_lineup :
  forall (svc : Net.Service) (depth : nat) (now : string)
         (data reloaded : Storage.Data) (all_candidates : list string)
         (festival_info : Storage.FestivalInfo),
    let candidates :=
      App._clean_artist_names (Ocr.unique_candidates [] all_candidates) in
    exists tr out,
      Net.run (App._run_ocr_and_classify svc depth now data reloaded
                                         all_candidates festival_info)
      = (tr, Net.Return out) /\
      match out with
      | None => True
      | Some saved =>
          exists validated_names classifications,
            saved = Storage.merge_artists now reloaded validated_names
                                          classifications festival_info /\
            validated_names <> [] /\
            List.length validated_names <= List.length candidates /\
            Forall (lineup_origin svc data candidates) validated_names /\
            Forall (fun kv => In (fst kv) validated_names /\
                              from_tags (snd kv) /\ within_bounds (snd kv))
                   classifications /\
            Forall (fun v => listed_at (Storage.url festival_info)
                                       (Storage._normalize_name v) saved
                             = true)
                   validated_names
      end.
Proof.
  intros svc depth now data reloaded l info candidates.
  unfold Net.run, App._run_ocr_and_classify, Net.try_except.
  unfold Net.bind at 1. unfold Ocr.names_from_candidates.
  cbn [negb]. unfold Net.bind at 1, Net.emit, Net.ret at 1.
  fold candidates.
  destruct (Storage.truthy candidates) eqn:T; cbn [negb].
  2:{ unfold Net.ret. eexists. exists None. split; [reflexivity | exact I]. }
  unfold Net.bind.
  match goal with
  | |- context [App.scan_loop ?a ?b ?c ?p ?e ?t] =>
      change (App.scan_loop a b c p e t)
        with (App.scan_loop svc depth data
                (@pair (list string) (PyDict.t Classification.t) [] [])
                candidates t);
      destruct (scan_loop_trace svc depth data candidates [] [] t
                  (Forall_nil _))
        as (d & added & cls & -> & F & M & L & O)
  end.
  cbn [app] in *.
  destruct (Storage.truthy added) eqn:Ta; cbn [negb]; unfold Net.ret.
  2:{ eexists. exists None. split; [reflexivity | exact I]. }
  eexists. eexists. split; [reflexivity|].
  exists added, cls. split; [reflexivity|].
  split; [destruct added; [discriminate Ta | discriminate]|].
  split; [exact L|]. split; [exact O|]. split.
  - apply Forall_forall. intros [c r] Hin. cbn [fst snd].
    rewrite Forall_forall in F. pose proof (F _ Hin) as Fr. cbn in Fr.
    split; [|split; [exact Fr | apply from_tags_within_bounds, Fr]].
    assert (Mc : PyDict.mem c cls = true).
    { unfold PyDict.mem. clear -Hin.
      induction cls as [|[k v] cls IH]; [destruct Hin|]. cbn.
      destruct (String.eqb c k) eqn:Ek; [reflexivity|].
      destruct Hin as [E|H]; [|apply IH, H].
      injection E as -> _. rewrite String.eqb_refl in Ek. discriminate Ek. }
    destruct (M c Mc) as [H|H]; [discriminate H | exact H].
  - apply Forall_forall. intros v Hv. unfold Storage.merge_artists.
    apply merge_loop_lists; [reflexivity | exact Hv].
Qed.

(** ** Festivals are told apart by their url *)

Lemma merge_name_same_url now cls info data n k :
  let entry := FestivalRef.mk (Storage.name info) (Storage.url info) now in
  listed_at (Storage.url info) k data = true ->
  festivals_at k (Storage.merge_name now cls info entry data n)
  = festivals_at k data.
Proof.
  intros entry L. unfold festivals_at.
  destruct (string_dec k (Storage._normalize_name n)) as [->|Hk].
  - unfold listed_at, festivals_at in L. unfold Storage.merge_name.
    destruct (PyDict.get (Storage._normalize_name n) (Storage.artists data))
      as [artist|] eqn:G; [|discriminate L].
    cbn in L |- *. rewrite get_set_same. cbn. f_equal.
    apply update_artist_listed_festivals. exact L.
  - rewrite merge_name_elsewhere by exact Hk. reflexivity.
Qed.

(** X28: a merge for a festival whose url is already on record adds no
    festival record, whatever the name of the festival, and gives no new
    reference to an artist that lists this url. *)
Theorem merge_artists_same_url :
  forall (now : string) (data : Storage.Data) (artist_names : list string)
         (classifications : PyDict.t Classification.t)
         (festival_info : Storage.FestivalInfo),
    existsb (fun f => String.eqb (Festival.url f) (Storage.url festival_info))
            (Storage.festivals data) = true ->
    let merged :=
      Storage.merge_artists now data artist_names classifications
                            festival_info in
    Storage.festivals merged = Storage.festivals data /\
    forall k,
      listed_at (Storage.url festival_info) k data = true ->
      festivals_at k merged = festivals_at k data.
Proof.
  intros now data names cls info E merged. subst merged.
  unfold Storage.merge_artists.
  rewrite (add_festival_again now data names info E). split.
  - apply merge_loop_festivals.
  - intros k. generalize data. clear E.
    induction names as [|n names IH]; intros d L; cbn [fold_left];
      [reflexivity|].
    rewrite IH.
    + apply merge_name_same_url. exact L.
    + apply merge_name_keeps_listed; [reflexivity | exact L].
Qed.

Lemma merge_artists_same_url_witness :
  let first :=
    Storage.merge_artists "2024-06-01" Storage._empty_data ["Justice"] []
                          (uploaded "A Fest") in
  let second :=
    Storage.merge_artists "2024-07-01" first ["Justice"; "Daft Punk"] []
                          (uploaded "B Fest") in
  Storage.festivals second = Storage.festivals first /\
  forall k,
    listed_at EmptyString k first = true ->
    festivals_at k second = festivals_at k first.
Proof.
  exact (merge_artists_same_url "2024-07-01"
           (Storage.merge_artists "2024-06-01" Storage._empty_data ["Justice"]
                                  [] (uploaded "A Fest"))
           ["Justice"; "Daft Punk"] [] (uploaded "B Fest") eq_refl).
Defined.

(** ** A service that cannot be reached *)

Lemma search_artist_failed svc depth name tr :
  Net.search svc tr (Classifier.artist_query name) 1 = Net.Failed ->
  Classifier._search_artist svc depth name tr
  = (tr ++ [Net.Get (Net.Search (Classifier.artist_query name) 1)],
     Net.Raise Net.RequestException).
Proof.
  intros H. destruct depth; cbn [Classifier._search_artist];
    unfold Net.bind, Net.get_search; rewrite H; reflexivity.
Qed.

Lemma classify_artist_failed svc depth name tr :
  Net.search svc tr (Classifier.artist_query name) 1 = Net.Failed ->
  Classifier.classify_artist svc depth name tr
  = (tr ++ [Net.Get (Net.Search (Classifier.artist_query name) 1)],
     Net.Raise Net.RequestException).
Proof.
  intros H. unfold Classifier.classify_artist, Net.bind.
  rewrite (search_artist_failed svc depth name tr H). reflexivity.
Qed.

Lemma classify_loop_failed svc depth data (prog : bool) total names :
  (forall tr q l, Net.search svc tr q l = Net.Failed) ->
  forall cls i tr,
    Forall (fun kv => snd kv = Classifier.unknown_pair) cls ->
    exists delta cls',
      Classifier.classify_loop svc depth data prog total cls i names tr
      = (tr ++ delta, Net.Return cls') /\
      Forall (fun kv => snd kv = Classifier.unknown_pair) cls' /\
      Net.requests delta = List.length (looked_up data names) /\
      Net.tag_lookups delta = 0.
Proof.
  intros Hf. induction names as [|name names IH]; intros cls i tr F.
  - exists [], cls. cbn. unfold Net.ret. rewrite app_nil_r. auto.
  - cbn [Classifier.classify_loop]. unfold Net.bind at 1.
    unfold looked_up. cbn [filter]. fold (looked_up data names).
    unfold Classifier.classify_step.
    destruct (Classifier.already_classified data name); cbn [negb].
    + run_monad.
      destruct (IH cls (S i)
                   (tr ++ (if prog then [Net.Progress name i total] else []))
                   F)
        as (d & cls' & E & F' & R & T).
      exists ((if prog then [Net.Progress name i total] else []) ++ d), cls'.
      rewrite app_assoc, <- E.
      split; [destruct prog; cbn; rewrite ?app_nil_r; reflexivity|].
      split; [exact F'|].
      rewrite requests_app, tag_lookups_app, R, T.
      destruct prog; cbn; auto.
    + run_monad.
      rewrite (classify_artist_failed svc depth name tr (Hf _ _ _)).
      set (q := Net.Get (Net.Search (Classifier.artist_query name) 1)).
      assert (F1 : Forall (fun kv => snd kv = Classifier.unknown_pair)
                          (PyDict.set name Classifier.unknown_pair cls)).
      { clear -F. induction F as [|[k v] cls Hv F IH]; cbn.
        - constructor; [reflexivity|constructor].
        - destruct (String.eqb name k); constructor; auto. }
      destruct (IH (PyDict.set name Classifier.unknown_pair cls) (S i)
                   (tr ++ [q]
                       ++ (if prog then [Net.Progress name i total] else [])
                       ++ [Net.Sleep 11]) F1)
        as (d & cls' & E & F' & R & T).
      exists (([q] ++ (if prog then [Net.Progress name i total] else [])
                   ++ [Net.Sleep 11]) ++ d), cls'.
      rewrite (app_assoc tr), <- E.
      split; [destruct prog; cbn; rewrite <- ?app_assoc; reflexivity|].
      split; [exact F'|].
      rewrite requests_app, tag_lookups_app, R, T.
      destruct prog; cbn; auto.
Qed.

(** X29: when the service cannot be reached, the batch still returns:
    every name looked up is recorded as unknown, at the price of one
    request each. *)
Theorem classify_batch_unreachable :
  forall (svc : Net.Service) (depth : nat) (names : list string)
         (existing_data : Storage.Data) (on_progress : bool),
    (forall tr q l, Net.search svc tr q l = Net.Failed) ->
    exists tr classifications,
      Net.run (Classifier.classify_batch svc depth names existing_data
                                         on_progress)
      = (tr, Net.Return classifications) /\
      Forall (fun kv => snd kv = Classifier.unknown_pair) classifications /\
      Net.requests tr = List.length (looked_up existing_data names) /\
      Net.tag_lookups tr = 0.
Proof.
  intros svc depth names data prog Hf.
  unfold Net.run, Classifier.classify_batch.
  destruct (classify_loop_failed svc depth data prog (List.length names) names
              Hf [] 1 [] (Forall_nil _))
    as (d & cls & E & F & R & T).
  exists d, cls. auto.
Qed.

Lemma classify_batch_unreachable_witness :
  exists tr classifications,
    Net.run (Classifier.classify_batch unreachable 3
               ["Daft Punk"; "Justice"; "Moderat"] daft_punk_store false)
    = (tr, Net.Return classifications) /\
    Forall (fun kv => snd kv = Classifier.unknown_pair) classifications /\
    Net.requests tr
    = List.length (looked_up daft_punk_store
                             ["Daft Punk"; "Justice"; "Moderat"]) /\
    Net.tag_lookups tr = 0.
Proof.
  apply (classify_batch_unreachable unreachable 3
           ["Daft Punk"; "Justice"; "Moderat"] daft_punk_store false).
  reflexivity.
Defined.

(** ** The festival page *)

Lemma insert_asc_perm (A K : Type) (ltb : K -> K -> bool) (key : A -> K)
    (x : A) (l : list A) :
  Permutation (PySort.insert_asc ltb key x l) (x :: l).
Proof.
  induction l as [|y l IH]; cbn; [apply Permutation_refl|].
  destruct (ltb (key y) (key x)); [|apply Permutation_refl].
  eapply Permutation_trans; [apply perm_skip, IH | apply perm_swap].
Qed.

Lemma sort_asc_perm (A K : Type) (ltb : K -> K -> bool) (key : A -> K)
    (l : list A) :
  Permutation (PySort.sort_asc ltb key l) l.
Proof.
  induction l as [|x l IH]; cbn; [constructor|].
  eapply Permutation_trans; [apply insert_asc_perm|].
  apply perm_skip, IH.
Qed.

(** ** The order of strings *)

Lemma string_ltb_lt a b :
  String.ltb a b = true <-> OrdersEx.String_as_OT.lt a b.
Proof.
  unfold String.ltb, OrdersEx.String_as_OT.lt.
  change OrdersEx.String_as_OT.compare with String.compare.
  destruct (String.compare a b); split; congruence.
Qed.

Lemma string_ltb_asym a b :
  String.ltb a b = true -> String.ltb b a = false.
Proof.
  unfold String.ltb. rewrite (String.compare_antisym b a).
  destruct (String.compare a b); cbn; congruence.
Qed.

Lemma string_ltb_total a b :
  String.ltb a b = false -> a = b \/ String.ltb b a = true.
Proof.
  unfold String.ltb. rewrite (String.compare_antisym b a).
  destruct (String.compare a b) eqn:E; cbn; try discriminate; auto.
  intros _. left. apply String.compare_eq_iff, E.
Qed.

Lemma string_ltb_negtrans a b c :
  String.ltb a b = false -> String.ltb b c = false ->
  String.ltb a c = false.
Proof.
  intros Hab Hbc. apply not_true_is_false. intros Hac.
  assert (T := @RelationClasses.StrictOrder_Transitive _ _
                 OrdersEx.String_as_OT.lt_strorder).
  assert (I := @RelationClasses.StrictOrder_Irreflexive _ _
                 OrdersEx.String_as_OT.lt_strorder).
  apply string_ltb_total in Hab, Hbc.
  rewrite !string_ltb_lt in *.
  destruct Hab as [->|Hba].
  - destruct Hbc as [->|Hcb]; [exact (I _ Hac) | exact (I _ (T _ _ _ Hac Hcb))].
  - destruct Hbc as [->|Hcb].
    + exact (I _ (T _ _ _ Hac Hba)).
    + exact (I _ (T _ _ _ Hac (T _ _ _ Hcb Hba))).
Qed.

Lemma sort_asc_desc (A K : Type) (ltb : K -> K -> bool) (key : A -> K)
    (l : list A) :
  PySort.sort_asc ltb key l
  = PySort.sort_desc (fun a b => ltb b a) key l.
Proof.
  unfold PySort.sort_asc, PySort.sort_desc.
  induction l as [|x l IH]; cbn [fold_right]; [reflexivity|].
  rewrite IH. generalize (fold_right (PySort.insert_desc (fun a b => ltb b a) key) [] l).
  intros s. induction s as [|y s IHs]; cbn; [reflexivity|].
  rewrite IHs. reflexivity.
Qed.

(** The first name of the batch with the key [k] gives the artist under
    [k] the festival entry, when the artist did not list the url. *)
Lemma merge_name_adds_entry now cls info data n :
  let entry := FestivalRef.mk (Storage.name info) (Storage.url info) now in
  listed_at (Storage.url info) (Storage._normalize_name n) data = false ->
  exists a',
    PyDict.get (Storage._normalize_name n)
      (Storage.artists (Storage.merge_name now cls info entry data n))
    = Some a' /\
    In entry (Artist.festivals a').
Proof.
  intros entry L. unfold Storage.merge_name.
  unfold listed_at, festivals_at in L.
  destruct (PyDict.get (Storage._normalize_name n) (Storage.artists data))
    as [artist|] eqn:G; cbn in L |- *; rewrite get_set_same;
    eexists; (split; [reflexivity|]).
  - unfold Storage.update_artist. rewrite L.
    destruct (Storage.truthy _); cbn; apply in_or_app; right; left;
      reflexivity.
  - left. reflexivity.
Qed.

Lemma kept_entry before after k a (e : FestivalRef.t) :
  kept before after ->
  PyDict.get k (Storage.artists before) = Some a ->
  In e (Artist.festivals a) ->
  exists a',
    PyDict.get k (Storage.artists after) = Some a' /\
    In e (Artist.festivals a').
Proof.
  intros [_ K] G Hin. destruct (K k a G) as (a' & G' & _ & _ & [more E]).
  exists a'. split; [exact G'|]. rewrite E. apply in_or_app. left. exact Hin.
Qed.

Lemma merge_loop_adds_entry now cls info names :
  let entry := FestivalRef.mk (Storage.name info) (Storage.url info) now in
  forall data n,
    In n names ->
    listed_at (Storage.url info) (Storage._normalize_name n) data = false ->
    exists a',
      PyDict.get (Storage._normalize_name n)
        (Storage.artists
           (fold_left (Storage.merge_name now cls info entry) names data))
      = Some a' /\
      In entry (Artist.festivals a').
Proof.
  intros entry.
  induction names as [|m names IH]; intros data n Hin L; [destruct Hin|].
  cbn [fold_left].
  destruct (string_dec (Storage._normalize_name n) (Storage._normalize_name m))
    as [E|E].
  - rewrite E in L |- *.
    destruct (merge_name_adds_entry now cls info data m L) as (a1 & G1 & I1).
    exact (kept_entry _ _ _ a1 entry
             (merge_loop_kept now cls info entry names _) G1 I1).
  - destruct Hin as [->|Hin]; [contradiction E; reflexivity|].
    apply IH; [exact Hin|].
    unfold listed_at, festivals_at in *.
    rewrite merge_name_elsewhere by exact E. exact L.
Qed.

(** What the page of a festival shows: the artists of the store that have
    a reference with the name of the festival, by increasing lowercased
    name, those of equal lowercased name in the order of the store. *)
Lemma festival_shown name data :
  let shown := fst (fst (App.festival name data)) in
  let key := fun a => lowered (Artist.name a) in
  let there :=
    filter (App.at_festival name) (PyDict.values (Storage.artists data)) in
  Permutation shown there /\
  StronglySorted (not_above String.ltb key) shown /\
  forall b,
    filter (tied String.ltb key (key b)) shown
    = filter (tied String.ltb key (key b)) there.
Proof.
  intros shown key there. subst shown. unfold App.festival. cbn [fst].
  fold there. rewrite sort_asc_desc.
  set (code_key := fun a => Str.lower (Artist.name a)).
  set (flipped := fun a b : string => String.ltb b a).
  assert (G : forall l : list Artist.t,
             Forall (fun x => (fun _ : string => True) (code_key x)) l)
    by (intros l; apply Forall_forall; intros; exact I).
  assert (As : forall a b : string,
             True -> True -> flipped a b = true -> flipped b a = false)
    by (intros a b _ _; apply string_ltb_asym).
  assert (Nt : forall a b c : string,
             True -> True -> True ->
             flipped a b = false -> flipped b c = false ->
             flipped a c = false).
  { intros a b c _ _ _ Hab Hbc. unfold flipped in *.
    exact (string_ltb_negtrans c b a Hbc Hab). }
  split; [apply sort_desc_perm|]. split.
  - eapply StronglySorted_weaken;
      [|apply (sort_desc_sorted _ _ flipped code_key (fun _ => True) As Nt),
          G].
    intros x y H. unfold not_below, not_above, flipped, code_key, key in *.
    rewrite <- !lower_lowered. exact H.
  - intros b.
    pose proof (sort_desc_stable _ _ flipped code_key (fun _ => True) Nt
                  (code_key b) there I (G there)) as St.
    assert (E : forall x,
               tied String.ltb key (key b) x
               = tied flipped code_key (code_key b) x).
    { intros x. unfold tied, flipped, code_key, key.
      rewrite <- !lower_lowered. apply Bool.andb_comm. }
    rewrite (filter_ext _ _ E), (filter_ext _ _ E). exact St.
Qed.

(** X30: the page of a festival shows the artists that have a reference
    with the name of the festival, sorted by lowercased name, artists of
    equal lowercased name in the order of the store; after a merge it
    shows, for every name of the batch whose artist did not list the url
    of the festival before, the artist stored under the key of that
    name. *)
Theorem festival_page_after_merge :
  forall (now : string) (data : Storage.Data) (artist_names : list string)
         (classifications : PyDict.t Classification.t)
         (festival_info : Storage.FestivalInfo) (name : string),
    In name artist_names ->
    listed_at (Storage.url festival_info) (Storage._normalize_name name) data
    = false ->
    let merged :=
      Storage.merge_artists now data artist_names classifications
                            festival_info in
    let shown := fst (fst (App.festival (Storage.name festival_info) merged)) in
    let key := fun a => lowered (Artist.name a) in
    let there :=
      filter (App.at_festival (Storage.name festival_info))
             (PyDict.values (Storage.artists merged)) in
    (forall a,
        In a shown
        <-> In a (PyDict.values (Storage.artists merged)) /\
            App.at_festival (Storage.name festival_info) a = true) /\
    Permutation shown there /\
    StronglySorted (not_above String.ltb key) shown /\
    (forall b,
        filter (tied String.ltb key (key b)) shown
        = filter (tied String.ltb key (key b)) there) /\
    exists a',
      PyDict.get (Storage._normalize_name name) (Storage.artists merged)
      = Some a' /\
      In a' shown.
Proof.
  intros now data names cls info name Hin L merged shown key there.
  destruct (festival_shown (Storage.name info) merged) as (P & So & St).
  fold shown in P, So, St. fold key in So, St. fold there in P, St.
  assert (S : forall a,
             In a shown
             <-> In a (PyDict.values (Storage.artists merged)) /\
                 App.at_festival (Storage.name info) a = true).
  { intros a. rewrite <- filter_In. fold there.
    split; apply Permutation_in; [exact P | apply Permutation_sym, P]. }
  split; [exact S|]. split; [exact P|]. split; [exact So|].
  split; [exact St|].
  subst merged. unfold Storage.merge_artists in *.
  destruct (merge_loop_adds_entry now cls info names
              (Storage.add_festival now data names info) name Hin)
    as (a' & G & I).
  { unfold listed_at, festivals_at in *. rewrite add_festival_artists.
    exact L. }
  exists a'. split; [exact G|]. apply S. split.
  - unfold PyDict.values. apply in_map_iff.
    exists (Storage._normalize_name name, a').
    split; [reflexivity | apply get_in; exact G].
  - unfold App.at_festival. apply existsb_exists.
    eexists. split; [exact I|]. cbn. apply String.eqb_refl.
Qed.

Lemma festival_page_after_merge_witness :
  let merged :=
    Storage.merge_artists "2024-06-01" daft_punk_store
                          ["Daft Punk"; "Justice"] [] x_test in
  let shown := fst (fst (App.festival "X Fest" merged)) in
  StronglySorted
    (not_above String.ltb (fun a => lowered (Artist.name a))) shown /\
  exists a',
    PyDict.get "justice" (Storage.artists merged) = Some a' /\ In a' shown.
Proof.
  pose proof (festival_page_after_merge "2024-06-01" daft_punk_store
                ["Daft Punk"; "Justice"] [] x_test "Justice"
                (or_intror (or_introl eq_refl)) eq_refl)
    as (_ & _ & So & _ & H).
  exact (conj So H).
Defined.
